(** * setup-ssh-runner: a shallow embedding of the SSH bring-up and tunnel
      orchestration code, and the properties proved about it.

    The development follows the layout of the JavaScript sources:

    - [JS]            strings as sequences of UTF-16 code units, truthiness;
    - [Errors]        lib/errors.js;
    - [Eff]           the effects the code has: a world (files written, logger
                      output), thrown values and [process.exit];
    - [Sys]           what the operating system answers to a command line;
    - [Utils]         lib/utils.js ([ensureDir], [writeFileSafe], [run],
                      [retryWithBackoff]);
    - [SetupSSH]      lib/setup-ssh.js ([writeAuthorizedKeys], [setup]);
    - [Regex]         the three regular expressions of the tunnel plugins;
    - [BaseTunnel]    lib/tunnels/base.js ([parseEndpointFromLog]);
    - [Tunnels]       lib/tunnels/pinggy.js, sshj.js and cloudflare.js;
    - [Index]         lib/index.js ([run]);
    - [Spec]          the vocabulary of the statements;
    - [Examples]      the data of the examples;
    - [Logger]        lib/logger.js (the level filter);
    - [UtilsStrings]  lib/utils.js ([shSingleQuote], [sanitizeId],
                      [sanitizeUrl], [maskAuthInUrl]), [Shell] the reader
                      of a POSIX shell;
    - [ConfigMethods] lib/config.js ([parseAllowUsers], [validate]);
    - [Hostrunner]    lib/hostrunner.js;
    - [Summary]       lib/index.js ([printSummary]);
    - [Commands]      lib/utils.js, the other functions that run commands
                      ([commandExists], [waitPortLocalhost],
                      [downloadBinary]);
    - [Templates]     lib/config.js ([renderTemplate] and the default
                      templates);
    - [Cloudflare]    lib/tunnels/cloudflare.js ([install]);
    - [SetupModes]    lib/setup-ssh.js ([linuxUserMode], [linuxRootMode],
                      [windowsSetup]).

    Numbers are integers, the delays of the retry being rounded as the
    doubles of the code are; the clock, the log files of the tunnel
    backends and the variables of the pipeline are given by an
    environment [Env]; what the command lines run through [execSync]
    answer, change and take is given by an operating system [Sys.t].
    Definitions come first, theorems after them. *)

From Stdlib Require Import ZArith NArith List String Ascii Lia Bool.
From Stdlib Require Import Numbers.DecimalString.
From stdpp Require Import base gmap list sorting.
From Equations Require Import Equations.
Import ListNotations.

(* ===================================================================== *)
(** * JavaScript strings                                                   *)
(* ===================================================================== *)

Module JS.

(** A JavaScript string is a sequence of UTF-16 code units. *)
Definition str := list N.

(** The code units of an ASCII literal of the source. *)
Definition lit (s : string) : str :=
  map N_of_ascii (list_ascii_of_string s).
#[global] Arguments lit : simpl never.

(** Decimal rendering of a number inside a template literal. *)
Definition showN (n : N) : str :=
  lit (NilEmpty.string_of_uint (N.to_uint n)).

Definition showZ (z : Z) : str :=
  lit (NilEmpty.string_of_int (Z.to_int z)).

(** [WhiteSpace] and [LineTerminator] of ECMAScript: the code units that
    [String.prototype.trim] strips. *)
Definition isWhiteSpace (c : N) : bool :=
  (c =? 9)%N || (c =? 10)%N || (c =? 11)%N || (c =? 12)%N || (c =? 13)%N
  || (c =? 32)%N || (c =? 160)%N || (c =? 5760)%N
  || ((8192 <=? c)%N && (c <=? 8202)%N)
  || (c =? 8232)%N || (c =? 8233)%N || (c =? 8239)%N || (c =? 8287)%N
  || (c =? 12288)%N || (c =? 65279)%N.

Fixpoint trimStart (s : str) : str :=
  match s with
  | [] => []
  | c :: s' => if isWhiteSpace c then trimStart s' else s
  end.

Definition trimEnd (s : str) : str := rev (trimStart (rev s)).

(** [s.trim()] *)
Definition trim (s : str) : str := trimEnd (trimStart s).

(** [s.startsWith(p)] *)
Fixpoint startsWith (p s : str) : bool :=
  match p, s with
  | [], _ => true
  | _ :: _, [] => false
  | a :: p', b :: s' => (a =? b)%N && startsWith p' s'
  end.

(** [s.split(sep)] for a one-unit separator: the result is never empty,
    [''.split('\n')] is [['']]. *)
Fixpoint split (sep : N) (s : str) : list str :=
  match s with
  | [] => [[]]
  | c :: s' =>
      if (c =? sep)%N then [] :: split sep s'
      else match split sep s' with
           | [] => [[c]]
           | l :: ls => (c :: l) :: ls
           end
  end.

(** [a.join(sep)] *)
Fixpoint join (sep : str) (a : list str) : str :=
  match a with
  | [] => []
  | [x] => x
  | x :: rest => x ++ sep ++ join sep rest
  end.

(** ToBoolean on a string: only the empty string is falsy. *)
Definition truthy (s : str) : bool :=
  match s with [] => false | _ :: _ => true end.

(** ToBoolean on [string | null]. *)
Definition truthy_opt (o : option str) : bool :=
  match o with None => false | Some s => truthy s end.

Definition LF : N := 10%N.
Definition HASH : N := 35%N.

End JS.

Abbreviation str := JS.str.
Notation "'js' s" := (JS.lit s%string) (at level 9, s at level 0, only parsing).

(* ===================================================================== *)
(** * lib/errors.js                                                        *)
(* ===================================================================== *)

Module Errors.

(** The classes of lib/errors.js, and the built-in [Error]. *)
Inductive ErrorClass :=
| PlainError | SetupSSHError | ConfigError | DownloadError | TunnelErrorC
| SSHDErrorC | PermissionErrorC | NetworkErrorC | TimeoutErrorC
| TypeErrorC.

Record Error := mkError {
  name : ErrorClass;
  message : str;
  tunnelType : option str
}.

(** [new Error(msg)] *)
Definition PlainErr (msg : str) : Error := mkError PlainError msg None.

(** The [TypeError] of the language. *)
Definition TypeError (msg : str) : Error := mkError TypeErrorC msg None.

(** [new ConfigError(msg)] *)
Definition ConfigErr (msg : str) : Error := mkError ConfigError msg None.

(** [new TunnelError(tunnelType, msg)] *)
Definition TunnelError (ty msg : str) : Error :=
  mkError TunnelErrorC (ty ++ js " tunnel error: " ++ msg) (Some ty).

(** [new SSHDError(msg)] *)
Definition SSHDError (msg : str) : Error :=
  mkError SSHDErrorC (js "SSHD error: " ++ msg) None.

(** [new PermissionError(msg)] *)
Definition PermissionError (msg : str) : Error :=
  mkError PermissionErrorC (js "Permission error: " ++ msg) None.

(** [new NetworkError(msg)] *)
Definition NetworkError (msg : str) : Error :=
  mkError NetworkErrorC (js "Network error: " ++ msg) None.

(** What a [throw] statement can carry here: an error object, or
    [undefined] ([throw lastError] before any assignment). *)
Inductive Thrown :=
| ThrownError (e : Error)
| ThrownUndefined.

End Errors.

Export Errors.

(* ===================================================================== *)
(** * Effects                                                              *)
(* ===================================================================== *)

Module Eff.

(** Paths are kept as their segments: [path.join] appends segments and
    [path.dirname] drops the last one. *)
Definition path := list str.

Definition path_join (p : path) (seg : str) : path := p ++ [seg].
Definition dirname (p : path) : path := removelast p.

(** How a path is printed in a message. *)
Definition show_path (p : path) : str := JS.join (js "/") p.

Inductive Node :=
| Dir (mode : N)
| File (content : str) (mode : N).

Inductive Level :=
| LSection | LInfo | LSuccess | LWarn | LError | LDebug | LCommand.

(** The fields every tunnel object inherits from [BaseTunnel]. *)
Record TunnelState := mkTunnelState {
  t_name : str;
  t_pid : option Z;
  t_endpoint : option str;
  t_logFile : option path
}.

(** What the code changes: the files and directories it writes, the
    lines it hands to the logger (most recent first), the clock it reads
    with [Date.now()], the durations it has slept (most recent first),
    the tunnel objects it mutates (by object identity) and the pipeline
    variables it sets with a [##vso[task.setvariable variable=NAME]VALUE]
    line on the console (most recent first). *)
Record World := mkWorld {
  fs : gmap path Node;
  logs : list (Level * str);
  now : Z;
  sleeps : list Z;
  objs : gmap nat TunnelState;
  vars : list (str * str)
}.

(** What one [fs.existsSync] followed by [fs.readFileSync] observes. *)
Inductive ReadResult :=
| Absent
| Content (c : str)
| ReadFails (msg : str).

(** What the code only reads: the platform, the user, the renderer of
    [toISOString], how late each [setTimeout] fires (the k-th sleep of
    the run lasts its duration plus [lag k] milliseconds), the content
    of a backend's log file at a given instant, the pid the operating
    system gives to a spawned command, and two variables of
    [process.env]: whether [TF_BUILD] is set to a non-empty text, and the
    file [GITHUB_ENV] names ([None] when it is not set or empty). *)
Record Env := mkEnv {
  platform : str;
  HOME : path;
  CURRENT_USER : str;
  toISOString : Z -> str;
  lag : nat -> N;
  readLog : Z -> path -> ReadResult;
  spawnPid : str -> list str -> Z;
  TF_BUILD : bool;
  GITHUB_ENV : option path
}.

(** A statement either completes with a value, throws, or ends the
    process ([process.exit(code)]), which no [catch] intercepts. *)
Inductive Outcome (A : Type) :=
| Ret (a : A)
| Throw (t : Thrown)
| Exit (code : Z).
Arguments Ret {A} a.
Arguments Throw {A} t.
Arguments Exit {A} code.

(** Statements over a state [S]. *)
Definition M (S A : Type) : Type := S -> Outcome A * S.

Definition ret {S A} (a : A) : M S A := fun w => (Ret a, w).

Definition bind {S A B} (c : M S A) (k : A -> M S B) : M S B :=
  fun w =>
    match c w with
    | (Ret a, w') => k a w'
    | (Throw t, w') => (Throw t, w')
    | (Exit n, w') => (Exit n, w')
    end.

Definition throw {S A} (e : Error) : M S A :=
  fun w => (Throw (ThrownError e), w).

Definition rethrow {S A} (t : Thrown) : M S A := fun w => (Throw t, w).

(** [process.exit(code)] *)
Definition exit {S A} (code : Z) : M S A := fun w => (Exit code, w).

(** [try { c } catch (err) { h err }] *)
Definition try_catch {S A} (c : M S A) (h : Thrown -> M S A) : M S A :=
  fun w =>
    match c w with
    | (Throw t, w') => h t w'
    | r => r
    end.

Definition get {S} : M S S := fun w => (Ret w, w).

Definition modify {S} (f : S -> S) : M S unit := fun w => (Ret tt, f w).

Definition set_fs (f : gmap path Node) (w : World) : World :=
  mkWorld f (logs w) (now w) (sleeps w) (objs w) (vars w).

Definition add_log (l : Level) (msg : str) (w : World) : World :=
  mkWorld (fs w) ((l, msg) :: logs w) (now w) (sleeps w) (objs w) (vars w).

Definition set_objs (o : gmap nat TunnelState) (w : World) : World :=
  mkWorld (fs w) (logs w) (now w) (sleeps w) o (vars w).

Definition add_var (k v : str) (w : World) : World :=
  mkWorld (fs w) (logs w) (now w) (sleeps w) (objs w) ((k, v) :: vars w).

(** The duration of the timer [setTimeout] sets for a delay of [ms]: a
    delay below 1 or above 2^31 - 1 is taken as 1. *)
Definition timer (ms : Z) : Z :=
  if (ms <? 1)%Z || (2147483647 <? ms)%Z then 1%Z else ms.

(** The world after [setTimeout] has fired for a sleep of [ms]. *)
Definition slept (env : Env) (ms : Z) (w : World) : World :=
  mkWorld (fs w) (logs w)
          (now w + timer ms + Z.of_N (lag env (length (sleeps w))))%Z
          (ms :: sleeps w) (objs w) (vars w).

(** One call of the logger at the given level. *)
Definition log (l : Level) (msg : str) : M World unit := modify (add_log l msg).

(** [c], started in [w], completes with a value and a state that
    satisfy [Q]. *)
Definition returns {S A} (c : M S A) (w : S) (Q : A -> S -> Prop) : Prop :=
  exists a w', c w = (Ret a, w') /\ Q a w'.

End Eff.

Export Eff.

Declare Scope eff_scope.
Delimit Scope eff_scope with eff.
Notation "x <-- c ;; k" := (bind c (fun x => k))
  (at level 100, c at next level, right associativity) : eff_scope.
Notation "c ;;; k" := (bind c (fun _ => k))
  (at level 100, right associativity) : eff_scope.
Open Scope eff_scope.

(* ===================================================================== *)
(** * The commands the code runs                                           *)
(* ===================================================================== *)

Module Sys.

(** How a command line given to [execSync] ends: with status 0, having
    written [out] to its standard output, or otherwise, in which case
    [execSync] throws an error with the message [msg]. *)
Inductive ExecResult :=
| Done (out : str)
| Failed (msg : str).

(** A command line that has run: how it ended, the files it left and
    the milliseconds it took. *)
Record Ran := mkRan {
  result : ExecResult;
  files : gmap path Node;
  took : N
}.

(** What the code only asks the operating system: what a command line
    run in a given world does; the size [fs.statSync] reports for a
    directory; the user id of the process ([None] where
    [process.getuid] is not a function). *)
Record t := mk {
  exec : str -> World -> Ran;
  dir_size : path -> N;
  getuid : option Z
}.

(** The world a command line leaves: its files, and the clock later by
    the time it took. *)
Definition ran (r : Ran) (w : World) : World :=
  mkWorld (files r) (logs w) (now w + Z.of_N (took r))%Z (sleeps w)
          (objs w) (vars w).

End Sys.

(* ===================================================================== *)
(** * lib/config.js: the settings the code reads                           *)
(* ===================================================================== *)

Module Config.

Record Ssh := mkSsh {
  port : str;
  mode : str;
  allowUsers : list str;
  defaultCwd : option str;
  disableForceCwd : bool;
  listenAddress : str;
  publicKey : option str
}.

Record Pinggy := mkPinggy {
  pinggy_enabled : bool;
  pinggy_foreground : bool;
  pinggy_targetHost : str;
  pinggy_targetPort : option str;
  pinggy_regionHost : str
}.

Record Sshj := mkSshj {
  sshj_enabled : bool;
  sshj_foreground : bool;
  sshj_host : str;
  sshj_namespace : option str;
  sshj_device : option str;
  sshj_devicePort : str;
  sshj_localHost : str;
  sshj_localPort : option str
}.

Record Cloudflare := mkCloudflare {
  cf_enabled : bool;
  cf_foreground : bool;
  cf_apiKey : option str;
  cf_tunnelName : option str;
  cf_targetHost : str;
  cf_targetPort : option str
}.

(** Timeouts are the results of [parseInt]; a timeout that is not a
    number makes every [elapsed < timeout] false, like a timeout of 0. *)
Record Timeouts := mkTimeouts {
  portWait : Z;
  cfEndpoint : Z;
  tunnelStartup : Z;
  downloadTimeout : Z
}.

Record t := mk {
  ssh : Ssh;
  pinggy : Pinggy;
  sshj : Sshj;
  cloudflare : Cloudflare;
  timeouts : Timeouts
}.

End Config.

(* ===================================================================== *)
(** * lib/utils.js                                                         *)
(* ===================================================================== *)

Module Utils.
Section WithEnv.

Variable env : Env.
Variable sys : Sys.t.

(** [os.platform() === 'win32'] and [os.platform() === 'linux'] *)
Definition isWindows : bool := bool_decide (platform env = js "win32").
Definition isLinux : bool := bool_decide (platform env = js "linux").

(** [fs.mkdirSync(p, { recursive: true, mode })]: every missing
    directory on the way to [pre ++ rest] is created. *)
Fixpoint mkdir_p (mode : N) (pre rest : path) (f : gmap path Node)
  : gmap path Node :=
  match rest with
  | [] => f
  | seg :: rest' =>
      let p := pre ++ [seg] in
      mkdir_p mode p rest'
        (match f !! p with Some _ => f | None => <[p := Dir mode]> f end)
  end.

(** [ensureDir(dirPath, mode = 0o700)] *)
Definition ensureDir (dirPath : path) (mode : N) : M World unit :=
  w <-- get ;;
  match fs w !! dirPath with
  | Some _ => ret tt
  | None =>
      modify (set_fs (mkdir_p mode [] dirPath (fs w))) ;;;
      log LDebug (js "Created directory: " ++ show_path dirPath)
  end.

(** [fs.writeFileSync(p, content, { encoding: 'utf8', mode })]: the
    content is replaced; [mode] only applies to a file that is created. *)
Definition writeFileSync (p : path) (content : str) (mode : N)
  : M World unit :=
  modify (fun w =>
    set_fs (<[p := File content
                     (match fs w !! p with
                      | Some (File _ m) => m
                      | _ => mode
                      end)]> (fs w)) w).

(** [fs.appendFileSync(p, text)]: the text is added at the end of the
    file, which is created when it is not there. *)
Definition appendFileSync (p : path) (text : str) : M World unit :=
  modify (fun w =>
    set_fs (<[p := match fs w !! p with
                   | Some (File c m) => File (c ++ text) m
                   | _ => File text 438
                   end]> (fs w)) w).

(** [writeFileSafe(filePath, content, mode = 0o600)] *)
Definition writeFileSafe (filePath : path) (content : str) (mode : N)
  : M World unit :=
  ensureDir (dirname filePath) 448 ;;;
  writeFileSync filePath content mode ;;;
  log LDebug (js "Written file: " ++ show_path filePath).

Definition set_mode (m : N) (n : Node) : Node :=
  match n with
  | Dir _ => Dir m
  | File c _ => File c m
  end.

(** An argument of a command line between double quotes. *)
Definition quoted (s : str) : str := [34%N] ++ s ++ [34%N].

(** [execSync(cmd, ...)] *)
Definition execSync (cmd : str) : M World str :=
  fun w =>
    (match Sys.result (Sys.exec sys cmd w) with
     | Sys.Done out => Ret out
     | Sys.Failed msg => Throw (ThrownError (PlainErr msg))
     end,
     Sys.ran (Sys.exec sys cmd w) w).

(** [run(cmd, { ignoreError })] *)
Definition run (cmd : str) (ignoreError : bool) : M World unit :=
  log LCommand cmd ;;;
  try_catch (execSync cmd ;;; ret tt)
    (fun err =>
       if ignoreError
       then log LWarn (js "Command failed (ignored): " ++ cmd)
       else rethrow err).

(** [sleep(ms)] *)
Definition sleep (ms : Z) : M World unit := modify (slept env ms).

(** [err.message] on a caught value; on [undefined] the property read
    is itself a [TypeError]. *)
Definition read_message (t : Thrown) : M World str :=
  match t with
  | ThrownError e => ret (message e)
  | ThrownUndefined =>
      throw (TypeError
               (js "Cannot read properties of undefined (reading 'message')"))
  end.

(** The options of [retryWithBackoff], defaults filled in by [defaults]. *)
Record RetryOptions := mkRetryOptions {
  maxRetries : Z;
  initialDelay : Z;
  maxDelay : Z;
  factor : Z;
  onRetry : option (Z -> Z -> Z -> Thrown -> M World unit)
}.

Definition defaults : RetryOptions := mkRetryOptions 3 1000 10000 2 None.

(** The numbers of the code are doubles. An integer of magnitude below
    2^53 is a double; the double nearest to a larger one keeps its 53
    leading bits, the rest being rounded to the nearest, ties to the even
    one. An integer of magnitude 2^1024 or more stands for an infinity. *)
Definition to_double (z : Z) : Z :=
  let a := Z.abs z in
  let e := Z.log2 a in
  if (e <? 53)%Z then z
  else
    let unit := (2 ^ (e - 52))%Z in
    let q := (a / unit)%Z in
    let r := (a mod unit)%Z in
    let q' :=
      if (unit <? 2 * r)%Z || ((2 * r =? unit)%Z && Z.odd q)
      then (q + 1)%Z else q in
    (Z.sgn z * (q' * unit))%Z.

(** [Math.min(initialDelay * Math.pow(factor, attempt), maxDelay)], for
    options that are integers: the power and the product are the doubles
    nearest to their exact values. With [initialDelay] at 0 and a power
    that is infinite the code has [NaN], which no integer stands for:
    the delay is that of the code when [initialDelay] is not 0. *)
Definition backoffDelay (o : RetryOptions) (attempt : Z) : Z :=
  Z.min (to_double (initialDelay o * to_double (factor o ^ attempt)))%Z
        (maxDelay o).

(** The [if (onRetry) ... else logger.warn(...)] of the [catch] block. *)
Definition notify (o : RetryOptions) (attempt delay : Z) (err : Thrown)
  : M World unit :=
  match onRetry o with
  | Some f => f (attempt + 1)%Z (maxRetries o) delay err
  | None =>
      m <-- read_message err ;;
      log LWarn (js "Attempt " ++ JS.showZ (attempt + 1)%Z ++ js "/"
                 ++ JS.showZ (maxRetries o) ++ js " failed, retrying in "
                 ++ JS.showZ delay ++ js "ms...")
  end.

(** The [for] loop of [retryWithBackoff] with [n] iterations left, at
    loop index [attempt], and the [throw lastError] after it. *)
Fixpoint retry_loop {A} (fn : M World A) (o : RetryOptions)
         (n : nat) (attempt : Z) (lastError : Thrown) : M World A :=
  match n with
  | O => rethrow lastError
  | S n' =>
      try_catch fn (fun err =>
        if (attempt =? maxRetries o - 1)%Z then rethrow err
        else
          let delay := backoffDelay o attempt in
          notify o attempt delay err ;;;
          sleep delay ;;;
          retry_loop fn o n' (attempt + 1)%Z err)
  end.

(** [retryWithBackoff(fn, options)] *)
Definition retryWithBackoff {A} (fn : M World A) (o : RetryOptions)
  : M World A :=
  retry_loop fn o (Z.to_nat (maxRetries o)) 0 ThrownUndefined.

(** The course of a retry: [attempt_starts fn o k w wk] says that [wk] is
    the world in which attempt [k] of [fn] starts when the retry is
    called in [w]: every attempt before it threw an error object, was
    reported and was followed by its backoff sleep. *)
Inductive attempt_starts {A} (fn : M World A) (o : RetryOptions)
  : nat -> World -> World -> Prop :=
| attempt_first w : attempt_starts fn o 0 w w
| attempt_next k w wk e w1 w2 :
    attempt_starts fn o k w wk ->
    fn wk = (Throw (ThrownError e), w1) ->
    notify o (Z.of_nat k) (backoffDelay o (Z.of_nat k)) (ThrownError e) w1
      = (Ret tt, w2) ->
    attempt_starts fn o (S k) w (slept env (backoffDelay o (Z.of_nat k)) w2).

End WithEnv.
End Utils.

(* ===================================================================== *)
(** * lib/setup-ssh.js                                                     *)
(* ===================================================================== *)

Module SetupSSH.

(** What the three bring-up procedures return. *)
Record SshResult := mkSshResult {
  r_mode : str;
  r_port : str;
  r_logPath : option path;
  r_pid : option Z
}.

Section WithEnv.

Variable env : Env.
Variable sys : Sys.t.
Variable cfg : Config.t.

(** [this.PATHS] of the constructor. *)
Definition ssh_dir : path := path_join (HOME env) (js ".ssh").
Definition authorized_keys : path :=
  path_join (path_join (HOME env) (js ".ssh")) (js "authorized_keys").

(** The [keys] of [writeAuthorizedKeys]: split on line feeds, trim each
    line, drop empty lines and lines starting with [#], keep the lines
    starting with [ssh-]. *)
Definition parseKeys (pubkey : str) : list str :=
  List.filter (fun k => JS.startsWith (js "ssh-") k)
    (List.filter (fun k => JS.truthy k && negb (JS.startsWith (js "#") k))
       (map JS.trim (JS.split JS.LF pubkey))).

(** The [content] of [writeAuthorizedKeys]. *)
Definition keysContent (timestamp : str) (keys : list str) : str :=
  JS.join [JS.LF]
    (map (fun k => k ++ js " # Added by setup-ssh at " ++ timestamp) keys)
  ++ [JS.LF].

(** The three command lines of [writeAuthorizedKeys]. *)
Definition chmod_ssh_dir : str :=
  js "chmod 700 " ++ Utils.quoted (show_path ssh_dir).
Definition chmod_authorized_keys : str :=
  js "chmod 600 " ++ Utils.quoted (show_path authorized_keys).
Definition chown_ssh_dir : str :=
  js "chown -R " ++ CURRENT_USER env ++ js ":" ++ CURRENT_USER env ++ js " "
  ++ Utils.quoted (show_path ssh_dir).

(** The last part of [writeAuthorizedKeys]: on Linux the permissions are
    fixed by three commands whose failure is ignored. *)
Definition fix_permissions : M World unit :=
  if Utils.isLinux env then
    Utils.run sys chmod_ssh_dir true ;;;
    Utils.run sys chmod_authorized_keys true ;;;
    Utils.run sys chown_ssh_dir true
  else ret tt.

(** [writeAuthorizedKeys(pubkey)] *)
Definition writeAuthorizedKeys (pubkey : option str) : M World unit :=
  match pubkey with
  | None => throw (SSHDError (js "PIPELINE_SSH_PUBKEY is required"))
  | Some pubkey =>
      if negb (JS.truthy pubkey) || negb (JS.truthy (JS.trim pubkey))
      then throw (SSHDError (js "PIPELINE_SSH_PUBKEY is required"))
      else
        log LSection (js "Writing SSH Authorized Keys") ;;;
        Utils.ensureDir ssh_dir 448 ;;;
        let keys := parseKeys pubkey in
        if (length keys =? 0)%nat
        then throw (SSHDError
                      (js "No valid SSH keys found in PIPELINE_SSH_PUBKEY"))
        else
          log LInfo (js "Found " ++ JS.showN (N.of_nat (length keys))
                     ++ js " valid SSH key(s)") ;;;
          w <-- get ;;
          let timestamp := toISOString env (now w) in
          let content := keysContent timestamp keys in
          Utils.writeFileSafe authorized_keys content 384 ;;;
          log LSuccess (js "Authorized keys written: "
                        ++ show_path authorized_keys) ;;;
          fix_permissions
  end.

(** The three bring-up procedures drive the package manager, [ssh-keygen],
    [sed], the service manager and the port probe; here they are the
    procedures [setup] dispatches to. *)
Variable linuxUserMode : str -> str -> bool -> M World SshResult.
Variable linuxRootMode : str -> str -> bool -> list str -> M World SshResult.
Variable windowsSetup : str -> list str -> M World SshResult.

(** [hostrunner.detectDefaultCwd()] *)
Variable detectDefaultCwd : str.

(** [a || b] on strings. *)
Definition or_else (a : option str) (b : str) : str :=
  match a with
  | Some s => if JS.truthy s then s else b
  | None => b
  end.

(** [setup()] *)
Definition setup : M World SshResult :=
  let sshPort := Config.port (Config.ssh cfg) in
  let sshMode := Config.mode (Config.ssh cfg) in
  let sshDefaultCwd :=
    or_else (Config.defaultCwd (Config.ssh cfg)) detectDefaultCwd in
  let disableForceCwd := Config.disableForceCwd (Config.ssh cfg) in
  let allowUsers := Config.allowUsers (Config.ssh cfg) in
  writeAuthorizedKeys (Config.publicKey (Config.ssh cfg)) ;;;
  if Utils.isWindows env then
    windowsSetup sshPort allowUsers
  else if Utils.isLinux env then
    if bool_decide (sshMode = js "root") then
      linuxRootMode sshPort sshDefaultCwd disableForceCwd allowUsers
    else
      linuxUserMode sshPort sshDefaultCwd disableForceCwd
  else
    throw (SSHDError (js "Unsupported platform: " ++ platform env)).

End WithEnv.
End SetupSSH.

(* ===================================================================== *)
(** * The regular expressions of the tunnel plugins                        *)
(* ===================================================================== *)

Module Regex.

(** [content.match(pattern)]: [None] for [null], otherwise [match[0]]. *)
Definition Pattern := str -> option str.

(** The longest prefix whose units satisfy [p], and the rest. *)
Fixpoint span (p : N -> bool) (s : str) : str * str :=
  match s with
  | [] => ([], [])
  | c :: s' =>
      if p c then let (a, b) := span p s' in (c :: a, b) else ([], s)
  end.

(** A regular expression is tried at index 0, then 1, ... up to the end
    of the input; the first index where it matches wins. *)
Fixpoint search {R} (m : str -> option R) (s : str) : option R :=
  match m s with
  | Some r => Some r
  | None =>
      match s with
      | [] => None
      | _ :: s' => search m s'
      end
  end.

Definition isDigit (c : N) : bool := (48 <=? c)%N && (c <=? 57)%N.

(** Case folding of the [i] flag on the units below 128; no unit from
    128 up is equal to one below 128 under that flag. *)
Definition fold_case (c : N) : N :=
  if (97 <=? c)%N && (c <=? 122)%N then (c - 32)%N else c.

Fixpoint startsWith_i (p s : str) : bool :=
  match p, s with
  | [], _ => true
  | _ :: _, [] => false
  | a :: p', b :: s' => (fold_case a =? fold_case b)%N && startsWith_i p' s'
  end.

(** [/tcp:\/\/[^\s]+/] at the start of [s]. *)
Definition tcp_url_at (s : str) : option str :=
  if JS.startsWith (js "tcp://") s then
    let (run, _) := span (fun c => negb (JS.isWhiteSpace c)) (drop 6 s) in
    if JS.truthy run then Some (js "tcp://" ++ run) else None
  else None.

(** [/tcp:\/\/[^\s]+/] *)
Definition tcp_url : Pattern := search tcp_url_at.

(** [/tcp:\/\/([^:]+):(\d+)/] at the start of [s]: the two groups. *)
Definition tcp_host_port_at (s : str) : option (str * str) :=
  if JS.startsWith (js "tcp://") s then
    let (host, rest) := span (fun c => negb (c =? 58)%N) (drop 6 s) in
    match rest with
    | colon :: rest' =>
        let (port, _) := span isDigit rest' in
        if JS.truthy host && JS.truthy port then Some (host, port) else None
    | [] => None
    end
  else None.

(** [/tcp:\/\/([^:]+):(\d+)/] *)
Definition tcp_host_port : str -> option (str * str) :=
  search tcp_host_port_at.

Definition isHexDash_i (c : N) : bool :=
  isDigit c || ((65 <=? fold_case c)%N && (fold_case c <=? 70)%N)
  || (c =? 45)%N.

(** [/https:\/\/[a-f0-9-]+\.cfargotunnel\.com/i] at the start of [s]. *)
Definition cf_url_at (s : str) : option str :=
  if startsWith_i (js "https://") s then
    let (run, rest) := span isHexDash_i (drop 8 s) in
    if JS.truthy run && startsWith_i (js ".cfargotunnel.com") rest
    then Some (take (8 + length run + 17) s)
    else None
  else None.

(** [/https:\/\/[a-f0-9-]+\.cfargotunnel\.com/i] *)
Definition cf_url : Pattern := search cf_url_at.

End Regex.

(* ===================================================================== *)
(** * lib/tunnels/base.js                                                  *)
(* ===================================================================== *)

Module BaseTunnel.
Section WithEnv.

Variable env : Env.

(** The fields set by the constructor of [BaseTunnel]. *)
Definition constructed (name : str) : TunnelState :=
  mkTunnelState name None None None.

(** [this], for the object [self]. *)
Definition this (self : nat) (w : World) : TunnelState :=
  default (constructed (js "BaseTunnel")) (objs w !! self).

Definition set_this (self : nat) (f : TunnelState -> TunnelState)
  : M World unit :=
  modify (fun w => set_objs (<[self := f (this self w)]> (objs w)) w).

Definition set_pid (v : option Z) (t : TunnelState) : TunnelState :=
  mkTunnelState (t_name t) v (t_endpoint t) (t_logFile t).
Definition set_endpoint (v : option str) (t : TunnelState) : TunnelState :=
  mkTunnelState (t_name t) (t_pid t) v (t_logFile t).
Definition set_logFile (v : option path) (t : TunnelState) : TunnelState :=
  mkTunnelState (t_name t) (t_pid t) (t_endpoint t) v.

(** [logInfo], [logSuccess], [logWarn], [logError] *)
Definition logAt (l : Level) (self : nat) (msg : str) : M World unit :=
  w <-- get ;;
  log l (js "[" ++ t_name (this self w) ++ js "] " ++ msg).

(** The [while] loop of [parseEndpointFromLog]: while less than
    [timeoutMs] has elapsed since [start], read the whole file, return
    [match[0]] when the pattern matches, otherwise sleep 250 ms. *)
Equations? probe_loop (logFile : path) (pattern : Regex.Pattern)
           (timeoutMs start : Z) (w : World)
  : Outcome (option str) * World
  by wf (Z.to_nat (timeoutMs - (now w - start))) lt :=
  probe_loop logFile pattern timeoutMs start w
    with Z_lt_dec (now w - start) timeoutMs => {
    | right _ => (Ret None, w)
    | left _ with readLog env (now w) logFile => {
      | Absent =>
          probe_loop logFile pattern timeoutMs start (slept env 250 w)
      | ReadFails msg =>
          probe_loop logFile pattern timeoutMs start
            (slept env 250
               (add_log LDebug (js "Error reading log file: " ++ msg) w))
      | Content c with pattern c => {
        | Some m => (Ret (Some m), w)
        | None =>
            probe_loop logFile pattern timeoutMs start (slept env 250 w) } } }.
Proof. all: cbn; lia. Qed.

(** [parseEndpointFromLog(pattern, timeoutMs = 10000)] *)
Definition parseEndpointFromLog (self : nat) (pattern : Regex.Pattern)
           (timeoutMs : Z) : M World (option str) :=
  w <-- get ;;
  match t_logFile (this self w) with
  | None =>
      throw (TunnelError (t_name (this self w)) (js "No log file configured"))
  | Some logFile => probe_loop logFile pattern timeoutMs (now w)
  end.

(** The course of the loop. What a poll in the world [w] finds:
    [match[0]] when the file can be read and its content matches. *)
Definition poll (logFile : path) (pattern : Regex.Pattern) (w : World)
  : option str :=
  match readLog env (now w) logFile with
  | Content c => pattern c
  | _ => None
  end.

(** The world at the next poll, after a poll that found nothing. *)
Definition next_poll (logFile : path) (w : World) : World :=
  slept env 250
    (match readLog env (now w) logFile with
     | ReadFails msg => add_log LDebug (js "Error reading log file: " ++ msg) w
     | _ => w
     end).

(** The world at poll [k], when the polls before it found nothing. *)
Definition at_poll (logFile : path) (k : nat) (w : World) : World :=
  Nat.iter k (next_poll logFile) w.

(** [getConnectCommand()] of the base class. *)
Definition getConnectCommand : M World (option str) := ret None.

End WithEnv.
End BaseTunnel.

(* ===================================================================== *)
(** * The tunnel plugins                                                   *)
(* ===================================================================== *)

Module Tunnels.

(** The object [start] resolves to; a field the object literal does not
    have is [None]. *)
Record StartResult := mkStartResult {
  started : bool;
  foreground : bool;
  pid : option Z;
  endpoint : option str;
  logFile : option path;
  tunnelId : option str;
  namespace : option str;
  device : option str;
  connectCommand : option str
}.

(** [{ started: true, foreground: true }] *)
Definition foreground_result : StartResult :=
  mkStartResult true true None None None None None None None.

(** The operations [run] uses of a tunnel object. *)
Record Plugin := mkPlugin {
  isAvailable : M World bool;
  start : str -> path -> M World StartResult;
  getConnectCommand : M World (option str)
}.

Section WithEnv.

Variable env : Env.
Variable cfg : Config.t.

(** [utils.spawnDetached(cmd, args, logFile)]: the directory of the log
    file is ensured, the child is spawned with its output appended to
    the log file, and its pid is returned. The log file belongs to the
    child: what it holds at a given instant is [readLog env]. *)
Definition spawnDetached (cmd : str) (args : list str) (logFile : path)
  : M World Z :=
  log LDebug (js "Spawning detached: " ++ cmd ++ js " " ++ JS.join (js " ") args) ;;;
  Utils.ensureDir (dirname logFile) 448 ;;;
  let pid := spawnPid env cmd args in
  log LSuccess (js "Spawned process (PID: " ++ JS.showZ pid ++ js ")") ;;;
  ret pid.

(** [hostrunner.setPipelineVar(name, value)]: on Azure Pipelines
    ([TF_BUILD]) the variable is set by a line on the console; on GitHub
    Actions ([GITHUB_ENV]) it is appended to the file of that name;
    elsewhere nothing is exported. *)
Definition setPipelineVar (name v : str) : M World unit :=
  (if TF_BUILD env then
     modify (add_var name v) ;;;
     log LDebug (js "Set Azure pipeline variable: " ++ name)
   else ret tt) ;;;
  match GITHUB_ENV env with
  | Some file =>
      try_catch
        (Utils.appendFileSync file (name ++ js "=" ++ v ++ [JS.LF]) ;;;
         log LDebug (js "Set GitHub Actions variable: " ++ name))
        (fun err =>
           m <-- Utils.read_message err ;;
           log LWarn (js "Failed to set GitHub variable " ++ name ++ js ": "
                      ++ m))
  | None => ret tt
  end.

(** [os.userInfo().username] *)
Definition currentUser : str := CURRENT_USER env.

(* ------------------------------------------------------------------- *)
(** ** lib/tunnels/pinggy.js *)

Definition pinggy_args (targetHost targetPort regionHost : str) : list str :=
  [js "-p"; js "443";
   js "-o"; js "StrictHostKeyChecking=no";
   js "-o"; js "UserKnownHostsFile=/dev/null";
   js "-o"; js "BatchMode=yes";
   js "-o"; js "ServerAliveInterval=30";
   js "-o"; js "ServerAliveCountMax=3";
   js "-o"; js "ExitOnForwardFailure=yes";
   js "-R0:" ++ targetHost ++ js ":" ++ targetPort;
   js "tcp@" ++ regionHost].

(** [PinggyTunnel.isAvailable()] *)
Definition pinggy_isAvailable : M World bool :=
  ret (Config.pinggy_enabled (Config.pinggy cfg)).

(** [PinggyTunnel.start(sshPort, logDir)] *)
Definition pinggy_start (self : nat) (sshPort : str) (logDir : path)
  : M World StartResult :=
  let pinggy := Config.pinggy cfg in
  let targetHost :=
    SetupSSH.or_else (Some (Config.pinggy_targetHost pinggy)) (js "localhost") in
  let targetPort := SetupSSH.or_else (Config.pinggy_targetPort pinggy) sshPort in
  let regionHost := Config.pinggy_regionHost pinggy in
  let foreground := Config.pinggy_foreground pinggy in
  let logFile := path_join logDir (js "pinggy.log") in
  let pidFile := path_join logDir (js "pinggy.pid") in
  BaseTunnel.set_this self (BaseTunnel.set_logFile (Some logFile)) ;;;
  let args := pinggy_args targetHost targetPort regionHost in
  BaseTunnel.logAt LInfo self (js "Starting tunnel...") ;;;
  BaseTunnel.logAt LInfo self
    (js "Target: " ++ targetHost ++ js ":" ++ targetPort) ;;;
  BaseTunnel.logAt LInfo self
    (js "Expect endpoint like: tcp://*.pinggy.link:PORT") ;;;
  if foreground then ret foreground_result
  else
    pid <-- spawnDetached (js "ssh") args logFile ;;
    BaseTunnel.set_this self (BaseTunnel.set_pid (Some pid)) ;;;
    Utils.writeFileSync pidFile (JS.showZ pid) 438 ;;;
    BaseTunnel.logAt LSuccess self
      (js "Started in background (PID: " ++ JS.showZ pid ++ js ")") ;;;
    BaseTunnel.logAt LInfo self (js "Log file: " ++ show_path logFile) ;;;
    ep <-- BaseTunnel.parseEndpointFromLog env self Regex.tcp_url
             (Config.tunnelStartup (Config.timeouts cfg)) ;;
    BaseTunnel.set_this self (BaseTunnel.set_endpoint ep) ;;;
    (if JS.truthy_opt ep
     then BaseTunnel.logAt LSuccess self
            (js "Endpoint: " ++ default [] ep)
     else BaseTunnel.logAt LWarn self
            (js "Endpoint not detected yet. Check pinggy.log for the tcp:// URL")) ;;;
    w <-- get ;;
    ret (mkStartResult true false
           (t_pid (BaseTunnel.this self w))
           (t_endpoint (BaseTunnel.this self w))
           (t_logFile (BaseTunnel.this self w))
           None None None None).

(** [PinggyTunnel.getConnectCommand()] *)
Definition pinggy_getConnectCommand (self : nat) : M World (option str) :=
  w <-- get ;;
  match t_endpoint (BaseTunnel.this self w) with
  | None => ret None
  | Some ep =>
      if negb (JS.truthy ep) then ret None
      else
        match Regex.tcp_host_port ep with
        | None => ret None
        | Some (host, port) =>
            ret (Some (js "ssh -p " ++ port ++ js " " ++ currentUser
                       ++ js "@" ++ host ++ js " -i <your-private-key>"))
        end
  end.

Definition PinggyTunnel (self : nat) : Plugin :=
  mkPlugin pinggy_isAvailable (pinggy_start self)
           (pinggy_getConnectCommand self).

(* ------------------------------------------------------------------- *)
(** ** lib/tunnels/sshj.js *)

(** [buildDefaults()]: the namespace and the device derived from the
    repository name and the runner id of the hosting pipeline. *)
Variable sshj_default_namespace : str.
Variable sshj_default_device : str.

Definition sshj_publishArgs (namespace sshjHost device devicePort
                               localHost localPort : str) : list str :=
  [namespace ++ js "@" ++ sshjHost;
   js "-N";
   js "-o"; js "StrictHostKeyChecking=no";
   js "-o"; js "UserKnownHostsFile=/dev/null";
   js "-o"; js "BatchMode=yes";
   js "-o"; js "ServerAliveInterval=30";
   js "-o"; js "ServerAliveCountMax=3";
   js "-o"; js "ExitOnForwardFailure=yes";
   js "-R";
   device ++ js ":" ++ devicePort ++ js ":" ++ localHost ++ js ":" ++ localPort].

(** [SshjTunnel.isAvailable()] *)
Definition sshj_isAvailable : M World bool :=
  ret (Config.sshj_enabled (Config.sshj cfg)).

(** [SshjTunnel.start(sshPort, logDir)] *)
Definition sshj_start (self : nat) (sshPort : str) (logDir : path)
  : M World StartResult :=
  let sshj := Config.sshj cfg in
  let foreground := Config.sshj_foreground sshj in
  let sshjHost := Config.sshj_host sshj in
  let namespace :=
    SetupSSH.or_else (Config.sshj_namespace sshj) sshj_default_namespace in
  let device :=
    SetupSSH.or_else (Config.sshj_device sshj) sshj_default_device in
  let devicePort := Config.sshj_devicePort sshj in
  let localHost := Config.sshj_localHost sshj in
  let localPort := SetupSSH.or_else (Config.sshj_localPort sshj) sshPort in
  let logFile := path_join logDir (js "sshj.log") in
  let pidFile := path_join logDir (js "sshj.pid") in
  BaseTunnel.set_this self (BaseTunnel.set_logFile (Some logFile)) ;;;
  let publishArgs :=
    sshj_publishArgs namespace sshjHost device devicePort localHost localPort in
  BaseTunnel.logAt LInfo self (js "Starting tunnel...") ;;;
  BaseTunnel.logAt LInfo self
    (js "Publishing: " ++ device ++ js ":" ++ devicePort ++ js " "
     ++ [8594%N] ++ js " " ++ localHost ++ js ":" ++ localPort) ;;;
  setPipelineVar (js "SSHJ_HOST") sshjHost ;;;
  setPipelineVar (js "SSHJ_NAMESPACE") namespace ;;;
  setPipelineVar (js "SSHJ_DEVICE") device ;;;
  setPipelineVar (js "SSHJ_DEVICE_PORT") devicePort ;;;
  if foreground then ret foreground_result
  else
    pid <-- spawnDetached (js "ssh") publishArgs logFile ;;
    BaseTunnel.set_this self (BaseTunnel.set_pid (Some pid)) ;;;
    Utils.writeFileSync pidFile (JS.showZ pid) 438 ;;;
    BaseTunnel.logAt LSuccess self
      (js "Started in background (PID: " ++ JS.showZ pid ++ js ")") ;;;
    BaseTunnel.logAt LInfo self (js "Log file: " ++ show_path logFile) ;;;
    let connectCmd1 :=
      js "ssh -J " ++ namespace ++ js "@" ++ sshjHost ++ js " "
      ++ currentUser ++ js "@" ++ device in
    let connectCmd2 :=
      js "ssh -i <private-key> -J " ++ namespace ++ js "@" ++ sshjHost
      ++ js " " ++ currentUser ++ js "@" ++ device in
    BaseTunnel.logAt LInfo self (js "Connect from your PC:") ;;;
    BaseTunnel.logAt LInfo self (js "  " ++ connectCmd1) ;;;
    BaseTunnel.logAt LInfo self (js "  " ++ connectCmd2) ;;;
    setPipelineVar (js "SSHJ_CONNECT") connectCmd1 ;;;
    w <-- get ;;
    ret (mkStartResult true false
           (t_pid (BaseTunnel.this self w))
           None
           (t_logFile (BaseTunnel.this self w))
           None (Some namespace) (Some device) (Some connectCmd1)).

(** [SshjTunnel.getConnectCommand()] *)
Definition sshj_getConnectCommand : M World (option str) :=
  let sshj := Config.sshj cfg in
  let namespace := Config.sshj_namespace sshj in
  let device := Config.sshj_device sshj in
  let host := Config.sshj_host sshj in
  match namespace, device with
  | Some namespace, Some device =>
      if negb (JS.truthy namespace) || negb (JS.truthy device) then ret None
      else
        ret (Some (js "ssh -J " ++ namespace ++ js "@" ++ host ++ js " "
                   ++ currentUser ++ js "@" ++ device))
  | _, _ => ret None
  end.

Definition SshjTunnel (self : nat) : Plugin :=
  mkPlugin sshj_isAvailable (sshj_start self) sshj_getConnectCommand.

(* ------------------------------------------------------------------- *)
(** ** lib/tunnels/cloudflare.js *)

(** [install()] downloads and installs the [cloudflared] binary;
    [findTunnelId] and [createTunnel] run it and read its output;
    [renderTemplate] fills the configuration template; the generated
    tunnel name comes from the hosting pipeline. *)
Variable cf_install : M World bool.
Variable cf_findTunnelId : str -> M World (option str).
Variable cf_createTunnel : str -> M World (option str).
Variable cf_renderConfig : str -> str -> str -> str.
Variable cf_generatedName : str.

(** [CloudflareTunnel.isAvailable()] *)
Definition cf_isAvailable : M World bool :=
  ret (Config.cf_enabled (Config.cloudflare cfg)
       && JS.truthy_opt (Config.cf_apiKey (Config.cloudflare cfg))).

(** [CloudflareTunnel.getConnectCommand()] *)
Definition cf_getConnectCommand (self : nat) : M World (option str) :=
  w <-- get ;;
  match t_endpoint (BaseTunnel.this self w) with
  | None => ret None
  | Some ep =>
      if negb (JS.truthy ep) then ret None
      else
        ret (Some (js "ssh -o ProxyCommand=" ++ [34%N]
                   ++ js "cloudflared access tcp --hostname " ++ ep ++ [34%N]
                   ++ js " " ++ currentUser ++ js "@" ++ ep))
  end.

(** The part of [CloudflareTunnel.start] after the configuration file is
    written: spawn in the background, look for the endpoint in the log,
    export it when found, warn when not. *)
Definition cf_launch (self : nat) (apiKey tunnelId : str)
           (cfConfigPath logFile pidFile : path) (foreground : bool)
  : M World StartResult :=
  BaseTunnel.logAt LInfo self (js "Starting tunnel...") ;;;
  let args := [js "tunnel"; js "--config"; show_path cfConfigPath;
               js "run"; js "--token"; apiKey] in
  if foreground then ret foreground_result
  else
    pid <-- spawnDetached (js "cloudflared") args logFile ;;
    BaseTunnel.set_this self (BaseTunnel.set_pid (Some pid)) ;;;
    Utils.writeFileSync pidFile (JS.showZ pid) 438 ;;;
    BaseTunnel.logAt LSuccess self
      (js "Started in background (PID: " ++ JS.showZ pid ++ js ")") ;;;
    BaseTunnel.logAt LInfo self (js "Log file: " ++ show_path logFile) ;;;
    ep <-- BaseTunnel.parseEndpointFromLog env self Regex.cf_url
             (Config.cfEndpoint (Config.timeouts cfg)) ;;
    BaseTunnel.set_this self (BaseTunnel.set_endpoint ep) ;;;
    (if JS.truthy_opt ep
     then
       BaseTunnel.logAt LSuccess self (js "Endpoint: " ++ default [] ep) ;;;
       setPipelineVar (js "CF_TUNNEL_URL") (default [] ep) ;;;
       connectCmd <-- cf_getConnectCommand self ;;
       (if JS.truthy_opt connectCmd
        then
          setPipelineVar (js "CF_SSH_COMMAND") (default [] connectCmd) ;;;
          BaseTunnel.logAt LInfo self (js "Connect command:") ;;;
          BaseTunnel.logAt LInfo self (js "  " ++ default [] connectCmd)
        else ret tt)
     else
       BaseTunnel.logAt LWarn self
         (js "Endpoint not detected yet. Check cloudflared.log")) ;;;
    w <-- get ;;
    ret (mkStartResult true false
           (t_pid (BaseTunnel.this self w))
           (t_endpoint (BaseTunnel.this self w))
           (t_logFile (BaseTunnel.this self w))
           (Some tunnelId) None None None).

(** [CloudflareTunnel.start(sshPort, logDir)] *)
Definition cf_start (self : nat) (sshPort : str) (logDir : path)
  : M World StartResult :=
  installed <-- cf_install ;;
  if negb installed then
    w <-- get ;;
    throw (TunnelError (t_name (BaseTunnel.this self w))
                       (js "Installation failed"))
  else
    let cloudflare := Config.cloudflare cfg in
    let foreground := Config.cf_foreground cloudflare in
    let targetHost :=
      SetupSSH.or_else (Some (Config.cf_targetHost cloudflare)) (js "localhost") in
    let targetPort := SetupSSH.or_else (Config.cf_targetPort cloudflare) sshPort in
    let tunnelName :=
      SetupSSH.or_else (Config.cf_tunnelName cloudflare) cf_generatedName in
    let logFile := path_join logDir (js "cloudflared.log") in
    let pidFile := path_join logDir (js "cloudflared.pid") in
    BaseTunnel.set_this self (BaseTunnel.set_logFile (Some logFile)) ;;;
    let cfDir := path_join (HOME env) (js ".cloudflared") in
    Utils.ensureDir cfDir 448 ;;;
    let cfConfigPath := path_join cfDir (js "config.yml") in
    let certPath := path_join cfDir (js "cert.pem") in
    w <-- get ;;
    (match fs w !! certPath with
     | Some _ => ret tt
     | None =>
         BaseTunnel.logAt LInfo self (js "Setting up authentication...") ;;;
         match Config.cf_apiKey cloudflare with
         | Some apiKey => Utils.writeFileSync certPath apiKey 384
         | None =>
             throw (TypeError (js "The data argument must be of type string"))
         end
     end) ;;;
    BaseTunnel.logAt LInfo self (js "Checking tunnel: " ++ tunnelName) ;;;
    found <-- cf_findTunnelId tunnelName ;;
    tunnelId <--
      (if JS.truthy_opt found then ret found
       else
         BaseTunnel.logAt LInfo self (js "Creating tunnel: " ++ tunnelName) ;;;
         created <-- cf_createTunnel tunnelName ;;
         if JS.truthy_opt created then ret created
         else
           w <-- get ;;
           throw (TunnelError (t_name (BaseTunnel.this self w))
                              (js "Failed to create tunnel"))) ;;
    let tunnelId := default [] tunnelId in
    BaseTunnel.logAt LSuccess self (js "Tunnel ID: " ++ tunnelId) ;;;
    let cfConfig := cf_renderConfig tunnelId targetHost targetPort in
    Utils.writeFileSafe cfConfigPath (cfConfig ++ [JS.LF]) 384 ;;;
    BaseTunnel.logAt LInfo self (js "Config written: " ++ show_path cfConfigPath) ;;;
    cf_launch self (default [] (Config.cf_apiKey cloudflare)) tunnelId
              cfConfigPath logFile pidFile foreground.

Definition CloudflareTunnel (self : nat) : Plugin :=
  mkPlugin cf_isAvailable (cf_start self) (cf_getConnectCommand self).

End WithEnv.
End Tunnels.

(* ===================================================================== *)
(** * lib/index.js                                                         *)
(* ===================================================================== *)

Module Index.

Import Tunnels.

(** The calls whose order matters, in the order they are made (most
    recent first). *)
Inductive Event :=
| EvSshSetupCalled
| EvSshReady (r : SetupSSH.SshResult)
| EvTunnelStartCalled (ty : str).

(** The state of a run: the world, and the record of its calls. The
    collaborators act on the world only. *)
Record RunState := mkRunState {
  world : World;
  trace : list Event
}.

(** A statement of a collaborator, as a statement of the run. *)
Definition liftW {A} (c : M World A) : M RunState A :=
  fun s =>
    let (o, w') := c (world s) in
    (o, mkRunState w' (trace s)).

Definition emit (e : Event) : M RunState unit :=
  modify (fun s => mkRunState (world s) (e :: trace s)).

(** [results.ssh] *)
Record SshReport := mkSshReport {
  ssh_success : bool;
  ssh_error : option str;
  ssh_mode : option str;
  ssh_port : option str;
  ssh_logPath : option path;
  ssh_pid : option Z
}.

(** What one tunnel task resolves to when it is not [null]. *)
Record TunnelValue := mkTunnelValue {
  v_tunnelType : str;
  v_success : bool;
  v_endpoint : option str;
  v_connectCommand : option str;
  v_pid : option Z;
  v_logFile : option path;
  v_error : option str
}.

(** An entry of the array [Promise.allSettled] resolves to. *)
Inductive Settled (A : Type) :=
| Fulfilled (value : A)
| Rejected (reason : Thrown).
Arguments Fulfilled {A} value.
Arguments Rejected {A} reason.

(** [results.persistence] *)
Record Persistence := mkPersistence { rtdb : bool; ntfy : bool }.

Record Results := mkResults {
  res_ssh : SshReport;
  res_tunnels : list (Settled (option TunnelValue));
  res_persistence : Persistence
}.

Record Options := mkOptions {
  opt_sshPort : option str;
  opt_sshMode : option str;
  opt_publicKey : option str
}.

(** [if (options.x) config.ssh.x = options.x], three times. *)
Definition merge_options (o : Options) (c : Config.t) : Config.t :=
  let s := Config.ssh c in
  Config.mk
    (Config.mkSsh
       (if JS.truthy_opt (opt_sshPort o)
        then default [] (opt_sshPort o) else Config.port s)
       (if JS.truthy_opt (opt_sshMode o)
        then default [] (opt_sshMode o) else Config.mode s)
       (Config.allowUsers s) (Config.defaultCwd s)
       (Config.disableForceCwd s) (Config.listenAddress s)
       (if JS.truthy_opt (opt_publicKey o)
        then opt_publicKey o else Config.publicKey s))
    (Config.pinggy c) (Config.sshj c) (Config.cloudflare c)
    (Config.timeouts c).

(** The state of a promise once it has settled. A task that ends the
    process leaves nothing to settle. *)
Definition settled_of {S A} (c : M S A) : M S (Settled A) :=
  try_catch (a <-- c ;; ret (Fulfilled a)) (fun t => ret (Rejected t)).

(** [list.map(async ...)]: the tasks are started in the order of the
    list and interleave at their [await]s. The effects of each task on the
    state are taken as a block, in the order of the list; the order in
    which the promises settle is kept apart (see [allSettled]). *)
Fixpoint start_all {S A} (tasks : list (M S A)) : M S (list (Settled A)) :=
  match tasks with
  | [] => ret []
  | t :: rest =>
      p <-- settled_of t ;;
      ps <-- start_all rest ;;
      ret (p :: ps)
  end.

(** [Promise.allSettled(promises)]: a slot per promise, empty at first;
    the slot of a promise is filled when the promise settles; the array
    is handed over when every slot is filled. Promise [i] settles at
    the instant [settle_time i]. *)
Definition settles_before (settle_time : nat -> nat) (i j : nat) : Prop :=
  (settle_time i <= settle_time j)%nat.

#[global] Instance settles_before_dec settle_time i j :
  Decision (settles_before settle_time i j).
Proof. unfold settles_before. apply _. Defined.

Definition completion_order (settle_time : nat -> nat) (n : nat) : list nat :=
  merge_sort (settles_before settle_time) (seq 0 n).

Definition fill_slot {A} (ps : list A) (slots : list (option A)) (i : nat)
  : list (option A) :=
  match ps !! i with
  | Some p => <[i := Some p]> slots
  | None => slots
  end.

Definition allSettled {A} (settle_time : nat -> nat) (ps : list (Settled A))
  : list (Settled A) :=
  omap id (foldl (fill_slot ps) (replicate (length ps) None)
                 (completion_order settle_time (length ps))).

Section WithEnv.

Variable env : Env.

(** [config.validate()], [setupSSH.setup()] on the merged configuration
    and [persistence.persist(results.tunnels)]. *)
Variable validate : Config.t -> M World unit.
Variable setup : Config.t -> M World SetupSSH.SshResult.
Variable persist : list (Settled (option TunnelValue)) -> M World Persistence.

(** The instant each tunnel task settles. *)
Variable settle_time : nat -> nat.

(** [printSummary(sshResult, tunnelResults)] writes to the console. *)
Definition printSummary (sshResult : SshReport)
           (tunnelResults : list (Settled (option TunnelValue)))
  : M RunState unit :=
  liftW (log LSection (js "Setup Summary")).

(** [a || null] *)
Definition or_null (a : option str) : option str :=
  if JS.truthy_opt a then a else None.

(** The object a tunnel task resolves to after a start. *)
Definition success_value (type : str) (result : StartResult)
           (connectCommand : option str) : TunnelValue :=
  mkTunnelValue type true (or_null (endpoint result)) connectCommand
                (pid result) (logFile result) None.

(** The object a tunnel task resolves to after a caught error. *)
Definition failure_value (type : str) (message : str) : TunnelValue :=
  mkTunnelValue type false None None None None (Some message).

(** The body of the [async] arrow function mapped over [tunnels]. *)
Definition tunnel_task (results_ssh_port : str) (logDir : path)
           (t : Plugin * str) : M RunState (option TunnelValue) :=
  let (instance, type) := t in
  try_catch
    (available <-- liftW (isAvailable instance) ;;
     if available then
       liftW (log LInfo (js "Starting " ++ type ++ js " tunnel...")) ;;;
       emit (EvTunnelStartCalled type) ;;;
       result <-- liftW (start instance results_ssh_port logDir) ;;
       connectCommand <-- liftW (getConnectCommand instance) ;;
       ret (Some (success_value type result connectCommand))
     else
       liftW (log LDebug (type ++ js " tunnel not configured")) ;;;
       ret None)
    (fun err =>
       m <-- liftW (Utils.read_message err) ;;
       liftW (log LError (type ++ js " tunnel failed:")) ;;;
       ret (Some (failure_value type m))).

(** Phases 2 to 4 of [run]: the tunnels, persistence, the summary. *)
Definition after_ssh (new_tunnels : M World (list (Plugin * str)))
           (ssh : SshReport) (startTime : Z) : M RunState Results :=
  liftW (log LSection (js "Starting Tunnels")) ;;;
  let logDir :=
    match ssh_logPath ssh with
    | Some p => dirname p
    | None => path_join (HOME env) (js ".ssh")
    end in
  tunnels <-- liftW new_tunnels ;;
  tunnelPromises <--
    start_all (map (tunnel_task (default [] (ssh_port ssh)) logDir) tunnels) ;;
  let results_tunnels := allSettled settle_time tunnelPromises in
  persistence <--
    try_catch (liftW (persist results_tunnels))
      (fun err =>
         m <-- liftW (Utils.read_message err) ;;
         liftW (log LError (js "Persistence failed:")) ;;;
         ret (mkPersistence false false)) ;;
  printSummary ssh results_tunnels ;;;
  s <-- get ;;
  let duration := (now (world s) - startTime)%Z in
  liftW (log LSuccess (js "Setup completed in " ++ JS.showZ duration
                       ++ js "ms")) ;;;
  ret (mkResults ssh results_tunnels persistence).

(** Phase 1 of [run]: the SSH server. *)
Definition ssh_phase (config : Config.t) : M RunState SshReport :=
  try_catch
    (emit EvSshSetupCalled ;;;
     sshResult <-- liftW (setup config) ;;
     emit (EvSshReady sshResult) ;;;
     ret (mkSshReport true None
            (Some (SetupSSH.r_mode sshResult))
            (Some (SetupSSH.r_port sshResult))
            (SetupSSH.r_logPath sshResult)
            (SetupSSH.r_pid sshResult)))
    (fun err =>
       m <-- liftW (Utils.read_message err) ;;
       liftW (log LError (js "SSH setup failed:")) ;;;
       printSummary (mkSshReport false (Some m) None None None None) [] ;;;
       exit 1).

(** [run(options)], for any way of making the list of tunnel objects from
    the merged configuration. The banner and the optional summary of the
    configuration go to the console, which the world does not record. *)
Definition run_with (new_tunnels : Config.t -> M World (list (Plugin * str)))
           (config : Config.t) (options : Options) : M RunState Results :=
  s0 <-- get ;;
  let startTime := now (world s0) in
  try_catch
    (let config := merge_options options config in
     liftW (log LInfo (js "Validating configuration...")) ;;;
     liftW (validate config) ;;;
     liftW (log LSuccess (js "Configuration valid")) ;;;
     ssh <-- ssh_phase config ;;
     after_ssh (new_tunnels config) ssh startTime)
    (fun err =>
       m <-- liftW (Utils.read_message err) ;;
       liftW (log LError (js "Fatal error:")) ;;;
       exit 1).

(** [new T(config, utils)]: a fresh object with the fields of the
    constructor. *)
Definition new_tunnel (name : str) : M World nat :=
  fun w =>
    let self := fresh (dom (objs w)) in
    (Ret self, set_objs (<[self := BaseTunnel.constructed name]> (objs w)) w).

(** What the Cloudflare and SSH-J plugins take from their surroundings
    (see [Tunnels]). *)
Variable sshj_default_namespace : str.
Variable sshj_default_device : str.
Variable cf_install : M World bool.
Variable cf_findTunnelId : str -> M World (option str).
Variable cf_createTunnel : str -> M World (option str).
Variable cf_renderConfig : str -> str -> str -> str.
Variable cf_generatedName : str.

(** The [tunnels] array of [run]. *)
Definition the_tunnels (config : Config.t) : M World (list (Plugin * str)) :=
  p <-- new_tunnel (js "Pinggy") ;;
  s <-- new_tunnel (js "SSH-J") ;;
  c <-- new_tunnel (js "Cloudflare") ;;
  ret [ (PinggyTunnel env config p, js "Pinggy");
        (SshjTunnel env config sshj_default_namespace sshj_default_device s,
         js "SSH-J");
        (CloudflareTunnel env config cf_install cf_findTunnelId cf_createTunnel
           cf_renderConfig cf_generatedName c, js "Cloudflare") ].

(** [run(options)] *)
Definition run (config : Config.t) (options : Options) : M RunState Results :=
  run_with the_tunnels config options.

End WithEnv.
End Index.

(* ===================================================================== *)
(** * Vocabulary of the statements                                         *)
(* ===================================================================== *)

Module Spec.

(** The worlds [w] and [w'] differ at most in their files and in the
    lines logged. *)
Definition same_but_files (w w' : World) : Prop :=
  now w' = now w /\ sleeps w' = sleeps w /\ objs w' = objs w
  /\ vars w' = vars w.

(** At the instant [t] the log file does not hold a match. *)
Definition no_match (env : Env) (logFile : path) (pattern : Regex.Pattern)
           (t : Z) : Prop :=
  match readLog env t logFile with
  | Content c => pattern c = None
  | _ => True
  end.

(** The lines of a blob of public keys that are looked at: trimmed,
    neither empty nor a comment. *)
Definition key_candidates (pubkey : str) : list str :=
  List.filter (fun k => JS.truthy k && negb (JS.startsWith (js "#") k))
              (map JS.trim (JS.split JS.LF pubkey)).

(** A line that starts with the prefix of a type of SSH key: the types
    [ssh-rsa], [ssh-dss] and [ssh-ed25519], the types [ecdsa-sha2-...]
    (the README's example of several keys has a key of each of these two
    families) and the security-key types [sk-...]. *)
Definition key_line (k : str) : bool :=
  JS.startsWith (js "ssh-") k || JS.startsWith (js "ecdsa-sha2-") k
  || JS.startsWith (js "sk-") k.

(** No key of the blob is of a type that does not start with [ssh-]. *)
Definition ssh_keys_only (pubkey : str) : Prop :=
  Forall (fun k => key_line k = true -> JS.startsWith (js "ssh-") k = true)
         (key_candidates pubkey).

(** No command changes the content of the file [p], whatever it does to
    its mode. *)
Definition keeps_content (sys : Sys.t) (p : path) : Prop :=
  forall cmd w c m,
    fs w !! p = Some (File c m) ->
    exists m', Sys.files (Sys.exec sys cmd w) !! p = Some (File c m').

(** The statement [c] never ends the process. *)
Definition no_exit {S A} (c : M S A) : Prop :=
  forall w code w', c w <> (Exit code, w').

(** The event records a call of [start]. *)
Definition is_start (e : Index.Event) : Prop :=
  exists ty, e = Index.EvTunnelStartCalled ty.

(** The statement [c] records calls of [start] and nothing else. *)
Definition adds_starts {A} (c : M Index.RunState A) : Prop :=
  forall s, exists starts,
    Index.trace (snd (c s)) = starts ++ Index.trace s
    /\ Forall is_start starts.

(** The plugin never ends the process. *)
Definition plugin_no_exit (p : Tunnels.Plugin) : Prop :=
  no_exit (Tunnels.isAvailable p)
  /\ (forall port logDir, no_exit (Tunnels.start p port logDir))
  /\ no_exit (Tunnels.getConnectCommand p).

(** The calls [isAvailable], [start] and [getConnectCommand] of the task
    of the tunnel [t], started in the state [s], up to the first that
    does not return: it throws [thrown] and leaves the state [s']. *)
Definition task_throws (port : str) (logDir : path)
           (t : Tunnels.Plugin * str) (s : Index.RunState)
           (thrown : Thrown) (s' : Index.RunState) : Prop :=
  let (inst, type) := t in
  let starting :=
    add_log LInfo (js "Starting " ++ type ++ js " tunnel...") in
  let called := Index.EvTunnelStartCalled type :: Index.trace s in
  (exists w1,
      Tunnels.isAvailable inst (Index.world s) = (Throw thrown, w1)
      /\ s' = Index.mkRunState w1 (Index.trace s))
  \/ (exists w1 w2,
        Tunnels.isAvailable inst (Index.world s) = (Ret true, w1)
        /\ Tunnels.start inst port logDir (starting w1) = (Throw thrown, w2)
        /\ s' = Index.mkRunState w2 called)
  \/ (exists w1 r w2 w3,
        Tunnels.isAvailable inst (Index.world s) = (Ret true, w1)
        /\ Tunnels.start inst port logDir (starting w1) = (Ret r, w2)
        /\ Tunnels.getConnectCommand inst w2 = (Throw thrown, w3)
        /\ s' = Index.mkRunState w3 called).

(** The task of the tunnel [t], started in the state [s], settles with
    the entry [p] and leaves the state [s']:
    - a tunnel that is not available gives a fulfilled [null]; its
      [start] is not called, and the state records no call of it;
    - a tunnel whose three calls return gives the fulfilled success
      object;
    - when one of the calls throws an error object, the others that
      follow are not made and the entry is the fulfilled failure object
      with the message of the error;
    - when one of them throws [undefined], the [catch] block throws in
      its turn on [err.message] and the entry is rejected with that
      [TypeError]. *)
Inductive task_settles (port : str) (logDir : path)
          (t : Tunnels.Plugin * str) (s : Index.RunState)
  : Index.Settled (option Index.TunnelValue) -> Index.RunState -> Prop :=
| settles_null w1 :
    Tunnels.isAvailable (fst t) (Index.world s) = (Ret false, w1) ->
    task_settles port logDir t s (Index.Fulfilled None)
      (Index.mkRunState
         (add_log LDebug (snd t ++ js " tunnel not configured") w1)
         (Index.trace s))
| settles_success w1 r w2 c w3 :
    Tunnels.isAvailable (fst t) (Index.world s) = (Ret true, w1) ->
    Tunnels.start (fst t) port logDir
      (add_log LInfo (js "Starting " ++ snd t ++ js " tunnel...") w1)
      = (Ret r, w2) ->
    Tunnels.getConnectCommand (fst t) w2 = (Ret c, w3) ->
    task_settles port logDir t s
      (Index.Fulfilled (Some (Index.success_value (snd t) r c)))
      (Index.mkRunState w3 (Index.EvTunnelStartCalled (snd t) :: Index.trace s))
| settles_failure e s1 :
    task_throws port logDir t s (ThrownError e) s1 ->
    task_settles port logDir t s
      (Index.Fulfilled (Some (Index.failure_value (snd t) (message e))))
      (Index.mkRunState
         (add_log LError (snd t ++ js " tunnel failed:") (Index.world s1))
         (Index.trace s1))
| settles_rejected s1 :
    task_throws port logDir t s ThrownUndefined s1 ->
    task_settles port logDir t s
      (Index.Rejected
         (ThrownError
            (TypeError
               (js "Cannot read properties of undefined (reading 'message')"))))
      s1.

(** The tasks of the tunnels of a list, started in the state [s], settle
    with the entries [ps], one per tunnel and in the order of the list,
    and leave the state [s']: whatever the entry of a tunnel is, the
    tasks of the tunnels after it run. *)
Inductive tasks_settle (port : str) (logDir : path)
  : list (Tunnels.Plugin * str) -> Index.RunState ->
    list (Index.Settled (option Index.TunnelValue)) -> Index.RunState -> Prop :=
| settle_nil s : tasks_settle port logDir [] s [] s
| settle_cons t rest s p s1 ps s2 :
    task_settles port logDir t s p s1 ->
    tasks_settle port logDir rest s1 ps s2 ->
    tasks_settle port logDir (t :: rest) s (p :: ps) s2.

End Spec.

Export Spec.

(* ===================================================================== *)
(** * Data of the examples                                                 *)
(* ===================================================================== *)

Module Examples.

(** A run on Linux, on an agent of Azure Pipelines ([TF_BUILD] is set,
    [GITHUB_ENV] is not): the clock renders as a fixed date, timers fire
    on time, the tunnel logs stay absent, every child gets pid 4242. *)
Definition env0 : Env :=
  mkEnv (js "linux") [js "home"; js "runner"] (js "runner")
        (fun _ => js "2024-01-28T00:00:00.000Z")
        (fun _ => 0%N) (fun _ _ => Absent) (fun _ _ => 4242%Z)
        true None.

Definition world0 : World := mkWorld ∅ [] 0 [] ∅ [].

(** An operating system on which every command takes no time and leaves
    the files as they are, and answers as [answer] says. *)
Definition sys_of (answer : str -> Sys.ExecResult) : Sys.t :=
  Sys.mk (fun cmd w => Sys.mkRan (answer cmd) (fs w) 0)
         (fun _ => 4096%N) (Some 1000%Z).

(** Every command ends with status 0 and prints nothing. *)
Definition sys0 : Sys.t := sys_of (fun _ => Sys.Done []).

(** Two keys of [ssh-] types among a comment and an empty line. *)
Definition blob1 : str :=
  js "# my laptop" ++ [JS.LF] ++ js "  ssh-ed25519 AAAAC3Nz me@laptop  "
  ++ [JS.LF] ++ [JS.LF] ++ js "ssh-rsa AAAAB3Nz me@desk" ++ [JS.LF].

Definition blob0 : str :=
  js "# my laptop" ++ [JS.LF] ++ js "  ssh-ed25519 AAAAC3Nz me@laptop  "
  ++ [JS.LF] ++ [JS.LF] ++ js "ecdsa-sha2-nistp256 AAAAE2Vj me@desk"
  ++ [JS.LF] ++ js "ssh-rsa AAAAB3Nz me@desk" ++ [JS.LF].

(** Pinggy and SSH-J enabled, Cloudflare disabled. *)
Definition cfg0 : Config.t :=
  Config.mk
    (Config.mkSsh (js "2222") (js "auto") [] None false (js "127.0.0.1")
                  (Some blob0))
    (Config.mkPinggy true false (js "localhost") None (js "a.pinggy.io"))
    (Config.mkSshj true false (js "ssh-j.com") None None (js "22")
                   (js "localhost") None)
    (Config.mkCloudflare false false None None (js "localhost") None)
    (Config.mkTimeouts 8000 15000 10000 30000).

(** Bring-up procedures that only report the mode they stand for. *)
Definition mode_stub (m : str) (port : str) : M World SetupSSH.SshResult :=
  ret (SetupSSH.mkSshResult m port None None).

(** An operation that fails until two backoff sleeps have passed. *)
Definition flaky : M World Z :=
  fun w =>
    if (length (sleeps w) <? 2)%nat
    then (Throw (ThrownError (NetworkError (js "connection reset"))), w)
    else (Ret 7%Z, w).

(** An operation that throws [undefined] until a backoff sleep has
    passed, and returns from then on. *)
Definition undefined_once : M World Z :=
  fun w =>
    match sleeps w with
    | [] => (Throw ThrownUndefined, w)
    | _ :: _ => (Ret 7%Z, w)
    end.

(** An operation that always fails. *)
Definition broken : M World Z :=
  throw (NetworkError (js "connection reset")).

(** Cloudflare enabled as well, with a token. *)
Definition cfg1 : Config.t :=
  Config.mk (Config.ssh cfg0) (Config.pinggy cfg0)
    (Config.mkSshj true false (js "ssh-j.com") (Some (js "team"))
                   (Some (js "box")) (js "22") (js "localhost") None)
    (Config.mkCloudflare true false (Some (js "token")) None
                         (js "localhost") None)
    (Config.timeouts cfg0).

(** A [cloudflared] that is installed, knows no tunnel and creates one. *)
Definition cf_install0 : M World bool := ret true.
Definition cf_findTunnelId0 (name : str) : M World (option str) := ret None.
Definition cf_createTunnel0 (name : str) : M World (option str) :=
  ret (Some (js "0f3a-11")).
Definition cf_renderConfig0 (tunnelId host port : str) : str :=
  js "tunnel: " ++ tunnelId.

(** A world in which the tunnel object 0 is the Pinggy tunnel, with its
    log file set, and a run in which that log shows the endpoint from the
    instant 50 on. *)
Definition probe_world : World :=
  mkWorld ∅ [] 0 [] {[ 0%nat := mkTunnelState (js "Pinggy") None None
                                  (Some [js "pinggy.log"]) ]} [].

(** The same world once the endpoint has been found. *)
Definition connected_world : World :=
  mkWorld ∅ [] 250 [250%Z]
          {[ 0%nat := mkTunnelState (js "Pinggy") (Some 4242%Z)
                        (Some (js "tcp://rnd.a.pinggy.link:40123"))
                        (Some [js "pinggy.log"]) ]} [].

Definition env_late : Env :=
  mkEnv (js "linux") [js "home"; js "runner"] (js "runner")
        (fun _ => js "2024-01-28T00:00:00.000Z")
        (fun _ => 0%N)
        (fun t _ => if (50 <=? t)%Z
                    then Content (js "Forwarding tcp://rnd.a.pinggy.link:40123 ok")
                    else Absent)
        (fun _ _ => 4242%Z) true None.

(** Three tunnels: one that starts, one whose [start] throws, one that is
    not available. *)
Definition plugin_ok : Tunnels.Plugin :=
  Tunnels.mkPlugin (ret true)
    (fun _ _ =>
       ret (Tunnels.mkStartResult true false (Some 4242%Z)
              (Some (js "tcp://h:1")) None None None None None))
    (ret (Some (js "ssh -p 1 runner@h"))).

Definition plugin_bad : Tunnels.Plugin :=
  Tunnels.mkPlugin (ret true)
    (fun _ _ => throw (TunnelError (js "Bad") (js "boom")))
    (ret None).

(** A tunnel whose [start] throws [undefined]. *)
Definition plugin_undefined : Tunnels.Plugin :=
  Tunnels.mkPlugin (ret true) (fun _ _ => rethrow ThrownUndefined) (ret None).

Definition plugin_off : Tunnels.Plugin :=
  Tunnels.mkPlugin (ret false) (fun _ _ => ret Tunnels.foreground_result)
                   (ret None).

Definition three_tunnels : list (Tunnels.Plugin * str) :=
  [(plugin_ok, js "Ok"); (plugin_bad, js "Bad"); (plugin_off, js "Off")].

Definition state0 : Index.RunState := Index.mkRunState world0 [].

(** The collaborators of a run: a configuration that validates, a
    bring-up in user mode, a bring-up that fails, no persistence. *)
Definition validate0 (c : Config.t) : M World unit := ret tt.

Definition setup0 (c : Config.t) : M World SetupSSH.SshResult :=
  SetupSSH.setup env0 sys0 c
    (fun p _ _ => mode_stub (js "user") p)
    (fun p _ _ _ => mode_stub (js "root") p)
    (fun p _ => mode_stub (js "windows") p) (js "/home/runner").

Definition setup_failing (c : Config.t) : M World SetupSSH.SshResult :=
  throw (SSHDError (js "Port 2222 is not listening after timeout")).

Definition persist0 (ts : list (Index.Settled (option Index.TunnelValue)))
  : M World Index.Persistence :=
  ret (Index.mkPersistence false false).

Definition options0 : Index.Options := Index.mkOptions None None None.

(** The run of the end-to-end scenario: user mode on port 2222, Pinggy
    and SSH-J enabled, Cloudflare disabled, no endpoint in the Pinggy log;
    the tunnels settle in the reverse of their order. *)
Definition run0 :=
  Index.run env0 validate0 setup0 persist0 (fun i => (3 - i)%nat)
            (js "repo-1") (js "repo-ci")
            cf_install0 cf_findTunnelId0 cf_createTunnel0 cf_renderConfig0
            (js "repo-1") cfg0 options0 state0.

End Examples.

Export Examples.

(* ===================================================================== *)
(** * lib/logger.js                                                        *)
(* ===================================================================== *)

Module Logger.

(** What the property read [logLevels[name]] gives: the number of one of
    the five level names, a function or object inherited from
    [Object.prototype], or [undefined]. *)
Inductive Looked :=
| Num (n : Z)
| Inherited
| Undefined.

(** The property names every object literal inherits. *)
Definition inherited_names : list str :=
  [js "constructor"; js "hasOwnProperty"; js "isPrototypeOf";
   js "propertyIsEnumerable"; js "toLocaleString"; js "toString";
   js "valueOf"; js "__proto__"; js "__defineGetter__";
   js "__defineSetter__"; js "__lookupGetter__"; js "__lookupSetter__"].

(** [logLevels[name]] *)
Definition logLevels (name : str) : Looked :=
  if bool_decide (name = js "debug") then Num 0
  else if bool_decide (name = js "info") then Num 1
  else if bool_decide (name = js "warn") then Num 2
  else if bool_decide (name = js "error") then Num 3
  else if bool_decide (name = js "silent") then Num 4
  else if bool_decide (name ∈ inherited_names) then Inherited
  else Undefined.

(** [a || b]: the number 0 and [undefined] are falsy, a function or an
    object is truthy. *)
Definition or_else (a b : Looked) : Looked :=
  match a with
  | Num n => if (n =? 0)%Z then b else a
  | Inherited => a
  | Undefined => b
  end.

(** [a >= b]: both sides are converted to numbers; a function, an object
    and [undefined] convert to [NaN], and a comparison with [NaN] is
    false. *)
Definition ge (a b : Looked) : bool :=
  match a, b with
  | Num x, Num y => (y <=? x)%Z
  | _, _ => false
  end.

(** The fields of a [Logger] that decide what is written. *)
Record t := mk {
  level : str;
  levelValue : Looked
}.

(** [new Logger(level)] *)
Definition new (level : str) : t :=
  mk level (or_else (logLevels level) (logLevels (js "info"))).

(** [shouldLog(level)] *)
Definition shouldLog (lg : t) (level : str) : bool :=
  ge (logLevels level) (levelValue lg).

(** The methods of the logger that write to the console. *)
Inductive Method :=
| debug | info | success | warn | error
| progress | progressDone | section | command | table.

(** The level name each method hands to [shouldLog] on entry; the method
    returns at once when the answer is false. *)
Definition gate (m : Method) : str :=
  match m with
  | debug | command => js "debug"
  | info | success | progress | progressDone | section | table => js "info"
  | warn => js "warn"
  | error => js "error"
  end.

(** Whether a call of the method writes anything. *)
Definition writes (lg : t) (m : Method) : bool := shouldLog lg (gate m).

End Logger.

(* ===================================================================== *)
(** * lib/utils.js: the string helpers                                     *)
(* ===================================================================== *)

Module UtilsStrings.

(** [s.replace(/x/g, r)] for a pattern of one unit [x] and a replacement
    [r] without [$]. *)
Definition replace_unit (x : N) (r : str) (s : str) : str :=
  flat_map (fun c => if (c =? x)%N then r else [c]) s.

(** [shSingleQuote(s)]: each single quote of [s] becomes the five units
    quote, double quote, quote, double quote, quote, and the whole is put
    between single quotes. *)
Definition shSingleQuote (s : str) : str :=
  [39%N] ++ replace_unit 39 [39; 34; 39; 34; 39]%N s ++ [39%N].

(** [\w] *)
Definition isWordChar (c : N) : bool :=
  ((48 <=? c)%N && (c <=? 57)%N) || ((65 <=? c)%N && (c <=? 90)%N)
  || (c =? 95)%N || ((97 <=? c)%N && (c <=? 122)%N).

(** [[.-]] *)
Definition isDotDash (c : N) : bool := (c =? 46)%N || (c =? 45)%N.

(** [[\w.-]] *)
Definition isIdChar (c : N) : bool := isWordChar c || isDotDash c.

(** [s.replace(/[class]+/g, r)]: every maximal run of units of the class
    becomes one [r]; [inrun] tells that the unit before belongs to a run. *)
Fixpoint replace_runs (p : N -> bool) (r : str) (inrun : bool) (s : str)
  : str :=
  match s with
  | [] => []
  | c :: s' =>
      if p c then
        if inrun then replace_runs p r true s'
        else r ++ replace_runs p r true s'
      else c :: replace_runs p r false s'
  end.

Fixpoint drop_while (p : N -> bool) (s : str) : str :=
  match s with
  | [] => []
  | c :: s' => if p c then drop_while p s' else s
  end.

(** [s.replace(/^[class]+|[class]+$/g, '')]: the run at the start and the
    run at the end are removed. *)
Definition strip_ends (p : N -> bool) (s : str) : str :=
  rev (drop_while p (rev (drop_while p s))).

(** [s.slice(0, n)]: a negative [n] counts from the end. *)
Definition slice0 (n : Z) (s : str) : str :=
  if (0 <=? n)%Z then take (Z.to_nat n) s
  else take (Z.to_nat (Z.of_nat (length s) + n)) s.

Section WithBuiltins.

(** [String.prototype.toLowerCase], which follows the Unicode tables. *)
Variable toLowerCase : str -> str.

(** [sanitizeId(s, maxLen = 28)] *)
Definition sanitizeId (s : option str) (maxLen : Z) : str :=
  let x :=
    strip_ends isDotDash
      (replace_runs (fun c => (c =? 45)%N) (js "-") false
         (replace_runs (fun c => negb (isIdChar c)) (js "-") false
            (toLowerCase (default [] s)))) in
  let trimmed := slice0 maxLen x in
  if JS.truthy trimmed then trimmed else js "ci".

End WithBuiltins.

(** [s.endsWith(p)] *)
Definition endsWith (p s : str) : bool := JS.startsWith (rev p) (rev s).

(** [s.replace(/^\uFEFF/, '')] *)
Definition strip_bom (s : str) : str :=
  match s with
  | c :: s' => if (c =? 65279)%N then s' else s
  | [] => []
  end.

(** [s.slice(1, -1)] *)
Definition slice_inner (s : str) : str := removelast (tl s).

(** Whether [s] is made of the two-unit sequences backslash-n and
    backslash-r only: the strings [/(\\r\\n|\\n|\\r)*/] matches whole. *)
Fixpoint escaped_newlines (s : str) : bool :=
  match s with
  | [] => true
  | b :: s1 =>
      match s1 with
      | c :: s2 =>
          (b =? 92)%N && ((c =? 110)%N || (c =? 114)%N) && escaped_newlines s2
      | [] => false
      end
  end.

(** [s.replace(/(\\r\\n|\\n|\\r)+$/g, '')]: the match starts at the first
    index from which the rest of the string is a non-empty sequence of
    escaped newlines. *)
Fixpoint strip_escaped_newlines (s : str) : str :=
  if JS.truthy s && escaped_newlines s then []
  else match s with
       | [] => []
       | c :: s' => c :: strip_escaped_newlines s'
       end.

(** [[\r\n]] *)
Definition isCRLF (c : N) : bool := (c =? 13)%N || (c =? 10)%N.

(** [s.replace(/[\r\n]+$/g, '')] *)
Definition strip_newlines (s : str) : str := rev (drop_while isCRLF (rev s)).

(** [sanitizeUrl(raw)]; [None] stands for [null] and [undefined]. *)
Definition sanitizeUrl (raw : option str) : str :=
  match raw with
  | None => []
  | Some raw =>
      let s := JS.trim (strip_bom raw) in
      let s :=
        if (JS.startsWith [34%N] s && endsWith [34%N] s)
           || (JS.startsWith [39%N] s && endsWith [39%N] s)
        then JS.trim (slice_inner s) else s in
      let s := JS.trim (strip_escaped_newlines s) in
      strip_newlines s
  end.

(** [[?&]] *)
Definition isQueryMark (c : N) : bool := (c =? 63)%N || (c =? 38)%N.

(** [[&#]] *)
Definition isValueEnd (c : N) : bool := (c =? 38)%N || (c =? 35)%N.

(** [s.replace(/([?&]auth=)[^&#]*/gi, '$1****')]: [skipping] tells that
    the units read belong to the value of a match. *)
Fixpoint mask (skipping : bool) (s : str) : str :=
  match s with
  | [] => []
  | c :: s' =>
      if skipping && negb (isValueEnd c) then mask true s'
      else
        match s' with
        | a :: u :: t :: h :: e :: rest =>
            if isQueryMark c && Regex.startsWith_i (js "auth=") [a; u; t; h; e]
            then [c; a; u; t; h; e] ++ js "****" ++ mask true rest
            else c :: mask false s'
        | _ => c :: mask false s'
        end
  end.

(** [maskAuthInUrl(url)] *)
Definition maskAuthInUrl (url : option str) : str :=
  let s := default [] url in
  if negb (JS.truthy s) then s else mask false s.

End UtilsStrings.

(** The lower-casing of the letters A to Z, which is what [toLowerCase]
    does on a string of units below 128. *)
Definition lower_ascii (s : str) : str :=
  map (fun c => if (65 <=? c)%N && (c <=? 90)%N then (c + 32)%N else c) s.

(* ===================================================================== *)
(** * The reader of quoted words                                           *)
(* ===================================================================== *)

Module Shell.

(** How a POSIX shell reads a word made of quoted parts (Shell Command
    Language, sections 2.2.2 and 2.2.3): between single quotes every unit
    stands for itself; between double quotes every unit but the dollar
    sign, the backquote, the backslash and the double quote stands for
    itself. A word with an unquoted part, or with one of these units
    between double quotes, is outside this description ([None]). This is
    the reader the commands built with [shSingleQuote] are written for;
    it is not code of the repository. *)
Inductive Quoting := Unquoted | InSingle | InDouble.

Fixpoint read (q : Quoting) (s : str) : option str :=
  match s with
  | [] => match q with Unquoted => Some [] | _ => None end
  | c :: s' =>
      match q with
      | Unquoted =>
          if (c =? 39)%N then read InSingle s'
          else if (c =? 34)%N then read InDouble s'
          else None
      | InSingle =>
          if (c =? 39)%N then read Unquoted s'
          else option_map (cons c) (read InSingle s')
      | InDouble =>
          if (c =? 34)%N then read Unquoted s'
          else if (c =? 36)%N || (c =? 96)%N || (c =? 92)%N then None
          else option_map (cons c) (read InDouble s')
      end
  end.

End Shell.

(* ===================================================================== *)
(** * lib/config.js: the methods                                           *)
(* ===================================================================== *)

Module ConfigMethods.

(** [,] or [\s] *)
Definition isSeparator (c : N) : bool := (c =? 44)%N || JS.isWhiteSpace c.

Definition cons_head (c : N) (l : list str) : list str :=
  match l with
  | [] => [[c]]
  | x :: xs => (c :: x) :: xs
  end.

(** [s.split(/[class]+/)]: the pieces between the maximal runs of units
    of the class; a run at the start or at the end of [s] leaves an empty
    piece there. [inrun] tells that the unit before belongs to a run. *)
Fixpoint split_runs (p : N -> bool) (inrun : bool) (s : str) : list str :=
  match s with
  | [] => [[]]
  | c :: s' =>
      if p c then
        if inrun then split_runs p true s'
        else [] :: split_runs p true s'
      else cons_head c (split_runs p false s')
  end.

(** [parseAllowUsers(value)] *)
Definition parseAllowUsers (value : option str) : list str :=
  match value with
  | None => []
  | Some value =>
      if negb (JS.truthy value) then []
      else List.filter JS.truthy (split_runs isSeparator false value)
  end.

(** The value of a run of decimal digits, read from the left. *)
Fixpoint digits_value (acc : Z) (s : str) : Z :=
  match s with
  | [] => acc
  | c :: s' =>
      if Regex.isDigit c then digits_value (10 * acc + Z.of_N (c - 48)) s'
      else acc
  end.

(** [parseInt(s, 10)]: white space at the start is skipped, then a sign
    is read, then the longest run of digits; [None] stands for [NaN],
    which is the result when there is no digit. The integer read is kept
    exact; rounding it to a double changes none of the comparisons made
    with it here. *)
Definition parseInt (s : str) : option Z :=
  let s := JS.trimStart s in
  let signed :=
    match s with
    | c :: s' =>
        if (c =? 45)%N then (-1, s')%Z
        else if (c =? 43)%N then (1%Z, s')
        else (1%Z, s)
    | [] => (1%Z, [])
    end in
  match snd signed with
  | c :: _ =>
      if Regex.isDigit c then Some (fst signed * digits_value 0 (snd signed))%Z
      else None
  | [] => None
  end.

(** [config.persistence.rtdb] *)
Record Rtdb := mkRtdb {
  rtdb_enabled : bool;
  rtdb_url : option str;
  rtdb_id : option str
}.

(** What [validate] reads of the configuration object. The two timeouts
    are results of [parseInt]: integers, or [NaN] ([None]). *)
Record Checked := mkChecked {
  ssh : Config.Ssh;
  cloudflare : Config.Cloudflare;
  portWait : option Z;
  cfEndpoint : option Z;
  rtdb : Rtdb
}.

(** [a < b] on numbers: false when [a] is [NaN]. *)
Definition lt_number (a : option Z) (b : Z) : bool :=
  match a with
  | Some x => (x <? b)%Z
  | None => false
  end.

(** [cond ? [msg] : []]: what one [if (cond) errors.push(msg)] adds. *)
Definition push_if (cond : bool) (msg : str) : list str :=
  if cond then [msg] else [].

(** The array [errors] of [validate], when all checks are made. *)
Definition errors (c : Checked) : list str :=
  push_if (negb (JS.truthy_opt (Config.publicKey (ssh c))))
          (js "PIPELINE_SSH_PUBKEY is required")
  ++ push_if (negb (bool_decide
                      (Config.mode (ssh c) ∈ [js "auto"; js "root"; js "user"])))
             (js "SSH_MODE must be: auto, root, or user")
  ++ push_if (match parseInt (Config.port (ssh c)) with
              | None => true
              | Some port => (port <? 1)%Z || (65535 <? port)%Z
              end)
             (js "SSH_PORT must be between 1-65535")
  ++ push_if (lt_number (portWait c) 1000)
             (js "SSH_PORT_TIMEOUT must be >= 1000ms")
  ++ push_if (lt_number (cfEndpoint c) 5000)
             (js "CF_ENDPOINT_TIMEOUT must be >= 5000ms")
  ++ push_if (Config.cf_enabled (cloudflare c)
              && negb (JS.truthy_opt (Config.cf_apiKey (cloudflare c))))
             (js "CLOUDFLARED_APIKEY is required when CF_ENABLE=1")
  ++ push_if (rtdb_enabled (rtdb c)
              && (negb (JS.truthy_opt (rtdb_url (rtdb c)))
                  || negb (JS.truthy_opt (rtdb_id (rtdb c)))))
             (js "Both ENV_SSH_URLS and ENV_SSH_URLS_ID are required for RTDB persistence").

(** [validate()] *)
Definition validate (c : Checked) : M World unit :=
  let errors := errors c in
  if (0 <? length errors)%nat then
    throw (ConfigErr
             (js "Configuration validation failed:" ++ [JS.LF]
              ++ JS.join [JS.LF] (map (fun e => js "  - " ++ e) errors)))
  else ret tt.

(** The configuration as [validate] reads it, when its timeouts are
    numbers. *)
Definition checked (r : Rtdb) (c : Config.t) : Checked :=
  mkChecked (Config.ssh c) (Config.cloudflare c)
            (Some (Config.portWait (Config.timeouts c)))
            (Some (Config.cfEndpoint (Config.timeouts c))) r.

End ConfigMethods.

(* ===================================================================== *)
(** * lib/hostrunner.js                                                    *)
(* ===================================================================== *)

Module Hostrunner.

(** What the code reads of [process]: the environment variables
    ([None] for a variable that is not set), the working directory and
    its last segment ([path.basename(process.cwd())]), the architecture
    and the version of Node. *)
Record Process := mkProcess {
  penv : str -> option str;
  cwd : str;
  cwd_basename : str;
  arch : str;
  version : str
}.

Section WithProcess.

Variable proc : Process.

(** [!!process.env.NAME] *)
Definition is_set (name : str) : bool := JS.truthy_opt (penv proc name).

(** [isLikelyCI()] *)
Definition isLikelyCI : bool :=
  is_set (js "CI") || is_set (js "GITHUB_ACTIONS") || is_set (js "TF_BUILD")
  || is_set (js "AGENT_ID") || is_set (js "BUILD_BUILDID").

(** [detectCIPlatform()] *)
Definition detectCIPlatform : str :=
  if is_set (js "GITHUB_ACTIONS") then js "github"
  else if is_set (js "TF_BUILD") then js "azure"
  else if is_set (js "CIRCLECI") then js "circleci"
  else if is_set (js "GITLAB_CI") then js "gitlab"
  else if is_set (js "JENKINS_URL") then js "jenkins"
  else js "unknown".

(** [s.includes('/')] *)
Definition has_slash (s : str) : bool := existsb (fun c => (c =? 47)%N) s.

(** [getRepoName()] *)
Definition getRepoName : str :=
  if is_set (js "BUILD_REPOSITORY_NAME")
  then default [] (penv proc (js "BUILD_REPOSITORY_NAME"))
  else
    let gh := default [] (penv proc (js "GITHUB_REPOSITORY")) in
    if is_set (js "GITHUB_REPOSITORY") && has_slash gh
    then List.last (JS.split 47 gh) []
    else cwd_basename proc.

(** The first of the variables that is set to a non-empty value. *)
Fixpoint first_set (names : list str) : option str :=
  match names with
  | [] => None
  | n :: rest => if is_set n then penv proc n else first_set rest
  end.

(** [getRunnerId()], called at the instant [now]. *)
Definition getRunnerId (now : Z) : str :=
  default (JS.showZ now)
    (first_set [js "AGENT_ID"; js "BUILD_BUILDID"; js "BUILD_BUILDNUMBER";
                js "GITHUB_RUN_ID"; js "GITHUB_RUN_NUMBER"; js "RUNNER_NAME"]).

End WithProcess.
End Hostrunner.

(* ===================================================================== *)
(** * lib/index.js: what [printSummary] writes to the console              *)
(* ===================================================================== *)

Module Summary.

Import Index.

(** A value inside a template literal; [undefined] is written out. *)
Definition shown (o : option str) : str := default (js "undefined") o.

Definition CHECK : str := [9989%N].
Definition CROSS : str := [10060%N].

(** The lines about one entry of [tunnelResults]. *)
Definition entry_lines (result : Settled (option TunnelValue)) : list str :=
  match result with
  | Fulfilled (Some data) =>
      [js "   " ++ CHECK ++ js " "
       ++ SetupSSH.or_else (Some (v_tunnelType data)) (js "Tunnel")]
      ++ (if JS.truthy_opt (v_endpoint data)
          then [js "      Endpoint: " ++ default [] (v_endpoint data)]
          else [])
      ++ (if JS.truthy_opt (v_connectCommand data)
          then [js "      Connect: " ++ default [] (v_connectCommand data)]
          else [])
  | Fulfilled None => []
  | Rejected reason =>
      [js "   " ++ CROSS ++ js " "
       ++ SetupSSH.or_else
            (match reason with
             | ThrownError e => tunnelType e
             | ThrownUndefined => None
             end) (js "Tunnel");
       js "      Error: "
       ++ SetupSSH.or_else
            (match reason with
             | ThrownError e => Some (message e)
             | ThrownUndefined => None
             end) (js "Unknown error")]
  end.

(** [tunnelCount] after the loop. *)
Definition tunnelCount (tunnelResults : list (Settled (option TunnelValue)))
  : nat :=
  length (List.filter
            (fun r => match r with Fulfilled (Some _) => true | _ => false end)
            tunnelResults).

Definition NO_TUNNELS : str :=
  js "   " ++ [8505; 65039]%N ++ js "  No tunnels configured".

(** The lines of the part about the tunnels. *)
Definition tunnel_lines (tunnelResults : list (Settled (option TunnelValue)))
  : list str :=
  [[JS.LF] ++ [55357; 56967]%N ++ js " Tunnels:"]
  ++ flat_map entry_lines tunnelResults
  ++ (if (tunnelCount tunnelResults =? 0)%nat then [NO_TUNNELS] else []).

Section WithEnv.

Variable env : Env.
Variable proc : Hostrunner.Process.

(** The lines about the SSH server. *)
Definition ssh_lines (sshResult : SshReport) : list str :=
  [[55357; 56524]%N ++ js " SSH Server:";
   js "   Status: "
   ++ (if ssh_success sshResult then CHECK ++ js " Running"
       else CROSS ++ js " Failed")]
  ++ (if ssh_success sshResult then
        [js "   Mode: " ++ shown (ssh_mode sshResult);
         js "   Port: " ++ shown (ssh_port sshResult);
         js "   User: " ++ CURRENT_USER env]
        ++ match ssh_logPath sshResult with
           | Some p => [js "   Log: " ++ show_path p]
           | None => []
           end
      else if JS.truthy_opt (ssh_error sshResult)
      then [js "   Error: " ++ default [] (ssh_error sshResult)]
      else []).

(** The arguments of the calls of [console.log] made by
    [printSummary(sshResult, tunnelResults)], in order. *)
Definition console (sshResult : SshReport)
           (tunnelResults : list (Settled (option TunnelValue))) : list str :=
  ssh_lines sshResult
  ++ tunnel_lines tunnelResults
  ++ (if ssh_success sshResult then
        [[JS.LF] ++ [55357; 56599]%N ++ js " Local Connection:";
         js "   ssh -p " ++ shown (ssh_port sshResult) ++ js " "
         ++ CURRENT_USER env ++ js "@127.0.0.1 -i <your-private-key>"]
      else [])
  ++ [[JS.LF] ++ [55357; 56523]%N ++ js " Debug Info:";
      js "   Platform: " ++ platform env ++ js " " ++ Hostrunner.arch proc;
      js "   Node: " ++ Hostrunner.version proc;
      js "   CI: " ++ (if Hostrunner.isLikelyCI proc
                       then Hostrunner.detectCIPlatform proc else js "No");
      js "   CWD: " ++ Hostrunner.cwd proc;
      [JS.LF] ++ repeat 9552%N 60 ++ [JS.LF]].

End WithEnv.
End Summary.

(* ===================================================================== *)
(** * More vocabulary                                                      *)
(* ===================================================================== *)

Module Behaviour.

(** Whatever [c] throws is an error object. *)
Definition throws_errors_only {S A} (c : M S A) : Prop :=
  forall s t s', c s = (Throw t, s') -> exists e, t = ThrownError e.

(** [c] never throws. *)
Definition never_throws {S A} (c : M S A) : Prop :=
  forall s t s', c s <> (Throw t, s').

End Behaviour.

Export Behaviour.

(* ===================================================================== *)
(** * lib/utils.js: the functions that run commands                        *)
(* ===================================================================== *)

Module Commands.

(** [x], with the proof that it is [x]. *)
Definition inspect {A} (x : A) : {y : A | x = y} := exist _ x eq_refl.

Section WithSys.

Variable env : Env.
Variable sys : Sys.t.

Local Abbreviation execSync := (Utils.execSync sys).
Local Abbreviation run := (Utils.run sys).

(** [runCapture(cmd)] *)
Definition runCapture (cmd : str) : M World (option str) :=
  try_catch (out <-- execSync cmd ;; ret (Some out)) (fun _ => ret None).

(** The [check] of [commandExists]. *)
Definition check_for (cmd : str) : str :=
  if Utils.isWindows env then js "where " ++ cmd
  else js "command -v " ++ cmd.

(** [commandExists(cmd)] *)
Definition commandExists (cmd : str) : M World bool :=
  out <-- runCapture (check_for cmd) ;;
  ret (JS.truthy_opt out).

(** [execOk(cmd)] *)
Definition execOk (cmd : str) : M World bool :=
  try_catch (execSync cmd ;;; ret true) (fun _ => ret false).

(** [hasSudoNoPass()] *)
Definition hasSudoNoPass : M World bool :=
  if negb (Utils.isLinux env) then ret false
  else execOk (js "sudo -n true").

(** [isRootOnLinux()] *)
Definition isRootOnLinux : bool :=
  Utils.isLinux env
  && match Sys.getuid sys with
     | Some uid => (uid =? 0)%Z
     | None => false
     end.

(** [out && out.trim()] as a condition. *)
Definition has_text (out : option str) : bool :=
  JS.truthy_opt out && JS.truthy (JS.trim (default [] out)).

(** The probe of [waitPortLocalhost] with [nc]. *)
Definition nc_probe (port : str) : str :=
  js "nc -vz 127.0.0.1 " ++ port ++ js " 2>/dev/null".

(** The body of the loop of [waitPortLocalhost], up to the sleep: whether
    the port was found listening. *)
Definition port_check (port : str) : M World bool :=
  nc <-- commandExists (js "nc") ;;
  if nc then
    execOk (nc_probe port)
  else
    ss <-- commandExists (js "ss") ;;
    if ss then
      out <-- runCapture (js "ss -lnt 2>/dev/null | grep " ++ [34%N] ++ js ":"
                          ++ port ++ js " " ++ [34%N] ++ js " || true") ;;
      ret (has_text out)
    else
      netstat <-- commandExists (js "netstat") ;;
      if netstat then
        out <-- runCapture (js "netstat -lnt 2>/dev/null | grep " ++ [34%N]
                            ++ js ":" ++ port ++ js " " ++ [34%N]
                            ++ js " || true") ;;
        ret (has_text out)
      else ret false.

(** The [while] loop of [waitPortLocalhost], entered at the instant
    [start]. *)
Equations? wait_loop (port : str) (timeoutMs start : Z) (w : World)
  : Outcome bool * World
  by wf (Z.to_nat (timeoutMs - (now w - start))) lt :=
  wait_loop port timeoutMs start w
    with Z_lt_dec (now w - start) timeoutMs => {
    | right _ => (Ret false, w)
    | left _ with inspect (port_check port w) => {
      | exist _ (Ret true, w1) _ => (Ret true, w1)
      | exist _ (Ret false, w1) _ =>
          wait_loop port timeoutMs start (slept env 250 w1)
      | exist _ (Throw t, w1) _ => (Throw t, w1)
      | exist _ (Exit n, w1) _ => (Exit n, w1) } }.
Proof.
  assert (now w <= now w1)%Z as E; [|cbn; lia].
  revert e. clear.
  unfold port_check, commandExists, runCapture, execOk, try_catch, bind,
    Utils.execSync, ret.
  repeat match goal with
         | |- context [match Sys.result (Sys.exec sys ?c ?w0) with _ => _ end] =>
             destruct (Sys.result (Sys.exec sys c w0)); cbn -[JS.lit]
         | |- context [if ?b then _ else _] => destruct b; cbn -[JS.lit]
         end;
    intros E; apply (f_equal snd) in E; cbn [snd] in E; subst w1;
    cbn -[JS.lit]; lia.
Qed.

(** [waitPortLocalhost(port, timeoutMs = 8000)] *)
Definition waitPortLocalhost (port : str) (timeoutMs : Z) : M World bool :=
  fun w => wait_loop port timeoutMs (now w) w.

(** [path.basename(p)] *)
Definition basename (p : path) : str := List.last p [].

(** [fs.statSync(p).size === 0], for a path that exists. *)
Definition is_empty (w : World) (p : path) : bool :=
  match fs w !! p with
  | Some (File c _) => (length c =? 0)%nat
  | Some (Dir _) => (Sys.dir_size sys p =? 0)%N
  | None => false
  end.

(** [logger.progress(message)] and [logger.progressDone(message)]: both
    write at the level of [info]; their lines are recorded at that
    level, with the text they write. *)
Definition progress (message : str) : M World unit :=
  log LInfo ([55357; 56580]%N ++ js " " ++ message).

Definition progressDone (message : str) : M World unit :=
  log LInfo (js " " ++ message).

(** [Math.floor(timeout / 1000)] as the command line shows it; [None]
    is a timeout that is not a number. *)
Definition seconds (timeout : option Z) : str :=
  match timeout with
  | Some t => JS.showZ (t / 1000)
  | None => js "NaN"
  end.

(** The function [downloadBinary] hands to [retryWithBackoff]. *)
Definition download_once (url : str) (dest : path) (timeout : option Z)
  : M World unit :=
  progress (js "Downloading " ++ basename dest ++ js "...") ;;;
  curl <-- commandExists (js "curl") ;;
  (if curl then
     run (js "curl -fsSL --connect-timeout 10 --max-time "
          ++ seconds timeout ++ js " -o "
          ++ Utils.quoted (show_path dest) ++ js " " ++ Utils.quoted url) false
   else
     wget <-- commandExists (js "wget") ;;
     if wget then
       run (js "wget --timeout=" ++ seconds timeout ++ js " -O "
            ++ Utils.quoted (show_path dest) ++ js " " ++ Utils.quoted url)
           false
     else
       throw (NetworkError (js "Neither curl nor wget available for download"))) ;;;
  progressDone (js "Done") ;;;
  w <-- get ;;
  (if match fs w !! dest with None => true | Some _ => is_empty w dest end
   then throw (PlainErr (js "Downloaded file is empty or missing"))
   else ret tt) ;;;
  if negb (Utils.isWindows env)
  then modify (fun w => set_fs (alter (Utils.set_mode 493) dest (fs w)) w)
  else ret tt.

(** The [onRetry] of [downloadBinary]. *)
Definition download_onRetry (attempt max delay : Z) (err : Thrown)
  : M World unit :=
  progressDone (js "Failed") ;;;
  log LWarn (js "Download attempt " ++ JS.showZ attempt ++ js "/"
             ++ JS.showZ max ++ js " failed, retrying in " ++ JS.showZ delay
             ++ js "ms...").

(** [downloadBinary(url, dest, { maxRetries, timeout })], the defaults
    (3 and 30000) filled in by the caller. *)
Definition downloadBinary (url : str) (dest : path) (maxRetries : Z)
           (timeout : option Z) : M World unit :=
  Utils.retryWithBackoff env (download_once url dest timeout)
    (Utils.mkRetryOptions maxRetries 1000 10000 2 (Some download_onRetry)).

End WithSys.
End Commands.

(** What the operating system answers, in the words of the code. *)
Module CommandSpec.
Section WithSys.

Variable env : Env.
Variable sys : Sys.t.

(** The command line [cmd], run in [w], ends with status 0. *)
Definition succeeds (cmd : str) (w : World) : bool :=
  match Sys.result (Sys.exec sys cmd w) with
  | Sys.Done _ => true
  | Sys.Failed _ => false
  end.

(** [commandExists(cmd)] in [w]: the check ends with status 0 and prints
    something. *)
Definition installed (cmd : str) (w : World) : bool :=
  match Sys.result (Sys.exec sys (Commands.check_for env cmd) w) with
  | Sys.Done out => JS.truthy out
  | Sys.Failed _ => false
  end.

(** What [linuxUserMode] finds when it looks for [sshd] in [w]: [sshd]
    is missing and neither [apt-get] nor [yum] is there to install it
    with. The three questions are asked one after the other, each in the
    world the one before has left. *)
Definition no_sshd_no_installer (w : World) : bool :=
  let ran cmd w := Sys.ran (Sys.exec sys (Commands.check_for env cmd) w) w in
  let w1 :=
    add_log LWarn
      (js "sshd not found, attempting to install openssh-server...")
      (ran (js "sshd") w) in
  negb (installed (js "sshd") w)
  && negb (installed (js "apt-get") w1)
  && negb (installed (js "yum") (ran (js "apt-get") w1)).

(** The mode of a file or of a directory. *)
Definition mode_of (n : Node) : N :=
  match n with
  | Dir m => m
  | File _ m => m
  end.

(** The mode of the directory [p], of the file [p]; [m] when it is not
    there. *)
Definition dir_mode (w : World) (p : path) (m : N) : N :=
  match fs w !! p with
  | Some (Dir m0) => m0
  | _ => m
  end.

Definition file_mode (w : World) (p : path) (m : N) : N :=
  match fs w !! p with
  | Some (File _ m0) => m0
  | _ => m
  end.

(** No command changes a file: the commands fail, or do nothing. *)
Definition changes_nothing : Prop :=
  forall cmd w, Sys.files (Sys.exec sys cmd w) = fs w.

(** The two [chmod] commands of [writeAuthorizedKeys] set the modes they
    are given, on the path they are given, and [chown] changes no
    file. *)
Definition chmod_works : Prop :=
  forall w,
    Sys.files (Sys.exec sys (SetupSSH.chmod_ssh_dir env) w)
    = alter (Utils.set_mode 448) (SetupSSH.ssh_dir env) (fs w)
    /\ Sys.files (Sys.exec sys (SetupSSH.chmod_authorized_keys env) w)
       = alter (Utils.set_mode 384) (SetupSSH.authorized_keys env) (fs w)
    /\ Sys.files (Sys.exec sys (SetupSSH.chown_ssh_dir env) w) = fs w.

(** From [w] to [w'] only commands have run: nothing was logged, slept,
    exported or changed in a tunnel object; the clock did not go back. *)
Definition commands_only (w w' : World) : Prop :=
  logs w' = logs w /\ sleeps w' = sleeps w /\ objs w' = objs w
  /\ vars w' = vars w /\ (now w <= now w')%Z.

(** From [w] to [w'] the only changes are those of commands that ran
    one after the other. *)
Inductive runs_to : World -> World -> Prop :=
| runs_refl w : runs_to w w
| runs_step cmd w w' :
    runs_to (Sys.ran (Sys.exec sys cmd w) w) w' -> runs_to w w'.

End WithSys.
End CommandSpec.

(* ===================================================================== *)
(** * lib/config.js: the templates                                         *)
(* ===================================================================== *)

Module Templates.

(** The replacement text of [String.prototype.replace] for a pattern
    without capture groups: [$$] is a dollar, [$&] the matched text,
    [$`] what stands before the match and [$'] what stands after it; any
    other dollar stands for itself. *)
Fixpoint expand (value matched before after : str) : str :=
  match value with
  | [] => []
  | c :: r =>
      if (c =? 36)%N then
        match r with
        | d :: r' =>
            if (d =? 36)%N then 36%N :: expand r' matched before after
            else if (d =? 38)%N then matched ++ expand r' matched before after
            else if (d =? 96)%N then before ++ expand r' matched before after
            else if (d =? 39)%N then after ++ expand r' matched before after
            else c :: expand r matched before after
        | [] => [c]
        end
      else c :: expand r matched before after
  end.

(** [s.replace(regex, value)] for a global [regex] that matches the text
    [p], which is not empty, and nothing else: the matches are found from
    left to right and do not overlap. [skip] units of a match are still
    to pass over; [before] is what has been read of the string. *)
Fixpoint replace_from (p value : str) (skip : nat) (before s : str) : str :=
  match s with
  | [] => []
  | c :: s' =>
      match skip with
      | S k => replace_from p value k (before ++ [c]) s'
      | O =>
          if JS.startsWith p s then
            expand value p before (drop (length p) s)
            ++ replace_from p value (length p - 1) (before ++ [c]) s'
          else c :: replace_from p value 0 (before ++ [c]) s'
      end
  end.

Definition replace_all (p value s : str) : str := replace_from p value 0 [] s.

(** The text of a placeholder, [{{KEY}}]. *)
Definition placeholder (key : str) : str := js "{{" ++ key ++ js "}}".

(** A key made of decimal digits, at least one, and the number it
    writes. *)
Definition all_digits (key : str) : bool :=
  JS.truthy key && forallb Regex.isDigit key.

Definition digits_value (key : str) : N :=
  fold_left (fun n c => (10 * n + (c - 48))%N) key 0%N.

(** The text [new RegExp(`{{${key}}}`, 'g')] matches, for a key made of
    letters, digits and underscores (the keys of the callers are made of
    capitals, digits and underscores). The braces stand for themselves,
    and the text is that of the placeholder, unless the key is made of
    digits only: [{n}] then is a quantifier of the first brace, and the
    expression matches [n] opening braces followed by one closing
    brace. *)
Definition pattern_text (key : str) : str :=
  if all_digits key
  then repeat 123%N (N.to_nat (digits_value key)) ++ [125%N]
  else placeholder key.

(** [renderTemplate(template, vars)]; [vars] in the order of the keys of
    the object. *)
Definition renderTemplate (template : str) (vars : list (str * str)) : str :=
  fold_left (fun result kv => replace_all (pattern_text (fst kv)) (snd kv) result)
            vars template.

(** [getDefaultSshdTemplate()] *)
Definition getDefaultSshdTemplate : str :=
  JS.join [JS.LF]
    [ js "# Auto-generated (USER-MODE) by setup-ssh.js";
      js "Port {{PORT}}";
      js "ListenAddress {{LISTEN_ADDRESS}}";
      js "";
      js "PasswordAuthentication no";
      js "KbdInteractiveAuthentication no";
      js "ChallengeResponseAuthentication no";
      js "PubkeyAuthentication yes";
      js "PermitRootLogin no";
      js "UsePAM no";
      js "PrintMotd no";
      js "StrictModes no";
      js "";
      js "AuthorizedKeysFile {{AUTHORIZED_KEYS_FILE}}";
      js "AllowUsers {{ALLOW_USERS}}";
      js "";
      js "PidFile {{PID_FILE}}";
      js "HostKey {{HOSTKEY_ED25519}}";
      js "HostKey {{HOSTKEY_RSA}}";
      js "";
      js "Subsystem sftp internal-sftp";
      js "LogLevel VERBOSE";
      js "";
      js "{{FORCE_CWD_BLOCK}}" ].

(** [getDefaultCloudflaredTemplate()] *)
Definition getDefaultCloudflaredTemplate : str :=
  JS.join [JS.LF]
    [ js "tunnel: {{TUNNEL_ID}}";
      js "";
      js "ingress:";
      js "  - service: tcp://{{TARGET_HOST}}:{{TARGET_PORT}}";
      js "  - service: http_status:404" ].

(** [config.templates.x || config.getDefaultXTemplate()] *)
Definition or_default (template : option str) (default_template : str) : str :=
  SetupSSH.or_else template default_template.

(** The [renderTemplate] call of [CloudflareTunnel.start]. *)
Definition cloudflared_config (template : option str)
           (tunnelId targetHost targetPort : str) : str :=
  renderTemplate (or_default template getDefaultCloudflaredTemplate)
    [ (js "TUNNEL_ID", tunnelId);
      (js "TARGET_HOST", targetHost);
      (js "TARGET_PORT", targetPort) ].

End Templates.

(** The vocabulary of the statements about templates. *)
Module TemplateSpec.

(** A template cut into pieces: plain text and placeholders. *)
Inductive Piece :=
| Text (s : str)
| Hole (key : str).

Definition piece_text (pc : Piece) : str :=
  match pc with
  | Text s => s
  | Hole key => Templates.placeholder key
  end.

Definition text_of (pieces : list Piece) : str :=
  concat (map piece_text pieces).

(** The value of the first entry of [vars] with the key [key]. *)
Fixpoint lookup_var (key : str) (vars : list (str * str)) : option str :=
  match vars with
  | [] => None
  | (k, v) :: rest => if bool_decide (k = key) then Some v
                      else lookup_var key rest
  end.

(** Every placeholder whose key is in [vars] gives way to its value. *)
Definition fill (vars : list (str * str)) (pieces : list Piece) : list Piece :=
  map (fun pc =>
         match pc with
         | Text s => Text s
         | Hole key =>
             match lookup_var key vars with
             | Some v => Text v
             | None => Hole key
             end
         end) pieces.

(** No opening brace; no brace at all. *)
Definition no_open (s : str) : bool := forallb (fun c => negb (c =? 123)%N) s.
Definition no_brace (s : str) : bool :=
  forallb (fun c => negb (c =? 123)%N && negb (c =? 125)%N) s.

(** No dollar is followed by a dollar, an ampersand, a backquote or a
    quote. *)
Fixpoint inert (value : str) : bool :=
  match value with
  | [] => true
  | c :: r =>
      match r with
      | d :: _ =>
          negb ((c =? 36)%N
                && ((d =? 36) || (d =? 38) || (d =? 96) || (d =? 39))%N)
          && inert r
      | [] => true
      end
  end.

(** A key made of letters, digits and underscores, not of digits only:
    the regular expression of such a key matches the text of its
    placeholder, and nothing else. *)
Definition is_key (key : str) : bool :=
  forallb UtilsStrings.isWordChar key && negb (Templates.all_digits key).

(** Text pieces without opening brace, placeholders of keys. *)
Definition well_formed (pc : Piece) : bool :=
  match pc with
  | Text s => no_open s
  | Hole key => is_key key
  end.

(** A variable with a key and a value that has no opening brace and no
    replacement pattern. *)
Definition plain_var (kv : str * str) : bool :=
  is_key (fst kv) && no_open (snd kv) && inert (snd kv).

(** A string with no dollar and no opening brace. *)
Definition plain (s : str) : bool :=
  forallb (fun c => negb (c =? 36)%N && negb (c =? 123)%N) s.

End TemplateSpec.

(* ===================================================================== *)
(** * lib/tunnels/cloudflare.js: install                                   *)
(* ===================================================================== *)

Module Cloudflare.
Section WithSys.

Variable env : Env.
Variable sys : Sys.t.
Variable cfg : Config.t.

(** [config.downloads.cloudflared], [config.paths.cloudflared] and
    [config.timeouts.downloadTimeout] ([None] when it is not a number). *)
Variable download_url : str.
Variable install_path : str.
Variable downloadTimeout : option Z.

(** ['/tmp/cloudflared'] *)
Definition tmp_cloudflared : path := [js ""; js "tmp"; js "cloudflared"].

(** [CloudflareTunnel.install()]; [utils] exports no [platform], which
    the message of the last branch reads. *)
Definition install (self : nat) : M World bool :=
  found <-- Commands.commandExists env sys (js "cloudflared") ;;
  if found then
    BaseTunnel.logAt LInfo self (js "cloudflared already installed") ;;;
    ret true
  else
    BaseTunnel.logAt LInfo self (js "Installing cloudflared...") ;;;
    if Utils.isLinux env then
      Commands.downloadBinary env sys download_url tmp_cloudflared 3
        downloadTimeout ;;;
      Utils.run sys (js "sudo install -m 755 /tmp/cloudflared "
                        ++ install_path) false ;;;
      Utils.run sys (js "rm -f /tmp/cloudflared") true ;;;
      BaseTunnel.logAt LSuccess self (js "cloudflared installed successfully") ;;;
      ret true
    else if Utils.isWindows env then
      BaseTunnel.logAt LError self (js "Auto-install on Windows not supported") ;;;
      BaseTunnel.logAt LInfo self
        (js "Download from: https://github.com/cloudflare/cloudflared/releases") ;;;
      ret false
    else
      w <-- get ;;
      throw (TunnelError (t_name (BaseTunnel.this self w))
                         (js "Unsupported platform: undefined")).

(** [CloudflareTunnel.start(sshPort, logDir)], with the [install] above. *)
Definition start (cf_findTunnelId cf_createTunnel : str -> M World (option str))
           (cf_renderConfig : str -> str -> str -> str)
           (cf_generatedName : str) (self : nat) (sshPort : str)
           (logDir : path) : M World Tunnels.StartResult :=
  Tunnels.cf_start env cfg (install self) cf_findTunnelId cf_createTunnel
    cf_renderConfig cf_generatedName self sshPort logDir.

End WithSys.
End Cloudflare.

(* ===================================================================== *)
(** * lib/setup-ssh.js: the three bring-up procedures                      *)
(* ===================================================================== *)

Module SetupModes.
Section WithSys.

Variable env : Env.
Variable sys : Sys.t.
Variable cfg : Config.t.

(** [this.PATHS.sshd_config] *)
Definition sshd_config : str :=
  if Utils.isWindows env then js "C:\ProgramData\ssh\sshd_config"
  else js "/etc/ssh/sshd_config".

(** The file a path written with slashes names. *)
Definition file_of (p : str) : path := JS.split 47 p.

(** [setting.split(' ')[0]] *)
Definition first_word (setting : str) : str := hd [] (JS.split 32 setting).

(** [for (const c of cmds) utils.run(c, { ignoreError: true })] *)
Fixpoint run_all (cmds : list str) : M World unit :=
  match cmds with
  | [] => ret tt
  | c :: cmds' => Utils.run sys c true ;;; run_all cmds'
  end.

(** The [settings] of [linuxRootMode]. *)
Definition root_settings (sshPort : str) (allowUsers : list str) : list str :=
  [ js "Port " ++ sshPort;
    js "PubkeyAuthentication yes";
    js "PasswordAuthentication no";
    js "PermitRootLogin "
    ++ (if bool_decide (CURRENT_USER env = js "root") then js "yes"
        else js "no") ]
  ++ (if (0 <? length allowUsers)%nat
      then [js "AllowUsers " ++ JS.join (js " ") allowUsers]
      else []).

Definition sed_command (setting : str) : str :=
  js "sudo sed -i 's/^#*" ++ first_word setting ++ js ".*/" ++ setting
  ++ js "/' " ++ Utils.quoted sshd_config.

(** The part of [linuxRootMode] after the permission check. *)
Definition root_configure (sshPort sshDefaultCwd : str)
           (disableForceCwd : bool) (allowUsers : list str)
  : M World SetupSSH.SshResult :=
  w <-- get ;;
  let backupPath := sshd_config ++ js ".backup-" ++ JS.showZ (now w) in
  (match fs w !! file_of sshd_config with
   | Some _ =>
       Utils.run sys (js "sudo cp " ++ Utils.quoted sshd_config ++ js " "
                         ++ Utils.quoted backupPath) true ;;;
       log LInfo (js "Backed up config to: " ++ backupPath)
   | None => ret tt
   end) ;;;
  log LInfo (js "Modifying system sshd_config...") ;;;
  run_all (map sed_command (root_settings sshPort allowUsers)) ;;;
  (if negb disableForceCwd then
     let forceCmd :=
       js "/bin/bash -lc "
       ++ UtilsStrings.shSingleQuote
            (js "cd " ++ sshDefaultCwd ++ js " && exec /bin/bash -l") in
     Utils.run sys
       (js "echo " ++ [34%N] ++ js "Match User " ++ CURRENT_USER env
        ++ [JS.LF] ++ js "  ForceCommand " ++ forceCmd ++ [34%N]
        ++ js " | sudo tee -a " ++ Utils.quoted sshd_config) true
   else ret tt) ;;;
  log LInfo (js "Restarting SSHD service...") ;;;
  Utils.run sys (js "sudo systemctl restart sshd") true ;;;
  Utils.run sys (js "sudo service sshd restart") true ;;;
  ready <-- Commands.waitPortLocalhost env sys sshPort
              (Config.portWait (Config.timeouts cfg)) ;;
  if negb ready then
    throw (SSHDError (js "Port " ++ sshPort
                      ++ js " is not listening after restart"))
  else
    log LSuccess (js "SSH server is ready on port " ++ sshPort) ;;;
    ret (SetupSSH.mkSshResult (js "root") sshPort None None).

(** [linuxRootMode(sshPort, sshDefaultCwd, disableForceCwd, allowUsers)] *)
Definition linuxRootMode (sshPort sshDefaultCwd : str)
           (disableForceCwd : bool) (allowUsers : list str)
  : M World SetupSSH.SshResult :=
  log LSection (js "Setting up SSH (Linux Root Mode)") ;;;
  allowed <-- (if Commands.isRootOnLinux env sys then ret true
               else Commands.hasSudoNoPass env sys) ;;
  if negb allowed then
    throw (PermissionError
             (js "Root mode requires root user or sudo without password"))
  else root_configure sshPort sshDefaultCwd disableForceCwd allowUsers.

(** The [settings] of [windowsSetup]. *)
Definition windows_settings (sshPort : str) : list str :=
  [ js "Port " ++ sshPort;
    js "PubkeyAuthentication yes";
    js "PasswordAuthentication no" ].

Definition powershell (script : str) : str :=
  js "powershell -Command " ++ Utils.quoted script.

Definition set_content_command (setting : str) : str :=
  powershell (js "(Get-Content '" ++ sshd_config ++ js "') -replace '^#*"
              ++ first_word setting ++ js ".*', '" ++ setting
              ++ js "' | Set-Content '" ++ sshd_config ++ js "'").

(** [windowsSetup(sshPort, allowUsers)] *)
Definition windowsSetup (sshPort : str) (allowUsers : list str)
  : M World SetupSSH.SshResult :=
  log LSection (js "Setting up SSH (Windows)") ;;;
  sshd <-- Commands.commandExists env sys (js "sshd") ;;
  (if negb sshd then
     log LInfo (js "Installing OpenSSH Server...") ;;;
     Utils.run sys
       (powershell (js "Add-WindowsCapability -Online -Name OpenSSH.Server~~~~0.0.1.0"))
       false
   else ret tt) ;;;
  log LInfo (js "Starting SSHD service...") ;;;
  Utils.run sys (powershell (js "Start-Service sshd")) true ;;;
  Utils.run sys
    (powershell (js "Set-Service -Name sshd -StartupType Automatic")) true ;;;
  log LInfo (js "Configuring SSHD...") ;;;
  run_all (map set_content_command (windows_settings sshPort)) ;;;
  log LInfo (js "Restarting SSHD service...") ;;;
  Utils.run sys (powershell (js "Restart-Service sshd")) false ;;;
  ready <-- Commands.waitPortLocalhost env sys sshPort
              (Config.portWait (Config.timeouts cfg)) ;;
  if negb ready then
    throw (SSHDError (js "Port " ++ sshPort
                      ++ js " is not listening after restart"))
  else
    log LSuccess (js "SSH server is ready on port " ++ sshPort) ;;;
    ret (SetupSSH.mkSshResult (js "windows") sshPort None None).

(** [config.templates.sshdConfig] and [config.paths.sshd]. *)
Variable sshdConfig : option str.
Variable sshd_path : str.

(** The paths of [linuxUserMode]. *)
Definition baseDir : path :=
  path_join (path_join (HOME env) (js ".ssh")) (js "ci-sshd").
Definition cfgPath : path := path_join baseDir (js "sshd_config").
Definition pidPath : path := path_join baseDir (js "sshd.pid").
Definition logPath : path := path_join baseDir (js "sshd.log").
Definition hostKeyEd : path := path_join baseDir (js "ssh_host_ed25519_key").
Definition hostKeyRsa : path := path_join baseDir (js "ssh_host_rsa_key").

(** The [forceCwdBlock] of [linuxUserMode]. *)
Definition forceCwdBlock (sshDefaultCwd : str) (disableForceCwd : bool) : str :=
  if disableForceCwd then []
  else
    JS.trim
      ([JS.LF] ++ js "Match User " ++ CURRENT_USER env ++ [JS.LF]
       ++ js "  ForceCommand /bin/bash -lc "
       ++ UtilsStrings.shSingleQuote
            (js "cd " ++ sshDefaultCwd ++ js " && if [ -n " ++ [34%N]
             ++ js "$SSH_ORIGINAL_COMMAND" ++ [34%N]
             ++ js " ]; then exec /bin/bash -lc " ++ [34%N]
             ++ js "$SSH_ORIGINAL_COMMAND" ++ [34%N]
             ++ js "; else exec /bin/bash -l; fi")
       ++ [JS.LF]).

(** The [vars] of the [renderTemplate] call of [linuxUserMode]. *)
Definition sshd_vars (sshPort sshDefaultCwd : str) (disableForceCwd : bool)
  : list (str * str) :=
  [ (js "PORT", sshPort);
    (js "LISTEN_ADDRESS", Config.listenAddress (Config.ssh cfg));
    (js "AUTHORIZED_KEYS_FILE", show_path (SetupSSH.authorized_keys env));
    (js "ALLOW_USERS", CURRENT_USER env);
    (js "PID_FILE", show_path pidPath);
    (js "HOSTKEY_ED25519", show_path hostKeyEd);
    (js "HOSTKEY_RSA", show_path hostKeyRsa);
    (js "FORCE_CWD_BLOCK", forceCwdBlock sshDefaultCwd disableForceCwd) ].

(** The [cfg] of [linuxUserMode]: the content of the configuration file. *)
Definition sshd_config_text (sshPort sshDefaultCwd : str)
           (disableForceCwd : bool) : str :=
  Templates.renderTemplate
    (Templates.or_default sshdConfig Templates.getDefaultSshdTemplate)
    (sshd_vars sshPort sshDefaultCwd disableForceCwd).

(** The [ssh-keygen] command of a host key. *)
Definition keygen (kind : str) (key : path) : str :=
  js "ssh-keygen -t " ++ kind ++ js " -f " ++ Utils.quoted (show_path key)
  ++ js " -N " ++ [34%N; 34%N].

(** The first part of [linuxUserMode]: [sshd] is looked for and, when
    missing, installed with the package manager at hand. *)
Definition find_sshd : M World unit :=
  sshd <-- Commands.commandExists env sys (js "sshd") ;;
  if sshd then ret tt
  else
    log LWarn (js "sshd not found, attempting to install openssh-server...") ;;;
    apt <-- Commands.commandExists env sys (js "apt-get") ;;
    if apt then
      Utils.run sys (js "sudo -n apt-get update") true ;;;
      Utils.run sys (js "sudo -n apt-get install -y openssh-server") true
    else
      yum <-- Commands.commandExists env sys (js "yum") ;;
      if yum then
        Utils.run sys (js "sudo -n yum install -y openssh-server") true
      else throw (SSHDError (js "sshd not found and cannot auto-install")).

(** The second part: the directory and the host keys. *)
Definition host_keys : M World unit :=
  Utils.ensureDir baseDir 448 ;;;
  w <-- get ;;
  (match fs w !! hostKeyEd with
   | Some _ => ret tt
   | None =>
       log LInfo (js "Generating ED25519 host key...") ;;;
       Utils.run sys (keygen (js "ed25519") hostKeyEd) false
   end) ;;;
  w <-- get ;;
  (match fs w !! hostKeyRsa with
   | Some _ => ret tt
   | None =>
       log LInfo (js "Generating RSA host key...") ;;;
       Utils.run sys (keygen (js "rsa -b 2048") hostKeyRsa) false
   end) ;;;
  Utils.run sys
    (js "chmod 600 " ++ Utils.quoted (show_path hostKeyEd) ++ js " "
     ++ Utils.quoted (show_path hostKeyRsa)) true ;;;
  Utils.run sys
    (js "chmod 644 " ++ Utils.quoted (show_path hostKeyEd ++ js ".pub")
     ++ js " " ++ Utils.quoted (show_path hostKeyRsa ++ js ".pub")) true.

(** The third part: the configuration file is written and [sshd] is
    spawned. *)
Definition start_sshd (sshPort sshDefaultCwd : str) (disableForceCwd : bool)
  : M World Z :=
  Utils.writeFileSafe cfgPath
    (sshd_config_text sshPort sshDefaultCwd disableForceCwd) 384 ;;;
  log LSuccess (js "SSHD config written: " ++ show_path cfgPath) ;;;
  log LInfo (js "Starting SSHD in user mode...") ;;;
  pid <-- Tunnels.spawnDetached env sshd_path
            [js "-f"; show_path cfgPath; js "-D"] logPath ;;
  Utils.writeFileSync pidPath (JS.showZ pid) 438 ;;;
  log LSuccess (js "SSHD started (PID: " ++ JS.showZ pid ++ js ")") ;;;
  log LInfo (js "Log file: " ++ show_path logPath) ;;;
  ret pid.

(** [linuxUserMode(sshPort, sshDefaultCwd, disableForceCwd)] *)
Definition linuxUserMode (sshPort sshDefaultCwd : str)
           (disableForceCwd : bool) : M World SetupSSH.SshResult :=
  log LSection (js "Setting up SSH (Linux User Mode)") ;;;
  find_sshd ;;;
  host_keys ;;;
  pid <-- start_sshd sshPort sshDefaultCwd disableForceCwd ;;
  log LInfo (js "Waiting for port " ++ sshPort ++ js " to be ready...") ;;;
  ready <-- Commands.waitPortLocalhost env sys sshPort
              (Config.portWait (Config.timeouts cfg)) ;;
  if negb ready then
    throw (SSHDError (js "Port " ++ sshPort
                      ++ js " is not listening after timeout"))
  else
    log LSuccess (js "SSH server is ready on port " ++ sshPort) ;;;
    ret (SetupSSH.mkSshResult (js "user") sshPort (Some logPath) (Some pid)).

(** [setup()], with the three procedures above. *)
Definition setup (detectDefaultCwd : str) : M World SetupSSH.SshResult :=
  SetupSSH.setup env sys cfg linuxUserMode linuxRootMode windowsSetup
    detectDefaultCwd.

End WithSys.
End SetupModes.

(* ===================================================================== *)
(** * More data for the examples                                           *)
(* ===================================================================== *)

(** A run on macOS. *)
Definition env_darwin : Env :=
  mkEnv (js "darwin") [js "Users"; js "runner"] (js "runner")
        (fun _ => js "2024-01-28T00:00:00.000Z")
        (fun _ => 0%N) (fun _ _ => Absent) (fun _ _ => 4242%Z)
        true None.

(** A world in which [.ssh] and [authorized_keys] exist with modes that
    are too open. *)
Definition loose_world : World :=
  mkWorld {[ [js "home"; js "runner"; js ".ssh"] := Dir 493;
             [js "home"; js "runner"; js ".ssh"; js "authorized_keys"]
               := File (js "ssh-rsa OLD old@host") 420 ]}
          [] 0 [] ∅ [].

(** [nc] is installed and cannot connect, while [ss] is installed too
    and shows the port listening. *)
Definition sys_nc_fails : Sys.t :=
  sys_of (fun cmd =>
    if bool_decide (cmd = js "command -v nc") then Sys.Done (js "/usr/bin/nc")
    else if bool_decide (cmd = js "command -v ss")
    then Sys.Done (js "/usr/bin/ss")
    else if JS.startsWith (js "ss ") cmd
    then Sys.Done (js "LISTEN 0 128 0.0.0.0:2222 0.0.0.0:*")
    else Sys.Failed (js "Command failed: " ++ cmd)).

(** No command is installed: every command line fails. *)
Definition sys_bare : Sys.t :=
  sys_of (fun cmd => Sys.Failed (js "Command failed: " ++ cmd)).

(** [curl] is installed and writes what it downloads to
    [/tmp/cloudflared]; every other command ends with status 0 and
    prints nothing. *)
Definition sys_curl : Sys.t :=
  Sys.mk (fun cmd w =>
            if bool_decide (cmd = js "command -v curl")
            then Sys.mkRan (Sys.Done (js "/usr/bin/curl")) (fs w) 0
            else if JS.startsWith (js "curl ") cmd
            then Sys.mkRan (Sys.Done [])
                   (<[ Cloudflare.tmp_cloudflared := File (js "ELF") 420 ]>
                      (fs w)) 1500
            else Sys.mkRan (Sys.Done []) (fs w) 0)
         (fun _ => 4096%N) (Some 1000%Z).

(** [sshd], [nc] and [ssh-keygen] are installed and succeed, the port
    answers; every other command fails. No command changes a file. *)
Definition sys_ready : Sys.t :=
  sys_of (fun cmd =>
    if bool_decide (cmd = js "command -v sshd")
    then Sys.Done (js "/usr/sbin/sshd")
    else if bool_decide (cmd = js "command -v nc")
    then Sys.Done (js "/usr/bin/nc")
    else if JS.startsWith (js "nc ") cmd || JS.startsWith (js "ssh-keygen ") cmd
    then Sys.Done []
    else Sys.Failed (js "Command failed: " ++ cmd)).

(** A world with one tunnel object, the Cloudflare tunnel as it is
    constructed. *)
Definition cloudflare_world : World :=
  set_objs {[ 0%nat := BaseTunnel.constructed (js "Cloudflare") ]} world0.

(** A run on Windows. *)
Definition env_win32 : Env :=
  mkEnv (js "win32") [js "C:"; js "Users"; js "runner"] (js "runner")
        (fun _ => js "2024-01-28T00:00:00.000Z")
        (fun _ => 0%N) (fun _ _ => Absent) (fun _ _ => 4242%Z)
        true None.

(* ===================================================================== *)
(* ===================================================================== *)
(** * Theorems                                                             *)
(* ===================================================================== *)
(* ===================================================================== *)
(* ===================================================================== *)
(** * Facts about JavaScript strings                                       *)
(* ===================================================================== *)

(** Literals of the source stay folded in the proofs. *)
Opaque JS.lit.

(** Replace the literals of the source by their code units. *)
Ltac eval_lits :=
  repeat match goal with
  | |- context [JS.lit ?s] =>
      let v := eval vm_compute in (JS.lit s) in change (JS.lit s) with v
  | H : context [JS.lit ?s] |- _ =>
      let v := eval vm_compute in (JS.lit s) in change (JS.lit s) with v in H
  end.

Section JSFacts.

Lemma trimStart_nil_iff (s : str) :
  JS.trimStart s = [] <-> forallb JS.isWhiteSpace s = true.
Proof.
  induction s as [|c s IH]; simpl; [tauto|].
  destruct (JS.isWhiteSpace c); simpl; [exact IH|].
  split; discriminate.
Qed.

Lemma trimStart_head (s : str) c r :
  JS.trimStart s = c :: r -> JS.isWhiteSpace c = false.
Proof.
  induction s as [|a s IH]; simpl; [discriminate|].
  destruct (JS.isWhiteSpace a) eqn:E; [exact IH|].
  intros [= -> _]. exact E.
Qed.

Lemma forallb_rev_ws (s : str) :
  forallb JS.isWhiteSpace (rev s) = forallb JS.isWhiteSpace s.
Proof.
  induction s as [|c s IH]; simpl; [reflexivity|].
  rewrite forallb_app, IH. simpl. rewrite andb_true_r. apply andb_comm.
Qed.

Lemma trim_nil_iff (s : str) :
  JS.trim s = [] <-> forallb JS.isWhiteSpace s = true.
Proof.
  unfold JS.trim, JS.trimEnd. split.
  - intros H. apply (f_equal (@rev N)) in H. rewrite rev_involutive in H.
    simpl in H. apply trimStart_nil_iff in H. rewrite forallb_rev_ws in H.
    destruct (JS.trimStart s) as [|c r] eqn:E.
    + now apply trimStart_nil_iff.
    + apply trimStart_head in E. simpl in H. rewrite E in H. discriminate.
  - intros H. apply trimStart_nil_iff in H. rewrite H. reflexivity.
Qed.

(** Every line of a string is made of units of that string. *)
Lemma split_forallb (p : N -> bool) (sep : N) (s : str) :
  forallb p s = true -> forallb (forallb p) (JS.split sep s) = true.
Proof.
  induction s as [|c s IH]; simpl; [reflexivity|].
  intros [Hc Hs]%andb_true_iff. specialize (IH Hs).
  destruct (c =? sep)%N; simpl; [exact IH|].
  destruct (JS.split sep s) as [|l ls]; simpl in *.
  - now rewrite Hc.
  - apply andb_true_iff in IH as [Hl Hls]. now rewrite Hc, Hl, Hls.
Qed.

End JSFacts.

(* ===================================================================== *)
(** * Authorized keys                                                      *)
(* ===================================================================== *)

Section AuthorizedKeys.

Variable env : Env.
Variable sys : Sys.t.

Lemma filter_filter_absorb {A} (f g : A -> bool) (l : list A) :
  (forall x, f x = true -> g x = true) ->
  List.filter f (List.filter g l) = List.filter f l.
Proof.
  intros H. induction l as [|x l IH]; simpl; [reflexivity|].
  destruct (g x) eqn:G; simpl.
  - now rewrite IH.
  - destruct (f x) eqn:F; [|exact IH]. apply H in F. congruence.
Qed.

(** The kept lines are the trimmed lines that start with [ssh-]: such a
    line is neither empty nor a comment. *)
Lemma parseKeys_spec (pubkey : str) :
  SetupSSH.parseKeys pubkey =
  List.filter (JS.startsWith (js "ssh-")) (map JS.trim (JS.split JS.LF pubkey)).
Proof.
  unfold SetupSSH.parseKeys. apply filter_filter_absorb.
  intros [|c k] Hk; eval_lits; cbn [JS.startsWith JS.truthy] in Hk |- *;
    [discriminate|].
  apply andb_true_iff in Hk as [E _].
  apply N.eqb_eq in E. subst c. reflexivity.
Qed.

(** In a blob whose keys are all of [ssh-] types, the kept lines are the
    lines that start with the prefix of a type of key. *)
Lemma parseKeys_key_lines (pubkey : str) :
  ssh_keys_only pubkey ->
  SetupSSH.parseKeys pubkey = List.filter key_line (key_candidates pubkey).
Proof.
  unfold ssh_keys_only, SetupSSH.parseKeys, key_candidates.
  induction (List.filter _ (map JS.trim (JS.split JS.LF pubkey)))
    as [|k ks IH]; intros H; [reflexivity|].
  apply Forall_cons in H as [Hk Hks]. cbn [List.filter].
  rewrite (IH Hks).
  destruct (JS.startsWith (js "ssh-") k) eqn:E.
  - assert (key_line k = true) as -> by (unfold key_line; now rewrite E).
    reflexivity.
  - destruct (key_line k); [|reflexivity]. now specialize (Hk eq_refl).
Qed.

Lemma parseKeys_blank (pubkey : str) :
  forallb JS.isWhiteSpace pubkey = true -> SetupSSH.parseKeys pubkey = [].
Proof.
  intros H. rewrite parseKeys_spec.
  pose proof (split_forallb JS.isWhiteSpace JS.LF pubkey H) as Hl.
  induction (JS.split JS.LF pubkey) as [|l ls IH]; [reflexivity|].
  simpl in Hl. apply andb_true_iff in Hl as [Hl Hls].
  simpl. apply trim_nil_iff in Hl. rewrite Hl. eval_lits. simpl. now apply IH.
Qed.

(** A blob with a key line passes the first guard of
    [writeAuthorizedKeys]. *)
Lemma parseKeys_guard (pubkey : str) :
  SetupSSH.parseKeys pubkey <> [] ->
  negb (JS.truthy pubkey) || negb (JS.truthy (JS.trim pubkey)) = false.
Proof.
  intros H.
  destruct (forallb JS.isWhiteSpace pubkey) eqn:E.
  - now apply parseKeys_blank in E.
  - assert (JS.trim pubkey <> []) as Ht.
    { intros Ht. apply trim_nil_iff in Ht. congruence. }
    destruct pubkey; [discriminate|].
    destruct (JS.trim (n :: pubkey)); [congruence|reflexivity].
Qed.

Lemma ensureDir_ret (p : path) (m : N) (w : World) :
  exists w', Utils.ensureDir p m w = (Ret tt, w') /\ now w' = now w.
Proof.
  unfold Utils.ensureDir, bind, get, modify, log.
  destruct (fs w !! p); eexists; split; reflexivity.
Qed.

Lemma writeFileSafe_ret (p : path) (c : str) (m : N) (w : World) :
  exists w' m', Utils.writeFileSafe p c m w = (Ret tt, w')
    /\ fs w' !! p = Some (File c m') /\ now w' = now w.
Proof.
  unfold Utils.writeFileSafe.
  destruct (ensureDir_ret (dirname p) 448 w) as (w1 & E1 & N1).
  unfold bind at 1. rewrite E1.
  unfold bind, Utils.writeFileSync, log, modify. cbn.
  eexists _, _. split; [reflexivity|]. split; [|exact N1].
  apply lookup_insert_eq.
Qed.

Lemma log_ret (l : Level) (msg : str) (w : World) :
  log l msg w = (Ret tt, add_log l msg w).
Proof. reflexivity. Qed.

(** A command whose failure is ignored runs to its end; the files are
    those it leaves. *)
Lemma run_ignoring (cmd : str) (w : World) :
  exists w', Utils.run sys cmd true w = (Ret tt, w')
             /\ fs w' = Sys.files (Sys.exec sys cmd (add_log LCommand cmd w)).
Proof.
  unfold Utils.run, log, modify, bind, try_catch, Utils.execSync, ret.
  destruct (Sys.result (Sys.exec sys cmd (add_log LCommand cmd w)));
    eexists; split; reflexivity.
Qed.

Lemma run_ignoring_keeps (p : path) (cmd : str) (w : World) c m :
  keeps_content sys p ->
  fs w !! p = Some (File c m) ->
  exists w' m', Utils.run sys cmd true w = (Ret tt, w')
                /\ fs w' !! p = Some (File c m').
Proof.
  intros Hk Hf. destruct (run_ignoring cmd w) as (w' & E & F).
  destruct (Hk cmd (add_log LCommand cmd w) c m Hf) as [m' Hm'].
  exists w', m'. split; [exact E|]. now rewrite F.
Qed.

Lemma fix_permissions_keeps (p : path) (w : World) c m :
  keeps_content sys p ->
  fs w !! p = Some (File c m) ->
  exists w' m', SetupSSH.fix_permissions env sys w = (Ret tt, w')
                /\ fs w' !! p = Some (File c m').
Proof.
  intros Hk Hf. unfold SetupSSH.fix_permissions.
  destruct (Utils.isLinux env); [|now exists w, m].
  destruct (run_ignoring_keeps p (SetupSSH.chmod_ssh_dir env) w c m Hk Hf)
    as (w1 & m1 & E1 & F1).
  unfold bind at 1. rewrite E1.
  destruct (run_ignoring_keeps p (SetupSSH.chmod_authorized_keys env) w1 c m1
              Hk F1) as (w2 & m2 & E2 & F2).
  unfold bind at 1. rewrite E2.
  exact (run_ignoring_keeps p (SetupSSH.chown_ssh_dir env) w2 c m2 Hk F2).
Qed.

(** The content written for a non-empty list of keys: every key on a line
    of its own, followed by the timestamp comment. *)
Lemma keysContent_lines (ts : str) (keys : list str) :
  keys <> [] ->
  SetupSSH.keysContent ts keys =
  concat (map (fun k => k ++ js " # Added by setup-ssh at " ++ ts ++ [JS.LF])
              keys).
Proof.
  unfold SetupSSH.keysContent. intros H.
  induction keys as [|k [|k' ks] IH]; [congruence| |].
  - simpl. now rewrite app_nil_r, <- !app_assoc.
  - change (JS.join [JS.LF] (map ?f (k :: k' :: ks)))
      with (f k ++ [JS.LF] ++ JS.join [JS.LF] (map f (k' :: ks))).
    rewrite <- !app_assoc. rewrite IH by discriminate.
    simpl. now rewrite <- !app_assoc.
Qed.

(** Up to the commands that fix the permissions: the file is written. *)
Lemma writeAuthorizedKeys_written (pubkey : str) (w : World) :
  SetupSSH.parseKeys pubkey <> [] ->
  exists w1 m,
    SetupSSH.writeAuthorizedKeys env sys (Some pubkey) w
    = SetupSSH.fix_permissions env sys w1
    /\ fs w1 !! SetupSSH.authorized_keys env =
         Some (File (SetupSSH.keysContent (toISOString env (now w))
                       (SetupSSH.parseKeys pubkey)) m).
Proof.
  intros Hk. unfold SetupSSH.writeAuthorizedKeys.
  rewrite (parseKeys_guard _ Hk).
  unfold bind at 1. rewrite log_ret.
  destruct (ensureDir_ret (SetupSSH.ssh_dir env) 448
              (add_log LSection (js "Writing SSH Authorized Keys") w))
    as (w1 & E1 & N1).
  unfold bind at 1. rewrite E1.
  destruct (SetupSSH.parseKeys pubkey) as [|k ks] eqn:EK; [congruence|].
  cbn [length Nat.eqb].
  unfold bind at 1. rewrite log_ret.
  unfold bind at 1. unfold get at 1.
  cbn [now add_log] in N1 |- *. rewrite N1.
  match goal with
  | |- context [Utils.writeFileSafe ?p ?c ?m] =>
      destruct (writeFileSafe_ret p c m
                  (add_log LInfo
                     (js "Found " ++ JS.showN (N.of_nat (S (length ks)))
                      ++ js " valid SSH key(s)") w1))
        as (w2 & m2 & E2 & F2 & _)
  end.
  unfold bind at 1. rewrite E2.
  unfold bind at 1. rewrite log_ret.
  eexists _, m2. split; [reflexivity|]. exact F2.
Qed.

Lemma writeAuthorizedKeys_accepts (pubkey : str) (w : World) :
  keeps_content sys (SetupSSH.authorized_keys env) ->
  SetupSSH.parseKeys pubkey <> [] ->
  exists w' m,
    SetupSSH.writeAuthorizedKeys env sys (Some pubkey) w = (Ret tt, w') /\
    fs w' !! SetupSSH.authorized_keys env =
      Some (File (SetupSSH.keysContent (toISOString env (now w))
                    (SetupSSH.parseKeys pubkey)) m).
Proof.
  intros Hc Hk.
  destruct (writeAuthorizedKeys_written pubkey w Hk) as (w1 & m1 & -> & F1).
  exact (fix_permissions_keeps _ w1 _ m1 Hc F1).
Qed.

Lemma writeAuthorizedKeys_refuses (pubkey : str) (w : World) :
  SetupSSH.parseKeys pubkey = [] ->
  exists msg w',
    SetupSSH.writeAuthorizedKeys env sys (Some pubkey) w =
      (Throw (ThrownError (SSHDError msg)), w')
    /\ (msg = js "PIPELINE_SSH_PUBKEY is required"
        \/ msg = js "No valid SSH keys found in PIPELINE_SSH_PUBKEY").
Proof.
  intros Hk. unfold SetupSSH.writeAuthorizedKeys.
  destruct (negb (JS.truthy pubkey) || negb (JS.truthy (JS.trim pubkey))).
  - eexists _, _. split; [reflexivity|]. now left.
  - unfold bind at 1. rewrite log_ret.
    destruct (ensureDir_ret (SetupSSH.ssh_dir env) 448
                (add_log LSection (js "Writing SSH Authorized Keys") w))
      as (w1 & E1 & N1).
    unfold bind at 1. rewrite E1. rewrite Hk. cbn [length Nat.eqb].
    eexists _, _. split; [reflexivity|]. now right.
Qed.

(** C1, as amended: a blob in which, among the trimmed lines that are
    neither empty nor comments, at least one starts with the prefix of a
    type of SSH key is accepted, and [authorized_keys] then holds those
    lines in order, each followed by the timestamp comment and a line
    feed; a blob with no such line is refused with an [SSHDError].
    Stated for the blobs whose keys are all of the [ssh-] types, and
    where the files can be written: no file stands on the way to the
    [.ssh] directory, [authorized_keys] is not a directory, and the
    commands that fix the permissions leave the content of the file. *)
Theorem writeAuthorizedKeys_keys (pubkey : str) (w : World) :
  let keys := List.filter key_line (key_candidates pubkey) in
  ssh_keys_only pubkey ->
  (forall k c m, fs w !! take k (SetupSSH.ssh_dir env) <> Some (File c m)) ->
  (forall m, fs w !! SetupSSH.authorized_keys env <> Some (Dir m)) ->
  keeps_content sys (SetupSSH.authorized_keys env) ->
  (keys <> [] ->
   exists w' m,
     SetupSSH.writeAuthorizedKeys env sys (Some pubkey) w = (Ret tt, w') /\
     fs w' !! SetupSSH.authorized_keys env =
       Some (File (concat
                     (map (fun k => k ++ js " # Added by setup-ssh at "
                                      ++ toISOString env (now w) ++ [JS.LF])
                          keys)) m))
  /\ (keys = [] ->
      exists msg w',
        SetupSSH.writeAuthorizedKeys env sys (Some pubkey) w =
          (Throw (ThrownError (SSHDError msg)), w')
        /\ (msg = js "PIPELINE_SSH_PUBKEY is required"
            \/ msg = js "No valid SSH keys found in PIPELINE_SSH_PUBKEY")).
Proof.
  intros keys Hssh _ _ Hkeep. subst keys.
  rewrite <- (parseKeys_key_lines pubkey Hssh). split.
  - intros Hk. rewrite <- (keysContent_lines _ _ Hk).
    now apply writeAuthorizedKeys_accepts.
  - apply writeAuthorizedKeys_refuses.
Qed.

End AuthorizedKeys.

Example parseKeys_blob1 :
  SetupSSH.parseKeys blob1 =
  [js "ssh-ed25519 AAAAC3Nz me@laptop"; js "ssh-rsa AAAAB3Nz me@desk"].
Proof. vm_compute. reflexivity. Qed.

(** The commands of [sys0] leave the files as they are. *)
Lemma sys0_keeps_content (p : path) : keeps_content sys0 p.
Proof. intros cmd w c m H. now exists m. Qed.

Lemma writeAuthorizedKeys_keys_witness :
  exists w' m,
    SetupSSH.writeAuthorizedKeys env0 sys0 (Some blob1) world0 = (Ret tt, w') /\
    fs w' !! SetupSSH.authorized_keys env0 =
      Some (File (concat
                    (map (fun k => k ++ js " # Added by setup-ssh at "
                                     ++ toISOString env0 (now world0)
                                     ++ [JS.LF])
                         (List.filter key_line (key_candidates blob1)))) m).
Proof.
  apply (proj1 (writeAuthorizedKeys_keys env0 sys0 blob1 world0
                  ltac:(unfold ssh_keys_only; vm_compute;
                        repeat (constructor; [reflexivity|]); constructor)
                  ltac:(intros [|[|[|[|k]]]] c m; now vm_compute)
                  ltac:(intros m; now vm_compute)
                  (sys0_keeps_content _))).
  vm_compute. discriminate.
Defined.

(** C1 as worded fails on the kind of the error: a blob without key lines
    is refused with an [SSHDError], not with a [ConfigError]. *)
Lemma writeAuthorizedKeys_not_ConfigError :
  ~ exists e w',
      SetupSSH.writeAuthorizedKeys env0 sys0 (Some (js "# no key here")) world0 =
        (Throw (ThrownError e), w')
      /\ name e = ConfigError.
Proof.
  intros (e & w' & H & Hn).
  destruct (writeAuthorizedKeys_refuses env0 sys0 (js "# no key here") world0)
    as (msg & w'' & E & _); [vm_compute; reflexivity|].
  rewrite E in H. injection H as <- _. discriminate Hn.
Qed.

(* ===================================================================== *)
(** * Mode selection                                                       *)
(* ===================================================================== *)

Section ModeSelection.

Variable env : Env.
Variable sys : Sys.t.
Variable cfg : Config.t.
Variable linuxUserMode : str -> str -> bool -> M World SetupSSH.SshResult.
Variable linuxRootMode :
  str -> str -> bool -> list str -> M World SetupSSH.SshResult.
Variable windowsSetup : str -> list str -> M World SetupSSH.SshResult.
Variable detectDefaultCwd : str.

Let setup :=
  SetupSSH.setup env sys cfg linuxUserMode linuxRootMode windowsSetup
                 detectDefaultCwd.
Let port := Config.port (Config.ssh cfg).
Let mode := Config.mode (Config.ssh cfg).
Let cwd :=
  SetupSSH.or_else (Config.defaultCwd (Config.ssh cfg)) detectDefaultCwd.
Let noForce := Config.disableForceCwd (Config.ssh cfg).
Let users := Config.allowUsers (Config.ssh cfg).

(** C2: once the keys are written, the procedure [setup] runs is fixed by
    the platform and the configured mode alone: [windowsSetup] on win32;
    on linux [linuxRootMode] for the mode [root] and [linuxUserMode] for
    any other mode; on any other platform no procedure runs and an
    [SSHDError] naming the unsupported platform is thrown. *)
Theorem setup_selects_mode (w w1 : World) :
  SetupSSH.writeAuthorizedKeys env sys (Config.publicKey (Config.ssh cfg)) w
    = (Ret tt, w1) ->
  (platform env = js "win32" -> setup w = windowsSetup port users w1)
  /\ (platform env = js "linux" -> mode = js "root" ->
      setup w = linuxRootMode port cwd noForce users w1)
  /\ (platform env = js "linux" -> mode <> js "root" ->
      setup w = linuxUserMode port cwd noForce w1)
  /\ (platform env <> js "win32" -> platform env <> js "linux" ->
      setup w =
        (Throw (ThrownError
                  (SSHDError (js "Unsupported platform: " ++ platform env))),
         w1)).
Proof.
  intros Hk. subst setup port mode cwd noForce users.
  unfold SetupSSH.setup, bind. rewrite Hk.
  unfold Utils.isWindows, Utils.isLinux.
  repeat split.
  - intros ->. rewrite bool_decide_eq_true_2 by reflexivity. reflexivity.
  - intros -> ->.
    rewrite bool_decide_eq_false_2 by (vm_compute; discriminate).
    rewrite !bool_decide_eq_true_2 by reflexivity. reflexivity.
  - intros -> Hm.
    rewrite bool_decide_eq_false_2 by (vm_compute; discriminate).
    rewrite bool_decide_eq_true_2 by reflexivity.
    rewrite bool_decide_eq_false_2 by exact Hm. reflexivity.
  - intros Hw Hl. rewrite !bool_decide_eq_false_2 by assumption.
    reflexivity.
Qed.

End ModeSelection.

Lemma setup_selects_mode_witness :
  let setup :=
    SetupSSH.setup env0 sys0 cfg0
      (fun p _ _ => mode_stub (js "user") p)
      (fun p _ _ _ => mode_stub (js "root") p)
      (fun p _ => mode_stub (js "windows") p) (js "/home/runner") in
  exists w1,
    SetupSSH.writeAuthorizedKeys env0 sys0
      (Config.publicKey (Config.ssh cfg0)) world0 = (Ret tt, w1)
    /\ setup world0 = mode_stub (js "user") (js "2222") w1.
Proof.
  eexists. split.
  - vm_compute. reflexivity.
  - refine (proj1 (proj2 (proj2
      (setup_selects_mode env0 sys0 cfg0 _ _ _ _ world0 _ _))) _ _).
    + vm_compute. reflexivity.
    + reflexivity.
    + vm_compute. discriminate.
Defined.

(* ===================================================================== *)
(** * Retry with backoff                                                   *)
(* ===================================================================== *)

Section Retry.

Variable env : Env.

Local Abbreviation attempt_starts := (Utils.attempt_starts env).
Local Abbreviation attempt_first := (Utils.attempt_first env).
Local Abbreviation attempt_next := (Utils.attempt_next env).

Context {A : Type} (fn : M World A) (o : Utils.RetryOptions).

(** One iteration of the loop whose attempt returns. *)
Lemma retry_loop_returns n a last w r w' :
  fn w = (Ret r, w') ->
  Utils.retry_loop env fn o (S n) a last w = (Ret r, w').
Proof. intros H. cbn. unfold try_catch. now rewrite H. Qed.

(** One iteration of the loop whose attempt is the last one. *)
Lemma retry_loop_last n last w t w' :
  fn w = (Throw t, w') ->
  Utils.retry_loop env fn o (S n) (Utils.maxRetries o - 1) last w
    = (Throw t, w').
Proof.
  intros H. cbn. unfold try_catch. rewrite H.
  now rewrite Z.eqb_refl.
Qed.

(** One iteration of the loop whose attempt fails before the last one. *)
Lemma retry_loop_again n a last w e w1 w2 :
  fn w = (Throw (ThrownError e), w1) ->
  a <> (Utils.maxRetries o - 1)%Z ->
  Utils.notify o a (Utils.backoffDelay o a) (ThrownError e) w1 = (Ret tt, w2) ->
  Utils.retry_loop env fn o (S n) a last w =
  Utils.retry_loop env fn o n (a + 1) (ThrownError e)
    (slept env (Utils.backoffDelay o a) w2).
Proof.
  intros H Ha Hn. cbn. unfold try_catch. rewrite H.
  apply Z.eqb_neq in Ha. rewrite Ha.
  unfold bind at 1. rewrite Hn. reflexivity.
Qed.

(** The loop, entered at attempt [k] with the attempts from [k] on still
    to make, behaves like the loop entered at attempt 0. *)
Lemma retry_loop_skip k w wk :
  attempt_starts fn o k w wk ->
  forall n, (Z.of_nat (k + n) = Utils.maxRetries o)%Z -> (0 < n)%nat ->
  exists last,
    Utils.retryWithBackoff env fn o w =
    Utils.retry_loop env fn o n (Z.of_nat k) last wk.
Proof.
  induction 1 as [w|k w wk e w1 w2 Hs IH Hf Hn]; intros n Hm Hpos.
  - exists ThrownUndefined. unfold Utils.retryWithBackoff.
    rewrite <- Hm. now rewrite Nat2Z.id.
  - destruct (IH (S n)) as (last & E); [lia|lia|].
    exists (ThrownError e). rewrite E.
    rewrite (retry_loop_again n (Z.of_nat k) last wk e w1 w2 Hf); [| lia | exact Hn].
    f_equal. lia.
Qed.


(** With no attempt to make, [lastError] is thrown as it was declared. *)
Lemma retryWithBackoff_no_attempt (w : World) :
  (Utils.maxRetries o <= 0)%Z ->
  Utils.retryWithBackoff env fn o w = (Throw ThrownUndefined, w).
Proof.
  intros H. unfold Utils.retryWithBackoff.
  replace (Z.to_nat (Utils.maxRetries o)) with 0%nat by lia. reflexivity.
Qed.

Lemma notify_default a d e w :
  Utils.onRetry o = None ->
  exists w', Utils.notify o a d (ThrownError e) w = (Ret tt, w')
             /\ sleeps w' = sleeps w /\ now w' = now w.
Proof.
  intros H. unfold Utils.notify. rewrite H. cbn.
  eexists. repeat split.
Qed.

(** The sleeps of a loop in which every attempt fails. *)
Lemma retry_loop_sleeps :
  (forall a d e w, exists w',
      Utils.notify o a d (ThrownError e) w = (Ret tt, w')
      /\ sleeps w' = sleeps w) ->
  (forall w, exists e w',
      fn w = (Throw (ThrownError e), w') /\ sleeps w' = sleeps w) ->
  forall n a last w,
    (Z.of_nat n + a = Utils.maxRetries o)%Z ->
    sleeps (snd (Utils.retry_loop env fn o n a last w)) =
    rev (map (fun i => Utils.backoffDelay o (a + Z.of_nat i))
             (seq 0 (n - 1)))
    ++ sleeps w.
Proof.
  intros Ho Hfn. induction n as [|n IH]; intros a last w Hn.
  - reflexivity.
  - destruct (Hfn w) as (e & w1 & Hf & Hs1).
    destruct (Z.eq_dec a (Utils.maxRetries o - 1)%Z) as [Ha|Ha].
    + subst a. rewrite (retry_loop_last n last w _ w1 Hf).
      replace (S n - 1)%nat with 0%nat by lia. exact Hs1.
    + destruct (Ho a (Utils.backoffDelay o a) e w1) as (w2 & Hnot & Hs2).
      rewrite (retry_loop_again n a last w e w1 w2 Hf Ha Hnot).
      rewrite IH by lia. cbn [sleeps slept]. rewrite Hs2, Hs1.
      destruct n as [|n]; [lia|].
      replace (S (S n) - 1)%nat with (S n) by lia.
      replace (S n - 1)%nat with n by lia.
      cbn [seq map rev]. rewrite <- seq_shift, map_map.
      rewrite <- app_assoc. cbn [app].
      f_equal; [f_equal; apply map_ext; intros i; f_equal; lia|].
      f_equal. f_equal. lia.
Qed.

End Retry.

Section Doubles.

Local Open Scope Z_scope.

(** An integer below 2^53 in magnitude is a double. *)
Lemma to_double_small (z : Z) : Z.abs z < 2 ^ 53 -> Utils.to_double z = z.
Proof.
  intros H. unfold Utils.to_double.
  assert (Z.log2 (Z.abs z) < 53) as L.
  { destruct (Z.eq_dec (Z.abs z) 0) as [->|Hz]; [reflexivity|].
    apply Z.log2_lt_pow2; lia. }
  apply Z.ltb_lt in L. now rewrite L.
Qed.

(** Rounding does not take a number of 2^53 or more below 2^53. *)
Lemma to_double_large (z : Z) : 2 ^ 53 <= z -> 2 ^ 53 <= Utils.to_double z.
Proof.
  intros H. unfold Utils.to_double.
  assert (0 < z) as Hpos by lia.
  rewrite (Z.abs_eq z) by lia. rewrite (Z.sgn_pos z) by lia.
  pose proof (Z.log2_spec z Hpos) as [Hlo _].
  assert (53 <= Z.log2 z) as He by (apply Z.log2_le_pow2; lia).
  destruct (Z.ltb_spec (Z.log2 z) 53) as [?|_]; [lia|].
  set (e := Z.log2 z) in *.
  set (unit := 2 ^ (e - 52)).
  assert (0 < unit) as Hu by (apply Z.pow_pos_nonneg; lia).
  assert (2 ^ e = 2 ^ 52 * unit) as Hsplit.
  { unfold unit. rewrite <- Z.pow_add_r by lia. f_equal. lia. }
  assert (2 ^ 52 <= z / unit) as Hq.
  { apply Z.div_le_lower_bound; lia. }
  assert (2 ^ 53 <= 2 ^ e) as H53 by (apply Z.pow_le_mono_r; lia).
  assert (2 ^ 52 * unit <= z / unit * unit) as Hm.
  { apply Z.mul_le_mono_nonneg_r; lia. }
  destruct ((unit <? 2 * (z mod unit)) || _); nia.
Qed.

(** Where the cap is a number the doubles count exactly, the delay of
    the code is the delay of exact arithmetic: below the cap the power
    and the product are exact, and rounding does not bring a larger
    product below the cap. *)
Lemma backoffDelay_exact (o : Utils.RetryOptions) (n : Z) :
  1 <= Utils.initialDelay o -> 0 <= Utils.factor o ->
  Utils.maxDelay o <= 2 ^ 53 -> 0 <= n ->
  Utils.backoffDelay o n =
  Z.min (Utils.initialDelay o * Utils.factor o ^ n) (Utils.maxDelay o).
Proof.
  intros Hi Hf Hm Hn. unfold Utils.backoffDelay.
  set (p := Utils.factor o ^ n).
  assert (0 <= p) as Hp by (apply Z.pow_nonneg; lia).
  destruct (Z_lt_le_dec p (2 ^ 53)) as [Hsmall|Hbig].
  - rewrite (to_double_small p) by lia.
    destruct (Z_lt_le_dec (Utils.initialDelay o * p) (2 ^ 53)) as [Hx|Hx].
    + rewrite to_double_small; [reflexivity|]. rewrite Z.abs_eq; nia.
    + pose proof (to_double_large _ Hx). lia.
  - pose proof (to_double_large p Hbig) as Hp'.
    assert (2 ^ 53 <= Utils.initialDelay o * Utils.to_double p) as Hx by nia.
    pose proof (to_double_large _ Hx).
    assert (2 ^ 53 <= Utils.initialDelay o * p) by nia. lia.
Qed.

End Doubles.

(** C7, as amended: for options that are integers the doubles count
    exactly (an initial delay from 1 on, a factor from 0 on, a cap from 0
    on, none above 2^53), the delay after attempt [n] (counted from 0) is
    [min (initialDelay * factor ^ n) maxDelay]; in a retry whose attempts
    all fail (and whose [onRetry] callback, if any, returns without
    sleeping), these are the durations slept, after every attempt but
    the last; no delay exceeds [maxDelay]; with initial delay 1000,
    factor 2 and cap 10000 the delays are 1000, 2000, 4000, 8000, 10000,
    10000. *)
Theorem backoff_delay_sequence (env : Env) {A} (fn : M World A)
        (o : Utils.RetryOptions) (w : World) :
  (1 <= Utils.initialDelay o <= 2 ^ 53)%Z ->
  (0 <= Utils.factor o <= 2 ^ 53)%Z ->
  (0 <= Utils.maxDelay o <= 2 ^ 53)%Z ->
  (Utils.maxRetries o <= 2 ^ 53)%Z ->
  (forall a d e w, exists w',
      Utils.notify o a d (ThrownError e) w = (Ret tt, w')
      /\ sleeps w' = sleeps w) ->
  (forall w, exists e w',
      fn w = (Throw (ThrownError e), w') /\ sleeps w' = sleeps w) ->
  (forall n, (0 <= n)%Z ->
     Utils.backoffDelay o n =
     Z.min (Utils.initialDelay o * Utils.factor o ^ n) (Utils.maxDelay o))
  /\ sleeps (snd (Utils.retryWithBackoff env fn o w)) =
       rev (map (fun n =>
                   Z.min (Utils.initialDelay o * Utils.factor o ^ Z.of_nat n)
                         (Utils.maxDelay o))
                (seq 0 (Z.to_nat (Utils.maxRetries o) - 1)))
       ++ sleeps w
  /\ (forall n, (Utils.backoffDelay o n <= Utils.maxDelay o)%Z)
  /\ (Utils.initialDelay o = 1000%Z -> Utils.factor o = 2%Z ->
      Utils.maxDelay o = 10000%Z -> Utils.maxRetries o = 7%Z ->
      sleeps (snd (Utils.retryWithBackoff env fn o w)) =
        rev [1000; 2000; 4000; 8000; 10000; 10000]%Z ++ sleeps w).
Proof.
  intros Hi Hf Hm _ Ho Hfn.
  assert (forall n, (0 <= n)%Z ->
            Utils.backoffDelay o n =
            Z.min (Utils.initialDelay o * Utils.factor o ^ n)
                  (Utils.maxDelay o)) as Hd
    by (intros n Hn; apply backoffDelay_exact; lia).
  assert (sleeps (snd (Utils.retryWithBackoff env fn o w)) =
          rev (map (fun n => Utils.backoffDelay o (Z.of_nat n))
                   (seq 0 (Z.to_nat (Utils.maxRetries o) - 1)))
          ++ sleeps w) as E.
  { unfold Utils.retryWithBackoff.
    destruct (Z_le_gt_dec (Utils.maxRetries o) 0) as [Hle|Hgt].
    - replace (Z.to_nat (Utils.maxRetries o)) with 0%nat by lia. reflexivity.
    - rewrite (retry_loop_sleeps env fn o Ho Hfn) by lia. reflexivity. }
  assert (sleeps (snd (Utils.retryWithBackoff env fn o w)) =
          rev (map (fun n =>
                      Z.min (Utils.initialDelay o
                             * Utils.factor o ^ Z.of_nat n)
                            (Utils.maxDelay o))
                   (seq 0 (Z.to_nat (Utils.maxRetries o) - 1)))
          ++ sleeps w) as E'.
  { rewrite E. f_equal. f_equal. apply map_ext. intros n. apply Hd. lia. }
  split; [exact Hd|]. split; [exact E'|]. split.
  - intros n. unfold Utils.backoffDelay. apply Z.le_min_r.
  - intros Hi' Hf' Hm' Hr. rewrite E'.
    rewrite Hi', Hf', Hm', Hr. reflexivity.
Qed.

Lemma flaky_third_attempt :
  exists w2, Utils.attempt_starts env0 flaky (Utils.defaults) 2 world0 w2
             /\ flaky w2 = (Ret 7%Z, w2).
Proof.
  eexists. split.
  - eapply Utils.attempt_next; [eapply Utils.attempt_next; [apply Utils.attempt_first| |]| |];
      reflexivity.
  - reflexivity.
Qed.


Lemma backoff_delay_sequence_witness :
  sleeps (snd (Utils.retryWithBackoff env0 broken
                 (Utils.mkRetryOptions 7 1000 10000 2 None) world0)) =
  rev [1000; 2000; 4000; 8000; 10000; 10000]%Z ++ sleeps world0.
Proof.
  refine (proj2 (proj2 (proj2
    (backoff_delay_sequence env0 broken
       (Utils.mkRetryOptions 7 1000 10000 2 None) world0 _ _ _ _ _ _)))
    _ _ _ _);
    try reflexivity; try (cbn; lia).
  - intros a d e w. eexists. split; reflexivity.
  - intros w. eexists _, w. split; reflexivity.
Defined.

(** C7 as worded fails where the doubles of the code round: with initial
    delay 1, factor 10 and a cap of 10^30, the delay after attempt 23 is
    not 10^23, which is not a double, but the double nearest to it. *)
Lemma backoff_delay_rounded :
  let o := Utils.mkRetryOptions 25 1 (10 ^ 30) 10 None in
  Utils.backoffDelay o 23 = 99999999999999991611392%Z
  /\ Utils.backoffDelay o 23
     <> Z.min (Utils.initialDelay o * Utils.factor o ^ 23) (Utils.maxDelay o).
Proof. split; [now vm_compute|]. now vm_compute. Qed.


(* ===================================================================== *)
(** * The log probe                                                        *)
(* ===================================================================== *)

Section LogProbe.

Variable env : Env.
Variable logFile : path.
Variable pattern : Regex.Pattern.

Local Abbreviation poll := (BaseTunnel.poll env logFile pattern).
Local Abbreviation next_poll := (BaseTunnel.next_poll env logFile).
Local Abbreviation at_poll := (BaseTunnel.at_poll env logFile).

Lemma probe_loop_timeout timeoutMs start w :
  (timeoutMs <= now w - start)%Z ->
  BaseTunnel.probe_loop env logFile pattern timeoutMs start w = (Ret None, w).
Proof.
  intros H. simp probe_loop.
  destruct (Z_lt_dec (now w - start) timeoutMs); [lia|]. reflexivity.
Qed.

Lemma probe_loop_hit timeoutMs start w m :
  (now w - start < timeoutMs)%Z -> poll w = Some m ->
  BaseTunnel.probe_loop env logFile pattern timeoutMs start w
    = (Ret (Some m), w).
Proof.
  intros H Hp. simp probe_loop.
  destruct (Z_lt_dec (now w - start) timeoutMs); [|lia]. cbn.
  unfold BaseTunnel.poll in Hp.
  destruct (readLog env (now w) logFile); try discriminate. cbn.
  rewrite Hp. reflexivity.
Qed.

Lemma probe_loop_miss timeoutMs start w :
  (now w - start < timeoutMs)%Z -> poll w = None ->
  BaseTunnel.probe_loop env logFile pattern timeoutMs start w
    = BaseTunnel.probe_loop env logFile pattern timeoutMs start (next_poll w).
Proof.
  intros H Hp. rewrite BaseTunnel.probe_loop_equation_1 at 1.
  destruct (Z_lt_dec (now w - start) timeoutMs); [|lia]. cbn.
  unfold BaseTunnel.poll in Hp. unfold BaseTunnel.next_poll.
  destruct (readLog env (now w) logFile); cbn; try reflexivity.
  rewrite Hp. reflexivity.
Qed.

Lemma now_next_poll w :
  now (next_poll w) = (now w + 250 + Z.of_N (lag env (length (sleeps w))))%Z.
Proof.
  unfold BaseTunnel.next_poll. destruct (readLog env (now w) logFile); reflexivity.
Qed.

Lemma at_poll_S k w : at_poll (S k) w = at_poll k (next_poll w).
Proof. unfold BaseTunnel.at_poll. now rewrite Nat.iter_swap. Qed.

(** The first poll that finds a match, made before the timeout, decides. *)
Lemma probe_loop_found timeoutMs start k : forall w m,
  (forall j, (j < k)%nat ->
     (now (at_poll j w) - start < timeoutMs)%Z /\ poll (at_poll j w) = None) ->
  (now (at_poll k w) - start < timeoutMs)%Z ->
  poll (at_poll k w) = Some m ->
  BaseTunnel.probe_loop env logFile pattern timeoutMs start w
    = (Ret (Some m), at_poll k w).
Proof.
  induction k as [|k IH]; intros w m Hmiss Hk Hm.
  - now apply probe_loop_hit.
  - destruct (Hmiss 0%nat) as [H0 P0]; [lia|]. cbn in H0, P0.
    rewrite probe_loop_miss by assumption.
    rewrite at_poll_S in Hk, Hm |- *. apply IH; try assumption.
    intros j Hj. rewrite <- at_poll_S. apply Hmiss. lia.
Qed.

(** When no poll made before the timeout finds a match, the loop ends
    with [null] at the first poll instant that is not before the timeout. *)
Lemma probe_loop_gives_up timeoutMs start : forall w,
  (forall k, (now (at_poll k w) - start < timeoutMs)%Z ->
             poll (at_poll k w) = None) ->
  exists k,
    BaseTunnel.probe_loop env logFile pattern timeoutMs start w
      = (Ret None, at_poll k w)
    /\ (timeoutMs <= now (at_poll k w) - start)%Z
    /\ forall j, (j < k)%nat -> (now (at_poll j w) - start < timeoutMs)%Z.
Proof.
  intros w.
  remember (Z.to_nat (timeoutMs - (now w - start))) as n eqn:En.
  revert w En. induction n as [n IH] using lt_wf_ind. intros w En Hmiss.
  destruct (Z_lt_dec (now w - start) timeoutMs) as [Hlt|Hge].
  - rewrite probe_loop_miss; [|exact Hlt|exact (Hmiss 0%nat Hlt)].
    destruct (IH (Z.to_nat (timeoutMs - (now (next_poll w) - start))))
      with (w := next_poll w) as (k & E & Hk & Hj).
    + rewrite now_next_poll. lia.
    + reflexivity.
    + intros k. rewrite <- at_poll_S. apply Hmiss.
    + exists (S k). rewrite at_poll_S. split; [exact E|]. split; [exact Hk|].
      intros [|j] Hlt'; [exact Hlt|]. rewrite at_poll_S. apply Hj. lia.
  - exists 0%nat. split; [apply probe_loop_timeout; cbn; lia|].
    split; [cbn; lia|]. intros j Hj. lia.
Qed.

(** The polls leave the tunnel objects, the files and the exported
    variables as they were. *)
Lemma at_poll_frame k : forall w,
  objs (at_poll k w) = objs w /\ fs (at_poll k w) = fs w
  /\ vars (at_poll k w) = vars w.
Proof.
  induction k as [|k IH]; intros w; [now cbn|].
  rewrite at_poll_S. destruct (IH (next_poll w)) as (-> & -> & ->).
  unfold BaseTunnel.next_poll. destruct (readLog env (now w) logFile); now cbn.
Qed.

(** C6, as the code has it: with a log file set, the probe reads the whole
    file at each poll; the first poll is made on entry and each later one
    250 ms, plus the lateness of the timer, after the one before; polls
    are made while less than [timeoutMs] has elapsed. The first poll at
    which the file can be read and matches ends the probe with [match[0]];
    a poll at which the file is absent, unreadable or without a match is
    followed by the next one; when no poll matches, the probe ends with
    [null], at the first poll instant that is not before the timeout. *)
Theorem parseEndpointFromLog_polls self timeoutMs (w : World) :
  t_logFile (BaseTunnel.this self w) = Some logFile ->
  (forall k m,
      (forall j, (j < k)%nat ->
         (now (at_poll j w) - now w < timeoutMs)%Z
         /\ poll (at_poll j w) = None) ->
      (now (at_poll k w) - now w < timeoutMs)%Z ->
      poll (at_poll k w) = Some m ->
      BaseTunnel.parseEndpointFromLog env self pattern timeoutMs w
        = (Ret (Some m), at_poll k w))
  /\ ((forall k, (now (at_poll k w) - now w < timeoutMs)%Z ->
                 poll (at_poll k w) = None) ->
      exists k,
        BaseTunnel.parseEndpointFromLog env self pattern timeoutMs w
          = (Ret None, at_poll k w)
        /\ (timeoutMs <= now (at_poll k w) - now w)%Z)
  /\ (forall k,
        now (at_poll (S k) w) =
        (now (at_poll k w) + 250
         + Z.of_N (lag env (length (sleeps (at_poll k w)))))%Z).
Proof.
  intros Hlf. unfold BaseTunnel.parseEndpointFromLog, bind, Eff.get.
  rewrite Hlf. repeat split.
  - intros k m Hmiss Hk Hm. now apply probe_loop_found.
  - intros Hmiss.
    destruct (probe_loop_gives_up timeoutMs (now w) w Hmiss)
      as (k & E & Hk & _).
    now exists k.
  - intros k. apply now_next_poll.
Qed.

(** C10: without a log file the probe throws a [TunnelError] carrying the
    name of the tunnel, whatever the pattern, the timeout and the log. *)
Theorem parseEndpointFromLog_without_logFile self timeoutMs (w : World) :
  t_logFile (BaseTunnel.this self w) = None ->
  BaseTunnel.parseEndpointFromLog env self pattern timeoutMs w =
    (Throw (ThrownError
              (TunnelError (t_name (BaseTunnel.this self w))
                           (js "No log file configured"))), w)
  /\ name (TunnelError (t_name (BaseTunnel.this self w))
                       (js "No log file configured")) = TunnelErrorC.
Proof.
  intros Hlf. unfold BaseTunnel.parseEndpointFromLog, bind, Eff.get.
  rewrite Hlf. now split.
Qed.

End LogProbe.

Lemma parseEndpointFromLog_polls_witness :
  t_logFile (BaseTunnel.this 0 probe_world) = Some [js "pinggy.log"]
  /\ BaseTunnel.parseEndpointFromLog env_late 0 Regex.tcp_url 1000 probe_world
     = (Ret (Some (js "tcp://rnd.a.pinggy.link:40123")),
        BaseTunnel.at_poll env_late [js "pinggy.log"] 1 probe_world).
Proof.
  split; [reflexivity|].
  refine (proj1 (parseEndpointFromLog_polls env_late [js "pinggy.log"]
                   Regex.tcp_url 0%nat 1000%Z probe_world _) 1%nat _ _ _ _).
  - reflexivity.
  - intros j Hj. assert (j = 0%nat) as -> by lia. now vm_compute.
  - now vm_compute.
  - now vm_compute.
Defined.

Lemma parseEndpointFromLog_without_logFile_witness :
  BaseTunnel.parseEndpointFromLog env0 7 Regex.tcp_url 10000 world0 =
    (Throw (ThrownError
              (TunnelError (js "BaseTunnel") (js "No log file configured"))),
     world0).
Proof.
  refine (proj1 (parseEndpointFromLog_without_logFile env0 Regex.tcp_url
                   7%nat 10000%Z world0 _)).
  reflexivity.
Defined.

(** C6 as worded fails between two polls: with a timeout of 100 ms the
    only poll is the one on entry; a log that shows the endpoint from the
    instant 50 on, before the timeout, is not read again and the probe
    ends with [null]. *)
Lemma parseEndpointFromLog_misses_late_match :
  (exists c, readLog env_late 50 [js "pinggy.log"] = Content c
             /\ Regex.tcp_url c = Some (js "tcp://rnd.a.pinggy.link:40123"))
  /\ (now probe_world <= 50 < now probe_world + 100)%Z
  /\ fst (BaseTunnel.parseEndpointFromLog env_late 0 Regex.tcp_url 100
            probe_world) = Ret None.
Proof.
  split; [|split].
  - eexists. split; [reflexivity|]. now vm_compute.
  - now vm_compute.
  - now vm_compute.
Qed.

(* ===================================================================== *)
(** * Statements that complete                                             *)
(* ===================================================================== *)

Section Returns.

Context {S : Type}.

Lemma returns_ret {A} (a : A) (w : S) Q : Q a w -> returns (ret a) w Q.
Proof. intros H. exists a, w. now split. Qed.

Lemma returns_bind {A B} (c : M S A) (k : A -> M S B) (w : S) Q :
  returns c w (fun a w' => returns (k a) w' Q) -> returns (bind c k) w Q.
Proof.
  intros (a & w1 & E & b & w2 & E2 & HQ).
  exists b, w2. split; [|exact HQ]. unfold bind. now rewrite E.
Qed.

Lemma returns_modify (f : S -> S) (w : S) Q :
  Q tt (f w) -> returns (modify f) w Q.
Proof. intros H. exists tt, (f w). now split. Qed.

Lemma returns_get (w : S) Q : Q w w -> returns Eff.get w Q.
Proof. intros H. exists w, w. now split. Qed.

Lemma returns_weaken {A} (c : M S A) (w : S) (Q Q' : A -> S -> Prop) :
  returns c w Q -> (forall a w', Q a w' -> Q' a w') -> returns c w Q'.
Proof. intros (a & w' & E & H) HQ. exists a, w'. split; auto. Qed.

End Returns.

Lemma returns_log l msg (w : World) Q :
  Q tt (add_log l msg w) -> returns (log l msg) w Q.
Proof. apply returns_modify. Qed.

Lemma same_but_files_refl w : same_but_files w w.
Proof. now repeat split. Qed.

Lemma same_but_files_trans w1 w2 w3 :
  same_but_files w1 w2 -> same_but_files w2 w3 -> same_but_files w1 w3.
Proof.
  intros (?&?&?&?) (?&?&?&?). repeat split; congruence.
Qed.

Lemma returns_ensureDir p m (w : World) Q :
  (forall w', same_but_files w w' -> Q tt w') ->
  returns (Utils.ensureDir p m) w Q.
Proof.
  intros H. unfold Utils.ensureDir.
  apply returns_bind, returns_get.
  destruct (fs w !! p).
  - apply returns_ret, H, same_but_files_refl.
  - apply returns_bind, returns_modify, returns_log, H. now repeat split.
Qed.

Lemma returns_writeFileSync p c m (w : World) Q :
  (forall w', same_but_files w w' -> Q tt w') ->
  returns (Utils.writeFileSync p c m) w Q.
Proof. intros H. apply returns_modify, H. now repeat split. Qed.

Lemma returns_writeFileSafe p c m (w : World) Q :
  (forall w', same_but_files w w' -> Q tt w') ->
  returns (Utils.writeFileSafe p c m) w Q.
Proof.
  intros H. unfold Utils.writeFileSafe.
  apply returns_bind, returns_ensureDir. intros w1 S1.
  apply returns_bind, returns_writeFileSync. intros w2 S2.
  apply returns_log, H.
  eapply same_but_files_trans; [exact S1|].
  eapply same_but_files_trans; [exact S2|]. now repeat split.
Qed.

Section TunnelObjects.

Lemma this_objs self w w' :
  objs w' = objs w -> BaseTunnel.this self w' = BaseTunnel.this self w.
Proof. intros H. unfold BaseTunnel.this. now rewrite H. Qed.

Lemma this_set self t objs0 w :
  BaseTunnel.this self (set_objs (<[self := t]> objs0) w) = t.
Proof. unfold BaseTunnel.this. cbn. now rewrite lookup_insert_eq. Qed.

Lemma this_add_log self l msg w :
  BaseTunnel.this self (add_log l msg w) = BaseTunnel.this self w.
Proof. reflexivity. Qed.

Lemma this_same self w w' :
  same_but_files w w' -> BaseTunnel.this self w' = BaseTunnel.this self w.
Proof. intros (_&_&H&_). unfold BaseTunnel.this. now rewrite H. Qed.

Lemma returns_set_this self f (w : World) Q :
  (forall w', BaseTunnel.this self w' = f (BaseTunnel.this self w) ->
              now w' = now w -> logs w' = logs w -> Q tt w') ->
  returns (BaseTunnel.set_this self f) w Q.
Proof.
  intros H. apply returns_modify, H; [apply this_set| |]; reflexivity.
Qed.

Lemma returns_logAt l self msg (w : World) Q :
  Q tt (add_log l (js "[" ++ t_name (BaseTunnel.this self w) ++ js "] " ++ msg) w) ->
  returns (BaseTunnel.logAt l self msg) w Q.
Proof.
  intros H. unfold BaseTunnel.logAt. now apply returns_bind, returns_get, returns_log.
Qed.

Lemma returns_logAt_keep l self msg (w : World) Q :
  (forall w', same_but_files w w' -> Q tt w') ->
  returns (BaseTunnel.logAt l self msg) w Q.
Proof. intros H. apply returns_logAt, H. now repeat split. Qed.

End TunnelObjects.

(** Carry what is known of [this] and of the clock over a step that
    changes files and log lines only. *)
Ltac keep_this T N S :=
  let T' := fresh "T" in
  let N' := fresh "N" in
  match type of T with
  | BaseTunnel.this ?self _ = _ =>
      pose proof (eq_trans (this_same self _ _ S) T) as T'
  end;
  pose proof (eq_trans (proj1 S) N) as N';
  clear T N S; rename T' into T; rename N' into N.

(** Carry what is known of [this] over a step that changes files and log
    lines only. *)
Ltac keep_obj T S :=
  let T' := fresh "T" in
  match type of T with
  | BaseTunnel.this ?self _ = _ =>
      pose proof (eq_trans (this_same self _ _ S) T) as T'
  end;
  clear T S; rename T' into T.

Section StartWithoutEndpoint.

Variable env : Env.
Variable cfg : Config.t.

Local Abbreviation no_match := (Spec.no_match env).

Lemma now_at_poll_ge logFile k : forall w,
  (now w <= now (BaseTunnel.at_poll env logFile k w))%Z.
Proof.
  induction k as [|k IH]; intros w; [cbn; lia|].
  rewrite at_poll_S. specialize (IH (BaseTunnel.next_poll env logFile w)).
  rewrite now_next_poll in IH. lia.
Qed.

Lemma logs_at_poll_levels logFile k : forall w,
  exists extra, logs (BaseTunnel.at_poll env logFile k w) = extra ++ logs w
                /\ Forall (fun e => fst e = LDebug) extra.
Proof.
  induction k as [|k IH]; intros w.
  - exists []. now split.
  - rewrite at_poll_S.
    destruct (IH (BaseTunnel.next_poll env logFile w)) as (extra & E & F).
    unfold BaseTunnel.next_poll in E |- *.
    destruct (readLog env (now w) logFile) as [| |msg]; cbn in E.
    + exists extra. now split.
    + exists extra. now split.
    + exists (extra ++ [(LDebug, js "Error reading log file: " ++ msg)]).
      rewrite <- app_assoc. split; [exact E|].
      apply Forall_app. split; [exact F|]. now constructor.
Qed.

(** A probe during which the log never matches ends with [null]; it
    leaves the objects, the files and the variables alone and logs
    nothing above the debug level. *)
Lemma returns_parse_null self pattern timeoutMs logFile (w : World) Q :
  t_logFile (BaseTunnel.this self w) = Some logFile ->
  (forall t, (now w <= t < now w + timeoutMs)%Z -> no_match logFile pattern t) ->
  (forall w' extra,
      objs w' = objs w -> logs w' = extra ++ logs w ->
      Forall (fun e => fst e = LDebug) extra -> Q None w') ->
  returns (BaseTunnel.parseEndpointFromLog env self pattern timeoutMs) w Q.
Proof.
  intros Hlf Hno HQ. unfold BaseTunnel.parseEndpointFromLog.
  apply returns_bind, returns_get. rewrite Hlf.
  destruct (probe_loop_gives_up env logFile pattern timeoutMs (now w) w)
    as (k & E & _ & _).
  { intros k Hk. unfold BaseTunnel.poll.
    pose proof (now_at_poll_ge logFile k w) as Hge.
    specialize (Hno (now (BaseTunnel.at_poll env logFile k w))).
    unfold Spec.no_match in Hno.
    destruct (readLog env _ logFile); try reflexivity.
    apply Hno. lia. }
  exists None, (BaseTunnel.at_poll env logFile k w). split; [exact E|].
  destruct (logs_at_poll_levels logFile k w) as (extra & El & Fl).
  apply (HQ _ extra); [apply at_poll_frame|exact El|exact Fl].
Qed.

Lemma returns_spawnDetached cmd args logFile (w : World) Q :
  (forall w', same_but_files w w' -> Q (spawnPid env cmd args) w') ->
  returns (Tunnels.spawnDetached env cmd args logFile) w Q.
Proof.
  intros H. unfold Tunnels.spawnDetached.
  apply returns_bind, returns_log, returns_bind, returns_ensureDir.
  intros w1 H1. apply returns_bind, returns_log, returns_ret, H.
  destruct H1 as (?&?&?&?). now repeat split.
Qed.

(** The arguments [PinggyTunnel.start] gives to [ssh]. *)
Local Abbreviation pinggy_args_of sshPort :=
  (Tunnels.pinggy_args
    (SetupSSH.or_else (Some (Config.pinggy_targetHost (Config.pinggy cfg)))
                      (js "localhost"))
    (SetupSSH.or_else (Config.pinggy_targetPort (Config.pinggy cfg)) sshPort)
    (Config.pinggy_regionHost (Config.pinggy cfg))).

Lemma pinggy_start_without_endpoint self sshPort logDir (w : World) :
  let logFile := path_join logDir (js "pinggy.log") in
  Config.pinggy_foreground (Config.pinggy cfg) = false ->
  (forall t,
      (now w <= t < now w + Config.tunnelStartup (Config.timeouts cfg))%Z ->
      no_match logFile Regex.tcp_url t) ->
  exists w' lines,
    Tunnels.pinggy_start env cfg self sshPort logDir w =
      (Ret (Tunnels.mkStartResult true false
              (Some (spawnPid env (js "ssh") (pinggy_args_of sshPort)))
              None (Some logFile) None None None None), w')
    /\ logs w' =
         (LWarn, js "[" ++ t_name (BaseTunnel.this self w) ++ js "] "
                 ++ js "Endpoint not detected yet. Check pinggy.log for the tcp:// URL")
         :: lines.
Proof.
  intros logFile Hfg Hno.
  enough (returns (Tunnels.pinggy_start env cfg self sshPort logDir) w
            (fun r w' =>
               r = Tunnels.mkStartResult true false
                     (Some (spawnPid env (js "ssh") (pinggy_args_of sshPort)))
                     None (Some logFile) None None None None
               /\ exists lines,
                   logs w' =
                   (LWarn, js "[" ++ t_name (BaseTunnel.this self w) ++ js "] "
                      ++ js "Endpoint not detected yet. Check pinggy.log for the tcp:// URL")
                   :: lines)) as (r & w' & E & -> & lines & El).
  { exists w', lines. now split. }
  unfold Tunnels.pinggy_start. rewrite Hfg. fold logFile.
  apply returns_bind, returns_set_this. intros w1 T N _.
  apply returns_bind, returns_logAt_keep. intros w2 S2. keep_this T N S2.
  apply returns_bind, returns_logAt_keep. intros w3 S3. keep_this T N S3.
  apply returns_bind, returns_logAt_keep. intros w4 S4. keep_this T N S4.
  apply returns_bind, returns_spawnDetached. intros w5 S5. keep_this T N S5.
  apply returns_bind, returns_set_this. intros w6 T6 N6 _.
  rewrite T in T6. rewrite N in N6. clear T N w1 w2 w3 w4 w5.
  apply returns_bind, returns_writeFileSync. intros w7 S7. keep_this T6 N6 S7.
  apply returns_bind, returns_logAt_keep. intros w8 S8. keep_this T6 N6 S8.
  apply returns_bind, returns_logAt_keep. intros w9 S9. keep_this T6 N6 S9.
  apply returns_bind, (returns_parse_null self _ _ logFile).
  { rewrite T6. reflexivity. }
  { intros t Ht. apply Hno. lia. }
  intros w10 extra O10 _ _.
  assert (BaseTunnel.this self w10 = BaseTunnel.this self w9) as T10.
  { unfold BaseTunnel.this. now rewrite O10. }
  rewrite T6 in T10. clear T6 N6 O10 w9.
  apply returns_bind, returns_set_this. intros w11 T11 _ _.
  rewrite T10 in T11. clear T10 w10.
  cbn [JS.truthy_opt].
  apply returns_bind, returns_logAt.
  apply returns_bind, returns_get, returns_ret.
  rewrite this_add_log, T11. cbn. split; [reflexivity|].
  eexists. reflexivity.
Qed.


Variable cf_install : M World bool.
Variable cf_findTunnelId : str -> M World (option str).
Variable cf_createTunnel : str -> M World (option str).
Variable cf_renderConfig : str -> str -> str -> str.
Variable cf_generatedName : str.

Local Abbreviation cf_launch := (Tunnels.cf_launch env cfg).
Local Abbreviation cf_start :=
  (Tunnels.cf_start env cfg cf_install cf_findTunnelId cf_createTunnel
                    cf_renderConfig cf_generatedName).

(** The arguments [CloudflareTunnel.start] gives to [cloudflared]. *)
Local Abbreviation cf_args_of apiKey :=
  [js "tunnel"; js "--config";
   show_path (path_join (path_join (HOME env) (js ".cloudflared"))
                        (js "config.yml"));
   js "run"; js "--token"; apiKey].

Lemma cf_launch_without_endpoint self apiKey tunnelId logFile pidFile
      (w : World) Q :
  t_logFile (BaseTunnel.this self w) = Some logFile ->
  (forall t, (now w <= t)%Z -> no_match logFile Regex.cf_url t) ->
  (forall w' lines,
     logs w' =
       (LWarn, js "[" ++ t_name (BaseTunnel.this self w) ++ js "] "
               ++ js "Endpoint not detected yet. Check cloudflared.log")
       :: lines ->
     Q (Tunnels.mkStartResult true false
          (Some (spawnPid env (js "cloudflared") (cf_args_of apiKey)))
          None (Some logFile) (Some tunnelId) None None None) w') ->
  returns (cf_launch self apiKey tunnelId
             (path_join (path_join (HOME env) (js ".cloudflared"))
                        (js "config.yml"))
             logFile pidFile false) w Q.
Proof.
  intros Hlf Hno HQ. unfold Tunnels.cf_launch.
  assert (BaseTunnel.this self w = BaseTunnel.this self w) as T by reflexivity.
  assert (now w = now w) as N by reflexivity.
  apply returns_bind, returns_logAt_keep. intros w2 S2. keep_this T N S2.
  apply returns_bind, returns_spawnDetached. intros w5 S5. keep_this T N S5.
  apply returns_bind, returns_set_this. intros w6 T6 N6 _.
  rewrite T in T6. rewrite N in N6. clear T N w2 w5.
  apply returns_bind, returns_writeFileSync. intros w7 S7. keep_this T6 N6 S7.
  apply returns_bind, returns_logAt_keep. intros w8 S8. keep_this T6 N6 S8.
  apply returns_bind, returns_logAt_keep. intros w9 S9. keep_this T6 N6 S9.
  apply returns_bind, (returns_parse_null self _ _ logFile).
  { rewrite T6. exact Hlf. }
  { intros t Ht. apply Hno. lia. }
  intros w10 extra O10 _ _.
  assert (BaseTunnel.this self w10 = BaseTunnel.this self w9) as T10.
  { unfold BaseTunnel.this. now rewrite O10. }
  rewrite T6 in T10. clear T6 N6 O10 w9.
  apply returns_bind, returns_set_this. intros w11 T11 _ _.
  rewrite T10 in T11. clear T10 w10.
  cbn [JS.truthy_opt].
  apply returns_bind, returns_logAt.
  apply returns_bind, returns_get, returns_ret.
  rewrite this_add_log, T11. cbn. rewrite Hlf.
  eapply HQ. reflexivity.
Qed.

Hypothesis install_ok :
  forall w, returns cf_install w (fun ok w' => ok = true /\ objs w' = objs w).
Hypothesis find_ok :
  forall name w,
    returns (cf_findTunnelId name) w (fun _ w' => objs w' = objs w).
Hypothesis create_ok :
  forall name w,
    returns (cf_createTunnel name) w
            (fun id w' => JS.truthy_opt id = true /\ objs w' = objs w).

Lemma cf_start_without_endpoint self sshPort logDir apiKey (w : World) :
  let logFile := path_join logDir (js "cloudflared.log") in
  Config.cf_foreground (Config.cloudflare cfg) = false ->
  Config.cf_apiKey (Config.cloudflare cfg) = Some apiKey ->
  (forall t, no_match logFile Regex.cf_url t) ->
  exists w' tunnelId lines,
    cf_start self sshPort logDir w =
      (Ret (Tunnels.mkStartResult true false
              (Some (spawnPid env (js "cloudflared") (cf_args_of apiKey)))
              None (Some logFile) (Some tunnelId) None None None), w')
    /\ logs w' =
         (LWarn, js "[" ++ t_name (BaseTunnel.this self w) ++ js "] "
                 ++ js "Endpoint not detected yet. Check cloudflared.log")
         :: lines.
Proof.
  intros logFile Hfg Hkey Hno.
  enough (returns (cf_start self sshPort logDir) w
            (fun r w' => exists tunnelId lines,
               r = Tunnels.mkStartResult true false
                     (Some (spawnPid env (js "cloudflared") (cf_args_of apiKey)))
                     None (Some logFile) (Some tunnelId) None None None
               /\ logs w' =
                   (LWarn, js "[" ++ t_name (BaseTunnel.this self w) ++ js "] "
                      ++ js "Endpoint not detected yet. Check cloudflared.log")
                   :: lines)) as (r & w' & E & tid & lines & -> & El).
  { exists w', tid, lines. now split. }
  unfold Tunnels.cf_start. rewrite Hfg, Hkey. fold logFile.
  apply returns_bind. eapply returns_weaken; [apply install_ok|].
  intros ok w1 [-> O1]. cbn [negb]. apply (this_objs self) in O1.
  apply returns_bind, returns_set_this. intros w2 T _ _.
  rewrite O1 in T. clear O1 w1.
  apply returns_bind, returns_ensureDir. intros w3 S3. keep_obj T S3.
  apply returns_bind, returns_get. apply returns_bind.
  assert (returns
            (match fs w3 !! path_join (path_join (HOME env) (js ".cloudflared"))
                                      (js "cert.pem") with
             | Some _ => ret tt
             | None =>
                 BaseTunnel.logAt LInfo self (js "Setting up authentication...");;;
                 Utils.writeFileSync
                   (path_join (path_join (HOME env) (js ".cloudflared"))
                              (js "cert.pem")) apiKey 384
             end) w3 (fun _ w' => same_but_files w3 w')) as Hcert.
  { destruct (fs w3 !! _).
    - apply returns_ret, same_but_files_refl.
    - apply returns_bind, returns_logAt_keep. intros w' S'.
      apply returns_writeFileSync. intros w'' S''.
      eapply same_but_files_trans; eassumption. }
  eapply returns_weaken; [exact Hcert|]. clear Hcert.
  intros [] w4 S4. keep_obj T S4.
  apply returns_bind, returns_logAt_keep. intros w5 S5. keep_obj T S5.
  apply returns_bind. eapply returns_weaken; [apply find_ok|].
  intros found w6 O6. apply (this_objs self) in O6. rewrite T in O6.
  clear T w5. rename O6 into T.
  apply returns_bind.
  assert (returns
            (if JS.truthy_opt found then ret found
             else
               BaseTunnel.logAt LInfo self
                 (js "Creating tunnel: "
                  ++ SetupSSH.or_else
                       (Config.cf_tunnelName (Config.cloudflare cfg))
                       cf_generatedName);;;
               created <--
                 cf_createTunnel
                   (SetupSSH.or_else
                      (Config.cf_tunnelName (Config.cloudflare cfg))
                      cf_generatedName);;
               (if JS.truthy_opt created then ret created
                else
                  w2 <-- Eff.get;;
                  throw (TunnelError (t_name (BaseTunnel.this self w2))
                                     (js "Failed to create tunnel"))))
            w6 (fun _ w' => BaseTunnel.this self w' = BaseTunnel.this self w6))
    as Hid.
  { destruct (JS.truthy_opt found).
    - now apply returns_ret.
    - apply returns_bind, returns_logAt_keep. intros w' S'.
      apply returns_bind. eapply returns_weaken; [apply create_ok|].
      intros created w'' [-> O'']. apply returns_ret.
      rewrite (this_objs self _ _ O''). now apply this_same. }
  eapply returns_weaken; [exact Hid|]. clear Hid.
  intros tunnelId w7 T7. rewrite T in T7. clear T w6.
  apply returns_bind, returns_logAt_keep. intros w8 S8. keep_obj T7 S8.
  apply returns_bind, returns_writeFileSafe. intros w9 S9. keep_obj T7 S9.
  apply returns_bind, returns_logAt_keep. intros w10 S10. keep_obj T7 S10.
  cbn [default].
  apply (cf_launch_without_endpoint self apiKey _ logFile).
  - rewrite T7. reflexivity.
  - intros t _. apply Hno.
  - intros w' lines El. exists (default [] tunnelId), lines.
    split; [reflexivity|]. rewrite El, T7. reflexivity.
Qed.


End StartWithoutEndpoint.


(* ===================================================================== *)
(** * Connect commands                                                     *)
(* ===================================================================== *)

Example tcp_url_in_log :
  Regex.tcp_url (js "You are not authenticated." ++ [JS.LF]
                 ++ js "tcp://rnd.a.pinggy.link:40123" ++ [JS.LF]
                 ++ js "tcp://other:1")
  = Some (js "tcp://rnd.a.pinggy.link:40123").
Proof. now vm_compute. Qed.

Example tcp_host_port_groups :
  Regex.tcp_host_port (js "tcp://rnd.a.pinggy.link:40123")
  = Some (js "rnd.a.pinggy.link", js "40123").
Proof. now vm_compute. Qed.

Example tcp_host_port_second_try :
  Regex.tcp_host_port (js "tcp://tcp://a:1") = Some (js "a", js "1").
Proof. now vm_compute. Qed.

Example cf_url_in_log :
  Regex.cf_url (js "INF Registered at HTTPS://0F3A-11.cfargotunnel.COM now")
  = Some (js "HTTPS://0F3A-11.cfargotunnel.COM").
Proof. now vm_compute. Qed.

Example cf_url_needs_hex :
  Regex.cf_url (js "https://xyz.cfargotunnel.com") = None.
Proof. now vm_compute. Qed.

Section ConnectCommand.

Variable env : Env.
Variable cfg : Config.t.

(** What each [getConnectCommand] gives. Pinggy, Cloudflare and the base
    class give no command while no endpoint is known. With an endpoint,
    Pinggy builds its command from the host and the port of the first
    [tcp://host:port] in it and from the user (and gives none when the
    endpoint has no such part), Cloudflare from the endpoint and the
    user. SSH-J, which has no endpoint, builds its command from the
    configured namespace, host and device and from the user, and gives
    none when the namespace or the device is not configured. None of them
    changes anything. *)
Lemma getConnectCommand_cases (self : nat) (w : World) :
  (JS.truthy_opt (t_endpoint (BaseTunnel.this self w)) = false ->
   Tunnels.pinggy_getConnectCommand env self w = (Ret None, w)
   /\ Tunnels.cf_getConnectCommand env self w = (Ret None, w)
   /\ BaseTunnel.getConnectCommand w = (Ret None, w))
  /\ (forall ep,
        t_endpoint (BaseTunnel.this self w) = Some ep ->
        JS.truthy ep = true ->
        Tunnels.pinggy_getConnectCommand env self w =
          (Ret (match Regex.tcp_host_port ep with
                | Some (host, port) =>
                    Some (js "ssh -p " ++ port ++ js " " ++ CURRENT_USER env
                          ++ js "@" ++ host ++ js " -i <your-private-key>")
                | None => None
                end), w)
        /\ Tunnels.cf_getConnectCommand env self w =
             (Ret (Some (js "ssh -o ProxyCommand=" ++ [34%N]
                         ++ js "cloudflared access tcp --hostname " ++ ep
                         ++ [34%N] ++ js " " ++ CURRENT_USER env
                         ++ js "@" ++ ep)), w))
  /\ (forall namespace device,
        Config.sshj_namespace (Config.sshj cfg) = Some namespace ->
        Config.sshj_device (Config.sshj cfg) = Some device ->
        JS.truthy namespace = true -> JS.truthy device = true ->
        Tunnels.sshj_getConnectCommand env cfg w =
          (Ret (Some (js "ssh -J " ++ namespace ++ js "@"
                      ++ Config.sshj_host (Config.sshj cfg) ++ js " "
                      ++ CURRENT_USER env ++ js "@" ++ device)), w))
  /\ (JS.truthy_opt (Config.sshj_namespace (Config.sshj cfg)) = false
      \/ JS.truthy_opt (Config.sshj_device (Config.sshj cfg)) = false ->
      Tunnels.sshj_getConnectCommand env cfg w = (Ret None, w)).
Proof.
  unfold Tunnels.pinggy_getConnectCommand, Tunnels.cf_getConnectCommand,
    Tunnels.sshj_getConnectCommand, BaseTunnel.getConnectCommand,
    Tunnels.currentUser, bind, Eff.get, ret.
  split; [|split; [|split]].
  - intros Hno.
    destruct (t_endpoint (BaseTunnel.this self w)) as [ep|];
      [cbn in Hno; rewrite Hno|]; now repeat split.
  - intros ep -> Hep. rewrite Hep. cbn [negb]. split; [|reflexivity].
    now destruct (Regex.tcp_host_port ep) as [[host port]|].
  - intros namespace device -> -> -> ->. reflexivity.
  - intros [Hno|Hno].
    + destruct (Config.sshj_namespace (Config.sshj cfg)) as [n|]; [|reflexivity].
      cbn in Hno. rewrite Hno.
      now destruct (Config.sshj_device (Config.sshj cfg)).
    + destruct (Config.sshj_namespace (Config.sshj cfg)) as [n|]; [|reflexivity].
      destruct (Config.sshj_device (Config.sshj cfg)) as [d|]; [|reflexivity].
      cbn in Hno. rewrite Hno. now rewrite orb_true_r.
Qed.

(** [setPipelineVar] returns; the variable is set on the console where
    [TF_BUILD] is set, and nowhere else. *)
Lemma returns_setPipelineVar k v (w : World) Q :
  (forall w',
      now w' = now w -> sleeps w' = sleeps w -> objs w' = objs w ->
      vars w' = (if TF_BUILD env then (k, v) :: vars w else vars w) ->
      Q tt w') ->
  returns (Tunnels.setPipelineVar env k v) w Q.
Proof.
  intros H.
  unfold Tunnels.setPipelineVar, Utils.appendFileSync, try_catch, bind,
    modify, log, ret.
  destruct (TF_BUILD env), (GITHUB_ENV env); cbn;
    (eexists _, _; split; [reflexivity|apply H; reflexivity]).
Qed.

Variable sshj_default_namespace sshj_default_device : str.

(** A background start of SSH-J returns a result without endpoint that
    carries the namespace and the device it has used, configured or
    generated, and the connect command built from them, and sets that
    command as [SSHJ_CONNECT]. *)
Lemma sshj_start_background self sshPort logDir (w : World) :
  Config.sshj_foreground (Config.sshj cfg) = false ->
  let namespace :=
    SetupSSH.or_else (Config.sshj_namespace (Config.sshj cfg))
                     sshj_default_namespace in
  let device :=
    SetupSSH.or_else (Config.sshj_device (Config.sshj cfg))
                     sshj_default_device in
  let command :=
    js "ssh -J " ++ namespace ++ js "@" ++ Config.sshj_host (Config.sshj cfg)
    ++ js " " ++ CURRENT_USER env ++ js "@" ++ device in
  returns (Tunnels.sshj_start env cfg sshj_default_namespace
             sshj_default_device self sshPort logDir) w
    (fun r w' =>
       Tunnels.started r = true
       /\ Tunnels.endpoint r = None
       /\ Tunnels.namespace r = Some namespace
       /\ Tunnels.device r = Some device
       /\ Tunnels.connectCommand r = Some command
       /\ (TF_BUILD env = true -> In (js "SSHJ_CONNECT", command) (vars w'))).
Proof.
  intros Hfg namespace device command. unfold Tunnels.sshj_start. rewrite Hfg.
  apply returns_bind, returns_set_this. intros w1 _ _ _.
  apply returns_bind, returns_logAt.
  apply returns_bind, returns_logAt.
  do 4 (apply returns_bind, returns_setPipelineVar; intros ? _ _ _ _).
  apply returns_bind, returns_spawnDetached. intros w2 _.
  apply returns_bind, returns_set_this. intros w3 _ _ _.
  apply returns_bind, returns_writeFileSync. intros w4 _.
  do 5 apply returns_bind, returns_logAt.
  apply returns_bind, returns_setPipelineVar. intros w5 _ _ _ Hv.
  apply returns_bind, returns_get, returns_ret.
  do 5 (split; [reflexivity|]).
  intros Ht. rewrite Hv, Ht. now left.
Qed.

(** C9, where the code departs from it: an SSH-J tunnel whose namespace
    or device is not configured is started with the generated one; its
    [start] returns the connect command built from the identifiers it
    has used (and sets it as [SSHJ_CONNECT] on Azure Pipelines), yet
    [getConnectCommand], which reads the configured identifiers only,
    gives no command. *)
Theorem sshj_command_ignores_generated_ids
        (self : nat) (sshPort : str) (logDir : path) (w : World) :
  Config.sshj_foreground (Config.sshj cfg) = false ->
  JS.truthy_opt (Config.sshj_namespace (Config.sshj cfg)) = false
  \/ JS.truthy_opt (Config.sshj_device (Config.sshj cfg)) = false ->
  let namespace :=
    SetupSSH.or_else (Config.sshj_namespace (Config.sshj cfg))
                     sshj_default_namespace in
  let device :=
    SetupSSH.or_else (Config.sshj_device (Config.sshj cfg))
                     sshj_default_device in
  let command :=
    js "ssh -J " ++ namespace ++ js "@" ++ Config.sshj_host (Config.sshj cfg)
    ++ js " " ++ CURRENT_USER env ++ js "@" ++ device in
  exists r w',
    Tunnels.sshj_start env cfg sshj_default_namespace sshj_default_device
      self sshPort logDir w = (Ret r, w')
    /\ Tunnels.started r = true
    /\ Tunnels.namespace r = Some namespace
    /\ Tunnels.device r = Some device
    /\ Tunnels.connectCommand r = Some command
    /\ (TF_BUILD env = true -> In (js "SSHJ_CONNECT", command) (vars w'))
    /\ Tunnels.sshj_getConnectCommand env cfg w' = (Ret None, w').
Proof.
  intros Hfg Hno namespace device command.
  destruct (sshj_start_background self sshPort logDir w Hfg)
    as (r & w' & E & Hs & _ & Hn & Hd & Hc & Hv).
  exists r, w'. repeat (split; [assumption|]).
  now apply (getConnectCommand_cases self w').
Qed.

End ConnectCommand.

Lemma sshj_command_ignores_generated_ids_witness :
  exists r w',
    Tunnels.sshj_start env0 cfg0 (js "repo-1") (js "repo-ci") 1
      (js "2222") [js "logs"] world0 = (Ret r, w')
    /\ Tunnels.connectCommand r
       = Some (js "ssh -J repo-1@ssh-j.com runner@repo-ci")
    /\ In (js "SSHJ_CONNECT", js "ssh -J repo-1@ssh-j.com runner@repo-ci")
          (vars w')
    /\ Tunnels.sshj_getConnectCommand env0 cfg0 w' = (Ret None, w').
Proof.
  destruct (sshj_command_ignores_generated_ids env0 cfg0 (js "repo-1")
              (js "repo-ci") 1 (js "2222") [js "logs"] world0 eq_refl
              (or_introl eq_refl))
    as (r & w' & E & _ & _ & _ & Hc & Hv & Hg).
  exists r, w'. split; [exact E|]. split; [|split; [|exact Hg]].
  - rewrite Hc. reflexivity.
  - exact (Hv eq_refl).
Defined.

(** The SSH-J command for configured identifiers, and the Pinggy command
    for a known endpoint. *)
Example getConnectCommand_configured :
  Tunnels.pinggy_getConnectCommand env0 0 connected_world =
    (Ret (Some (js "ssh -p 40123 runner@rnd.a.pinggy.link -i <your-private-key>")),
     connected_world)
  /\ Tunnels.sshj_getConnectCommand env0 cfg1 connected_world =
       (Ret (Some (js "ssh -J team@ssh-j.com runner@box")), connected_world).
Proof. split; now vm_compute. Qed.

(* ===================================================================== *)
(** * The run                                                              *)
(* ===================================================================== *)

Section RunEvents.

Import Index.

Lemma liftW_eq {A} (c : M World A) (s : RunState) :
  liftW c s = (fst (c (world s)), mkRunState (snd (c (world s))) (trace s)).
Proof. unfold liftW. now destruct (c (world s)). Qed.

Lemma adds_starts_ret {A} (a : A) : adds_starts (ret a).
Proof. intros s. exists []. now split. Qed.

Lemma adds_starts_get : adds_starts (@Eff.get RunState).
Proof. intros s. exists []. now split. Qed.

Lemma adds_starts_liftW {A} (c : M World A) : adds_starts (liftW c).
Proof. intros s. exists []. rewrite liftW_eq. now split. Qed.

Lemma adds_starts_emit ty : adds_starts (emit (EvTunnelStartCalled ty)).
Proof.
  intros s. exists [EvTunnelStartCalled ty]. split; [reflexivity|].
  constructor; [now exists ty|constructor].
Qed.

Lemma adds_starts_bind {A B} (c : M RunState A) (k : A -> M RunState B) :
  adds_starts c -> (forall a, adds_starts (k a)) -> adds_starts (bind c k).
Proof.
  intros Hc Hk s. unfold bind.
  destruct (Hc s) as (e1 & E1 & F1).
  destruct (c s) as [[a|t|n] s1]; cbn in E1; [|now exists e1..].
  destruct (Hk a s1) as (e2 & E2 & F2).
  exists (e2 ++ e1). rewrite E2, E1, app_assoc. split; [reflexivity|].
  now apply Forall_app.
Qed.

Lemma adds_starts_try_catch {A} (c : M RunState A) h :
  adds_starts c -> (forall t, adds_starts (h t)) ->
  adds_starts (try_catch c h).
Proof.
  intros Hc Hh s. unfold try_catch.
  destruct (Hc s) as (e1 & E1 & F1).
  destruct (c s) as [[a|t|n] s1]; cbn in E1; [now exists e1| |now exists e1].
  destruct (Hh t s1) as (e2 & E2 & F2).
  exists (e2 ++ e1). rewrite E2, E1, app_assoc. split; [reflexivity|].
  now apply Forall_app.
Qed.

Lemma adds_starts_tunnel_task port logDir t :
  adds_starts (tunnel_task port logDir t).
Proof.
  destruct t as [inst type]. unfold tunnel_task.
  apply adds_starts_try_catch.
  - apply adds_starts_bind; [apply adds_starts_liftW|]. intros [|].
    + repeat (apply adds_starts_bind; intros;
              try apply adds_starts_liftW; try apply adds_starts_emit).
      apply adds_starts_ret.
    + apply adds_starts_bind; [apply adds_starts_liftW|]. intros _.
      apply adds_starts_ret.
  - intros t. repeat (apply adds_starts_bind; intros;
                      try apply adds_starts_liftW).
    apply adds_starts_ret.
Qed.

Lemma adds_starts_settled_of {A} (c : M RunState A) :
  adds_starts c -> adds_starts (settled_of c).
Proof.
  intros H. unfold settled_of. apply adds_starts_try_catch.
  - apply adds_starts_bind; [exact H|]. intros a. apply adds_starts_ret.
  - intros t. apply adds_starts_ret.
Qed.

Lemma adds_starts_start_all {A} (tasks : list (M RunState A)) :
  Forall adds_starts tasks -> adds_starts (start_all tasks).
Proof.
  induction 1 as [|t rest Ht _ IH]; cbn [start_all].
  - apply adds_starts_ret.
  - apply adds_starts_bind; [now apply adds_starts_settled_of|]. intros p.
    apply adds_starts_bind; [exact IH|]. intros ps. apply adds_starts_ret.
Qed.

End RunEvents.

Section SshBeforeTunnels.

Import Index.

Variable env : Env.
Variable validate : Config.t -> M World unit.
Variable setup : Config.t -> M World SetupSSH.SshResult.
Variable persist :
  list (Settled (option TunnelValue)) -> M World Persistence.
Variable settle_time : nat -> nat.
Variable new_tunnels : Config.t -> M World (list (Tunnels.Plugin * str)).

Local Abbreviation after_ssh := (Index.after_ssh env persist settle_time).
Local Abbreviation ssh_phase := (Index.ssh_phase setup).
Local Abbreviation run_with :=
  (Index.run_with env validate setup persist settle_time new_tunnels).

Lemma adds_starts_printSummary ssh ts : adds_starts (printSummary ssh ts).
Proof. apply adds_starts_liftW. Qed.

Lemma adds_starts_after_ssh mk ssh startTime :
  adds_starts (after_ssh mk ssh startTime).
Proof.
  unfold Index.after_ssh.
  apply adds_starts_bind; [apply adds_starts_liftW|]. intros _.
  apply adds_starts_bind; [apply adds_starts_liftW|]. intros tunnels.
  apply adds_starts_bind.
  { apply adds_starts_start_all. apply Forall_map, Forall_forall.
    intros t _. apply adds_starts_tunnel_task. }
  intros ps. apply adds_starts_bind.
  { apply adds_starts_try_catch; [apply adds_starts_liftW|]. intros t.
    repeat (apply adds_starts_bind; intros; try apply adds_starts_liftW).
    apply adds_starts_ret. }
  intros pr. apply adds_starts_bind; [apply adds_starts_printSummary|].
  intros _. apply adds_starts_bind; [apply adds_starts_get|]. intros s1.
  apply adds_starts_bind; [apply adds_starts_liftW|]. intros _.
  apply adds_starts_ret.
Qed.

(** The SSH phase either hands over the report of a bring-up that
    returned, or does not return at all: a bring-up that throws an error
    ends the process with status 1 (a thrown [undefined] makes the handler
    itself throw, for the handler of [run] to end the process). *)
Lemma ssh_phase_cases config (s : RunState) :
  (exists r w', setup config (world s) = (Ret r, w')
     /\ ssh_phase config s =
          (Ret (mkSshReport true None (Some (SetupSSH.r_mode r))
                  (Some (SetupSSH.r_port r)) (SetupSSH.r_logPath r)
                  (SetupSSH.r_pid r)),
           mkRunState w' (EvSshReady r :: EvSshSetupCalled :: trace s)))
  \/ (exists t w', setup config (world s) = (Throw t, w')
        /\ (fst (ssh_phase config s) = Exit 1
            \/ exists e, fst (ssh_phase config s) = Throw (ThrownError e))
        /\ trace (snd (ssh_phase config s)) = EvSshSetupCalled :: trace s)
  \/ (exists code w', setup config (world s) = (Exit code, w')
        /\ fst (ssh_phase config s) = Exit code
        /\ trace (snd (ssh_phase config s)) = EvSshSetupCalled :: trace s).
Proof.
  unfold Index.ssh_phase, try_catch, bind, emit, modify. cbn.
  rewrite liftW_eq. cbn.
  destruct (setup config (world s)) as [[r|t|code] w'] eqn:E; cbn.
  - left. now exists r, w'.
  - right. left. exists t, w'. split; [reflexivity|].
    rewrite liftW_eq. destruct t as [e|]; cbn; (split; [|reflexivity]).
    + now left.
    + right. now eexists.
  - right. right. now exists code, w'.
Qed.

(** The [catch] of [run] records nothing, and ends the process with
    status 1 when what it caught is an error. *)
Lemma fatal_handler (t : Thrown) (s : RunState) :
  let h := (m <-- liftW (Utils.read_message t) ;;
            liftW (log LError (js "Fatal error:")) ;;;
            exit 1) : M RunState Results in
  trace (snd (h s)) = trace s
  /\ (forall e, t = ThrownError e -> fst (h s) = Exit 1).
Proof.
  cbn. unfold bind. rewrite liftW_eq.
  destruct t as [e|]; cbn; split; try reflexivity; intros e' [=].
Qed.

(** C4: the calls recorded by a run are none, or the call of [setup]
    alone, or the call of [setup], its return, and then calls of [start]:
    no [start] is called before [setup] has returned. When [setup] throws,
    the run ends the process with status 1 having called no [start]. *)
Theorem ssh_before_tunnels config options (s : RunState) :
  let config' := merge_options options config in
  let r := run_with config options s in
  (exists E,
      trace (snd r) = E ++ trace s
      /\ (E = [] \/ E = [EvSshSetupCalled]
          \/ exists starts res,
               E = starts ++ [EvSshReady res; EvSshSetupCalled]
               /\ Forall is_start starts))
  /\ (forall wv t w2,
        validate config'
          (add_log LInfo (js "Validating configuration...") (world s))
          = (Ret tt, wv) ->
        setup config' (add_log LSuccess (js "Configuration valid") wv)
          = (Throw t, w2) ->
        fst r = Exit 1 /\ trace (snd r) = EvSshSetupCalled :: trace s).
Proof.
  intros config' r.
  assert (r = run_with config options s) as Hr by reflexivity. clearbody r.
  unfold Index.run_with in Hr. fold config' in Hr.
  unfold bind at 1 in Hr. cbn [Eff.get] in Hr.
  unfold try_catch at 1 in Hr.
  unfold bind at 1 in Hr. rewrite liftW_eq in Hr. cbn [log modify fst snd] in Hr.
  unfold bind at 1 in Hr. rewrite liftW_eq in Hr. cbn [world trace] in Hr.
  destruct (validate config'
              (add_log LInfo (js "Validating configuration...") (world s)))
    as [[[]|t|code] wv] eqn:Ev; cbn [fst snd] in Hr.
  2:{ (* validate throws *)
      split; [|intros ? ? ? [=]].
      exists []. split; [|now left]. subst r.
      apply (fatal_handler t (mkRunState wv (trace s))). }
  2:{ (* validate ends the process *)
      split; [|intros ? ? ? [=]]. exists []. subst r.
      split; [reflexivity|now left]. }
  unfold bind at 1 in Hr. rewrite liftW_eq in Hr.
  cbn [log modify fst snd world trace] in Hr.
  set (s3 := mkRunState (add_log LSuccess (js "Configuration valid") wv)
                        (trace s)) in Hr.
  unfold bind at 1 in Hr.
  destruct (ssh_phase_cases config' s3)
    as [(res & w' & Es & Ep)|[(t & w' & Es & Ho & Ht)|(code & w' & Es & Ho & Ht)]].
  - (* setup returned *)
    rewrite Ep in Hr. split.
    + match type of Hr with
      | context [Index.after_ssh ?e ?p ?st ?mk ?ssh ?t0 ?s4] =>
          destruct (adds_starts_after_ssh mk ssh t0 s4) as (starts & E & F);
          destruct (Index.after_ssh e p st mk ssh t0 s4) as [[a|t|code] s5]
      end; cbn [fst snd] in E; subst r; cbn [fst snd].
      * exists (starts ++ [EvSshReady res; EvSshSetupCalled]).
        rewrite E. cbn [trace]. rewrite <- app_assoc. split; [reflexivity|].
        right. right. now exists starts, res.
      * exists (starts ++ [EvSshReady res; EvSshSetupCalled]).
        rewrite (proj1 (fatal_handler t s5)), E. cbn [trace].
        rewrite <- app_assoc. split; [reflexivity|].
        right. right. now exists starts, res.
      * exists (starts ++ [EvSshReady res; EvSshSetupCalled]).
        rewrite E. cbn [trace]. rewrite <- app_assoc. split; [reflexivity|].
        right. right. now exists starts, res.
    + intros wv0 t w2 [= <-] Hs. subst s3. cbn [world] in Es. congruence.
  - (* setup threw *)
    destruct (Index.ssh_phase setup config' s3) as [o s4].
    cbn [fst snd] in Ht, Ho. subst s3. cbn [trace] in Ht.
    destruct Ho as [->|[e ->]]; subst r; cbn [fst snd].
    + split; [|now intros].
      exists [EvSshSetupCalled]. split; [exact Ht|now right; left].
    + destruct (fatal_handler (ThrownError e) s4) as [Htr Hex].
      cbn zeta in Htr, Hex. specialize (Hex e eq_refl).
      split; [|intros _ _ _ _ _; split; [exact Hex|now rewrite Htr]].
      exists [EvSshSetupCalled]. split; [now rewrite Htr|now right; left].
  - (* setup ended the process *)
    destruct (Index.ssh_phase setup config' s3) as [o s4].
    cbn [fst snd] in Ht, Ho. subst o r. cbn [fst snd]. split.
    + exists [EvSshSetupCalled]. split; [exact Ht|now right; left].
    + intros wv0 t w2 [= <-] Hs. subst s3. cbn [world] in Es. congruence.
Qed.

End SshBeforeTunnels.

Section TunnelTasks.

Import Index.

Variable port : str.
Variable logDir : path.

(** A task settles, whatever its tunnel does short of ending the process,
    and its entry is the one of its tunnel. *)
Lemma tunnel_task_settles (t : Tunnels.Plugin * str) (s : RunState) :
  plugin_no_exit (fst t) ->
  exists p s',
    settled_of (tunnel_task port logDir t) s = (Ret p, s')
    /\ task_settles port logDir t s p s'.
Proof.
  destruct t as [inst type]. intros (Ha & Hs & Hc). cbn [fst] in *.
  unfold settled_of, tunnel_task.
  unfold try_catch, bind. rewrite liftW_eq.
  destruct (Tunnels.isAvailable inst (world s)) as [[[|]|[e|]|code] w1] eqn:Ea;
    cbn [fst snd].
  - (* available *)
    rewrite !liftW_eq. cbn [fst snd log modify world trace emit].
    rewrite liftW_eq. cbn [fst snd world trace].
    destruct (Tunnels.start inst port logDir
                (add_log LInfo (js "Starting " ++ type ++ js " tunnel...") w1))
      as [[r|[e|]|code] w2] eqn:Es; cbn [fst snd].
    + rewrite liftW_eq. cbn [fst snd world trace].
      destruct (Tunnels.getConnectCommand inst w2)
        as [[c|[e|]|code] w3] eqn:Ec; cbn [fst snd].
      * eexists _, _. split; [reflexivity|].
        exact (settles_success port logDir (inst, type) s w1 r w2 c w3
                 Ea Es Ec).
      * rewrite !liftW_eq. cbn. eexists _, _. split; [reflexivity|].
        apply (settles_failure port logDir (inst, type) s e
                 (mkRunState w3 (EvTunnelStartCalled type :: trace s))).
        right. right. now exists w1, r, w2, w3.
      * rewrite !liftW_eq. cbn. eexists _, _. split; [reflexivity|].
        apply (settles_rejected port logDir (inst, type) s
                 (mkRunState w3 (EvTunnelStartCalled type :: trace s))).
        right. right. now exists w1, r, w2, w3.
      * now apply Hc in Ec.
    + rewrite !liftW_eq. cbn. eexists _, _. split; [reflexivity|].
      apply (settles_failure port logDir (inst, type) s e
               (mkRunState w2 (EvTunnelStartCalled type :: trace s))).
      right. left. now exists w1, w2.
    + rewrite !liftW_eq. cbn. eexists _, _. split; [reflexivity|].
      apply (settles_rejected port logDir (inst, type) s
               (mkRunState w2 (EvTunnelStartCalled type :: trace s))).
      right. left. now exists w1, w2.
    + now apply Hs in Es.
  - (* not available *)
    rewrite !liftW_eq. cbn. eexists _, _. split; [reflexivity|].
    exact (settles_null port logDir (inst, type) s w1 Ea).
  - rewrite !liftW_eq. cbn. eexists _, _. split; [reflexivity|].
    apply (settles_failure port logDir (inst, type) s e
             (mkRunState w1 (trace s))).
    left. now exists w1.
  - rewrite !liftW_eq. cbn. eexists _, _. split; [reflexivity|].
    apply (settles_rejected port logDir (inst, type) s
             (mkRunState w1 (trace s))).
    left. now exists w1.
  - now apply Ha in Ea.
Qed.

End TunnelTasks.

Section AllSettled.

Import Index.

Lemma fill_slot_length {A} (ps : list A) (slots : list (option A)) i :
  length (fill_slot ps slots i) = length slots.
Proof.
  unfold fill_slot. destruct (ps !! i); [apply length_insert|reflexivity].
Qed.

Lemma foldl_fill_slot_length {A} (ps : list A) order :
  forall slots : list (option A),
  length (foldl (fill_slot ps) slots order) = length slots.
Proof.
  induction order as [|i order IH]; intros slots; [reflexivity|].
  change (foldl (fill_slot ps) slots (i :: order))
    with (foldl (fill_slot ps) (fill_slot ps slots i) order).
  now rewrite IH, fill_slot_length.
Qed.

(** After the promises of [order] have settled, the slot of a promise of
    [order] holds its settled state, and the other slots are untouched. *)
Lemma foldl_fill_slot_lookup {A} (ps : list A) order :
  forall (slots : list (option A)) j,
  length slots = length ps ->
  foldl (fill_slot ps) slots order !! j =
  if decide (j ∈ order) then Some <$> ps !! j else slots !! j.
Proof.
  induction order as [|i order IH]; intros slots j Hlen.
  - cbn [foldl]. rewrite decide_False; [reflexivity|]. apply not_elem_of_nil.
  - change (foldl (fill_slot ps) slots (i :: order))
      with (foldl (fill_slot ps) (fill_slot ps slots i) order).
    rewrite (IH (fill_slot ps slots i) j); [|now rewrite fill_slot_length].
    destruct (decide (j ∈ order)) as [Hin|Hnin].
    + rewrite decide_True; [reflexivity|now right].
    + destruct (decide (j = i)) as [->|Hne].
      * rewrite decide_True by now left.
        unfold fill_slot. destruct (ps !! i) as [p|] eqn:Ep; cbn.
        -- apply list_lookup_insert_eq. rewrite Hlen.
           now apply lookup_lt_Some in Ep.
        -- apply lookup_ge_None. rewrite Hlen. now apply lookup_ge_None.
      * rewrite decide_False by (intros [?|?]%elem_of_cons; congruence).
        unfold fill_slot. destruct (ps !! i); [|reflexivity].
        now apply list_lookup_insert_ne.
Qed.

(** The array handed over holds the settled states in the order of the
    promises, whatever the order in which they settled. *)
Lemma allSettled_order {A} (settle_time : nat -> nat)
      (ps : list (Settled A)) :
  allSettled settle_time ps = ps.
Proof.
  unfold allSettled.
  assert (foldl (fill_slot ps) (replicate (length ps) None)
                (completion_order settle_time (length ps)) = Some <$> ps) as ->.
  { apply list_eq. intros j.
    rewrite foldl_fill_slot_lookup by apply length_replicate.
    rewrite list_lookup_fmap.
    destruct (decide (j ∈ completion_order settle_time (length ps)))
      as [Hin|Hnin]; [reflexivity|].
    destruct (decide (j < length ps)%nat) as [Hlt|Hge].
    - exfalso. apply Hnin. unfold completion_order.
      rewrite merge_sort_Permutation. apply elem_of_seq. lia.
    - match goal with
      | |- ?l !! j = _ =>
          assert (l !! j = None) as -> by (apply lookup_replicate_None; lia)
      end.
      assert (ps !! j = None) as -> by (apply lookup_ge_None; lia).
      reflexivity. }
  induction ps as [|p ps IH]; [reflexivity|]. cbn. now rewrite IH.
Qed.

End AllSettled.

Section TunnelResults.

Import Index.

Lemma tasks_settle_length port logDir tunnels s ps s' :
  tasks_settle port logDir tunnels s ps s' -> length ps = length tunnels.
Proof. induction 1; cbn; congruence. Qed.

(** C3, as amended: every tunnel of the list gets one entry, fulfilled or
    rejected, in the order of the list, whatever the order in which the
    tasks settle; what a tunnel throws stays with its entry (the failure
    object when it is an error object) and the tasks of the other
    tunnels run all the same; the entry of a tunnel that is not
    available is a fulfilled [null], and its [start] is not called. *)
Theorem tunnel_results (port : str) (logDir : path)
        (tunnels : list (Tunnels.Plugin * str)) (settle_time : nat -> nat) :
  forall s : RunState,
  Forall (fun t => plugin_no_exit (fst t)) tunnels ->
  exists ps s',
    start_all (map (tunnel_task port logDir) tunnels) s = (Ret ps, s')
    /\ allSettled settle_time ps = ps
    /\ length ps = length tunnels
    /\ tasks_settle port logDir tunnels s ps s'.
Proof.
  induction tunnels as [|t rest IH]; intros s Hne.
  - exists [], s. repeat split. constructor.
  - apply Forall_cons in Hne as [Ht Hrest].
    destruct (tunnel_task_settles port logDir t s Ht) as (p & s1 & E1 & T1).
    destruct (IH s1 Hrest) as (ps & s2 & E2 & _ & L2 & F2).
    exists (p :: ps), s2. split; [|split; [|split]].
    + cbn [map start_all]. unfold bind at 1. rewrite E1.
      unfold bind at 1. rewrite E2. reflexivity.
    + apply allSettled_order.
    + cbn. now rewrite L2.
    + econstructor; eassumption.
Qed.

End TunnelResults.

Lemma tunnel_results_witness :
  exists ps s',
    Index.start_all
      (map (Index.tunnel_task (js "2222") [js "logs"]) three_tunnels) state0
      = (Ret ps, s')
    /\ Index.allSettled (fun i => (3 - i)%nat) ps = ps
    /\ length ps = length three_tunnels
    /\ tasks_settle (js "2222") [js "logs"] three_tunnels state0 ps s'.
Proof.
  apply (tunnel_results (js "2222") [js "logs"] three_tunnels
           (fun i => (3 - i)%nat) state0).
  unfold three_tunnels.
  repeat (apply Forall_cons; split); [..|apply Forall_nil; exact I];
    (split; [|split]); repeat intro; discriminate.
Defined.

(** Three tunnels, the second of which fails to start: three entries, in
    order; the failure stays with the second. *)
Example three_tunnels_entries :
  fst (Index.start_all
         (map (Index.tunnel_task (js "2222") [js "logs"]) three_tunnels)
         state0)
  = Ret [ Index.Fulfilled
            (Some (Index.mkTunnelValue (js "Ok") true (Some (js "tcp://h:1"))
                     (Some (js "ssh -p 1 runner@h")) (Some 4242%Z) None None));
          Index.Fulfilled
            (Some (Index.mkTunnelValue (js "Bad") false None None None None
                     (Some (js "Bad tunnel error: boom"))));
          Index.Fulfilled None ].
Proof. now vm_compute. Qed.

(** A tunnel whose [start] throws [undefined] has a rejected entry; the
    tunnel after it is started all the same. *)
Example undefined_is_rejected :
  fst (Index.start_all
         (map (Index.tunnel_task (js "2222") [js "logs"])
              [(plugin_undefined, js "Odd"); (plugin_ok, js "Ok")])
         state0)
  = Ret [ Index.Rejected
            (ThrownError
               (TypeError
                  (js "Cannot read properties of undefined (reading 'message')")));
          Index.Fulfilled
            (Some (Index.mkTunnelValue (js "Ok") true (Some (js "tcp://h:1"))
                     (Some (js "ssh -p 1 runner@h")) (Some 4242%Z) None None)) ].
Proof. now vm_compute. Qed.

(** C3 as worded fails on the tunnel that is not available: in the run of
    the end-to-end scenario, where Cloudflare is disabled, the list of
    tunnel results has three entries, and the third, for Cloudflare, is
    a fulfilled [null]. *)
Lemma unavailable_tunnel_has_entry :
  exists r pinggy sshj,
    fst run0 = Ret r
    /\ Index.res_tunnels r =
         [ Index.Fulfilled (Some pinggy); Index.Fulfilled (Some sshj);
           Index.Fulfilled None ]
    /\ Index.v_tunnelType pinggy = js "Pinggy"
    /\ Index.v_tunnelType sshj = js "SSH-J".
Proof.
  eexists _, _, _. split; [now vm_compute|]. now vm_compute.
Qed.

Lemma ssh_before_tunnels_witness :
  let r := Index.run_with env0 validate0 setup_failing persist0
             (fun i => i) (fun _ => ret three_tunnels) cfg0 options0 state0 in
  fst r = Exit 1
  /\ Index.trace (snd r) = Index.EvSshSetupCalled :: Index.trace state0.
Proof.
  refine (proj2 (ssh_before_tunnels env0 validate0 setup_failing persist0
                   (fun i => i) (fun _ => ret three_tunnels) cfg0 options0
                   state0) _ _ _ _ _); reflexivity.
Defined.

(** The calls of the end-to-end run, most recent first: [setup], its
    return, then the [start] of Pinggy and of SSH-J; Cloudflare, which is
    not available, is not started. *)
Example run0_trace :
  exists res,
    Index.trace (snd run0) =
    [ Index.EvTunnelStartCalled (js "SSH-J");
      Index.EvTunnelStartCalled (js "Pinggy");
      Index.EvSshReady res; Index.EvSshSetupCalled ]
    /\ SetupSSH.r_mode res = js "user" /\ SetupSSH.r_port res = js "2222".
Proof. eexists. split; [now vm_compute|]. now vm_compute. Qed.

(* ===================================================================== *)
(** * The logger                                                           *)
(* ===================================================================== *)

Section LoggerLevels.

Lemma logLevels_range name n :
  Logger.logLevels name = Logger.Num n -> (0 <= n <= 4)%Z.
Proof.
  unfold Logger.logLevels.
  repeat case_bool_decide; intros [= <-]; lia.
Qed.

(** The threshold of a logger is never below that of [info]. *)
Lemma levelValue_new level n :
  Logger.levelValue (Logger.new level) = Logger.Num n -> (1 <= n <= 4)%Z.
Proof.
  unfold Logger.new. cbn [Logger.levelValue].
  change (Logger.logLevels (js "info")) with (Logger.Num 1).
  destruct (Logger.logLevels level) as [k| |] eqn:E; cbn.
  - apply logLevels_range in E.
    destruct (Z.eqb_spec k 0); intros [= <-]; lia.
  - discriminate.
  - intros [= <-]. lia.
Qed.

End LoggerLevels.

(** X1: whatever level name the logger is made with, the methods [debug]
    and [command] write nothing; a logger made with the level 'debug'
    writes what a logger made with 'info' writes. *)
Theorem debug_is_never_written (level : str) :
  Logger.writes (Logger.new level) Logger.debug = false
  /\ Logger.writes (Logger.new level) Logger.command = false
  /\ (forall m, Logger.writes (Logger.new (js "debug")) m
                = Logger.writes (Logger.new (js "info")) m).
Proof.
  assert (Logger.shouldLog (Logger.new level) (js "debug") = false) as H.
  { unfold Logger.shouldLog.
    change (Logger.logLevels (js "debug")) with (Logger.Num 0).
    destruct (Logger.levelValue (Logger.new level)) as [n| |] eqn:E;
      try reflexivity.
    apply levelValue_new in E. cbn. apply Z.leb_gt. lia. }
  split; [exact H|]. split; [exact H|].
  intros m. reflexivity.
Qed.

(* ===================================================================== *)
(** * Quoting for the shell                                                *)
(* ===================================================================== *)

Section ShellQuoting.

Import UtilsStrings.

Local Abbreviation escaped := (replace_unit 39 [39; 34; 39; 34; 39]%N).

(** Inside the single quotes opened by [shSingleQuote], the escaped text
    followed by the closing quote is read back as the text. *)
Lemma read_escaped (s : str) :
  Shell.read Shell.InSingle (escaped s ++ [39%N]) = Some s.
Proof.
  induction s as [|c s IH]; [reflexivity|].
  unfold replace_unit in *. cbn [flat_map].
  destruct (N.eqb_spec c 39) as [->|Hc].
  - cbn. cbn in IH. now rewrite IH.
  - cbn [app Shell.read].
    apply N.eqb_neq in Hc. rewrite Hc. now rewrite IH.
Qed.

Lemma escaped_inj (a b : str) :
  escaped a ++ [39%N] = escaped b ++ [39%N] -> a = b.
Proof.
  intros H. apply (f_equal (Shell.read Shell.InSingle)) in H.
  rewrite !read_escaped in H. congruence.
Qed.

End ShellQuoting.

(** X2: a POSIX shell reads [shSingleQuote(s)] as one word whose value is
    [s], whatever units [s] holds. *)
Theorem shSingleQuote_read_back (s : str) :
  Shell.read Shell.Unquoted (UtilsStrings.shSingleQuote s) = Some s.
Proof.
  unfold UtilsStrings.shSingleQuote. cbn [app Shell.read]. cbn.
  apply read_escaped.
Qed.

(** X3: [shSingleQuote] never gives the same text for two different
    arguments. *)
Theorem shSingleQuote_injective (a b : str) :
  UtilsStrings.shSingleQuote a = UtilsStrings.shSingleQuote b -> a = b.
Proof.
  unfold UtilsStrings.shSingleQuote. intros [= H]. now apply escaped_inj.
Qed.

Lemma shSingleQuote_injective_witness :
  UtilsStrings.shSingleQuote (js "it's") = UtilsStrings.shSingleQuote (js "it's")
  /\ js "it's" = js "it's".
Proof.
  split; [reflexivity|].
  apply (shSingleQuote_injective (js "it's") (js "it's")). reflexivity.
Defined.

(* ===================================================================== *)
(** * Identifiers                                                          *)
(* ===================================================================== *)

Section Identifiers.

Import UtilsStrings.

(** The units of the result of a replacement of runs are units of the
    replacement or units of the input outside the class. *)
Lemma replace_runs_Forall (q : N -> Prop) p r b s :
  Forall q r ->
  Forall (fun c => p c = false -> q c) s ->
  Forall q (replace_runs p r b s).
Proof.
  intros Hr Hs. revert b. induction Hs as [|c s Hc _ IH]; intros b; cbn.
  - constructor.
  - destruct (p c) eqn:E.
    + destruct b; [apply IH|]. apply Forall_app. split; [exact Hr|apply IH].
    + constructor; [now apply Hc|apply IH].
Qed.

Lemma drop_while_suffix p s : exists a, s = a ++ drop_while p s.
Proof.
  induction s as [|c s [a IH]]; cbn.
  - now exists [].
  - destruct (p c).
    + exists (c :: a). cbn. now f_equal.
    + now exists [].
Qed.

Lemma drop_while_head p s c r :
  drop_while p s = c :: r -> p c = false.
Proof.
  induction s as [|a s IH]; cbn; [discriminate|].
  destruct (p a) eqn:E; [exact IH|]. now intros [= <- _].
Qed.

Lemma last_rev {A} (s : list A) : last (rev s) = head s.
Proof. destruct s as [|c s]; [reflexivity|]. cbn. apply last_snoc. Qed.

Lemma head_rev {A} (s : list A) : head (rev s) = last s.
Proof. rewrite <- (rev_involutive s) at 2. symmetry. apply last_rev. Qed.

(** What [strip_ends] leaves is a part of the input. *)
Lemma strip_ends_infix p s : exists a b, s = a ++ strip_ends p s ++ b.
Proof.
  unfold strip_ends.
  destruct (drop_while_suffix p s) as [a Ha].
  destruct (drop_while_suffix p (rev (drop_while p s))) as [b Hb].
  exists a, (rev b).
  rewrite <- rev_app_distr, <- Hb, rev_involutive. exact Ha.
Qed.

(** What [strip_ends] leaves neither starts nor ends with a unit of the
    class. *)
Lemma strip_ends_last p s c :
  last (strip_ends p s) = Some c -> p c = false.
Proof.
  unfold strip_ends. rewrite last_rev.
  destruct (drop_while p (rev (drop_while p s))) as [|d r] eqn:E;
    [discriminate|].
  intros [= <-]. now apply drop_while_head in E.
Qed.

Lemma strip_ends_head p s c :
  head (strip_ends p s) = Some c -> p c = false.
Proof.
  unfold strip_ends. rewrite head_rev.
  destruct (drop_while p s) as [|d r] eqn:E; [discriminate|].
  apply drop_while_head in E.
  destruct (drop_while_suffix p (rev (d :: r))) as [a Ha].
  destruct (drop_while p (rev (d :: r))) as [|x t] eqn:E2; [discriminate|].
  intros Hl.
  assert (last (rev (d :: r)) = Some c) as Hc.
  { rewrite Ha. rewrite last_app, Hl. reflexivity. }
  rewrite last_rev in Hc. cbn in Hc. now injection Hc as <-.
Qed.

(** No run of dashes is left after each run has been made one dash. *)
Lemma squeeze_no_pair (b : bool) (s : str) :
  (forall a t, replace_runs (fun c => (c =? 45)%N) [45%N] b s
               <> a ++ [45; 45]%N ++ t)
  /\ (b = true ->
      head (replace_runs (fun c => (c =? 45)%N) [45%N] b s) <> Some 45%N).
Proof.
  revert b. induction s as [|c s IH]; intros b.
  - split; [|now cbn]. intros [|? [|? ?]] t; cbn; discriminate.
  - cbn [replace_runs]. destruct (N.eqb_spec c 45) as [->|Hc].
    + destruct b.
      * apply IH.
      * split; [|discriminate].
        destruct (IH true) as [IH1 IH2]. specialize (IH2 eq_refl).
        intros [|x a] t; cbn.
        -- intros [= E]. apply IH2. now rewrite E.
        -- intros [= _ E]. now apply (IH1 a t).
    + destruct (IH false) as [IH1 _].
      split.
      * intros [|x a] t; cbn.
        -- intros [= E _]. congruence.
        -- intros [= _ E]. now apply (IH1 a t).
      * intros _. cbn. congruence.
Qed.

Lemma no_pair_infix (x : N) (s r : str) a b :
  s = a ++ r ++ b ->
  (forall u v, s <> u ++ [x; x] ++ v) ->
  forall u v, r <> u ++ [x; x] ++ v.
Proof.
  intros -> H u v ->. apply (H (a ++ u) (v ++ b)).
  now rewrite <- !app_assoc.
Qed.

Lemma slice0_prefix n s : exists b, s = slice0 n s ++ b.
Proof.
  unfold slice0. destruct (0 <=? n)%Z; eexists; symmetry; apply take_drop.
Qed.

Lemma slice0_length n s :
  (0 <= n)%Z -> (Z.of_nat (length (slice0 n s)) <= n)%Z.
Proof.
  intros H. unfold slice0. apply Z.leb_le in H. rewrite H.
  rewrite length_take. lia.
Qed.

Variable toLowerCase : str -> str.

Local Abbreviation dashed s :=
  (replace_runs (fun c => (c =? 45)%N) (js "-") false
     (replace_runs (fun c => negb (isIdChar c)) (js "-") false
        (toLowerCase (default [] s)))).

Lemma dashed_idchars (q : N -> Prop) s :
  q 45%N ->
  (forall c, isIdChar c = true -> In c (toLowerCase (default [] s)) -> q c) ->
  Forall q (dashed s).
Proof.
  intros Hd Hq. eval_lits.
  apply replace_runs_Forall; [repeat constructor; exact Hd|].
  apply Forall_impl with (P := q); [|auto].
  apply replace_runs_Forall; [repeat constructor; exact Hd|].
  apply Forall_forall. intros c Hin Hc.
  apply Hq; [|now apply list_elem_of_In].
  now apply negb_false_iff.
Qed.

Lemma sanitizeId_cases s maxLen :
  sanitizeId toLowerCase s maxLen = js "ci"
  \/ (sanitizeId toLowerCase s maxLen
        = slice0 maxLen (strip_ends isDotDash (dashed s))
      /\ slice0 maxLen (strip_ends isDotDash (dashed s)) <> []).
Proof.
  unfold sanitizeId.
  destruct (slice0 maxLen (strip_ends isDotDash (dashed s))) eqn:E;
    cbn; [now left|right]. split; [reflexivity|discriminate].
Qed.

(** The units of an identifier come from the lower-cased input or are
    dashes (or the units of the default, 'ci'). *)
Lemma sanitizeId_Forall (q : N -> Prop) s maxLen :
  q 45%N -> q 99%N -> q 105%N ->
  (forall c, isIdChar c = true -> In c (toLowerCase (default [] s)) -> q c) ->
  Forall q (sanitizeId toLowerCase s maxLen).
Proof.
  intros Hd Hc Hi Hq.
  destruct (sanitizeId_cases s maxLen) as [->|[-> _]].
  - eval_lits. repeat constructor; assumption.
  - pose proof (dashed_idchars q s Hd Hq) as H.
    destruct (strip_ends_infix isDotDash (dashed s)) as (a & b & E).
    rewrite E in H. apply Forall_app in H as [_ H].
    apply Forall_app in H as [H _].
    destruct (slice0_prefix maxLen (strip_ends isDotDash (dashed s)))
      as [t Et].
    rewrite Et in H. now apply Forall_app in H as [H _].
Qed.

Lemma sanitizeId_no_pair s maxLen a b :
  sanitizeId toLowerCase s maxLen <> a ++ [45; 45]%N ++ b.
Proof.
  destruct (sanitizeId_cases s maxLen) as [->|[-> _]].
  - eval_lits. destruct a as [|? [|? [|? ?]]]; cbn; discriminate.
  - destruct (strip_ends_infix isDotDash (dashed s)) as (u & v & E).
    destruct (slice0_prefix maxLen (strip_ends isDotDash (dashed s)))
      as [t Et].
    apply (no_pair_infix 45%N (dashed s) _ u (t ++ v)).
    + etransitivity; [exact E|]. f_equal.
      apply (f_equal (fun x => x ++ v)) in Et.
      now rewrite <- app_assoc in Et.
    + change (js "-") with [45%N].
      apply (squeeze_no_pair false).
Qed.

Lemma sanitizeId_head s maxLen c :
  head (sanitizeId toLowerCase s maxLen) = Some c -> isDotDash c = false.
Proof.
  destruct (sanitizeId_cases s maxLen) as [->|[-> Hne]].
  - eval_lits. now intros [= <-].
  - destruct (slice0_prefix maxLen (strip_ends isDotDash (dashed s)))
      as [t Et].
    intros H. apply (strip_ends_head isDotDash (dashed s)).
    rewrite Et.
    destruct (slice0 maxLen (strip_ends isDotDash (dashed s)));
      [congruence|exact H].
Qed.

Lemma sanitizeId_nonempty s maxLen : sanitizeId toLowerCase s maxLen <> [].
Proof.
  destruct (sanitizeId_cases s maxLen) as [->|[-> H]];
    [now eval_lits|exact H].
Qed.

Lemma sanitizeId_length s maxLen :
  (0 <= maxLen)%Z ->
  (Z.of_nat (length (sanitizeId toLowerCase s maxLen)) <= Z.max 2 maxLen)%Z.
Proof.
  intros H.
  destruct (sanitizeId_cases s maxLen) as [->|[-> _]].
  - eval_lits. cbn. lia.
  - pose proof (slice0_length maxLen (strip_ends isDotDash (dashed s)) H).
    lia.
Qed.

End Identifiers.

(** X4: for every input and every length, [sanitizeId] gives a string
    that is not empty, is made of letters, digits, underscores, dots and
    dashes only, has no two dashes in a row and does not start with a dot
    or a dash. *)
Theorem sanitizeId_shape (toLowerCase : str -> str) (s : option str)
        (maxLen : Z) :
  let r := UtilsStrings.sanitizeId toLowerCase s maxLen in
  r <> []
  /\ Forall (fun c => UtilsStrings.isIdChar c = true) r
  /\ (forall a b, r <> a ++ [45; 45]%N ++ b)
  /\ (forall c, head r = Some c -> UtilsStrings.isDotDash c = false).
Proof.
  cbn zeta. split; [|split; [|split]].
  - apply sanitizeId_nonempty.
  - apply sanitizeId_Forall; auto.
  - apply sanitizeId_no_pair.
  - apply sanitizeId_head.
Qed.

(** X5: with a length that is not negative, the result of [sanitizeId]
    has at most that many units, or the two units of the default 'ci'
    when the length is 0 or 1; when the lower-cased input has no capital
    letter A to Z, the result has none. *)
Theorem sanitizeId_bounds (toLowerCase : str -> str) (s : option str)
        (maxLen : Z) :
  (0 <= maxLen)%Z ->
  Forall (fun c => negb ((65 <=? c)%N && (c <=? 90)%N) = true)
         (toLowerCase (default [] s)) ->
  (Z.of_nat (length (UtilsStrings.sanitizeId toLowerCase s maxLen))
     <= Z.max 2 maxLen)%Z
  /\ Forall (fun c => negb ((65 <=? c)%N && (c <=? 90)%N) = true)
            (UtilsStrings.sanitizeId toLowerCase s maxLen).
Proof.
  intros Hn Hl. split; [now apply sanitizeId_length|].
  apply sanitizeId_Forall; try reflexivity.
  intros c _ Hin. rewrite Forall_forall in Hl. apply Hl.
  now apply list_elem_of_In.
Qed.

Lemma sanitizeId_bounds_witness :
  (Z.of_nat (length (UtilsStrings.sanitizeId lower_ascii
                       (Some (js "My Project!")) 5)) <= Z.max 2 5)%Z
  /\ Forall (fun c => negb ((65 <=? c)%N && (c <=? 90)%N) = true)
            (UtilsStrings.sanitizeId lower_ascii (Some (js "My Project!")) 5).
Proof.
  apply (sanitizeId_bounds lower_ascii (Some (js "My Project!")) 5).
  - lia.
  - vm_compute. repeat constructor.
Defined.

(** The examples of the unit tests of the repository, and a cut that
    leaves a dash at the end. *)
Example sanitizeId_tests :
  UtilsStrings.sanitizeId lower_ascii (Some (js "My Project!")) 28
    = js "my-project"
  /\ UtilsStrings.sanitizeId lower_ascii (Some (js "foo---bar")) 28
     = js "foo-bar"
  /\ UtilsStrings.sanitizeId lower_ascii (Some (js "---foo---")) 28 = js "foo"
  /\ UtilsStrings.sanitizeId lower_ascii (Some []) 28 = js "ci"
  /\ UtilsStrings.sanitizeId lower_ascii None 28 = js "ci"
  /\ UtilsStrings.sanitizeId lower_ascii (Some (js "my.project-name")) 28
     = js "my.project-name"
  /\ UtilsStrings.sanitizeId lower_ascii (Some (js "my-project")) 3 = js "my-".
Proof. repeat split; now vm_compute. Qed.

(* ===================================================================== *)
(** * URLs                                                                 *)
(* ===================================================================== *)

Section Urls.

Import UtilsStrings.

(** [trim] removes the runs of white space at both ends. *)
Lemma trimStart_drop_while s : JS.trimStart s = drop_while JS.isWhiteSpace s.
Proof.
  induction s as [|c s IH]; cbn; [reflexivity|].
  now destruct (JS.isWhiteSpace c).
Qed.

Lemma trim_strip_ends s : JS.trim s = strip_ends JS.isWhiteSpace s.
Proof.
  unfold JS.trim, JS.trimEnd, strip_ends. now rewrite !trimStart_drop_while.
Qed.

Lemma isCRLF_isWhiteSpace c : isCRLF c = true -> JS.isWhiteSpace c = true.
Proof.
  unfold isCRLF. intros [H|H]%orb_true_iff; apply N.eqb_eq in H; now subst.
Qed.

(** A trimmed string has no line break to lose at its end. *)
Lemma strip_newlines_trim s : strip_newlines (JS.trim s) = JS.trim s.
Proof.
  unfold strip_newlines.
  destruct (rev (JS.trim s)) as [|c r] eqn:E.
  - cbn. apply (f_equal (@rev N)) in E. now rewrite rev_involutive in E.
  - assert (last (JS.trim s) = Some c) as Hl.
    { rewrite <- head_rev, E. reflexivity. }
    rewrite trim_strip_ends in Hl. apply strip_ends_last in Hl.
    cbn. destruct (isCRLF c) eqn:Hc.
    + apply isCRLF_isWhiteSpace in Hc. congruence.
    + rewrite <- E. apply rev_involutive.
Qed.

Lemma drop_while_id p s :
  (forall c, head s = Some c -> p c = false) -> drop_while p s = s.
Proof.
  destruct s as [|c s]; [reflexivity|]. intros H. cbn.
  now rewrite (H c eq_refl).
Qed.

(** A string that neither starts nor ends with a unit of the class is
    left as it is. *)
Lemma strip_ends_id p s :
  (forall c, head s = Some c -> p c = false) ->
  (forall c, last s = Some c -> p c = false) ->
  strip_ends p s = s.
Proof.
  intros Hh Hl. unfold strip_ends.
  rewrite (drop_while_id p s Hh).
  rewrite drop_while_id; [apply rev_involutive|].
  intros c. rewrite head_rev. apply Hl.
Qed.

Lemma sanitizeUrl_is_trim s : exists t, sanitizeUrl (Some s) = JS.trim t.
Proof.
  unfold sanitizeUrl. cbn zeta. eexists. apply strip_newlines_trim.
Qed.

End Urls.

(** X6: [sanitizeUrl] gives the empty string for [null] and [undefined],
    and for every input a string that neither starts nor ends with white
    space or a line break, which [trim] leaves as it is. *)
Theorem sanitizeUrl_trimmed (raw : option str) :
  UtilsStrings.sanitizeUrl None = []
  /\ (forall c, head (UtilsStrings.sanitizeUrl raw) = Some c
                \/ last (UtilsStrings.sanitizeUrl raw) = Some c ->
                JS.isWhiteSpace c = false)
  /\ JS.trim (UtilsStrings.sanitizeUrl raw) = UtilsStrings.sanitizeUrl raw.
Proof.
  split; [reflexivity|].
  assert (forall c, head (UtilsStrings.sanitizeUrl raw) = Some c
                    \/ last (UtilsStrings.sanitizeUrl raw) = Some c ->
                    JS.isWhiteSpace c = false) as H.
  { destruct raw as [s|]; [|intros c [E|E]; discriminate].
    destruct (sanitizeUrl_is_trim s) as (t & ->).
    rewrite trim_strip_ends.
    intros c [E|E];
      [now apply strip_ends_head in E|now apply strip_ends_last in E]. }
  split; [exact H|].
  rewrite trim_strip_ends. apply strip_ends_id; intros c E; apply H; auto.
Qed.

(** The examples of the unit tests of the repository; a second call can
    still remove something. *)
Example sanitizeUrl_tests :
  UtilsStrings.sanitizeUrl (Some ([65279%N] ++ js "https://example.com"))
    = js "https://example.com"
  /\ UtilsStrings.sanitizeUrl
       (Some ([34%N] ++ js "https://example.com" ++ [34%N]))
     = js "https://example.com"
  /\ UtilsStrings.sanitizeUrl (Some (js "'https://example.com'"))
     = js "https://example.com"
  /\ UtilsStrings.sanitizeUrl (Some (js "https://example.com" ++ [10; 13]%N))
     = js "https://example.com"
  /\ UtilsStrings.sanitizeUrl (Some (js "''x''")) = js "'x'"
  /\ UtilsStrings.sanitizeUrl (Some (js "'x'")) = js "x".
Proof. repeat split; now vm_compute. Qed.

(* ===================================================================== *)
(** * Masking of the [auth] parameter                                      *)
(* ===================================================================== *)

Section Masking.

Import UtilsStrings.

Local Abbreviation AUTH := [97; 117; 116; 104; 61]%N.
Local Abbreviation STARS := [42; 42; 42; 42]%N.

(** What is left once the value of a match has been passed. *)
Local Abbreviation skip_value :=
  (drop_while (fun c => negb (isValueEnd c))).

Lemma isQueryMark_cases c : isQueryMark c = true -> c = 63%N \/ c = 38%N.
Proof.
  unfold isQueryMark. intros [H|H]%orb_true_iff; apply N.eqb_eq in H; auto.
Qed.

(** No unit of [auth=] is a question mark or an ampersand. *)
Lemma AUTH_no_mark x c :
  In x AUTH -> isQueryMark c = true ->
  (Regex.fold_case x =? Regex.fold_case c)%N = false.
Proof.
  intros Hx [->| ->]%isQueryMark_cases;
    cbn in Hx; repeat (destruct Hx as [<-|Hx]; [reflexivity|]);
    contradiction.
Qed.

(** One step of the replacement outside a value. *)
Lemma mask_false_cons c s :
  mask false (c :: s) =
  if isQueryMark c && Regex.startsWith_i (js "auth=") s
  then c :: take 5 s ++ STARS ++ mask true (drop 5 s)
  else c :: mask false s.
Proof.
  eval_lits.
  destruct s as [|a [|u [|t [|h [|e rest]]]]];
    cbn; rewrite ?andb_false_r; reflexivity.
Qed.

Lemma mask_true_skip s : mask true s = mask false (skip_value s).
Proof.
  induction s as [|c s IH]; [reflexivity|].
  cbn [drop_while].
  destruct (isValueEnd c) eqn:E; cbn [negb].
  - cbn [mask]. rewrite E. reflexivity.
  - cbn [mask]. rewrite E. cbn [andb negb]. exact IH.
Qed.

(** The replacement keeps the first unit. *)
Lemma mask_false_head s : head (mask false s) = head s.
Proof.
  destruct s as [|c s]; [reflexivity|]. rewrite mask_false_cons.
  now destruct (isQueryMark c && Regex.startsWith_i (js "auth=") s).
Qed.

Lemma skip_value_head s c :
  head (skip_value s) = Some c -> isValueEnd c = true.
Proof.
  destruct (drop_while _ s) as [|d r] eqn:E;
    [discriminate|].
  apply drop_while_head in E. intros [= <-]. now apply negb_false_iff.
Qed.

Lemma skip_value_id s :
  (forall c, head s = Some c -> isValueEnd c = true) -> skip_value s = s.
Proof.
  destruct s as [|c s]; [reflexivity|]. intros H.
  cbn. now rewrite (H c eq_refl).
Qed.

Lemma skip_value_length s : (length (skip_value s) <= length s)%nat.
Proof.
  destruct (drop_while_suffix (fun c => negb (isValueEnd c)) s) as [a E].
  rewrite E at 2. rewrite length_app. lia.
Qed.

(** What follows a masked value is the end of the string, or [&] or [#]. *)
Lemma mask_true_head s c :
  head (mask true s) = Some c -> isValueEnd c = true.
Proof.
  rewrite mask_true_skip, mask_false_head. apply skip_value_head.
Qed.

(** A text without [?] and [&] starts the output when it starts the
    input. *)
Lemma startsWith_i_mask p : forall s,
  (forall x c, In x p -> isQueryMark c = true ->
               (Regex.fold_case x =? Regex.fold_case c)%N = false) ->
  Regex.startsWith_i p (mask false s) = Regex.startsWith_i p s.
Proof.
  induction p as [|x p IH]; intros s Hp; [now destruct (mask false s), s|].
  destruct s as [|c s]; [reflexivity|].
  rewrite mask_false_cons.
  destruct (isQueryMark c) eqn:Hc.
  - assert ((Regex.fold_case x =? Regex.fold_case c)%N = false) as E
      by (apply Hp; [now left|exact Hc]).
    destruct (true && Regex.startsWith_i (js "auth=") s);
      cbn [Regex.startsWith_i]; now rewrite E.
  - cbn [andb Regex.startsWith_i]. f_equal. apply IH.
    intros y d Hy. apply Hp. now right.
Qed.

Lemma auth_mask s :
  Regex.startsWith_i (js "auth=") (mask false s)
  = Regex.startsWith_i (js "auth=") s.
Proof. eval_lits. apply startsWith_i_mask, AUTH_no_mark. Qed.

(** A match has five units after its first. *)
Lemma auth_five s :
  Regex.startsWith_i (js "auth=") s = true ->
  exists a u t h e rest,
    s = a :: u :: t :: h :: e :: rest
    /\ Forall (fun x => isQueryMark x = false) [a; u; t; h; e].
Proof.
  eval_lits.
  destruct s as [|a [|u [|t [|h [|e rest]]]]]; cbn [Regex.startsWith_i];
    rewrite ?andb_false_r; try discriminate.
  intros H. exists a, u, t, h, e, rest. split; [reflexivity|].
  repeat match type of H with
         | (_ && _ = true) => apply andb_true_iff in H as [? H]
         end.
  repeat (constructor;
          [match goal with
           | H : (Regex.fold_case ?x =? Regex.fold_case ?c)%N = true
             |- isQueryMark ?c = false =>
               destruct (isQueryMark c) eqn:E; [|reflexivity];
               rewrite (AUTH_no_mark x c) in H;
               [discriminate|cbn; tauto|exact E]
           end|]).
  constructor.
Qed.

(** Masking what has been masked changes nothing. *)
Lemma mask_false_idem n : forall s,
  (length s <= n)%nat -> mask false (mask false s) = mask false s.
Proof.
  induction n as [|n IH]; intros [|c s] Hn; try reflexivity;
    [cbn in Hn; lia|].
  rewrite (mask_false_cons c s).
  destruct (isQueryMark c && Regex.startsWith_i (js "auth=") s) eqn:E.
  - apply andb_true_iff in E as [Hc Ha].
    destruct (auth_five s Ha) as (a & u & t & h & e & rest & -> & _).
    change (take 5 (a :: u :: t :: h :: e :: rest)) with [a; u; t; h; e].
    change (drop 5 (a :: u :: t :: h :: e :: rest)) with rest.
    cbn [app].
    rewrite mask_false_cons.
    assert (Regex.startsWith_i (js "auth=")
              (a :: u :: t :: h :: e :: STARS ++ mask true rest) = true)
      as Ha' by exact Ha.
    cbn [app] in Ha'. rewrite Ha', Hc. cbn [andb].
    change (c :: [a; u; t; h; e] ++ STARS ++ mask true (mask true rest)
            = c :: [a; u; t; h; e] ++ STARS ++ mask true rest).
    do 3 f_equal.
    rewrite !mask_true_skip.
    rewrite (skip_value_id (mask false (skip_value rest))).
    + apply IH. pose proof (skip_value_length rest). cbn in Hn. lia.
    + intros d. rewrite mask_false_head. apply skip_value_head.
  - rewrite mask_false_cons, auth_mask, E. f_equal.
    apply IH. cbn in Hn. lia.
Qed.

(** In the output, every [?auth=] and [&auth=] is followed by four
    asterisks and then by the end of the string, [&] or [#]. *)
Lemma mask_false_values n : forall s,
  (length s <= n)%nat ->
  forall k c r,
    drop k (mask false s) = c :: r ->
    isQueryMark c = true ->
    Regex.startsWith_i (js "auth=") r = true ->
    exists rest,
      drop 5 r = STARS ++ rest
      /\ forall d, head rest = Some d -> isValueEnd d = true.
Proof.
  induction n as [|n IH]; intros [|c0 s] Hn k c r; try (cbn in Hn; lia);
    try (cbn [mask]; rewrite drop_nil; discriminate).
  rewrite (mask_false_cons c0 s).
  destruct (isQueryMark c0 && Regex.startsWith_i (js "auth=") s) eqn:E.
  - apply andb_true_iff in E as [Hc Ha].
    destruct (auth_five s Ha) as (a & u & t & h & e & rest & -> & Hq).
    change (take 5 (a :: u :: t :: h :: e :: rest)) with [a; u; t; h; e].
    change (drop 5 (a :: u :: t :: h :: e :: rest)) with rest.
    cbn [app].
    inversion Hq as [|? ? Q1 Hq1]; subst.
    inversion Hq1 as [|? ? Q2 Hq2]; subst.
    inversion Hq2 as [|? ? Q3 Hq3]; subst.
    inversion Hq3 as [|? ? Q4 Hq4]; subst.
    inversion Hq4 as [|? ? Q5 _]; subst.
    destruct k as [|[|[|[|[|[|[|[|[|[|k]]]]]]]]]]; cbn [skipn].
    1-10: intros [= <- <-] Hm; try congruence;
          try (vm_compute in Hm; discriminate).
    + intros _. exists (mask true rest). split; [reflexivity|].
      intros d. apply mask_true_head.
    + rewrite mask_true_skip. intros Hd Hm Hr.
      apply (IH (skip_value rest)) with (k := k) (c := c); auto.
      pose proof (skip_value_length rest). cbn in Hn. lia.
  - intros Hd Hm Hr. destruct k as [|k].
    + cbn in Hd. injection Hd as <- <-.
      rewrite auth_mask in Hr. rewrite Hm, Hr in E. discriminate.
    + cbn in Hd. apply (IH s) with (k := k) (c := c); auto.
      cbn in Hn. lia.
Qed.

End Masking.

(** X7: masking is idempotent: a URL that has been masked is left as it
    is by a second masking. *)
Theorem maskAuthInUrl_idempotent (url : option str) :
  UtilsStrings.maskAuthInUrl (Some (UtilsStrings.maskAuthInUrl url))
  = UtilsStrings.maskAuthInUrl url.
Proof.
  unfold UtilsStrings.maskAuthInUrl. cbn [default from_option id].
  destruct (from_option id [] url) as [|c s] eqn:E; [reflexivity|].
  cbn [JS.truthy negb].
  destruct (UtilsStrings.mask false (c :: s)) eqn:Em; [reflexivity|].
  cbn [JS.truthy negb]. rewrite <- Em.
  now apply (mask_false_idem (length (c :: s))).
Qed.

(** X8: in the result of [maskAuthInUrl], wherever [?auth=] or [&auth=]
    stands, in any mix of capitals, the value after it is four asterisks,
    followed by the end of the string, [&] or [#]. *)
Theorem maskAuthInUrl_hides_values (url : option str) (k : nat) (c : N)
        (r : str) :
  drop k (UtilsStrings.maskAuthInUrl url) = c :: r ->
  UtilsStrings.isQueryMark c = true ->
  Regex.startsWith_i (js "auth=") r = true ->
  exists rest,
    drop 5 r = js "****" ++ rest
    /\ forall d, head rest = Some d -> UtilsStrings.isValueEnd d = true.
Proof.
  unfold UtilsStrings.maskAuthInUrl.
  destruct (default [] url) as [|c0 s] eqn:E.
  - cbn. rewrite drop_nil. discriminate.
  - cbn [JS.truthy negb]. eval_lits.
    apply (mask_false_values (length (c0 :: s))). reflexivity.
Qed.

Lemma maskAuthInUrl_hides_values_witness :
  exists rest,
    drop 5 (js "Auth=****&x=1#auth=2") = js "****" ++ rest
    /\ forall d, head rest = Some d -> UtilsStrings.isValueEnd d = true.
Proof.
  apply (maskAuthInUrl_hides_values
           (Some (js "https://example.com?Auth=secret123&x=1#auth=2"))
           19 63%N (js "Auth=****&x=1#auth=2")).
  - now vm_compute.
  - reflexivity.
  - now vm_compute.
Defined.

(** The examples of the unit tests of the repository. *)
Example maskAuthInUrl_tests :
  UtilsStrings.maskAuthInUrl (Some (js "https://example.com?auth=secret123"))
    = js "https://example.com?auth=****"
  /\ UtilsStrings.maskAuthInUrl
       (Some (js "https://example.com?foo=bar&auth=secret123&baz=qux"))
     = js "https://example.com?foo=bar&auth=****&baz=qux"
  /\ UtilsStrings.maskAuthInUrl
       (Some (js "https://example.com?auth=secret1&auth=secret2"))
     = js "https://example.com?auth=****&auth=****"
  /\ UtilsStrings.maskAuthInUrl (Some []) = []
  /\ UtilsStrings.maskAuthInUrl None = []
  /\ UtilsStrings.maskAuthInUrl (Some (js "https://example.com?foo=bar"))
     = js "https://example.com?foo=bar".
Proof. repeat split; now vm_compute. Qed.

(* ===================================================================== *)
(** * The list of allowed users                                            *)
(* ===================================================================== *)

Section AllowUsers.

Import ConfigMethods.

Local Abbreviation name_ok :=
  (fun u : str => u <> [] /\ Forall (fun c => isSeparator c = false) u).

(** No piece of a split holds a unit of the class. *)
Lemma split_runs_pieces p b s :
  Forall (Forall (fun c => p c = false)) (split_runs p b s).
Proof.
  revert b. induction s as [|c s IH]; intros b; cbn.
  - repeat constructor.
  - destruct (p c) eqn:E.
    + destruct b; [apply IH|]. constructor; [constructor|apply IH].
    + specialize (IH false).
      destruct (split_runs p false s) as [|x xs]; cbn.
      * repeat constructor. exact E.
      * inversion IH; subst. constructor; [now constructor|assumption].
Qed.

(** A split is never the empty array. *)
Lemma split_runs_cons p b s : exists x xs, split_runs p b s = x :: xs.
Proof.
  revert b. induction s as [|c s IH]; intros b; cbn; [now eexists _, _|].
  destruct (p c).
  - destruct b; [apply IH|now eexists _, _].
  - destruct (IH false) as (x & xs & ->). cbn. now eexists _, _.
Qed.

(** Inside a run, or before a unit outside the class, the flag does not
    matter. *)
Lemma split_runs_flag p c s :
  p c = false -> split_runs p true (c :: s) = split_runs p false (c :: s).
Proof. intros H. cbn. now rewrite H. Qed.

(** The rest of a run is skipped. *)
Lemma split_runs_skip p sep s :
  Forall (fun c => p c = true) sep ->
  split_runs p true (sep ++ s) = split_runs p true s.
Proof.
  induction 1 as [|c sep Hc _ IH]; [reflexivity|]. cbn. now rewrite Hc.
Qed.

(** A name before a separator, or at the end, is a piece of its own. *)
Lemma split_runs_name p u rest :
  Forall (fun c => p c = false) u ->
  (rest = [] \/ exists c r, rest = c :: r /\ p c = true) ->
  split_runs p false (u ++ rest) =
  u :: match rest with
       | [] => []
       | _ :: r => split_runs p true r
       end.
Proof.
  intros Hu Hr. induction Hu as [|c u Hc _ IH].
  - destruct Hr as [->|(c & r & -> & Hc)]; cbn; [reflexivity|].
    now rewrite Hc.
  - cbn. rewrite Hc, IH. reflexivity.
Qed.

Lemma join_head sep u us :
  JS.join sep (u :: us) = u ++ match us with
                                | [] => []
                                | _ :: _ => sep ++ JS.join sep us
                                end.
Proof. destruct us; cbn; [now rewrite app_nil_r|reflexivity]. Qed.

Lemma tokens_join (sep : str) (users : list str) :
  Forall name_ok users ->
  sep <> [] -> Forall (fun c => isSeparator c = true) sep ->
  List.filter JS.truthy (split_runs isSeparator false (JS.join sep users))
  = users.
Proof.
  intros Hu Hne Hsep. induction Hu as [|u us [Hu1 Hu2] Hus IH];
    [reflexivity|].
  rewrite join_head.
  assert (JS.truthy u = true) as Tu by now destruct u.
  destruct us as [|v vs].
  - rewrite split_runs_name; [|exact Hu2|now left].
    cbn. now rewrite Tu.
  - destruct sep as [|c sep]; [congruence|].
    inversion Hsep as [|? ? Hc Hsep']; subst.
    rewrite split_runs_name; [|exact Hu2|right; now eexists _, _].
    cbn [app List.filter]. rewrite Tu. f_equal.
    rewrite split_runs_skip by exact Hsep'.
    inversion Hus as [|? ? [Hv1 Hv2] _]; subst.
    rewrite join_head in IH |- *.
    destruct v as [|d v]; [congruence|].
    inversion Hv2; subst.
    cbn [app] in IH |- *. rewrite split_runs_flag by assumption. exact IH.
Qed.

End AllowUsers.

(** X9: every name given by [parseAllowUsers] is non-empty and holds no
    comma and no white space. *)
Theorem parseAllowUsers_names (value : option str) :
  Forall (fun u => u <> []
                   /\ Forall (fun c => ConfigMethods.isSeparator c = false) u)
         (ConfigMethods.parseAllowUsers value).
Proof.
  unfold ConfigMethods.parseAllowUsers.
  destruct value as [v|]; [|constructor].
  destruct (negb (JS.truthy v)); [constructor|].
  apply Forall_forall. intros u Hu%list_elem_of_In%filter_In. destruct Hu as [Hin Ht].
  split; [now destruct u|].
  pose proof (split_runs_pieces ConfigMethods.isSeparator false v) as H.
  rewrite Forall_forall in H. apply H. now apply list_elem_of_In.
Qed.

(** X10: a list of names, each non-empty and without comma and white
    space, joined with any non-empty separator made of commas and white
    space, is read back by [parseAllowUsers] as that list. *)
Theorem parseAllowUsers_join (users : list str) (sep : str) :
  Forall (fun u => u <> []
                   /\ Forall (fun c => ConfigMethods.isSeparator c = false) u)
         users ->
  sep <> [] ->
  Forall (fun c => ConfigMethods.isSeparator c = true) sep ->
  ConfigMethods.parseAllowUsers (Some (JS.join sep users)) = users.
Proof.
  intros Hu Hne Hsep. unfold ConfigMethods.parseAllowUsers.
  destruct (JS.join sep users) as [|c s] eqn:E.
  - destruct users as [|u us]; [reflexivity|].
    apply Forall_cons in Hu as [[Hu _] _].
    rewrite join_head in E. now destruct u.
  - cbn [JS.truthy negb]. rewrite <- E. now apply tokens_join.
Qed.

Lemma parseAllowUsers_join_witness :
  ConfigMethods.parseAllowUsers
    (Some (JS.join (js ", ") [js "alice"; js "bob"; js "carol"]))
  = [js "alice"; js "bob"; js "carol"].
Proof.
  apply (parseAllowUsers_join [js "alice"; js "bob"; js "carol"] (js ", ")).
  - vm_compute. repeat (constructor || discriminate).
  - now vm_compute.
  - vm_compute. repeat constructor.
Defined.

(* ===================================================================== *)
(** * Validation of the configuration                                      *)
(* ===================================================================== *)

Section Validation.

Import ConfigMethods.

Lemma push_if_nil cond msg : push_if cond msg = [] <-> cond = false.
Proof. destruct cond; cbn; split; congruence. Qed.

Lemma lt_number_false a b :
  lt_number a b = false <-> forall t, a = Some t -> (b <= t)%Z.
Proof.
  destruct a as [x|]; cbn.
  - rewrite Z.ltb_ge. split; [now intros H t [= <-]|auto].
  - split; [intros _ t [=]|reflexivity].
Qed.

Lemma port_in_range (p : str) :
  match parseInt p with
  | None => true
  | Some port => (port <? 1)%Z || (65535 <? port)%Z
  end = false
  <-> exists port, parseInt p = Some port /\ (1 <= port <= 65535)%Z.
Proof.
  destruct (parseInt p) as [port|].
  - rewrite orb_false_iff, !Z.ltb_ge. split.
    + intros H. exists port. split; [reflexivity|lia].
    + intros (q & [= <-] & H). lia.
  - split; [discriminate|]. now intros (q & [=] & _).
Qed.

(** The checks of [validate] find nothing exactly when the seven rules
    hold. *)
Lemma errors_nil (c : Checked) :
  errors c = [] <->
  JS.truthy_opt (Config.publicKey (ssh c)) = true
  /\ Config.mode (ssh c) ∈ [js "auto"; js "root"; js "user"]
  /\ (exists port, parseInt (Config.port (ssh c)) = Some port
                   /\ (1 <= port <= 65535)%Z)
  /\ (forall t, portWait c = Some t -> (1000 <= t)%Z)
  /\ (forall t, cfEndpoint c = Some t -> (5000 <= t)%Z)
  /\ (Config.cf_enabled (cloudflare c) = true ->
      JS.truthy_opt (Config.cf_apiKey (cloudflare c)) = true)
  /\ (rtdb_enabled (rtdb c) = true ->
      JS.truthy_opt (rtdb_url (rtdb c)) = true
      /\ JS.truthy_opt (rtdb_id (rtdb c)) = true).
Proof.
  unfold errors.
  rewrite !app_nil, !push_if_nil, port_in_range, !lt_number_false.
  rewrite negb_false_iff, negb_false_iff, bool_decide_eq_true.
  repeat apply and_iff_compat_l.
  split.
  - intros [H1 H2]. split.
    + intros E. rewrite E in H1. now apply negb_false_iff in H1.
    + intros E. rewrite E in H2. cbn in H2.
      apply orb_false_iff in H2 as [A B].
      now apply negb_false_iff in A; apply negb_false_iff in B.
  - intros [H1 H2]. split.
    + destruct (Config.cf_enabled (cloudflare c)); [|reflexivity].
      now rewrite H1.
    + destruct (rtdb_enabled (rtdb c)); [|reflexivity].
      destruct H2 as [-> ->]; reflexivity.
Qed.

Lemma validate_cases (c : Checked) (w : World) :
  (errors c = [] /\ validate c w = (Ret tt, w))
  \/ (errors c <> []
      /\ exists e, validate c w = (Throw (ThrownError e), w)
                   /\ name e = ConfigError).
Proof.
  unfold validate. destruct (errors c) as [|m ms]; [now left|right].
  split; [discriminate|]. cbn [length Nat.ltb Nat.leb]. now eexists.
Qed.

End Validation.

(** X11: [validate] returns, leaving everything as it is, exactly when
    the public key is set, the mode is auto, root or user, the port
    starts (after white space and a sign) with an integer between 1 and
    65535, the two timeouts are not numbers below 1000 and 5000, the
    Cloudflare key is set when Cloudflare is enabled, and the RTDB URL and
    id are set when RTDB is enabled; otherwise it throws a [ConfigError],
    leaving everything as it is. *)
Theorem validate_accepts_iff (c : ConfigMethods.Checked) (w : World) :
  (ConfigMethods.validate c w = (Ret tt, w) <->
   JS.truthy_opt (Config.publicKey (ConfigMethods.ssh c)) = true
   /\ Config.mode (ConfigMethods.ssh c) ∈ [js "auto"; js "root"; js "user"]
   /\ (exists port,
         ConfigMethods.parseInt (Config.port (ConfigMethods.ssh c)) = Some port
         /\ (1 <= port <= 65535)%Z)
   /\ (forall t, ConfigMethods.portWait c = Some t -> (1000 <= t)%Z)
   /\ (forall t, ConfigMethods.cfEndpoint c = Some t -> (5000 <= t)%Z)
   /\ (Config.cf_enabled (ConfigMethods.cloudflare c) = true ->
       JS.truthy_opt (Config.cf_apiKey (ConfigMethods.cloudflare c)) = true)
   /\ (ConfigMethods.rtdb_enabled (ConfigMethods.rtdb c) = true ->
       JS.truthy_opt (ConfigMethods.rtdb_url (ConfigMethods.rtdb c)) = true
       /\ JS.truthy_opt (ConfigMethods.rtdb_id (ConfigMethods.rtdb c)) = true))
  /\ (ConfigMethods.validate c w = (Ret tt, w)
      \/ exists e, ConfigMethods.validate c w = (Throw (ThrownError e), w)
                   /\ name e = ConfigError).
Proof.
  rewrite <- errors_nil.
  destruct (validate_cases c w) as [[E ->]|[E (e & -> & Hn)]].
  - split; [tauto|now left].
  - split; [|right; now exists e]. split; [discriminate|tauto].
Qed.

(** A port with text after its digits, a timeout that is not a number
    and a key made of spaces all pass [validate]. *)
Example validate_accepts_odd_settings :
  fst (ConfigMethods.validate
         (ConfigMethods.mkChecked
            (Config.mkSsh (js " 22; reboot") (js "user") [] None false
                          (js "127.0.0.1") (Some (js "   ")))
            (Config.mkCloudflare false false None None (js "localhost") None)
            None (Some 5000%Z) (ConfigMethods.mkRtdb false None None))
         world0)
  = Ret tt.
Proof. now vm_compute. Qed.

(* ===================================================================== *)
(** * What a run throws                                                    *)
(* ===================================================================== *)

Section Throwing.

Context {S : Type}.

Lemma errors_only_ret {A} (a : A) : throws_errors_only (@ret S A a).
Proof. intros s t s' [=]. Qed.

Lemma errors_only_get : throws_errors_only (@Eff.get S).
Proof. intros s t s' [=]. Qed.

Lemma errors_only_modify (f : S -> S) : throws_errors_only (modify f).
Proof. intros s t s' [=]. Qed.

Lemma errors_only_exit {A} n : throws_errors_only (@exit S A n).
Proof. intros s t s' [=]. Qed.

Lemma errors_only_throw {A} e : throws_errors_only (@throw S A e).
Proof. intros s t s' [= <- _]. now exists e. Qed.

Lemma errors_only_bind {A B} (c : M S A) (k : A -> M S B) :
  throws_errors_only c -> (forall a, throws_errors_only (k a)) ->
  throws_errors_only (bind c k).
Proof.
  intros Hc Hk s t s'. unfold bind.
  destruct (c s) as [[a|t0|n] s1] eqn:E.
  - apply Hk.
  - intros [= <- <-]. now apply (Hc s t0 s1).
  - discriminate.
Qed.

(** What a [try] throws is what its [catch] throws. *)
Lemma errors_only_try_catch {A} (c : M S A) h :
  (forall t, throws_errors_only (h t)) -> throws_errors_only (try_catch c h).
Proof.
  intros Hh s t s'. unfold try_catch.
  destruct (c s) as [[a|t0|n] s1]; [discriminate|apply Hh|discriminate].
Qed.

Lemma never_throws_errors_only {A} (c : M S A) :
  never_throws c -> throws_errors_only c.
Proof. intros H s t s' E. now apply H in E. Qed.

End Throwing.

Section RunThrows.

Import Index.

Lemma errors_only_liftW {A} (c : M World A) :
  throws_errors_only c -> throws_errors_only (liftW c).
Proof.
  intros H s t s'. rewrite liftW_eq.
  destruct (c (world s)) as [o w'] eqn:E. cbn. intros [= -> _].
  now apply (H (world s) t w').
Qed.

Lemma errors_only_log l msg : throws_errors_only (log l msg).
Proof. apply errors_only_modify. Qed.

Lemma errors_only_read_message t : throws_errors_only (Utils.read_message t).
Proof. destruct t; [apply errors_only_ret|apply errors_only_throw]. Qed.

Lemma never_throws_settled_of {A} (c : M RunState A) :
  never_throws (settled_of c).
Proof.
  intros s t s'. unfold settled_of, try_catch, bind.
  now destruct (c s) as [[a|t0|n] s1].
Qed.

Lemma never_throws_start_all {A} (tasks : list (M RunState A)) :
  never_throws (start_all tasks).
Proof.
  induction tasks as [|c rest IH]; intros s t s'; cbn [start_all];
    [discriminate|].
  unfold bind at 1.
  destruct (settled_of c s) as [[p|t0|n] s1] eqn:E;
    [|now apply never_throws_settled_of in E|discriminate].
  unfold bind at 1.
  destruct (start_all rest s1) as [[ps|t0|n] s2] eqn:E2;
    [discriminate|now apply IH in E2|discriminate].
Qed.

Lemma never_throws_new_tunnel name : never_throws (new_tunnel name).
Proof. intros s t s'. discriminate. Qed.

Variable env : Env.
Variable validate : Config.t -> M World unit.
Variable setup : Config.t -> M World SetupSSH.SshResult.
Variable persist :
  list (Settled (option TunnelValue)) -> M World Persistence.
Variable settle_time : nat -> nat.

Lemma errors_only_printSummary ssh ts :
  throws_errors_only (printSummary ssh ts).
Proof. apply errors_only_liftW, errors_only_log. Qed.

Lemma errors_only_ssh_phase config :
  throws_errors_only (ssh_phase setup config).
Proof.
  unfold ssh_phase. apply errors_only_try_catch. intros t.
  apply errors_only_bind;
    [apply errors_only_liftW, errors_only_read_message|]. intros m.
  apply errors_only_bind; [apply errors_only_liftW, errors_only_log|].
  intros _.
  apply errors_only_bind; [apply errors_only_printSummary|]. intros _.
  apply errors_only_exit.
Qed.

Lemma errors_only_after_ssh mk ssh startTime :
  throws_errors_only mk ->
  throws_errors_only (after_ssh env persist settle_time mk ssh startTime).
Proof.
  intros Hmk. unfold after_ssh.
  apply errors_only_bind; [apply errors_only_liftW, errors_only_log|].
  intros _.
  apply errors_only_bind; [now apply errors_only_liftW|]. intros tunnels.
  apply errors_only_bind;
    [apply never_throws_errors_only, never_throws_start_all|]. intros ps.
  apply errors_only_bind.
  { apply errors_only_try_catch. intros t.
    apply errors_only_bind;
      [apply errors_only_liftW, errors_only_read_message|]. intros m.
    apply errors_only_bind; [apply errors_only_liftW, errors_only_log|].
    intros _. apply errors_only_ret. }
  intros pr.
  apply errors_only_bind; [apply errors_only_printSummary|]. intros _.
  apply errors_only_bind; [apply errors_only_get|]. intros s1.
  apply errors_only_bind; [apply errors_only_liftW, errors_only_log|].
  intros _. apply errors_only_ret.
Qed.

(** The run throws nothing when what [validate] and the making of the
    tunnel objects throw are error objects. *)
Lemma never_throws_run_with new_tunnels config options :
  (forall c, throws_errors_only (validate c)) ->
  (forall c, throws_errors_only (new_tunnels c)) ->
  never_throws
    (run_with env validate setup persist settle_time new_tunnels config
       options).
Proof.
  intros Hv Hn s t s'. unfold run_with.
  unfold bind at 1. cbn [Eff.get]. unfold try_catch.
  match goal with
  | |- (match ?body s with _ => _ end) <> _ =>
      assert (throws_errors_only body) as Hb;
      [|destruct (body s) as [[r|t0|n] s1] eqn:E; [discriminate| |discriminate]]
  end.
  { apply errors_only_bind; [apply errors_only_liftW, errors_only_log|].
    intros _.
    apply errors_only_bind; [apply errors_only_liftW, Hv|]. intros _.
    apply errors_only_bind; [apply errors_only_liftW, errors_only_log|].
    intros _.
    apply errors_only_bind; [apply errors_only_ssh_phase|]. intros ssh.
    apply errors_only_after_ssh, Hn. }
  destruct (Hb s t0 s1 E) as [e ->].
  unfold bind. rewrite liftW_eq. cbn. discriminate.
Qed.

End RunThrows.

(** What [validate] throws is an error object. *)
Lemma validate_throws_errors_only (c : ConfigMethods.Checked) :
  throws_errors_only (ConfigMethods.validate c).
Proof.
  intros w t w' E.
  destruct (validate_cases c w) as [[_ E']|[_ (e & E' & _)]];
    rewrite E' in E; [discriminate|].
  injection E as <- _. now exists e.
Qed.

(** X12: a run never throws: whatever the bring-up of the SSH server,
    the tunnels and the persistence do, [run] returns its results or ends
    the process, provided that what [validate] throws is an error object
    (as the [ConfigError] of [validate] is). *)
Theorem run_never_throws (env : Env)
        (validate : Config.t -> M World unit)
        (setup : Config.t -> M World SetupSSH.SshResult)
        (persist : list (Index.Settled (option Index.TunnelValue)) ->
                   M World Index.Persistence)
        (settle_time : nat -> nat)
        (sshj_default_namespace sshj_default_device : str)
        (cf_install : M World bool)
        (cf_findTunnelId cf_createTunnel : str -> M World (option str))
        (cf_renderConfig : str -> str -> str -> str)
        (cf_generatedName : str)
        (config : Config.t) (options : Index.Options) (s : Index.RunState) :
  (forall c, throws_errors_only (validate c)) ->
  (exists r, fst (Index.run env validate setup persist settle_time
                    sshj_default_namespace sshj_default_device
                    cf_install cf_findTunnelId cf_createTunnel
                    cf_renderConfig cf_generatedName config options s)
             = Ret r)
  \/ (exists code,
        fst (Index.run env validate setup persist settle_time
               sshj_default_namespace sshj_default_device
               cf_install cf_findTunnelId cf_createTunnel
               cf_renderConfig cf_generatedName config options s)
        = Exit code).
Proof.
  intros Hv. unfold Index.run.
  match goal with
  | |- (exists r, fst (?c s) = _) \/ _ =>
      assert (never_throws c) as H;
      [|destruct (c s) as [[r|t|n] s1] eqn:E;
        [left; now exists r|now apply H in E|right; now exists n]]
  end.
  apply never_throws_run_with; [exact Hv|]. intros c.
  apply never_throws_errors_only. intros s0 t s'.
  unfold Index.the_tunnels, bind, Index.new_tunnel. discriminate.
Qed.

Lemma run_never_throws_witness :
  (exists r, fst (Index.run env0
                    (fun c => ConfigMethods.validate
                                (ConfigMethods.checked
                                   (ConfigMethods.mkRtdb false None None) c))
                    setup_failing persist0 (fun i => i)
                    (js "repo-1") (js "repo-ci")
                    cf_install0 cf_findTunnelId0 cf_createTunnel0
                    cf_renderConfig0 (js "repo-1") cfg0 options0 state0)
             = Ret r)
  \/ (exists code,
        fst (Index.run env0
               (fun c => ConfigMethods.validate
                           (ConfigMethods.checked
                              (ConfigMethods.mkRtdb false None None) c))
               setup_failing persist0 (fun i => i)
               (js "repo-1") (js "repo-ci")
               cf_install0 cf_findTunnelId0 cf_createTunnel0
               cf_renderConfig0 (js "repo-1") cfg0 options0 state0)
        = Exit code).
Proof.
  apply (run_never_throws env0
           (fun c => ConfigMethods.validate
                       (ConfigMethods.checked
                          (ConfigMethods.mkRtdb false None None) c))).
  intros c. apply validate_throws_errors_only.
Defined.

(* ===================================================================== *)
(** * The summary                                                          *)
(* ===================================================================== *)

Section SummaryLines.

Import Index.

(** The fourth unit of a line about an entry is a check mark, a cross or
    a space. *)
Lemma entry_lines_mark r l :
  In l (Summary.entry_lines r) ->
  l !! 3%nat = Some 9989%N \/ l !! 3%nat = Some 10060%N
  \/ l !! 3%nat = Some 32%N.
Proof.
  destruct r as [[v|]|t]; cbn [Summary.entry_lines]; [| |].
  - rewrite !in_app_iff.
    destruct (JS.truthy_opt (v_endpoint v)), (JS.truthy_opt (v_connectCommand v));
      cbn [In]; eval_lits; intros H;
      repeat (destruct H as [H|H]; try contradiction);
      subst; cbn; auto.
  - contradiction.
  - cbn [In]. eval_lits. intros [<-|[<-|[]]]; cbn; auto.
Qed.

Lemma entry_lines_fulfilled v l :
  In l (Summary.entry_lines (Fulfilled v)) ->
  JS.startsWith (js "   " ++ Summary.CROSS) l = false.
Proof.
  destruct v as [v|]; cbn [Summary.entry_lines]; [|contradiction].
  rewrite !in_app_iff.
  destruct (JS.truthy_opt (v_endpoint v)), (JS.truthy_opt (v_connectCommand v));
    cbn [In]; eval_lits; intros H;
    repeat (destruct H as [H|H]; try contradiction);
    subst; reflexivity.
Qed.

Lemma tunnelCount_pos rs v :
  In (Fulfilled (Some v)) rs -> (Summary.tunnelCount rs =? 0)%nat = false.
Proof.
  intros H. unfold Summary.tunnelCount.
  apply Nat.eqb_neq. intros E. apply length_zero_iff_nil in E.
  assert (In (Fulfilled (Some v))
             (List.filter
                (fun r => match r with Fulfilled (Some _) => true | _ => false end)
                rs)) as Hin by (apply filter_In; now split).
  rewrite E in Hin. contradiction.
Qed.

End SummaryLines.

(** X13: in the part of the summary about the tunnels, a tunnel that
    failed to start with an error (its entry is the fulfilled failure
    object) appears with the check mark and its type; it counts as a
    tunnel, so that the line 'No tunnels configured' is not written; and
    a line that carries the cross stands for a rejected entry, never for
    a failure object. *)
Theorem summary_marks_failures
        (results : list (Index.Settled (option Index.TunnelValue)))
        (type m : str) :
  In (Index.Fulfilled (Some (Index.failure_value type m))) results ->
  In (js "   " ++ Summary.CHECK ++ js " "
      ++ SetupSSH.or_else (Some type) (js "Tunnel"))
     (Summary.tunnel_lines results)
  /\ ~ In Summary.NO_TUNNELS (Summary.tunnel_lines results)
  /\ (forall l, In l (Summary.tunnel_lines results) ->
        JS.startsWith (js "   " ++ Summary.CROSS) l = true ->
        exists reason,
          In (Index.Rejected reason) results
          /\ In l (Summary.entry_lines (Index.Rejected reason))).
Proof.
  intros Hin. unfold Summary.tunnel_lines.
  rewrite (tunnelCount_pos results _ Hin), app_nil_r.
  split; [|split].
  - right. apply in_flat_map. eexists. split; [exact Hin|].
    cbn. now left.
  - intros [E|H].
    + revert E. unfold Summary.NO_TUNNELS. eval_lits. discriminate.
    + apply in_flat_map in H as (r & _ & H).
      apply entry_lines_mark in H. revert H.
      unfold Summary.NO_TUNNELS. eval_lits. cbn.
      intros [H|[H|H]]; discriminate.
  - intros l [<-|H] Hc.
    + revert Hc. now eval_lits.
    + apply in_flat_map in H as (r & Hr & H).
      destruct r as [v|reason].
      * apply entry_lines_fulfilled in H. congruence.
      * now exists reason.
Qed.

Lemma summary_marks_failures_witness :
  In (js "   " ++ Summary.CHECK ++ js " "
      ++ SetupSSH.or_else (Some (js "Bad")) (js "Tunnel"))
     (Summary.tunnel_lines
        [Index.Fulfilled (Some (Index.failure_value (js "Bad") (js "boom")));
         Index.Fulfilled None])
  /\ ~ In Summary.NO_TUNNELS
          (Summary.tunnel_lines
             [Index.Fulfilled
                (Some (Index.failure_value (js "Bad") (js "boom")));
              Index.Fulfilled None]).
Proof.
  destruct (summary_marks_failures
              [Index.Fulfilled
                 (Some (Index.failure_value (js "Bad") (js "boom")));
               Index.Fulfilled None] (js "Bad") (js "boom")) as (H1 & H2 & _).
  - now left.
  - now split.
Defined.

(** The summary of a rejected entry: the cross, with the words that
    stand for a reason without type. *)
Example summary_of_rejected_entry :
  Summary.entry_lines
    (Index.Rejected
       (ThrownError
          (TypeError
             (js "Cannot read properties of undefined (reading 'message')"))))
  = [ js "   " ++ [10060%N] ++ js " Tunnel";
      js "      Error: Cannot read properties of undefined (reading 'message')" ].
Proof. now vm_compute. Qed.

(** The summary of the three tunnels of the example: the tunnel that
    failed is listed like the one that started, without its error. *)
Example summary_of_three_tunnels :
  Summary.tunnel_lines
    [ Index.Fulfilled
        (Some (Index.mkTunnelValue (js "Ok") true (Some (js "tcp://h:1"))
                 (Some (js "ssh -p 1 runner@h")) (Some 4242%Z) None None));
      Index.Fulfilled
        (Some (Index.mkTunnelValue (js "Bad") false None None None None
                 (Some (js "Bad tunnel error: boom"))));
      Index.Fulfilled None ]
  = [ [JS.LF] ++ [55357; 56967]%N ++ js " Tunnels:";
      js "   " ++ [9989%N] ++ js " Ok";
      js "      Endpoint: tcp://h:1";
      js "      Connect: ssh -p 1 runner@h";
      js "   " ++ [9989%N] ++ js " Bad" ].
Proof. now vm_compute. Qed.

(* ===================================================================== *)
(** * More on the retry and on the log probe                               *)
(* ===================================================================== *)

(** X15: with the default report of a failed attempt, an operation that
    throws [undefined] on an attempt that is not the last ends the retry
    at once with a [TypeError] (the report reads [err.message]): nothing
    is slept and nothing is tried again. *)
Theorem retryWithBackoff_undefined_aborts (env : Env) {A} (fn : M World A)
        (o : Utils.RetryOptions) (w w1 : World) :
  (2 <= Utils.maxRetries o)%Z ->
  Utils.onRetry o = None ->
  fn w = (Throw ThrownUndefined, w1) ->
  exists e,
    Utils.retryWithBackoff env fn o w = (Throw (ThrownError e), w1)
    /\ name e = TypeErrorC.
Proof.
  intros Hm Ho Hf. unfold Utils.retryWithBackoff.
  destruct (Z.to_nat (Utils.maxRetries o)) as [|n] eqn:En; [lia|].
  cbn [Utils.retry_loop]. unfold try_catch. rewrite Hf.
  destruct (Z.eqb_spec 0 (Utils.maxRetries o - 1)) as [E|_]; [lia|].
  unfold bind at 1. unfold Utils.notify. rewrite Ho.
  cbn. eexists. split; reflexivity.
Qed.

Lemma retryWithBackoff_undefined_aborts_witness :
  exists e,
    Utils.retryWithBackoff env0 (rethrow ThrownUndefined : M World Z)
      Utils.defaults world0 = (Throw (ThrownError e), world0)
    /\ name e = TypeErrorC.
Proof.
  apply (retryWithBackoff_undefined_aborts env0
           (rethrow ThrownUndefined : M World Z) Utils.defaults world0 world0).
  - cbn. lia.
  - reflexivity.
  - reflexivity.
Defined.

Section ProbeBounds.

Variable env : Env.
Variable logFile : path.
Variable pattern : Regex.Pattern.

Local Abbreviation at_poll := (BaseTunnel.at_poll env logFile).
Local Abbreviation next_poll := (BaseTunnel.next_poll env logFile).

(** Each poll comes at least 250 ms after the one before. *)
Lemma now_at_poll_250 k : forall w,
  (now w + 250 * Z.of_nat k <= now (at_poll k w))%Z.
Proof.
  induction k as [|k IH]; intros w; [cbn; lia|].
  rewrite at_poll_S. specialize (IH (next_poll w)).
  rewrite now_next_poll in IH. lia.
Qed.

Lemma sleeps_at_poll k : forall w,
  sleeps (at_poll k w) = repeat 250%Z k ++ sleeps w.
Proof.
  induction k as [|k IH]; intros w; [reflexivity|].
  rewrite at_poll_S, IH.
  replace (repeat 250%Z (S k)) with (repeat 250%Z k ++ [250%Z])
    by (symmetry; apply (repeat_cons k 250%Z)).
  rewrite <- app_assoc. f_equal.
  unfold BaseTunnel.next_poll.
  now destruct (readLog env (now w) logFile).
Qed.

(** The loop always ends, at a poll before which every poll was made
    before the timeout. *)
Lemma probe_loop_ends timeoutMs start : forall w,
  exists r k,
    BaseTunnel.probe_loop env logFile pattern timeoutMs start w
      = (Ret r, at_poll k w)
    /\ forall j, (j < k)%nat -> (now (at_poll j w) - start < timeoutMs)%Z.
Proof.
  intros w.
  remember (Z.to_nat (timeoutMs - (now w - start))) as n eqn:En.
  revert w En. induction n as [n IH] using lt_wf_ind. intros w En.
  destruct (Z_lt_dec (now w - start) timeoutMs) as [Hlt|Hge].
  - destruct (BaseTunnel.poll env logFile pattern w) as [m|] eqn:Hp.
    + exists (Some m), 0%nat. split; [now apply probe_loop_hit|].
      intros j Hj. lia.
    + rewrite probe_loop_miss by assumption.
      destruct (IH (Z.to_nat (timeoutMs - (now (next_poll w) - start))))
        with (w := next_poll w) as (r & k & E & Hj).
      * rewrite now_next_poll. lia.
      * reflexivity.
      * exists r, (S k). rewrite at_poll_S. split; [exact E|].
        intros [|j] Hlt'; [exact Hlt|]. rewrite at_poll_S. apply Hj. lia.
  - exists None, 0%nat. split; [apply probe_loop_timeout; cbn; lia|].
    intros j Hj. lia.
Qed.

End ProbeBounds.

(** X16: with a log file set, the probe always returns: it never throws,
    whatever the log file does. It sleeps 250 ms at a time, fewer than
    [timeout / 250 + 1] times, and leaves the files, the tunnel objects
    and the exported variables as they were. *)
Theorem parseEndpointFromLog_returns (env : Env) (self : nat)
        (pattern : Regex.Pattern) (timeoutMs : Z) (logFile : path)
        (w : World) :
  t_logFile (BaseTunnel.this self w) = Some logFile ->
  exists r w' k,
    BaseTunnel.parseEndpointFromLog env self pattern timeoutMs w = (Ret r, w')
    /\ sleeps w' = repeat 250%Z k ++ sleeps w
    /\ (250 * Z.of_nat k < Z.max timeoutMs 0 + 250)%Z
    /\ fs w' = fs w /\ objs w' = objs w /\ vars w' = vars w.
Proof.
  intros Hlf. unfold BaseTunnel.parseEndpointFromLog, bind, Eff.get.
  rewrite Hlf.
  destruct (probe_loop_ends env logFile pattern timeoutMs (now w) w)
    as (r & k & E & Hj).
  exists r, (BaseTunnel.at_poll env logFile k w), k.
  split; [exact E|]. split; [apply sleeps_at_poll|]. split.
  - destruct k as [|k]; [lia|].
    specialize (Hj k (Nat.lt_succ_diag_r k)).
    pose proof (now_at_poll_250 env logFile k w). lia.
  - destruct (at_poll_frame env logFile k w) as (Ho & Hf & Hv). auto.
Qed.

Lemma parseEndpointFromLog_returns_witness :
  exists r w' k,
    BaseTunnel.parseEndpointFromLog env_late 0 Regex.tcp_url 1000 probe_world
      = (Ret r, w')
    /\ sleeps w' = repeat 250%Z k ++ sleeps probe_world
    /\ (250 * Z.of_nat k < Z.max 1000 0 + 250)%Z
    /\ fs w' = fs probe_world /\ objs w' = objs probe_world
    /\ vars w' = vars probe_world.
Proof.
  apply (parseEndpointFromLog_returns env_late 0 Regex.tcp_url 1000
           [js "pinggy.log"] probe_world).
  reflexivity.
Defined.

(* ===================================================================== *)
(** * The SSH-J tunnel in a run                                            *)
(* ===================================================================== *)



(** The SSH-J tunnel of the end-to-end run, on Azure Pipelines: the
    command set by its start, which the results of the run do not
    carry. *)
Example sshj_connect_of_run0 :
  In (js "SSHJ_CONNECT", js "ssh -J repo-1@ssh-j.com runner@repo-ci")
     (vars (Index.world (snd run0))).
Proof. vm_compute. tauto. Qed.

(* ===================================================================== *)
(** * What is left on disk                                                 *)
(* ===================================================================== *)

Section KeysOnDisk.

Variable env : Env.
Variable sys : Sys.t.

Local Abbreviation ssh_dir := (SetupSSH.ssh_dir env).
Local Abbreviation authorized_keys := (SetupSSH.authorized_keys env).

Lemma authorized_keys_in_ssh_dir : dirname authorized_keys = ssh_dir.
Proof.
  unfold SetupSSH.authorized_keys, SetupSSH.ssh_dir, dirname, path_join.
  apply removelast_last.
Qed.

Lemma authorized_keys_ne_ssh_dir : authorized_keys <> ssh_dir.
Proof.
  unfold SetupSSH.authorized_keys, SetupSSH.ssh_dir, path_join.
  intros H. apply (f_equal (@length str)) in H.
  rewrite !length_app in H. cbn in H. lia.
Qed.

(** [mkdir -p] creates the directory it is asked for, when nothing is
    there. *)
Lemma mkdir_p_creates mode : forall rest pre f,
  rest <> [] -> f !! (pre ++ rest) = None ->
  exists m, Utils.mkdir_p mode pre rest f !! (pre ++ rest) = Some (Dir m).
Proof.
  induction rest as [|seg rest IH]; intros pre f Hne Hf; [congruence|].
  cbn [Utils.mkdir_p].
  destruct rest as [|seg' rest'].
  - cbn [Utils.mkdir_p]. rewrite Hf. exists mode. apply lookup_insert_eq.
  - replace (pre ++ seg :: seg' :: rest')
      with ((pre ++ [seg]) ++ seg' :: rest') in *
      by now rewrite <- app_assoc.
    apply IH; [discriminate|].
    destruct (f !! (pre ++ [seg])); [exact Hf|].
    rewrite lookup_insert_ne; [exact Hf|].
    intros E. apply (f_equal (@length str)) in E.
    rewrite !length_app in E. cbn in E. lia.
Qed.

(** The directory it creates has the mode it is given. *)
Lemma mkdir_p_mode mode : forall rest pre f,
  rest <> [] -> f !! (pre ++ rest) = None ->
  Utils.mkdir_p mode pre rest f !! (pre ++ rest) = Some (Dir mode).
Proof.
  induction rest as [|seg rest IH]; intros pre f Hne Hf; [congruence|].
  cbn [Utils.mkdir_p].
  destruct rest as [|seg' rest'].
  - cbn [Utils.mkdir_p]. rewrite Hf. apply lookup_insert_eq.
  - replace (pre ++ seg :: seg' :: rest')
      with ((pre ++ [seg]) ++ seg' :: rest') in *
      by now rewrite <- app_assoc.
    apply IH; [discriminate|].
    destruct (f !! (pre ++ [seg])); [exact Hf|].
    rewrite lookup_insert_ne; [exact Hf|].
    intros E. apply (f_equal (@length str)) in E.
    rewrite !length_app in E. cbn in E. lia.
Qed.

(** [mkdir -p] leaves what exists as it is. *)
Lemma mkdir_p_keeps mode : forall rest pre f p n,
  f !! p = Some n -> Utils.mkdir_p mode pre rest f !! p = Some n.
Proof.
  induction rest as [|seg rest IH]; intros pre f p n Hp; [exact Hp|].
  cbn [Utils.mkdir_p]. apply IH.
  destruct (f !! (pre ++ [seg])) eqn:E; [exact Hp|].
  rewrite lookup_insert_ne; [exact Hp|]. intros <-.
  discriminate (eq_trans (eq_sym E) Hp).
Qed.

(** [mkdir -p] does not touch a path longer than the one it is given. *)
Lemma mkdir_p_longer mode : forall rest pre f p,
  (length (pre ++ rest) < length p)%nat ->
  Utils.mkdir_p mode pre rest f !! p = f !! p.
Proof.
  induction rest as [|seg rest IH]; intros pre f p Hp; [reflexivity|].
  cbn [Utils.mkdir_p]. rewrite IH.
  - destruct (f !! (pre ++ [seg])); [reflexivity|].
    apply lookup_insert_ne. intros <-.
    rewrite !length_app in Hp. cbn in Hp. lia.
  - rewrite <- app_assoc. exact Hp.
Qed.

Lemma ssh_dir_nonempty : ssh_dir <> [].
Proof. unfold SetupSSH.ssh_dir, path_join. now destruct (HOME env). Qed.

(** After [ensureDir], the directory is there, unless a file has its
    name. *)
Lemma ensureDir_dir (p : path) (mode : N) (w : World) :
  p <> [] ->
  (forall c m, fs w !! p <> Some (File c m)) ->
  exists w' m, Utils.ensureDir p mode w = (Ret tt, w')
               /\ fs w' !! p = Some (Dir m)
               /\ (forall q n, fs w !! q = Some n -> fs w' !! q = Some n)
               /\ now w' = now w.
Proof.
  intros Hne Hf. unfold Utils.ensureDir, bind, Eff.get.
  destruct (fs w !! p) as [[m|c m]|] eqn:E.
  - exists w, m. auto.
  - now destruct (Hf c m).
  - destruct (mkdir_p_creates mode p [] (fs w) Hne E) as [m Hm].
    eexists _, m. split; [reflexivity|]. cbn. split; [exact Hm|].
    split; [|reflexivity]. intros q n. apply mkdir_p_keeps.
Qed.

(** The directory keeps the mode it had, and has the mode given when it
    is created; longer paths are left alone. *)
Lemma ensureDir_mode (p : path) (mode : N) (w : World) :
  p <> [] ->
  (forall c m, fs w !! p <> Some (File c m)) ->
  exists w', Utils.ensureDir p mode w = (Ret tt, w')
             /\ fs w' !! p = Some (Dir (CommandSpec.dir_mode w p mode))
             /\ (forall q, (length p < length q)%nat -> fs w' !! q = fs w !! q)
             /\ now w' = now w.
Proof.
  intros Hne Hf. unfold Utils.ensureDir, bind, Eff.get, CommandSpec.dir_mode.
  destruct (fs w !! p) as [[m|c m]|] eqn:E.
  - exists w. rewrite E. auto.
  - now destruct (Hf c m).
  - eexists. split; [reflexivity|]. cbn.
    split; [exact (mkdir_p_mode mode p [] (fs w) Hne E)|].
    split; [|reflexivity]. intros q Hq. now apply mkdir_p_longer.
Qed.

(** Up to the commands that fix the permissions: the directory and the
    file have the modes they had, or those they are created with. *)
Lemma writeAuthorizedKeys_before_chmod (pubkey : str) (w : World) :
  SetupSSH.parseKeys pubkey <> [] ->
  (forall c m, fs w !! ssh_dir <> Some (File c m)) ->
  exists w1,
    SetupSSH.writeAuthorizedKeys env sys (Some pubkey) w
    = SetupSSH.fix_permissions env sys w1
    /\ fs w1 !! ssh_dir = Some (Dir (CommandSpec.dir_mode w ssh_dir 448))
    /\ fs w1 !! authorized_keys =
         Some (File (SetupSSH.keysContent (toISOString env (now w))
                       (SetupSSH.parseKeys pubkey))
                    (CommandSpec.file_mode w authorized_keys 384)).
Proof.
  intros Hk Hd. unfold SetupSSH.writeAuthorizedKeys.
  rewrite (parseKeys_guard _ Hk).
  unfold bind at 1. rewrite log_ret.
  destruct (ensureDir_mode ssh_dir 448
              (add_log LSection (js "Writing SSH Authorized Keys") w)
              ssh_dir_nonempty Hd)
    as (w1 & E1 & D1 & O1 & N1).
  unfold bind at 1. rewrite E1.
  destruct (SetupSSH.parseKeys pubkey) as [|k ks] eqn:EK; [congruence|].
  cbn [length Nat.eqb].
  unfold bind at 1. rewrite log_ret.
  unfold bind at 1. unfold Eff.get at 1.
  cbn [now add_log] in N1 |- *. rewrite N1.
  set (content := SetupSSH.keysContent (toISOString env (now w)) (k :: ks)).
  set (w1' := add_log LInfo _ w1).
  assert (fs w1' !! ssh_dir = Some (Dir (CommandSpec.dir_mode w ssh_dir 448)))
    as D1' by exact D1.
  assert (fs w1' !! authorized_keys = fs w !! authorized_keys) as F1.
  { apply (O1 authorized_keys).
    unfold SetupSSH.authorized_keys, SetupSSH.ssh_dir, path_join.
    rewrite !length_app. cbn. lia. }
  unfold Utils.writeFileSafe.
  rewrite authorized_keys_in_ssh_dir.
  unfold bind at 1. unfold bind at 1.
  unfold Utils.ensureDir at 1. unfold bind at 1. unfold Eff.get at 1.
  rewrite D1'. cbn [ret].
  unfold bind at 1. unfold Utils.writeFileSync, modify at 1.
  unfold bind at 1. rewrite log_ret.
  rewrite log_ret.
  eexists. split; [reflexivity|]. cbn [fs add_log set_fs]. split.
  - rewrite lookup_insert_ne; [exact D1'|apply authorized_keys_ne_ssh_dir].
  - rewrite lookup_insert_eq, F1. reflexivity.
Qed.

(** The world a command whose failure is ignored leaves, as far as the
    files go. *)
Lemma fix_permissions_on_linux (w : World) :
  platform env = js "linux" ->
  exists w1 w2 w3,
    SetupSSH.fix_permissions env sys w = (Ret tt, w3)
    /\ fs w1 = Sys.files (Sys.exec sys (SetupSSH.chmod_ssh_dir env)
                            (add_log LCommand (SetupSSH.chmod_ssh_dir env) w))
    /\ fs w2 = Sys.files (Sys.exec sys (SetupSSH.chmod_authorized_keys env)
                            (add_log LCommand
                               (SetupSSH.chmod_authorized_keys env) w1))
    /\ fs w3 = Sys.files (Sys.exec sys (SetupSSH.chown_ssh_dir env)
                            (add_log LCommand (SetupSSH.chown_ssh_dir env) w2)).
Proof.
  intros Hp. unfold SetupSSH.fix_permissions, Utils.isLinux.
  rewrite bool_decide_eq_true_2 by exact Hp.
  destruct (run_ignoring sys (SetupSSH.chmod_ssh_dir env) w) as (w1 & E1 & F1).
  destruct (run_ignoring sys (SetupSSH.chmod_authorized_keys env) w1)
    as (w2 & E2 & F2).
  destruct (run_ignoring sys (SetupSSH.chown_ssh_dir env) w2)
    as (w3 & E3 & F3).
  exists w1, w2, w3. split; [|auto].
  unfold bind at 1. rewrite E1. unfold bind at 1. rewrite E2. exact E3.
Qed.

End KeysOnDisk.

(** X18: on Linux, [writeAuthorizedKeys] given a blob with a key line (no
    file stands on the way to the [.ssh] directory, and
    [authorized_keys] is not a directory) returns whatever becomes of its
    three commands, whose failure is ignored. Where the two [chmod] do
    what they are asked, [.ssh] is left with the mode 700 and
    [authorized_keys] with the mode 600 and the new content, whatever
    was there before. Where the commands change nothing (they fail),
    [authorized_keys] has the new content and each of the two keeps the
    mode it had: 700 and 600 are the modes of what is created only. *)
Theorem writeAuthorizedKeys_modes (env : Env) (sys : Sys.t) (pubkey : str)
        (w : World) :
  platform env = js "linux" ->
  SetupSSH.parseKeys pubkey <> [] ->
  (forall k c m, fs w !! take k (SetupSSH.ssh_dir env) <> Some (File c m)) ->
  (forall m, fs w !! SetupSSH.authorized_keys env <> Some (Dir m)) ->
  let content :=
    SetupSSH.keysContent (toISOString env (now w)) (SetupSSH.parseKeys pubkey) in
  exists w',
    SetupSSH.writeAuthorizedKeys env sys (Some pubkey) w = (Ret tt, w')
    /\ (CommandSpec.chmod_works env sys ->
        fs w' !! SetupSSH.ssh_dir env = Some (Dir 448)
        /\ fs w' !! SetupSSH.authorized_keys env = Some (File content 384))
    /\ (CommandSpec.changes_nothing sys ->
        fs w' !! SetupSSH.ssh_dir env
        = Some (Dir (CommandSpec.dir_mode w (SetupSSH.ssh_dir env) 448))
        /\ fs w' !! SetupSSH.authorized_keys env
           = Some (File content
                        (CommandSpec.file_mode w
                           (SetupSSH.authorized_keys env) 384))).
Proof.
  intros Hp Hk Hd _ content.
  destruct (writeAuthorizedKeys_before_chmod env sys pubkey w Hk)
    as (w0 & -> & D0 & F0).
  { intros c m. specialize (Hd (length (SetupSSH.ssh_dir env)) c m).
    now rewrite firstn_all in Hd. }
  destruct (fix_permissions_on_linux env sys w0 Hp)
    as (w1 & w2 & w3 & E & F1 & F2 & F3).
  exists w3. split; [exact E|]. split.
  - intros Hc.
    rewrite F3, (proj2 (proj2 (Hc _))). cbn [fs add_log].
    rewrite F2, (proj1 (proj2 (Hc _))). cbn [fs add_log].
    rewrite F1, (proj1 (Hc _)). cbn [fs add_log].
    pose proof (authorized_keys_ne_ssh_dir env) as Hne. split.
    + rewrite lookup_alter_ne by exact Hne.
      now rewrite lookup_alter_eq, D0.
    + rewrite lookup_alter_eq.
      rewrite lookup_alter_ne by (intros X; now apply Hne).
      now rewrite F0.
  - intros Hn.
    rewrite F3, Hn. cbn [fs add_log]. rewrite F2, Hn. cbn [fs add_log].
    rewrite F1, Hn. cbn [fs add_log]. now split.
Qed.

Lemma writeAuthorizedKeys_modes_witness :
  exists w',
    SetupSSH.writeAuthorizedKeys env0 sys0 (Some blob0) loose_world
    = (Ret tt, w')
    /\ fs w' !! SetupSSH.ssh_dir env0 = Some (Dir 493)
    /\ fs w' !! SetupSSH.authorized_keys env0
       = Some (File (SetupSSH.keysContent
                       (toISOString env0 (now loose_world))
                       (SetupSSH.parseKeys blob0)) 420).
Proof.
  destruct (writeAuthorizedKeys_modes env0 sys0 blob0 loose_world)
    as (w' & E & _ & Hn).
  - reflexivity.
  - now vm_compute.
  - intros [|[|[|[|k]]]] c m; now vm_compute.
  - intros m. now vm_compute.
  - exists w'. split; [exact E|]. apply Hn. intros cmd w. reflexivity.
Defined.

(** X19: on a platform that is neither win32 nor linux, [setup] given a
    blob with a key line (no file stands on the way to the [.ssh]
    directory, and [authorized_keys] is not a directory) throws the
    [SSHDError] of the unsupported platform only after it has written
    [authorized_keys]: the file holds the new keys when the error is
    thrown. *)
Theorem setup_fails_after_writing_keys (env : Env) (sys : Sys.t)
        (cfg : Config.t)
        (linuxUserMode : str -> str -> bool -> M World SetupSSH.SshResult)
        (linuxRootMode :
           str -> str -> bool -> list str -> M World SetupSSH.SshResult)
        (windowsSetup : str -> list str -> M World SetupSSH.SshResult)
        (detectDefaultCwd : str) (pubkey : str) (w : World) :
  Config.publicKey (Config.ssh cfg) = Some pubkey ->
  SetupSSH.parseKeys pubkey <> [] ->
  platform env <> js "win32" -> platform env <> js "linux" ->
  (forall k c m, fs w !! take k (SetupSSH.ssh_dir env) <> Some (File c m)) ->
  (forall m, fs w !! SetupSSH.authorized_keys env <> Some (Dir m)) ->
  exists w' m,
    SetupSSH.setup env sys cfg linuxUserMode linuxRootMode windowsSetup
      detectDefaultCwd w
    = (Throw (ThrownError
                (SSHDError (js "Unsupported platform: " ++ platform env))), w')
    /\ fs w' !! SetupSSH.authorized_keys env =
         Some (File (SetupSSH.keysContent (toISOString env (now w))
                       (SetupSSH.parseKeys pubkey)) m).
Proof.
  intros Hk Hp Hw Hl _ _.
  destruct (writeAuthorizedKeys_written env sys pubkey w Hp)
    as (w' & m & E & F).
  exists w', m. split; [|exact F].
  unfold SetupSSH.setup, bind. rewrite Hk, E.
  unfold SetupSSH.fix_permissions, Utils.isWindows, Utils.isLinux.
  now rewrite !bool_decide_eq_false_2 by assumption.
Qed.

Lemma setup_fails_after_writing_keys_witness :
  exists w' m,
    SetupSSH.setup env_darwin sys0 cfg0
      (fun p _ _ => mode_stub (js "user") p)
      (fun p _ _ _ => mode_stub (js "root") p)
      (fun p _ => mode_stub (js "windows") p) (js "/Users/runner") world0
    = (Throw (ThrownError
                (SSHDError (js "Unsupported platform: " ++ platform env_darwin))),
       w')
    /\ fs w' !! SetupSSH.authorized_keys env_darwin =
         Some (File (SetupSSH.keysContent (toISOString env_darwin (now world0))
                       (SetupSSH.parseKeys blob0)) m).
Proof.
  apply (setup_fails_after_writing_keys env_darwin sys0 cfg0 _ _ _ _ blob0
           world0).
  - reflexivity.
  - now vm_compute.
  - now vm_compute.
  - now vm_compute.
  - intros [|[|[|[|k]]]] c m; now vm_compute.
  - intros m. now vm_compute.
Defined.

(* ===================================================================== *)
(** * Running commands                                                     *)
(* ===================================================================== *)

Section RunningCommands.

Variable env : Env.
Variable sys : Sys.t.

Local Abbreviation ran := (fun cmd w => Sys.ran (Sys.exec sys cmd w) w).
Local Abbreviation succeeds := (CommandSpec.succeeds sys).
Local Abbreviation installed := (CommandSpec.installed env sys).
Local Abbreviation commands_only := CommandSpec.commands_only.

Lemma commands_only_refl w : commands_only w w.
Proof. unfold CommandSpec.commands_only. repeat split; lia. Qed.

Lemma commands_only_trans w1 w2 w3 :
  commands_only w1 w2 -> commands_only w2 w3 -> commands_only w1 w3.
Proof.
  unfold CommandSpec.commands_only.
  intros (-> & -> & -> & -> & H1) (-> & -> & -> & -> & H2).
  repeat split; lia.
Qed.

Lemma commands_only_ran cmd w : commands_only w (ran cmd w).
Proof. unfold CommandSpec.commands_only. cbn. repeat split; lia. Qed.

Lemma runCapture_eq cmd w :
  Commands.runCapture sys cmd w =
  (Ret (match Sys.result (Sys.exec sys cmd w) with
        | Sys.Done out => Some out
        | Sys.Failed _ => None
        end), ran cmd w).
Proof.
  unfold Commands.runCapture, try_catch, bind, Utils.execSync, ret.
  now destruct (Sys.result (Sys.exec sys cmd w)).
Qed.

Lemma commandExists_eq cmd w :
  Commands.commandExists env sys cmd w =
  (Ret (installed cmd w), ran (Commands.check_for env cmd) w).
Proof.
  unfold Commands.commandExists, bind. rewrite runCapture_eq.
  unfold CommandSpec.installed, ret.
  now destruct (Sys.result (Sys.exec sys (Commands.check_for env cmd) w)).
Qed.

Lemma execOk_eq cmd w :
  Commands.execOk sys cmd w = (Ret (succeeds cmd w), ran cmd w).
Proof.
  unfold Commands.execOk, try_catch, bind, Utils.execSync, ret,
    CommandSpec.succeeds.
  now destruct (Sys.result (Sys.exec sys cmd w)).
Qed.

(** A command whose failure is ignored runs to its end. *)
Lemma run_ignored cmd w :
  exists w', Utils.run sys cmd true w = (Ret tt, w')
             /\ sleeps w' = sleeps w /\ objs w' = objs w /\ vars w' = vars w
             /\ (now w <= now w')%Z.
Proof.
  unfold Utils.run, log, modify, bind, try_catch, Utils.execSync, ret.
  destruct (Sys.result (Sys.exec sys cmd (add_log LCommand cmd w)));
    eexists; (split; [reflexivity|]); cbn; repeat split; lia.
Qed.

(** A command whose failure is not ignored either runs to its end or
    throws what [execSync] threw. *)
Lemma run_strict cmd w :
  exists w', sleeps w' = sleeps w /\ objs w' = objs w /\ vars w' = vars w
             /\ (now w <= now w')%Z
             /\ (Utils.run sys cmd false w = (Ret tt, w')
                 \/ exists msg,
                      Utils.run sys cmd false w
                      = (Throw (ThrownError (PlainErr msg)), w')).
Proof.
  unfold Utils.run, log, modify, bind, try_catch, Utils.execSync, ret,
    rethrow.
  exists (ran cmd (add_log LCommand cmd w)).
  do 3 (split; [reflexivity|]). split; [cbn; lia|].
  destruct (Sys.result (Sys.exec sys cmd (add_log LCommand cmd w))); eauto.
Qed.

(** One round of the port probe always answers. *)
Lemma port_check_returns port w :
  exists b w', Commands.port_check env sys port w = (Ret b, w')
               /\ commands_only w w'.
Proof.
  unfold Commands.port_check, bind.
  rewrite commandExists_eq. destruct (installed (js "nc") w).
  { rewrite execOk_eq. eexists _, _. split; [reflexivity|].
    eapply commands_only_trans; apply commands_only_ran. }
  rewrite commandExists_eq.
  destruct (installed (js "ss") _).
  { rewrite runCapture_eq. eexists _, _. split; [reflexivity|].
    eapply commands_only_trans; [apply commands_only_ran|].
    eapply commands_only_trans; apply commands_only_ran. }
  rewrite commandExists_eq.
  destruct (installed (js "netstat") _).
  { rewrite runCapture_eq. eexists _, _. split; [reflexivity|].
    eapply commands_only_trans; [apply commands_only_ran|].
    eapply commands_only_trans; [apply commands_only_ran|].
    eapply commands_only_trans; apply commands_only_ran. }
  eexists _, _. split; [reflexivity|].
  eapply commands_only_trans; [apply commands_only_ran|].
  eapply commands_only_trans; apply commands_only_ran.
Qed.

Lemma wait_loop_unfold port t start w :
  Commands.wait_loop env sys port t start w =
  if Z_lt_dec (now w - start) t then
    match Commands.port_check env sys port w with
    | (Ret true, w1) => (Ret true, w1)
    | (Ret false, w1) =>
        Commands.wait_loop env sys port t start (slept env 250 w1)
    | (Throw t', w1) => (Throw t', w1)
    | (Exit n, w1) => (Exit n, w1)
    end
  else (Ret false, w).
Proof.
  rewrite Commands.wait_loop_equation_1.
  destruct (Z_lt_dec (now w - start) t) as [H|H]; [|reflexivity].
  cbn.
  now destruct (Commands.port_check env sys port w) as [[[|]|?|?] w1].
Qed.

(** The loop always ends with an answer, after polls that each came at
    least 250 ms after the one before. *)
Lemma wait_loop_ends port t start : forall w,
  exists b k w',
    Commands.wait_loop env sys port t start w = (Ret b, w')
    /\ sleeps w' = repeat 250%Z k ++ sleeps w
    /\ (k = 0%nat \/ now w - start + 250 * Z.of_nat k < t + 250)%Z
    /\ logs w' = logs w /\ objs w' = objs w /\ vars w' = vars w
    /\ (now w <= now w')%Z.
Proof.
  intros w.
  remember (Z.to_nat (t - (now w - start))) as n eqn:En.
  revert w En. induction n as [n IH] using lt_wf_ind. intros w En.
  rewrite wait_loop_unfold.
  destruct (Z_lt_dec (now w - start) t) as [Hlt|Hge].
  - destruct (port_check_returns port w) as (b & w1 & -> & Hl & Hs & Ho & Hv & Hn).
    destruct b.
    + exists true, 0%nat, w1. cbn. repeat split; auto.
    + destruct (IH (Z.to_nat (t - (now (slept env 250 w1) - start))))
        with (w := slept env 250 w1)
        as (b & k & w' & E & Es & Hk & El & Eo & Ev & En');
        [cbn; lia|reflexivity|].
      exists b, (S k), w'. split; [exact E|].
      cbn [sleeps slept now logs objs vars] in Es, El, Eo, Ev, En', Hk.
      change (timer 250) with 250%Z in *.
      split.
      { rewrite Es, Hs.
        replace (repeat 250%Z (S k)) with (repeat 250%Z k ++ [250%Z])
          by (symmetry; apply (repeat_cons k 250%Z)).
        now rewrite <- app_assoc. }
      split; [right; destruct Hk as [->|Hk]; lia|].
      rewrite El, Eo, Ev. repeat split; auto. lia.
  - exists false, 0%nat, w. cbn. repeat split; auto. lia.
Qed.

Lemma waitPortLocalhost_total port t w :
  exists b w', Commands.waitPortLocalhost env sys port t w = (Ret b, w').
Proof.
  unfold Commands.waitPortLocalhost.
  destruct (wait_loop_ends port t (now w) w) as (b & k & w' & E & _).
  eauto.
Qed.

End RunningCommands.

(** X20: waiting for a port always ends with an answer and never throws,
    whatever the commands do and however long they take: the wait
    sleeps 250 ms between two polls, fewer than [timeoutMs / 250 + 1]
    times in all, logs nothing, and with a timeout of 0 or less it
    answers [false] at once, without running any command. *)
Theorem waitPortLocalhost_returns (env : Env) (sys : Sys.t) (port : str)
        (timeoutMs : Z) (w : World) :
  exists b k w',
    Commands.waitPortLocalhost env sys port timeoutMs w = (Ret b, w')
    /\ sleeps w' = repeat 250%Z k ++ sleeps w
    /\ (250 * Z.of_nat k < Z.max timeoutMs 0 + 250)%Z
    /\ logs w' = logs w /\ objs w' = objs w /\ vars w' = vars w
    /\ ((timeoutMs <= 0)%Z -> b = false /\ w' = w).
Proof.
  unfold Commands.waitPortLocalhost.
  destruct (wait_loop_ends env sys port timeoutMs (now w) w)
    as (b & k & w' & E & Es & Hk & El & Eo & Ev & _).
  exists b, k, w'. split; [exact E|]. split; [exact Es|].
  split; [destruct Hk as [->|Hk]; lia|].
  repeat split; auto;
    rewrite wait_loop_unfold in E;
    destruct (Z_lt_dec (now w - now w) timeoutMs); try lia; congruence.
Qed.

Section PortProbes.

Variable env : Env.
Variable sys : Sys.t.
Variable port : str.

Local Abbreviation succeeds := (CommandSpec.succeeds sys).
Local Abbreviation installed := (CommandSpec.installed env sys).

(** A poll decided by [nc] alone. *)
Lemma port_check_nc w :
  installed (js "nc") w = true ->
  exists w', Commands.port_check env sys port w
             = (Ret (succeeds (Commands.nc_probe port)
                       (Sys.ran (Sys.exec sys (Commands.check_for env (js "nc")) w) w)),
                w').
Proof.
  intros H. unfold Commands.port_check, bind.
  rewrite commandExists_eq, H, execOk_eq. eauto.
Qed.

(** A poll with no tool to ask. *)
Lemma port_check_no_tool w :
  (forall w, installed (js "nc") w = false
             /\ installed (js "ss") w = false
             /\ installed (js "netstat") w = false) ->
  exists w', Commands.port_check env sys port w = (Ret false, w').
Proof.
  intros H. unfold Commands.port_check, bind.
  rewrite commandExists_eq. rewrite (proj1 (H _)).
  rewrite commandExists_eq. rewrite (proj1 (proj2 (H _))).
  rewrite commandExists_eq. rewrite (proj2 (proj2 (H _))).
  cbn. eauto.
Qed.

Lemma wait_loop_false t start :
  (forall w, exists w', Commands.port_check env sys port w = (Ret false, w')) ->
  forall w, exists w',
    Commands.wait_loop env sys port t start w = (Ret false, w').
Proof.
  intros Hc w.
  remember (Z.to_nat (t - (now w - start))) as n eqn:En.
  revert w En. induction n as [n IH] using lt_wf_ind. intros w En.
  rewrite wait_loop_unfold.
  destruct (Z_lt_dec (now w - start) t) as [Hlt|Hge]; [|eauto].
  destruct (Hc w) as (w1 & E). rewrite E.
  destruct (port_check_returns env sys port w) as (b & w1' & E' & _ & _ & _ & _ & Hn).
  rewrite E in E'. injection E' as _ <-.
  apply (IH (Z.to_nat (t - (now (slept env 250 w1) - start))));
    [cbn; lia|reflexivity].
Qed.

End PortProbes.

(** X21: when [nc] is installed, it alone decides: if its probe of the
    port fails at every poll, the wait answers [false], whatever [ss]
    and [netstat] would report. The wait also answers [false] when none
    of [nc], [ss] and [netstat] is installed. *)
Theorem waitPortLocalhost_nc_decides (env : Env) (sys : Sys.t) (port : str)
        (timeoutMs : Z) (w : World) :
  (forall w, CommandSpec.installed env sys (js "nc") w = true
             /\ CommandSpec.succeeds sys (Commands.nc_probe port) w = false)
  \/ (forall w, CommandSpec.installed env sys (js "nc") w = false
                /\ CommandSpec.installed env sys (js "ss") w = false
                /\ CommandSpec.installed env sys (js "netstat") w = false) ->
  exists w',
    Commands.waitPortLocalhost env sys port timeoutMs w = (Ret false, w').
Proof.
  intros H. unfold Commands.waitPortLocalhost.
  apply wait_loop_false. intros w0. destruct H as [H|H].
  - destruct (port_check_nc env sys port w0 (proj1 (H w0))) as (w' & E).
    rewrite (proj2 (H _)) in E. eauto.
  - now apply port_check_no_tool.
Qed.

Lemma waitPortLocalhost_nc_decides_witness :
  exists w',
    Commands.waitPortLocalhost env0 sys_nc_fails (js "2222") 8000 world0
    = (Ret false, w').
Proof.
  apply (waitPortLocalhost_nc_decides env0 sys_nc_fails (js "2222") 8000 world0).
  left. intros w. split; now vm_compute.
Defined.

(** With [nc] missing, the same system shows the port listening through
    [ss] at the first poll. *)
Example waitPortLocalhost_by_ss :
  Commands.waitPortLocalhost env0
    (sys_of (fun cmd =>
       if bool_decide (cmd = js "command -v ss") then Sys.Done (js "/usr/bin/ss")
       else if JS.startsWith (js "ss ") cmd
       then Sys.Done (js "LISTEN 0 128 0.0.0.0:2222 0.0.0.0:*")
       else Sys.Failed (js "Command failed: " ++ cmd)))
    (js "2222") 8000 world0
  = (Ret true, world0).
Proof.
  unfold Commands.waitPortLocalhost. rewrite wait_loop_unfold.
  now vm_compute.
Qed.

(* ===================================================================== *)
(** * Downloads                                                            *)
(* ===================================================================== *)

Section RetryOutcomes.

Variable env : Env.
Context {A : Type} (fn : M World A) (o : Utils.RetryOptions).

(** A value the retry returns is the value of one of its attempts. *)
Lemma retry_loop_returned n : forall a last w r w',
  Utils.retry_loop env fn o n a last w = (Ret r, w') ->
  exists w0, fn w0 = (Ret r, w').
Proof.
  induction n as [|n IH]; intros a last w r w' H; [discriminate|].
  cbn [Utils.retry_loop] in H. unfold try_catch in H.
  destruct (fn w) as [[r0|t|c] w1] eqn:E.
  - exists w. now rewrite E, <- H.
  - destruct (a =? Utils.maxRetries o - 1)%Z; [discriminate|].
    unfold bind at 1 in H.
    destruct (Utils.notify o a (Utils.backoffDelay o a) t w1) as [[[]|?|?] w2];
      try discriminate.
    unfold bind at 1, Utils.sleep, modify in H.
    now apply IH in H.
  - discriminate.
Qed.

(** When every attempt throws the same error, so does the retry. *)
Lemma retry_loop_throws e :
  (forall a d w, exists w',
      Utils.notify o a d (ThrownError e) w = (Ret tt, w')) ->
  (forall w, exists w', fn w = (Throw (ThrownError e), w')) ->
  forall n a last w,
    (0 < n)%nat -> (Z.of_nat n + a = Utils.maxRetries o)%Z ->
    exists w', Utils.retry_loop env fn o n a last w
               = (Throw (ThrownError e), w').
Proof.
  intros Ho Hfn. induction n as [|n IH]; intros a last w Hpos Hn; [lia|].
  destruct (Hfn w) as (w1 & Hf).
  destruct (Z.eq_dec a (Utils.maxRetries o - 1)%Z) as [Ha|Ha].
  - subst a. rewrite (retry_loop_last env fn o n last w _ w1 Hf). eauto.
  - destruct (Ho a (Utils.backoffDelay o a) w1) as (w2 & Hnot).
    rewrite (retry_loop_again env fn o n a last w e w1 w2 Hf Ha Hnot).
    apply IH; lia.
Qed.

End RetryOutcomes.

(** X14: a value the retry returns is the value one of the attempts
    returned, in the world that attempt left, and at least one attempt
    was allowed; with [maxRetries] of 0 or less the operation is never
    called and the retry throws [undefined], the initial [lastError]. *)
Theorem retryWithBackoff_returns_attempt (env : Env) {A} (fn : M World A)
        (o : Utils.RetryOptions) (w : World) :
  (forall r w',
      Utils.retryWithBackoff env fn o w = (Ret r, w') ->
      (1 <= Utils.maxRetries o)%Z /\ exists w0, fn w0 = (Ret r, w'))
  /\ ((Utils.maxRetries o <= 0)%Z ->
      Utils.retryWithBackoff env fn o w = (Throw ThrownUndefined, w)).
Proof.
  split.
  - intros r w' H. split.
    + destruct (Z_le_gt_dec 1 (Utils.maxRetries o)) as [Hm|Hm]; [exact Hm|].
      rewrite retryWithBackoff_no_attempt in H by lia. discriminate.
    + unfold Utils.retryWithBackoff in H.
      now apply retry_loop_returned in H.
  - apply retryWithBackoff_no_attempt.
Qed.

Lemma retryWithBackoff_returns_attempt_witness :
  (1 <= Utils.maxRetries Utils.defaults)%Z
  /\ exists w0,
       flaky w0 = (Ret 7%Z, snd (Utils.retryWithBackoff env0 flaky
                                   Utils.defaults world0)).
Proof.
  apply (proj1 (retryWithBackoff_returns_attempt env0 flaky Utils.defaults
                  world0) 7%Z
               (snd (Utils.retryWithBackoff env0 flaky Utils.defaults world0))).
  now vm_compute.
Defined.

Section Downloads.

Variable env : Env.
Variable sys : Sys.t.
Variable url : str.
Variable dest : path.
Variable timeout : option Z.

Local Abbreviation installed := (CommandSpec.installed env sys).
Local Abbreviation NO_TOOL :=
  (NetworkError (js "Neither curl nor wget available for download")).

Lemma download_onRetry_returns maxRetries a d t w :
  exists w',
    Utils.notify
      (Utils.mkRetryOptions maxRetries 1000 10000 2
                            (Some Commands.download_onRetry)) a d t w
    = (Ret tt, w')
    /\ sleeps w' = sleeps w.
Proof. eexists. split; reflexivity. Qed.

Lemma download_once_no_tool w :
  (forall w, installed (js "curl") w = false
             /\ installed (js "wget") w = false) ->
  exists w',
    Commands.download_once env sys url dest timeout w
    = (Throw (ThrownError NO_TOOL), w')
    /\ sleeps w' = sleeps w.
Proof.
  intros H. unfold Commands.download_once, Commands.progress, log, modify.
  unfold bind at 1. unfold bind at 1. unfold bind at 1.
  rewrite commandExists_eq, (proj1 (H _)).
  unfold bind at 1. rewrite commandExists_eq, (proj2 (H _)).
  eexists. split; reflexivity.
Qed.

(** What an attempt that returns leaves at [dest]. *)
Lemma download_once_returned w w' :
  Commands.download_once env sys url dest timeout w = (Ret tt, w') ->
  exists node,
    fs w' !! dest = Some node
    /\ Commands.is_empty sys w' dest = false
    /\ (Utils.isWindows env = false -> CommandSpec.mode_of node = 493%N).
Proof.
  unfold Commands.download_once, Commands.progress, log, modify.
  unfold bind at 1. unfold bind at 1. rewrite commandExists_eq.
  unfold bind at 1.
  match goal with
  | |- context [match ?c ?w0 with _ => _ end] =>
      destruct (c w0) as [[[]|?|?] w2]; try discriminate
  end.
  unfold Commands.progressDone, log, modify.
  unfold bind at 1. unfold bind at 1, get. unfold bind at 1.
  generalize (add_log LInfo (js " " ++ js "Done") w2). intros w3.
  match goal with
  | |- context [match ?l with Some _ => _ | None => true end] =>
      destruct l as [node|] eqn:En; [|unfold throw; cbn; discriminate]
  end.
  destruct (Commands.is_empty sys w3 dest) eqn:Ee;
    [unfold throw; cbn; discriminate|].
  unfold ret.
  destruct (Utils.isWindows env); cbn [negb].
  - cbn. intros [= <-]. exists node. now repeat split.
  - cbv beta iota. intros [= <-]. exists (Utils.set_mode 493 node).
    cbn [fs set_fs].
    split; [now rewrite lookup_alter, decide_True, En by reflexivity|].
    split; [|now destruct node].
    unfold Commands.is_empty in Ee |- *. cbn [fs set_fs].
    rewrite lookup_alter, decide_True, En by reflexivity.
    rewrite En in Ee. now destruct node.
Qed.

End Downloads.

(** X22: with neither [curl] nor [wget] installed, a download is still
    attempted [maxRetries] times: it ends with the [NetworkError] of the
    last attempt, after a backoff sleep of [min (1000 * 2 ^ n) 10000] ms
    behind every attempt [n] but the last. *)
Theorem downloadBinary_without_tools (env : Env) (sys : Sys.t) (url : str)
        (dest : path) (maxRetries : Z) (timeout : option Z) (w : World) :
  (1 <= maxRetries)%Z ->
  (forall w, CommandSpec.installed env sys (js "curl") w = false
             /\ CommandSpec.installed env sys (js "wget") w = false) ->
  exists w',
    Commands.downloadBinary env sys url dest maxRetries timeout w
    = (Throw (ThrownError
                (NetworkError
                   (js "Neither curl nor wget available for download"))), w')
    /\ sleeps w' =
       rev (map (fun n => Z.min (1000 * 2 ^ Z.of_nat n) 10000)
                (seq 0 (Z.to_nat maxRetries - 1)))
       ++ sleeps w.
Proof.
  intros Hm Hno. unfold Commands.downloadBinary, Utils.retryWithBackoff.
  set (o := Utils.mkRetryOptions maxRetries 1000 10000 2
                                 (Some Commands.download_onRetry)).
  set (fn := Commands.download_once env sys url dest timeout).
  destruct (retry_loop_throws env fn o
              (NetworkError (js "Neither curl nor wget available for download")))
    with (n := Z.to_nat (Utils.maxRetries o)) (a := 0%Z)
         (last := ThrownUndefined) (w := w) as (w' & E).
  - intros a d w0.
    destruct (download_onRetry_returns maxRetries a d
                (ThrownError (NetworkError
                   (js "Neither curl nor wget available for download"))) w0)
      as (w1 & H1 & _). eauto.
  - intros w0.
    destruct (download_once_no_tool env sys url dest timeout w0 Hno)
      as (w1 & H1 & _). eauto.
  - cbn. lia.
  - cbn. lia.
  - exists w'. split; [exact E|].
    pose proof (retry_loop_sleeps env fn o) as Hs.
    specialize (Hs (fun a d e w0 =>
                      download_onRetry_returns maxRetries a d (ThrownError e) w0)).
    assert (forall w0, exists e w1,
               fn w0 = (Throw (ThrownError e), w1) /\ sleeps w1 = sleeps w0)
      as Hfn.
    { intros w0.
      destruct (download_once_no_tool env sys url dest timeout w0 Hno)
        as (w1 & H1 & H2). eauto. }
    specialize (Hs Hfn (Z.to_nat (Utils.maxRetries o)) 0%Z ThrownUndefined w).
    rewrite E in Hs. cbn [snd] in Hs. rewrite Hs by (cbn; lia).
    f_equal. f_equal. apply map_ext. intros n.
    rewrite (backoffDelay_exact o) by (cbn; lia). reflexivity.
Qed.

Lemma downloadBinary_without_tools_witness :
  exists w',
    Commands.downloadBinary env0 sys_bare (js "https://example.com/bin")
      Cloudflare.tmp_cloudflared 3 (Some 30000%Z) world0
    = (Throw (ThrownError
                (NetworkError
                   (js "Neither curl nor wget available for download"))), w')
    /\ sleeps w' = [2000; 1000]%Z.
Proof.
  apply (downloadBinary_without_tools env0 sys_bare (js "https://example.com/bin")
           Cloudflare.tmp_cloudflared 3 (Some 30000%Z) world0).
  - lia.
  - intros w. split; now vm_compute.
Defined.

(** X23: whenever a download returns, the destination exists and is not
    empty, and on a platform other than Windows its mode is 0o755. *)
Theorem downloadBinary_leaves_binary (env : Env) (sys : Sys.t) (url : str)
        (dest : path) (maxRetries : Z) (timeout : option Z) (w w' : World) :
  Commands.downloadBinary env sys url dest maxRetries timeout w = (Ret tt, w') ->
  exists node,
    fs w' !! dest = Some node
    /\ Commands.is_empty sys w' dest = false
    /\ (Utils.isWindows env = false -> CommandSpec.mode_of node = 493%N).
Proof.
  unfold Commands.downloadBinary, Utils.retryWithBackoff. intros H.
  apply retry_loop_returned in H. destruct H as (w0 & H).
  now apply download_once_returned in H.
Qed.

Lemma downloadBinary_leaves_binary_witness :
  exists node,
    fs (snd (Commands.downloadBinary env0 sys_curl (js "https://example.com/bin")
               Cloudflare.tmp_cloudflared 3 (Some 30000%Z) world0))
      !! Cloudflare.tmp_cloudflared = Some node
    /\ Commands.is_empty sys_curl
         (snd (Commands.downloadBinary env0 sys_curl (js "https://example.com/bin")
                 Cloudflare.tmp_cloudflared 3 (Some 30000%Z) world0))
         Cloudflare.tmp_cloudflared = false
    /\ (Utils.isWindows env0 = false -> CommandSpec.mode_of node = 493%N).
Proof.
  apply (downloadBinary_leaves_binary env0 sys_curl (js "https://example.com/bin")
           Cloudflare.tmp_cloudflared 3 (Some 30000%Z) world0
           (snd (Commands.downloadBinary env0 sys_curl
                   (js "https://example.com/bin")
                   Cloudflare.tmp_cloudflared 3 (Some 30000%Z) world0))).
  now vm_compute.
Defined.

(* ===================================================================== *)
(** * Installing cloudflared                                               *)
(* ===================================================================== *)

Section Outcomes.

Context {S A B : Type}.

(** What holds of the rest of a sequence holds of the sequence, when its
    first statement completes. *)
Lemma outcome_bind (c : M S A) (k : A -> M S B) (w : S)
      (P : Outcome B * S -> Prop) :
  returns c w (fun a w1 => P (k a w1)) -> P (bind c k w).
Proof. intros (a & w1 & E & H). unfold bind. now rewrite E. Qed.

End Outcomes.

Lemma bind_bind {S A B C} (c : M S A) (k : A -> M S B) (h : B -> M S C) w :
  bind (bind c k) h w = bind c (fun a => bind (k a) h) w.
Proof. unfold bind. now destruct (c w) as [[a|t|n] w1]. Qed.

(** X24: on a platform other than Linux, with [cloudflared] not
    installed, starting the Cloudflare tunnel fails after the check for
    [cloudflared], the only command run: with 'Installation failed' on
    Windows and with 'Unsupported platform: undefined' elsewhere.
    Nothing is spawned, slept or exported. *)
Theorem cloudflare_start_needs_linux (env : Env) (sys : Sys.t) (cfg : Config.t)
        (download_url install_path : str) (downloadTimeout : option Z)
        (cf_findTunnelId cf_createTunnel : str -> M World (option str))
        (cf_renderConfig : str -> str -> str -> str) (cf_generatedName : str)
        (self : nat) (sshPort : str) (logDir : path) (w : World) :
  Utils.isLinux env = false ->
  CommandSpec.installed env sys (js "cloudflared") w = false ->
  t_name (BaseTunnel.this self w) = js "Cloudflare" ->
  exists w',
    Cloudflare.start env sys cfg download_url install_path downloadTimeout
      cf_findTunnelId cf_createTunnel cf_renderConfig cf_generatedName
      self sshPort logDir w
    = (Throw (ThrownError
                (TunnelError (js "Cloudflare")
                   (if Utils.isWindows env then js "Installation failed"
                    else js "Unsupported platform: undefined"))), w')
    /\ fs w' = Sys.files (Sys.exec sys (Commands.check_for env (js "cloudflared")) w)
    /\ sleeps w' = sleeps w /\ objs w' = objs w /\ vars w' = vars w.
Proof.
  intros Hl Hc Hn.
  unfold Cloudflare.start, Tunnels.cf_start, Cloudflare.install.
  unfold bind at 1. unfold bind at 1.
  rewrite commandExists_eq, Hc, Hl.
  unfold bind at 1. unfold BaseTunnel.logAt at 1, log, modify, bind at 1, get.
  destruct (Utils.isWindows env).
  - unfold bind at 1. unfold BaseTunnel.logAt at 1, log, modify, bind at 1, get.
    unfold bind at 1. unfold BaseTunnel.logAt at 1, log, modify, bind at 1, get.
    unfold ret at 1. cbn [negb]. unfold bind at 1, get, throw.
    unfold BaseTunnel.this in Hn |- *. cbn [objs add_log Sys.ran].
    rewrite Hn. eexists. split; [reflexivity|now cbn].
  - unfold bind at 1, get, throw.
    unfold BaseTunnel.this in Hn |- *. cbn [objs add_log Sys.ran].
    rewrite Hn. eexists. split; [reflexivity|now cbn].
Qed.

Lemma cloudflare_start_needs_linux_witness :
  exists w',
    Cloudflare.start env_darwin sys_bare cfg1
      (js "https://example.com/cloudflared") (js "/usr/local/bin/cloudflared")
      (Some 30000%Z) cf_findTunnelId0 cf_createTunnel0 cf_renderConfig0
      (js "repo-1") 0 (js "2222") [js "logs"] cloudflare_world
    = (Throw (ThrownError
                (TunnelError (js "Cloudflare")
                   (if Utils.isWindows env_darwin then js "Installation failed"
                    else js "Unsupported platform: undefined"))), w')
    /\ fs w' = Sys.files (Sys.exec sys_bare
                            (Commands.check_for env_darwin (js "cloudflared"))
                            cloudflare_world)
    /\ sleeps w' = sleeps cloudflare_world
    /\ objs w' = objs cloudflare_world
    /\ vars w' = vars cloudflare_world.
Proof.
  apply (cloudflare_start_needs_linux env_darwin sys_bare cfg1
           (js "https://example.com/cloudflared")
           (js "/usr/local/bin/cloudflared") (Some 30000%Z)
           cf_findTunnelId0 cf_createTunnel0 cf_renderConfig0 (js "repo-1")
           0 (js "2222") [js "logs"] cloudflare_world);
    now vm_compute.
Defined.

(* ===================================================================== *)
(** * The root mode and Windows                                            *)
(* ===================================================================== *)

Section Modes.

Variable env : Env.
Variable sys : Sys.t.
Variable cfg : Config.t.

(** The steps of the bring-up procedures that always complete. *)
Lemma returns_run_ignored cmd (w : World) Q :
  (forall w', sleeps w' = sleeps w -> Q tt w') ->
  returns (Utils.run sys cmd true) w Q.
Proof.
  intros H. destruct (run_ignored sys cmd w) as (w' & E & Hs & _).
  exists tt, w'. split; [exact E|]. now apply H.
Qed.

Lemma returns_run_all cmds : forall (w : World) Q,
  (forall w', sleeps w' = sleeps w -> Q tt w') ->
  returns (SetupModes.run_all sys cmds) w Q.
Proof.
  induction cmds as [|c cmds IH]; intros w Q H.
  - apply returns_ret. now apply H.
  - cbn [SetupModes.run_all]. apply returns_bind, returns_run_ignored.
    intros w1 H1. apply IH. intros w2 H2. apply H. congruence.
Qed.

Lemma returns_waitPortLocalhost port timeoutMs (w : World) Q :
  (forall b w', Q b w') ->
  returns (Commands.waitPortLocalhost env sys port timeoutMs) w Q.
Proof.
  intros H.
  destruct (waitPortLocalhost_total env sys port timeoutMs w) as (b & w' & E).
  exists b, w'. split; [exact E|apply H].
Qed.

Lemma root_configure_outcomes sshPort sshDefaultCwd disableForceCwd
      allowUsers (w : World) :
  exists w',
    SetupModes.root_configure env sys cfg sshPort sshDefaultCwd
      disableForceCwd allowUsers w
    = (Ret (SetupSSH.mkSshResult (js "root") sshPort None None), w')
    \/ SetupModes.root_configure env sys cfg sshPort sshDefaultCwd
         disableForceCwd allowUsers w
       = (Throw (ThrownError
                   (SSHDError (js "Port " ++ sshPort
                               ++ js " is not listening after restart"))), w').
Proof.
  unfold SetupModes.root_configure.
  apply (outcome_bind _ _ _
           (fun r => exists w', r = (Ret _, w') \/ r = (Throw _, w'))).
  apply returns_get.
  apply (outcome_bind _ _ _
           (fun r => exists w', r = (Ret _, w') \/ r = (Throw _, w'))).
  assert (forall Q : unit -> World -> Prop, (forall w', Q tt w') ->
            returns
              (match fs w !! SetupModes.file_of (SetupModes.sshd_config env) with
               | Some _ =>
                   Utils.run sys
                     (js "sudo cp " ++ Utils.quoted (SetupModes.sshd_config env)
                      ++ js " "
                      ++ Utils.quoted (SetupModes.sshd_config env
                                       ++ js ".backup-" ++ JS.showZ (now w)))
                     true ;;;
                   log LInfo (js "Backed up config to: "
                              ++ (SetupModes.sshd_config env ++ js ".backup-"
                                  ++ JS.showZ (now w)))
               | None => ret tt
               end) w Q) as Hbackup.
  { intros Q HQ. destruct (fs w !! _).
    - apply returns_bind, returns_run_ignored. intros w1 _.
      apply returns_log, HQ.
    - apply returns_ret, HQ. }
  apply Hbackup. intros w1.
  apply (outcome_bind _ _ _
           (fun r => exists w', r = (Ret _, w') \/ r = (Throw _, w'))).
  apply returns_log.
  apply (outcome_bind _ _ _
           (fun r => exists w', r = (Ret _, w') \/ r = (Throw _, w'))).
  apply returns_run_all. intros w2 _.
  apply (outcome_bind _ _ _
           (fun r => exists w', r = (Ret _, w') \/ r = (Throw _, w'))).
  assert (forall c (Q : unit -> World -> Prop), (forall w', Q tt w') ->
            returns (if negb disableForceCwd
                     then Utils.run sys c true else ret tt) w2 Q) as Hforce.
  { intros c Q HQ. destruct disableForceCwd; cbn [negb].
    - apply returns_ret, HQ.
    - apply returns_run_ignored. intros; apply HQ. }
  apply Hforce. intros w3.
  apply (outcome_bind _ _ _
           (fun r => exists w', r = (Ret _, w') \/ r = (Throw _, w'))).
  apply returns_log.
  apply (outcome_bind _ _ _
           (fun r => exists w', r = (Ret _, w') \/ r = (Throw _, w'))).
  apply returns_run_ignored. intros w4 _.
  apply (outcome_bind _ _ _
           (fun r => exists w', r = (Ret _, w') \/ r = (Throw _, w'))).
  apply returns_run_ignored. intros w5 _.
  apply (outcome_bind _ _ _
           (fun r => exists w', r = (Ret _, w') \/ r = (Throw _, w'))).
  apply returns_waitPortLocalhost. intros [|] w6; cbn [negb].
  - eexists. left. reflexivity.
  - eexists. right. reflexivity.
Qed.

(** The permission check of the root mode. *)
Lemma linuxRootMode_eq sshPort sshDefaultCwd disableForceCwd allowUsers w :
  SetupModes.linuxRootMode env sys cfg sshPort sshDefaultCwd disableForceCwd
    allowUsers w
  = if Commands.isRootOnLinux env sys then
      SetupModes.root_configure env sys cfg sshPort sshDefaultCwd
        disableForceCwd allowUsers
        (add_log LSection (js "Setting up SSH (Linux Root Mode)") w)
    else if Utils.isLinux env then
      if CommandSpec.succeeds sys (js "sudo -n true")
           (add_log LSection (js "Setting up SSH (Linux Root Mode)") w)
      then
        SetupModes.root_configure env sys cfg sshPort sshDefaultCwd
          disableForceCwd allowUsers
          (Sys.ran (Sys.exec sys (js "sudo -n true")
                      (add_log LSection
                         (js "Setting up SSH (Linux Root Mode)") w))
             (add_log LSection (js "Setting up SSH (Linux Root Mode)") w))
      else
        (Throw (ThrownError
                  (PermissionError
                     (js "Root mode requires root user or sudo without password"))),
         Sys.ran (Sys.exec sys (js "sudo -n true")
                    (add_log LSection
                       (js "Setting up SSH (Linux Root Mode)") w))
           (add_log LSection (js "Setting up SSH (Linux Root Mode)") w))
    else
      (Throw (ThrownError
                (PermissionError
                   (js "Root mode requires root user or sudo without password"))),
       add_log LSection (js "Setting up SSH (Linux Root Mode)") w).
Proof.
  unfold SetupModes.linuxRootMode.
  unfold bind at 1, log at 1, modify at 1. unfold bind at 1.
  destruct (Commands.isRootOnLinux env sys); [reflexivity|].
  unfold Commands.hasSudoNoPass.
  destruct (Utils.isLinux env); cbn [negb]; [|reflexivity].
  rewrite execOk_eq. now destruct (CommandSpec.succeeds sys _ _).
Qed.

End Modes.

(** X25: the root mode fails with a [PermissionError], having logged
    its title only and before the port is probed, exactly when the
    process is not root on Linux and [sudo -n true] does not succeed; on
    another platform [sudo] is not even tried and the files are left as
    they are. Otherwise no command it runs can stop it by failing: it
    ends with its result, mode 'root' and the port asked for, or with the
    [SSHDError] of a port that does not listen. *)
Theorem linuxRootMode_outcomes (env : Env) (sys : Sys.t) (cfg : Config.t)
        (sshPort sshDefaultCwd : str) (disableForceCwd : bool)
        (allowUsers : list str) (w : World) :
  exists w',
    (Commands.isRootOnLinux env sys
     || (Utils.isLinux env
         && CommandSpec.succeeds sys (js "sudo -n true")
              (add_log LSection (js "Setting up SSH (Linux Root Mode)") w))
     = false
     /\ SetupModes.linuxRootMode env sys cfg sshPort sshDefaultCwd
          disableForceCwd allowUsers w
        = (Throw (ThrownError
                    (PermissionError
                       (js "Root mode requires root user or sudo without password"))),
           w')
     /\ sleeps w' = sleeps w
     /\ logs w' = (LSection, js "Setting up SSH (Linux Root Mode)") :: logs w
     /\ (Utils.isLinux env = false -> fs w' = fs w))
    \/ (Commands.isRootOnLinux env sys
        || (Utils.isLinux env
            && CommandSpec.succeeds sys (js "sudo -n true")
                 (add_log LSection (js "Setting up SSH (Linux Root Mode)") w))
        = true
        /\ (SetupModes.linuxRootMode env sys cfg sshPort sshDefaultCwd
              disableForceCwd allowUsers w
            = (Ret (SetupSSH.mkSshResult (js "root") sshPort None None), w')
            \/ SetupModes.linuxRootMode env sys cfg sshPort sshDefaultCwd
                 disableForceCwd allowUsers w
               = (Throw (ThrownError
                           (SSHDError (js "Port " ++ sshPort
                                       ++ js " is not listening after restart"))),
                  w'))).
Proof.
  rewrite !linuxRootMode_eq.
  destruct (Commands.isRootOnLinux env sys); cbn [orb].
  - destruct (root_configure_outcomes env sys cfg sshPort sshDefaultCwd
                disableForceCwd allowUsers
                (add_log LSection (js "Setting up SSH (Linux Root Mode)") w))
      as (w' & H).
    exists w'. right. split; [reflexivity|exact H].
  - destruct (Utils.isLinux env); cbn [andb].
    + destruct (CommandSpec.succeeds sys (js "sudo -n true") _).
      * destruct (root_configure_outcomes env sys cfg sshPort sshDefaultCwd
                    disableForceCwd allowUsers
                    (Sys.ran (Sys.exec sys (js "sudo -n true")
                                (add_log LSection
                                   (js "Setting up SSH (Linux Root Mode)") w))
                       (add_log LSection
                          (js "Setting up SSH (Linux Root Mode)") w)))
          as (w' & H).
        exists w'. right. split; [reflexivity|exact H].
      * eexists. left. split; [reflexivity|]. split; [reflexivity|].
        repeat split. discriminate.
    + eexists. left. split; [reflexivity|]. split; [reflexivity|].
      now repeat split.
Qed.

Section Windows.

Variable env : Env.
Variable sys : Sys.t.
Variable cfg : Config.t.

(** A command whose failure is not ignored, in a sequence. *)
Lemma outcome_run_strict {B} cmd (k : unit -> M World B) (w : World)
      (P : Outcome B * World -> Prop) :
  (forall w', sleeps w' = sleeps w -> P (k tt w')) ->
  (forall msg w', sleeps w' = sleeps w ->
                  P (Throw (ThrownError (PlainErr msg)), w')) ->
  P (bind (Utils.run sys cmd false) k w).
Proof.
  intros Hr Ht. unfold bind.
  destruct (run_strict sys cmd w) as (w' & Hs & _ & _ & _ & [E|(msg & E)]);
    rewrite E; auto.
Qed.

Lemma windowsSetup_cases sshPort allowUsers (w : World) :
  exists w',
    SetupModes.windowsSetup env sys cfg sshPort allowUsers w
    = (Ret (SetupSSH.mkSshResult (js "windows") sshPort None None), w')
    \/ SetupModes.windowsSetup env sys cfg sshPort allowUsers w
       = (Throw (ThrownError
                   (SSHDError (js "Port " ++ sshPort
                               ++ js " is not listening after restart"))), w')
    \/ exists msg,
         SetupModes.windowsSetup env sys cfg sshPort allowUsers w
         = (Throw (ThrownError (PlainErr msg)), w')
         /\ sleeps w' = sleeps w.
Proof.
  unfold SetupModes.windowsSetup.
  set (P := fun r : Outcome SetupSSH.SshResult * World =>
              exists w',
                r = (Ret (SetupSSH.mkSshResult (js "windows") sshPort None None), w')
                \/ r = (Throw (ThrownError
                                 (SSHDError (js "Port " ++ sshPort
                                             ++ js " is not listening after restart"))),
                        w')
                \/ exists msg, r = (Throw (ThrownError (PlainErr msg)), w')
                               /\ sleeps w' = sleeps w).
  change (P ((log LSection (js "Setting up SSH (Windows)") ;;;
              sshd <-- Commands.commandExists env sys (js "sshd") ;;
              (if negb sshd then
                 log LInfo (js "Installing OpenSSH Server...") ;;;
                 Utils.run sys
                   (SetupModes.powershell
                      (js "Add-WindowsCapability -Online -Name OpenSSH.Server~~~~0.0.1.0"))
                   false
               else ret tt) ;;;
              log LInfo (js "Starting SSHD service...") ;;;
              Utils.run sys (SetupModes.powershell (js "Start-Service sshd")) true ;;;
              Utils.run sys
                (SetupModes.powershell
                   (js "Set-Service -Name sshd -StartupType Automatic")) true ;;;
              log LInfo (js "Configuring SSHD...") ;;;
              SetupModes.run_all sys
                (map (SetupModes.set_content_command env)
                     (SetupModes.windows_settings sshPort)) ;;;
              log LInfo (js "Restarting SSHD service...") ;;;
              Utils.run sys (SetupModes.powershell (js "Restart-Service sshd")) false ;;;
              ready <-- Commands.waitPortLocalhost env sys sshPort
                          (Config.portWait (Config.timeouts cfg)) ;;
              if negb ready then
                throw (SSHDError (js "Port " ++ sshPort
                                  ++ js " is not listening after restart"))
              else
                log LSuccess (js "SSH server is ready on port " ++ sshPort) ;;;
                ret (SetupSSH.mkSshResult (js "windows") sshPort None None)) w)).
  assert (forall msg w', sleeps w' = sleeps w ->
            P (Throw (ThrownError (PlainErr msg)), w')) as Hthrow.
  { intros msg w' Hs. exists w'. right. right. exists msg. now split. }
  apply outcome_bind, returns_log.
  apply outcome_bind. unfold returns. rewrite commandExists_eq.
  eexists _, _. split; [reflexivity|].
  set (w1 := Sys.ran _ _).
  assert (sleeps w1 = sleeps w) as H1 by reflexivity. clearbody w1.
  assert (forall w2, sleeps w2 = sleeps w ->
            P ((log LInfo (js "Starting SSHD service...") ;;;
                Utils.run sys (SetupModes.powershell (js "Start-Service sshd")) true ;;;
                Utils.run sys
                  (SetupModes.powershell
                     (js "Set-Service -Name sshd -StartupType Automatic")) true ;;;
                log LInfo (js "Configuring SSHD...") ;;;
                SetupModes.run_all sys
                  (map (SetupModes.set_content_command env)
                       (SetupModes.windows_settings sshPort)) ;;;
                log LInfo (js "Restarting SSHD service...") ;;;
                Utils.run sys (SetupModes.powershell (js "Restart-Service sshd")) false ;;;
                ready <-- Commands.waitPortLocalhost env sys sshPort
                            (Config.portWait (Config.timeouts cfg)) ;;
                if negb ready then
                  throw (SSHDError (js "Port " ++ sshPort
                                    ++ js " is not listening after restart"))
                else
                  log LSuccess (js "SSH server is ready on port " ++ sshPort) ;;;
                  ret (SetupSSH.mkSshResult (js "windows") sshPort None None)) w2))
    as Hrest.
  { intros w2 H2.
    apply outcome_bind, returns_log.
    apply outcome_bind, returns_run_ignored. intros w3 H3.
    apply outcome_bind, returns_run_ignored. intros w4 H4.
    apply outcome_bind, returns_log.
    apply outcome_bind, returns_run_all. intros w5 H5.
    apply outcome_bind, returns_log.
    apply outcome_run_strict.
    - intros w6 H6.
      apply outcome_bind, returns_waitPortLocalhost. intros [|] w7; cbn [negb].
      + eexists. left. reflexivity.
      + eexists. right. left. reflexivity.
    - intros msg w6 H6. apply Hthrow.
      cbn [sleeps add_log] in H3, H4, H5, H6. congruence. }
  destruct (CommandSpec.installed env sys (js "sshd") _); cbn [negb].
  - apply outcome_bind, returns_ret. now apply Hrest.
  - rewrite bind_bind. apply outcome_bind, returns_log.
    apply outcome_run_strict.
    + intros w2 H2. apply Hrest. cbn [sleeps add_log] in H2. congruence.
    + intros msg w2 H2. apply Hthrow. cbn [sleeps add_log] in H2. congruence.
Qed.

End Windows.

(** X26: the Windows procedure ends with its result, mode 'windows' and
    the port asked for, with the [SSHDError] of a port that does not
    listen, or with the error of a command that failed, thrown before
    the port is probed. The list of allowed users has no part in it. *)
Theorem windowsSetup_outcomes (env : Env) (sys : Sys.t) (cfg : Config.t)
        (sshPort : str) (allowUsers : list str) (w : World) :
  (exists w',
     SetupModes.windowsSetup env sys cfg sshPort allowUsers w
     = (Ret (SetupSSH.mkSshResult (js "windows") sshPort None None), w')
     \/ SetupModes.windowsSetup env sys cfg sshPort allowUsers w
        = (Throw (ThrownError
                    (SSHDError (js "Port " ++ sshPort
                                ++ js " is not listening after restart"))), w')
     \/ exists msg,
          SetupModes.windowsSetup env sys cfg sshPort allowUsers w
          = (Throw (ThrownError (PlainErr msg)), w')
          /\ sleeps w' = sleeps w)
  /\ SetupModes.windowsSetup env sys cfg sshPort allowUsers
     = SetupModes.windowsSetup env sys cfg sshPort [].
Proof. split; [apply windowsSetup_cases|reflexivity]. Qed.

(* ===================================================================== *)
(** * Rendering templates                                                  *)
(* ===================================================================== *)

Section Rendering.

Import Templates TemplateSpec.

Lemma expand_inert value matched before after :
  inert value = true -> expand value matched before after = value.
Proof.
  induction value as [|c r IH]; intros H; [reflexivity|].
  cbn [expand]. cbn [inert] in H.
  destruct r as [|d r'].
  - now destruct (c =? 36)%N.
  - apply andb_prop in H as [H1 H2]. specialize (IH H2).
    destruct (c =? 36)%N; [|now rewrite IH].
    cbn [andb negb] in H1.
    destruct (d =? 36)%N; [discriminate|].
    destruct (d =? 38)%N; [discriminate|].
    destruct (d =? 96)%N; [discriminate|].
    destruct (d =? 39)%N; [discriminate|].
    now rewrite IH.
Qed.

Lemma startsWith_app (p t : str) : JS.startsWith p (p ++ t) = true.
Proof.
  induction p as [|c p IH]; [now destruct t|].
  cbn. now rewrite N.eqb_refl.
Qed.

(** A pattern that starts with an opening brace matches nowhere in a
    text without one. *)
Lemma replace_from_text p value (s : str) : forall before t,
  no_open s = true ->
  replace_from (123%N :: p) value 0 before (s ++ t)
  = s ++ replace_from (123%N :: p) value 0 (before ++ s) t.
Proof.
  induction s as [|c s IH]; intros before t H.
  - now rewrite app_nil_r.
  - cbn [no_open forallb] in H. apply andb_prop in H as [Hc Hs].
    cbn [app replace_from JS.startsWith].
    destruct (N.eqb_spec 123 c) as [<-|_]; [discriminate|].
    cbn [andb]. rewrite IH by exact Hs. now rewrite <- app_assoc.
Qed.

(** The units of a match are passed over. *)
Lemma replace_from_skip p value (y : str) : forall before t,
  replace_from p value (length y) before (y ++ t)
  = replace_from p value 0 (before ++ y) t.
Proof.
  induction y as [|c y IH]; intros before t.
  - now rewrite app_nil_r.
  - cbn [length app replace_from]. rewrite IH. now rewrite <- app_assoc.
Qed.

(** A match at the head. *)
Lemma replace_from_match c p value before t :
  replace_from (c :: p) value 0 before ((c :: p) ++ t)
  = expand value (c :: p) before t
    ++ replace_from (c :: p) value 0 (before ++ c :: p) t.
Proof.
  cbn [app]. cbn [replace_from].
  change (c :: p ++ t) with ((c :: p) ++ t).
  rewrite startsWith_app.
  rewrite drop_app_length.
  cbn [length]. rewrite Nat.sub_succ, Nat.sub_0_r.
  rewrite replace_from_skip. now rewrite <- app_assoc.
Qed.

Lemma no_brace_no_open (s : str) : no_brace s = true -> no_open s = true.
Proof.
  unfold no_brace, no_open. rewrite !forallb_forall.
  intros H c Hc. now apply H, andb_prop in Hc.
Qed.

(** The regular expression of a key matches the text of its
    placeholder. *)
Lemma is_key_pattern (key : str) :
  is_key key = true -> pattern_text key = placeholder key.
Proof.
  unfold is_key, pattern_text. intros [_ H]%andb_prop.
  now destruct (all_digits key).
Qed.

Lemma is_key_no_brace (key : str) : is_key key = true -> no_brace key = true.
Proof.
  unfold is_key, no_brace. intros [H _]%andb_prop. revert H.
  rewrite !forallb_forall.
  intros H c Hc. specialize (H c Hc). unfold UtilsStrings.isWordChar in H.
  destruct (N.eqb_spec c 123) as [->|_]; [discriminate|].
  destruct (N.eqb_spec c 125) as [->|_]; [discriminate|]. reflexivity.
Qed.

(** Two keys without braces whose placeholders start alike are one key. *)
Lemma startsWith_keys (k : str) : forall k' t,
  no_brace k = true -> no_brace k' = true ->
  JS.startsWith (k ++ [125; 125]%N) (k' ++ [125; 125]%N ++ t) = true ->
  k = k'.
Proof.
  induction k as [|c k IH]; intros [|c' k'] t Hk Hk' H.
  - reflexivity.
  - cbn [app JS.startsWith] in H. cbn [no_brace forallb] in Hk'.
    destruct (N.eqb_spec 125 c') as [<-|_]; [|discriminate].
    discriminate.
  - cbn [app JS.startsWith] in H. cbn [no_brace forallb] in Hk.
    destruct (N.eqb_spec c 125) as [->|_]; [|discriminate].
    discriminate.
  - cbn [app JS.startsWith] in H. apply andb_prop in H as [Hc H].
    apply N.eqb_eq in Hc. subst c'.
    cbn [no_brace forallb] in Hk, Hk'.
    apply andb_prop in Hk as [_ Hk]. apply andb_prop in Hk' as [_ Hk'].
    f_equal. now apply (IH k' t).
Qed.

Lemma placeholder_cons key :
  placeholder key = 123%N :: 123%N :: key ++ [125; 125]%N.
Proof. unfold placeholder. eval_lits. reflexivity. Qed.

(** The placeholder of another key is left as it is. *)
Lemma replace_from_other key key' value before t :
  no_brace key = true -> no_brace key' = true -> key <> key' ->
  replace_from (placeholder key) value 0 before (placeholder key' ++ t)
  = placeholder key'
    ++ replace_from (placeholder key) value 0 (before ++ placeholder key') t.
Proof.
  intros Hk Hk' Hne. rewrite !placeholder_cons.
  cbn [app]. cbn [replace_from JS.startsWith]. rewrite N.eqb_refl.
  cbn [andb].
  destruct (JS.startsWith (key ++ [125; 125]%N)
              ((key' ++ [125; 125]%N) ++ t)) eqn:E.
  { rewrite <- app_assoc in E. now apply startsWith_keys in E. }
  f_equal.
  match goal with
  | |- (if ?c then _ else _) = _ => assert (c = false) as E2
  end.
  { destruct key' as [|c k']; [reflexivity|].
    cbn [app]. cbn [no_brace forallb] in Hk'.
    destruct (N.eqb_spec 123 c) as [<-|_]; [|reflexivity].
    discriminate. }
  rewrite E2. f_equal.
  change (123%N :: 123%N :: key ++ [125; 125]%N)
    with (123%N :: (123%N :: key ++ [125; 125]%N)).
  rewrite replace_from_text.
  - f_equal. f_equal. rewrite <- !app_assoc. reflexivity.
  - unfold no_open. rewrite forallb_app.
    apply no_brace_no_open in Hk'. unfold no_open in Hk'. now rewrite Hk'.
Qed.

(** The placeholder of the key gives way to the value. *)
Lemma replace_from_hole key value before t :
  inert value = true ->
  replace_from (placeholder key) value 0 before (placeholder key ++ t)
  = value
    ++ replace_from (placeholder key) value 0 (before ++ placeholder key) t.
Proof.
  intros Hv. rewrite placeholder_cons.
  rewrite replace_from_match. now rewrite expand_inert.
Qed.

(** One pass of [renderTemplate]. *)
Lemma replace_all_pieces key value (pieces : list Piece) : forall before,
  is_key key = true -> inert value = true ->
  forallb well_formed pieces = true ->
  replace_from (placeholder key) value 0 before (text_of pieces)
  = text_of (fill [(key, value)] pieces).
Proof.
  intros before Hk%is_key_no_brace Hv. revert before.
  induction pieces as [|pc pieces IH]; intros before Hw; [reflexivity|].
  cbn [forallb] in Hw. apply andb_prop in Hw as [Hpc Hw].
  unfold text_of, fill in *. cbn [map concat].
  destruct pc as [s|key']; cbn [piece_text well_formed] in *.
  - rewrite placeholder_cons, replace_from_text by exact Hpc.
    rewrite <- placeholder_cons. now rewrite IH.
  - cbn [lookup_var]. case_bool_decide as E.
    + subst key'. cbn [piece_text].
      rewrite replace_from_hole by exact Hv. now rewrite IH.
    + cbn [piece_text]. apply is_key_no_brace in Hpc.
      rewrite replace_from_other by auto. now rewrite IH.
Qed.

Lemma fill_well_formed key value pieces :
  no_open value = true ->
  forallb well_formed pieces = true ->
  forallb well_formed (fill [(key, value)] pieces) = true.
Proof.
  intros Hv. unfold fill. rewrite !forallb_forall.
  intros H pc Hin. apply in_map_iff in Hin as (pc0 & <- & Hin).
  specialize (H pc0 Hin). destruct pc0 as [s|k]; [exact H|].
  cbn [lookup_var]. now case_bool_decide.
Qed.

Lemma fill_fill key value vars pieces :
  fill vars (fill [(key, value)] pieces) = fill ((key, value) :: vars) pieces.
Proof.
  unfold fill. rewrite map_map. apply map_ext. intros [s|k]; [reflexivity|].
  cbn [lookup_var]. now case_bool_decide.
Qed.

Lemma renderTemplate_pieces vars : forall pieces,
  forallb well_formed pieces = true ->
  forallb plain_var vars = true ->
  renderTemplate (text_of pieces) vars = text_of (fill vars pieces).
Proof.
  induction vars as [|[key value] vars IH]; intros pieces Hw Hv.
  - cbn. unfold fill. f_equal. rewrite <- (map_id pieces) at 1.
    apply map_ext. now intros [s|k].
  - cbn [forallb] in Hv. apply andb_prop in Hv as [Hkv Hv].
    unfold plain_var in Hkv. cbn [fst snd] in Hkv.
    apply andb_prop in Hkv as [Hkv Hi]. apply andb_prop in Hkv as [Hk Ho].
    unfold renderTemplate in IH |- *. cbn [fold_left fst snd].
    rewrite (is_key_pattern key Hk).
    unfold replace_all at 2. rewrite replace_all_pieces by assumption.
    rewrite IH; [apply f_equal, fill_fill| |exact Hv].
    now apply fill_well_formed.
Qed.

End Rendering.

(** X27: on a template made of text without opening brace and of
    placeholders [{{KEY}}] (keys of letters, digits and underscores, not
    of digits only),
    with variables whose values have no opening brace and none of the
    replacement patterns [$$], [$&], [$`], [$'], [renderTemplate] puts
    the value of every placeholder whose key is a variable (the first
    one with that key) in its place, at every occurrence, and leaves the
    rest of the template, the other placeholders included, as it is. *)
Theorem renderTemplate_fills (pieces : list TemplateSpec.Piece)
        (vars : list (str * str)) :
  forallb TemplateSpec.well_formed pieces = true ->
  forallb TemplateSpec.plain_var vars = true ->
  Templates.renderTemplate (TemplateSpec.text_of pieces) vars
  = TemplateSpec.text_of (TemplateSpec.fill vars pieces).
Proof. apply renderTemplate_pieces. Qed.

Lemma renderTemplate_fills_witness :
  Templates.renderTemplate
    (TemplateSpec.text_of
       [ TemplateSpec.Text (js "tunnel: "); TemplateSpec.Hole (js "TUNNEL_ID");
         TemplateSpec.Text (js " port: "); TemplateSpec.Hole (js "TARGET_PORT");
         TemplateSpec.Text (js " again: "); TemplateSpec.Hole (js "TUNNEL_ID");
         TemplateSpec.Hole (js "UNKNOWN") ])
    [ (js "TUNNEL_ID", js "abc-123 costs $5");
      (js "TARGET_PORT", js "2222") ]
  = TemplateSpec.text_of
      (TemplateSpec.fill
         [ (js "TUNNEL_ID", js "abc-123 costs $5");
           (js "TARGET_PORT", js "2222") ]
         [ TemplateSpec.Text (js "tunnel: "); TemplateSpec.Hole (js "TUNNEL_ID");
           TemplateSpec.Text (js " port: "); TemplateSpec.Hole (js "TARGET_PORT");
           TemplateSpec.Text (js " again: "); TemplateSpec.Hole (js "TUNNEL_ID");
           TemplateSpec.Hole (js "UNKNOWN") ]).
Proof.
  apply (renderTemplate_fills
           [ TemplateSpec.Text (js "tunnel: "); TemplateSpec.Hole (js "TUNNEL_ID");
             TemplateSpec.Text (js " port: "); TemplateSpec.Hole (js "TARGET_PORT");
             TemplateSpec.Text (js " again: "); TemplateSpec.Hole (js "TUNNEL_ID");
             TemplateSpec.Hole (js "UNKNOWN") ]
           [ (js "TUNNEL_ID", js "abc-123 costs $5");
             (js "TARGET_PORT", js "2222") ]);
    now vm_compute.
Defined.

(** A value with a replacement pattern is not put in as it is: [$&]
    brings the placeholder back, and a value that holds a placeholder is
    filled by a later variable. *)
Example renderTemplate_patterns :
  Templates.renderTemplate (js "cd {{DIR}} as {{USER}}")
    [ (js "DIR", js "/tmp/$&/{{USER}}"); (js "USER", js "me") ]
  = js "cd /tmp/{{DIR}}/me as me".
Proof. now vm_compute. Qed.

(** A key made of digits is not one of a placeholder: in the regular
    expression its braces are a quantifier, and what is replaced is a
    run of that many opening braces followed by a closing brace. *)
Example renderTemplate_digits :
  Templates.renderTemplate (js "a{{1}}b{}c") [ (js "1", js "x") ]
  = js "a{{1}}bxc"
  /\ Templates.renderTemplate (js "a{{2}}b{{}c") [ (js "2", js "x") ]
     = js "a{{2}}bxc".
Proof. split; now vm_compute. Qed.

(* ===================================================================== *)
(** * The configuration of the user mode                                   *)
(* ===================================================================== *)

Section UserConfig.

Import Templates TemplateSpec.

Variable env : Env.
Variable cfg : Config.t.

Lemma plain_app a b : plain (a ++ b) = plain a && plain b.
Proof. apply forallb_app. Qed.

Lemma plain_no_open s : plain s = true -> no_open s = true.
Proof.
  unfold plain, no_open. rewrite !forallb_forall.
  intros H c Hc. now apply H, andb_prop in Hc.
Qed.

Lemma plain_inert s : plain s = true -> inert s = true.
Proof.
  induction s as [|c s IH]; intros H; [reflexivity|].
  cbn [plain forallb] in H. apply andb_prop in H as [Hc Hs].
  cbn [inert]. destruct s as [|d s']; [reflexivity|].
  rewrite (IH Hs). apply andb_prop in Hc as [Hc _].
  now destruct (c =? 36)%N.
Qed.

(** A text without dollar before an inert text. *)
Lemma inert_app a b :
  plain a = true -> inert b = true -> inert (a ++ b) = true.
Proof.
  induction a as [|c a IH]; intros Ha Hb; [exact Hb|].
  cbn [plain forallb] in Ha. apply andb_prop in Ha as [Hc Ha].
  specialize (IH Ha Hb). cbn [app inert].
  destruct (a ++ b) as [|d r]; [reflexivity|].
  rewrite IH. apply andb_prop in Hc as [Hc _].
  now destruct (c =? 36)%N.
Qed.

Lemma no_open_app a b : no_open (a ++ b) = no_open a && no_open b.
Proof. apply forallb_app. Qed.

Lemma plain_join sep (segs : list str) :
  plain sep = true -> forallb plain segs = true ->
  plain (JS.join sep segs) = true.
Proof.
  intros Hs. induction segs as [|a segs IH]; intros H; [reflexivity|].
  cbn [forallb] in H. apply andb_prop in H as [Ha H].
  cbn [JS.join]. destruct segs as [|b segs']; [exact Ha|].
  rewrite !plain_app, Ha, Hs. now apply IH.
Qed.

Lemma plain_replace_unit x r s :
  plain r = true -> plain s = true ->
  plain (UtilsStrings.replace_unit x r s) = true.
Proof.
  intros Hr. unfold UtilsStrings.replace_unit.
  induction s as [|c s IH]; intros H; [reflexivity|].
  cbn [plain forallb] in H. apply andb_prop in H as [Hc Hs].
  cbn [flat_map]. rewrite plain_app, (IH Hs), andb_true_r.
  destruct (c =? x)%N; [exact Hr|]. cbn. now rewrite Hc.
Qed.

Lemma replace_unit_app x r a b :
  UtilsStrings.replace_unit x r (a ++ b)
  = UtilsStrings.replace_unit x r a ++ UtilsStrings.replace_unit x r b.
Proof. apply flat_map_app. Qed.

(** [trim] of a text between two line feeds. *)
Lemma trim_between_LF c (s : str) d :
  JS.isWhiteSpace c = false -> JS.isWhiteSpace d = false ->
  JS.trim ([JS.LF] ++ (c :: s ++ [d]) ++ [JS.LF]) = c :: s ++ [d].
Proof.
  intros Hc Hd. unfold JS.trim, JS.trimEnd.
  cbn [app JS.trimStart].
  change (JS.isWhiteSpace JS.LF) with true. cbn iota.
  rewrite Hc. rewrite <- app_assoc. cbn [app].
  change (c :: s ++ [d; JS.LF]) with ((c :: s) ++ [d; JS.LF]).
  rewrite rev_app_distr. cbn [rev app JS.trimStart].
  change (JS.isWhiteSpace JS.LF) with true. cbn iota.
  rewrite Hd.
  cbn [rev]. rewrite rev_app_distr, rev_involutive. reflexivity.
Qed.

(** The block that forces the working directory, trimmed. *)
Lemma forceCwdBlock_eq sshDefaultCwd :
  SetupModes.forceCwdBlock env sshDefaultCwd false
  = js "Match User " ++ CURRENT_USER env ++ [JS.LF]
    ++ js "  ForceCommand /bin/bash -lc "
    ++ UtilsStrings.shSingleQuote
         (js "cd " ++ sshDefaultCwd ++ js " && if [ -n " ++ [34%N]
          ++ js "$SSH_ORIGINAL_COMMAND" ++ [34%N]
          ++ js " ]; then exec /bin/bash -lc " ++ [34%N]
          ++ js "$SSH_ORIGINAL_COMMAND" ++ [34%N]
          ++ js "; else exec /bin/bash -l; fi").
Proof.
  unfold SetupModes.forceCwdBlock, UtilsStrings.shSingleQuote.
  set (inner := UtilsStrings.replace_unit _ _ _).
  change (js "Match User ") with (77%N :: js "atch User ").
  transitivity (JS.trim ([JS.LF]
                         ++ (77%N :: (js "atch User " ++ CURRENT_USER env
                                      ++ [JS.LF]
                                      ++ js "  ForceCommand /bin/bash -lc "
                                      ++ [39%N] ++ inner) ++ [39%N])
                         ++ [JS.LF])).
  - f_equal. cbn [app]. f_equal. f_equal.
    now rewrite <- !app_assoc.
  - rewrite trim_between_LF by reflexivity.
    cbn [app]. f_equal. now rewrite <- !app_assoc.
Qed.

Lemma forceCwdBlock_inert sshDefaultCwd disableForceCwd :
  plain (CURRENT_USER env) = true -> plain sshDefaultCwd = true ->
  no_open (SetupModes.forceCwdBlock env sshDefaultCwd disableForceCwd) = true
  /\ inert (SetupModes.forceCwdBlock env sshDefaultCwd disableForceCwd) = true.
Proof.
  intros Hu Hc. destruct disableForceCwd; [now split|].
  rewrite forceCwdBlock_eq. unfold UtilsStrings.shSingleQuote.
  rewrite !replace_unit_app.
  assert (plain (js "Match User " ++ CURRENT_USER env ++ [JS.LF]
                 ++ js "  ForceCommand /bin/bash -lc " ++ [39%N]
                 ++ UtilsStrings.replace_unit 39 [39; 34; 39; 34; 39]%N (js "cd ")
                 ++ UtilsStrings.replace_unit 39 [39; 34; 39; 34; 39]%N
                      sshDefaultCwd) = true) as Hhead.
  { rewrite !plain_app, Hu.
    rewrite (plain_replace_unit 39 [39; 34; 39; 34; 39]%N sshDefaultCwd)
      by (reflexivity || exact Hc).
    now vm_compute. }
  set (tail := UtilsStrings.replace_unit 39 [39; 34; 39; 34; 39]%N
                 (js " && if [ -n ") ++ _).
  assert (no_open tail = true /\ inert tail = true) as [Ht1 Ht2]
    by (split; now vm_compute).
  match goal with
  | |- no_open ?x = true /\ _ =>
      replace x with
        ((js "Match User " ++ CURRENT_USER env ++ [JS.LF]
          ++ js "  ForceCommand /bin/bash -lc " ++ [39%N]
          ++ UtilsStrings.replace_unit 39 [39; 34; 39; 34; 39]%N (js "cd ")
          ++ UtilsStrings.replace_unit 39 [39; 34; 39; 34; 39]%N sshDefaultCwd)
         ++ tail ++ [39%N])
        by (subst tail; now rewrite <- !app_assoc)
  end.
  split.
  - rewrite no_open_app, (plain_no_open _ Hhead). rewrite no_open_app, Ht1.
    reflexivity.
  - apply inert_app; [exact Hhead|].
    subst tail. now vm_compute.
Qed.

End UserConfig.

Section DefaultConfig.

Import Templates TemplateSpec.

(** The default template, cut at its placeholders. *)
Lemma getDefaultSshdTemplate_pieces :
  getDefaultSshdTemplate
  = text_of
      [ Text (js "# Auto-generated (USER-MODE) by setup-ssh.js" ++ [JS.LF]
              ++ js "Port ");
        Hole (js "PORT");
        Text ([JS.LF] ++ js "ListenAddress ");
        Hole (js "LISTEN_ADDRESS");
        Text ([JS.LF] ++ [JS.LF]
              ++ js "PasswordAuthentication no" ++ [JS.LF]
              ++ js "KbdInteractiveAuthentication no" ++ [JS.LF]
              ++ js "ChallengeResponseAuthentication no" ++ [JS.LF]
              ++ js "PubkeyAuthentication yes" ++ [JS.LF]
              ++ js "PermitRootLogin no" ++ [JS.LF]
              ++ js "UsePAM no" ++ [JS.LF]
              ++ js "PrintMotd no" ++ [JS.LF]
              ++ js "StrictModes no" ++ [JS.LF] ++ [JS.LF]
              ++ js "AuthorizedKeysFile ");
        Hole (js "AUTHORIZED_KEYS_FILE");
        Text ([JS.LF] ++ js "AllowUsers ");
        Hole (js "ALLOW_USERS");
        Text ([JS.LF] ++ [JS.LF] ++ js "PidFile ");
        Hole (js "PID_FILE");
        Text ([JS.LF] ++ js "HostKey ");
        Hole (js "HOSTKEY_ED25519");
        Text ([JS.LF] ++ js "HostKey ");
        Hole (js "HOSTKEY_RSA");
        Text ([JS.LF] ++ [JS.LF]
              ++ js "Subsystem sftp internal-sftp" ++ [JS.LF]
              ++ js "LogLevel VERBOSE" ++ [JS.LF] ++ [JS.LF]);
        Hole (js "FORCE_CWD_BLOCK") ].
Proof. now vm_compute. Qed.

End DefaultConfig.

(** X29: with the default template, and with a port, a listen address,
    a user name, a home directory and a working directory that hold no
    dollar and no opening brace, the configuration the user mode writes
    for [sshd] is the text of the template with each placeholder
    replaced by its value: the port, the address, the path of
    [authorized_keys], the user, the paths of the pid file and of the two
    host keys under [~/.ssh/ci-sshd], and the block that forces the
    working directory (empty when it is disabled). *)
Theorem sshd_config_text_default (env : Env) (cfg : Config.t)
        (sshPort sshDefaultCwd : str) (disableForceCwd : bool) :
  TemplateSpec.plain sshPort = true ->
  TemplateSpec.plain (Config.listenAddress (Config.ssh cfg)) = true ->
  TemplateSpec.plain (CURRENT_USER env) = true ->
  forallb TemplateSpec.plain (HOME env) = true ->
  TemplateSpec.plain sshDefaultCwd = true ->
  SetupModes.sshd_config_text env cfg None sshPort sshDefaultCwd
    disableForceCwd
  = JS.join [JS.LF]
      [ js "# Auto-generated (USER-MODE) by setup-ssh.js";
        js "Port " ++ sshPort;
        js "ListenAddress " ++ Config.listenAddress (Config.ssh cfg);
        js "";
        js "PasswordAuthentication no";
        js "KbdInteractiveAuthentication no";
        js "ChallengeResponseAuthentication no";
        js "PubkeyAuthentication yes";
        js "PermitRootLogin no";
        js "UsePAM no";
        js "PrintMotd no";
        js "StrictModes no";
        js "";
        js "AuthorizedKeysFile " ++ show_path (SetupSSH.authorized_keys env);
        js "AllowUsers " ++ CURRENT_USER env;
        js "";
        js "PidFile " ++ show_path (SetupModes.pidPath env);
        js "HostKey " ++ show_path (SetupModes.hostKeyEd env);
        js "HostKey " ++ show_path (SetupModes.hostKeyRsa env);
        js "";
        js "Subsystem sftp internal-sftp";
        js "LogLevel VERBOSE";
        js "";
        SetupModes.forceCwdBlock env sshDefaultCwd disableForceCwd ].
Proof.
  intros Hp Hl Hu Hh Hc.
  unfold SetupModes.sshd_config_text, Templates.or_default, SetupSSH.or_else.
  rewrite getDefaultSshdTemplate_pieces.
  assert (forall segs, forallb TemplateSpec.plain segs = true ->
            TemplateSpec.plain (show_path (HOME env ++ segs)) = true) as Hpath.
  { intros segs Hs. apply plain_join; [reflexivity|].
    now rewrite forallb_app, Hh, Hs. }
  destruct (forceCwdBlock_inert env sshDefaultCwd disableForceCwd Hu Hc)
    as [Hf1 Hf2].
  assert (forall k v, TemplateSpec.is_key k = true ->
            TemplateSpec.plain v = true ->
            TemplateSpec.plain_var (k, v) = true) as Hv.
  { intros k v Hk H. unfold TemplateSpec.plain_var. cbn [fst snd].
    now rewrite Hk, (plain_no_open v H), (plain_inert v H). }
  rewrite renderTemplate_pieces.
  - unfold TemplateSpec.fill, SetupModes.sshd_vars.
    cbn [map TemplateSpec.lookup_var].
    repeat match goal with
           | |- context [bool_decide (?a = ?b)] =>
               let r := eval vm_compute in (bool_decide (a = b)) in
               change (bool_decide (a = b)) with r; cbv iota
           end.
    unfold TemplateSpec.text_of.
    cbn [map concat TemplateSpec.piece_text JS.join].
    rewrite <- !app_assoc, app_nil_r. reflexivity.
  - now vm_compute.
  - assert (forall p, (exists segs, p = HOME env ++ segs
                                  /\ forallb TemplateSpec.plain segs = true) ->
                       TemplateSpec.plain (show_path p) = true) as Hunder.
    { intros p (segs & -> & Hs). now apply Hpath. }
    assert (TemplateSpec.plain (show_path (SetupSSH.authorized_keys env)) = true
            /\ TemplateSpec.plain (show_path (SetupModes.pidPath env)) = true
            /\ TemplateSpec.plain (show_path (SetupModes.hostKeyEd env)) = true
            /\ TemplateSpec.plain (show_path (SetupModes.hostKeyRsa env)) = true)
      as (Ha & Hpid & Hed & Hrsa).
    { unfold SetupSSH.authorized_keys, SetupModes.pidPath,
        SetupModes.hostKeyEd, SetupModes.hostKeyRsa, SetupModes.baseDir,
        path_join.
      repeat split; apply Hunder; rewrite <- !app_assoc;
        eexists; (split; [reflexivity|now vm_compute]). }
    unfold SetupModes.sshd_vars. cbn [forallb].
    rewrite (Hv (js "PORT") sshPort) by (reflexivity || assumption).
    rewrite (Hv (js "LISTEN_ADDRESS")) by (reflexivity || assumption).
    rewrite (Hv (js "AUTHORIZED_KEYS_FILE")) by (reflexivity || assumption).
    rewrite (Hv (js "ALLOW_USERS")) by (reflexivity || assumption).
    rewrite (Hv (js "PID_FILE")) by (reflexivity || assumption).
    rewrite (Hv (js "HOSTKEY_ED25519")) by (reflexivity || assumption).
    rewrite (Hv (js "HOSTKEY_RSA")) by (reflexivity || assumption).
    unfold TemplateSpec.plain_var. cbn [fst snd].
    rewrite Hf1, Hf2. reflexivity.
Qed.

Lemma sshd_config_text_default_witness :
  SetupModes.sshd_config_text env0 cfg0 None (js "2222") (js "/work") true
  = JS.join [JS.LF]
      [ js "# Auto-generated (USER-MODE) by setup-ssh.js";
        js "Port 2222";
        js "ListenAddress 127.0.0.1";
        js "";
        js "PasswordAuthentication no";
        js "KbdInteractiveAuthentication no";
        js "ChallengeResponseAuthentication no";
        js "PubkeyAuthentication yes";
        js "PermitRootLogin no";
        js "UsePAM no";
        js "PrintMotd no";
        js "StrictModes no";
        js "";
        js "AuthorizedKeysFile home/runner/.ssh/authorized_keys";
        js "AllowUsers runner";
        js "";
        js "PidFile home/runner/.ssh/ci-sshd/sshd.pid";
        js "HostKey home/runner/.ssh/ci-sshd/ssh_host_ed25519_key";
        js "HostKey home/runner/.ssh/ci-sshd/ssh_host_rsa_key";
        js "";
        js "Subsystem sftp internal-sftp";
        js "LogLevel VERBOSE";
        js "";
        js "" ].
Proof.
  rewrite (sshd_config_text_default env0 cfg0 (js "2222") (js "/work") true)
    by now vm_compute.
  now vm_compute.
Defined.

(** With the working directory forced, the block ends the file; a quote
    in the directory is written for the shell. *)
Example sshd_config_force_block :
  SetupModes.forceCwdBlock env0 (js "/it's") false
  = js "Match User runner" ++ [JS.LF]
    ++ js "  ForceCommand /bin/bash -lc 'cd /it'" ++ [34%N] ++ js "'" ++ [34%N]
    ++ js "'s && if [ -n " ++ [34%N] ++ js "$SSH_ORIGINAL_COMMAND" ++ [34%N]
    ++ js " ]; then exec /bin/bash -lc " ++ [34%N]
    ++ js "$SSH_ORIGINAL_COMMAND" ++ [34%N]
    ++ js "; else exec /bin/bash -l; fi'".
Proof. now vm_compute. Qed.

(* ===================================================================== *)
(** * The user mode                                                        *)
(* ===================================================================== *)

Section Sequences.

Context {S A B : Type}.

(** A sequence that returns: its first statement returned. *)
Lemma bind_ret_inv (c : M S A) (k : A -> M S B) w r w' :
  bind c k w = (Ret r, w') ->
  exists a w1, c w = (Ret a, w1) /\ k a w1 = (Ret r, w').
Proof.
  unfold bind. destruct (c w) as [[a|t|n] w1]; try discriminate. eauto.
Qed.

End Sequences.

Section Invariants.

Variable env : Env.
Variable sys : Sys.t.

(** What every command keeps, and every sleep, the port probe keeps. *)
Variable I : World -> Prop.
Hypothesis I_ran : forall cmd w, I w -> I (Sys.ran (Sys.exec sys cmd w) w).
Hypothesis I_slept : forall w, I w -> I (slept env 250 w).

Lemma port_check_keeps port w r w' :
  Commands.port_check env sys port w = (r, w') -> I w -> I w'.
Proof.
  unfold Commands.port_check, bind.
  rewrite commandExists_eq. destruct (CommandSpec.installed env sys (js "nc") w).
  { rewrite execOk_eq. intros [= _ <-] H. auto. }
  rewrite commandExists_eq.
  destruct (CommandSpec.installed env sys (js "ss") _).
  { rewrite runCapture_eq. intros [= _ <-] H. auto. }
  rewrite commandExists_eq.
  destruct (CommandSpec.installed env sys (js "netstat") _).
  { rewrite runCapture_eq. intros [= _ <-] H. auto 6. }
  intros [= _ <-] H. auto.
Qed.

Lemma wait_loop_keeps port t start : forall w r w',
  Commands.wait_loop env sys port t start w = (r, w') -> I w -> I w'.
Proof.
  intros w.
  remember (Z.to_nat (t - (now w - start))) as n eqn:En.
  revert w En. induction n as [n IH] using lt_wf_ind. intros w En r w'.
  rewrite wait_loop_unfold.
  destruct (Z_lt_dec (now w - start) t) as [Hlt|Hge];
    [|now intros [= _ <-]].
  destruct (port_check_returns env sys port w)
    as (b & w1 & E & _ & _ & _ & _ & Hn).
  rewrite E. intros H Hw.
  pose proof (port_check_keeps port w _ _ E Hw) as H1.
  destruct b.
  - now injection H as _ <-.
  - apply (IH (Z.to_nat (t - (now (slept env 250 w1) - start))))
      with (w := slept env 250 w1) in H; auto.
    cbn. lia.
Qed.

Lemma waitPortLocalhost_keeps port t w r w' :
  Commands.waitPortLocalhost env sys port t w = (r, w') -> I w -> I w'.
Proof. apply wait_loop_keeps. Qed.

End Invariants.

Section UserMode.

Variable env : Env.
Variable sys : Sys.t.
Variable cfg : Config.t.
Variable sshdConfig : option str.
Variable sshd_path : str.

Local Abbreviation cfgPath := (SetupModes.cfgPath env).
Local Abbreviation pidPath := (SetupModes.pidPath env).
Local Abbreviation logPath := (SetupModes.logPath env).
Local Abbreviation the_pid :=
  (spawnPid env sshd_path [js "-f"; show_path cfgPath; js "-D"]).

Lemma cfgPath_ne_pidPath : cfgPath <> pidPath.
Proof.
  unfold SetupModes.cfgPath, SetupModes.pidPath, path_join.
  intros H. apply app_inv_head in H. revert H. now vm_compute.
Qed.

(** Spawning keeps what exists. *)
Lemma spawnDetached_keeps cmd args logFile (w : World) :
  exists w',
    Tunnels.spawnDetached env cmd args logFile w
    = (Ret (spawnPid env cmd args), w')
    /\ forall q n, fs w !! q = Some n -> fs w' !! q = Some n.
Proof.
  unfold Tunnels.spawnDetached, Utils.ensureDir, bind, log, modify, Eff.get.
  cbn [fs add_log].
  destruct (fs w !! dirname logFile) eqn:E.
  - eexists. split; [reflexivity|]. now cbn.
  - eexists. split; [reflexivity|]. cbn. intros q n.
    apply mkdir_p_keeps.
Qed.

(** The configuration and the pid are on disk when [sshd] has been
    spawned. *)
Lemma start_sshd_post sshPort sshDefaultCwd disableForceCwd (w : World) :
  exists w1 m m',
    SetupModes.start_sshd env cfg sshdConfig sshd_path sshPort sshDefaultCwd
      disableForceCwd w
    = (Ret the_pid, w1)
    /\ fs w1 !! cfgPath
       = Some (File (SetupModes.sshd_config_text env cfg sshdConfig sshPort
                       sshDefaultCwd disableForceCwd) m)
    /\ fs w1 !! pidPath = Some (File (JS.showZ the_pid) m').
Proof.
  unfold SetupModes.start_sshd.
  destruct (writeFileSafe_ret cfgPath
              (SetupModes.sshd_config_text env cfg sshdConfig sshPort
                 sshDefaultCwd disableForceCwd) 384 w)
    as (w1 & m & E1 & F1 & _).
  unfold bind at 1. rewrite E1.
  unfold bind at 1. rewrite log_ret.
  unfold bind at 1. rewrite log_ret.
  unfold bind at 1.
  match goal with
  | |- context [Tunnels.spawnDetached env ?c ?a ?l ?w0] =>
      destruct (spawnDetached_keeps c a l w0) as (w2 & E2 & K2)
  end.
  rewrite E2.
  unfold bind at 1, Utils.writeFileSync at 1, modify at 1.
  unfold bind at 1. rewrite log_ret.
  unfold bind at 1. rewrite log_ret.
  specialize (K2 cfgPath _ F1).
  eexists _, m, _. split; [reflexivity|]. cbn [fs set_fs add_log].
  split.
  - rewrite lookup_insert_ne; [exact K2|].
    intros H. now apply cfgPath_ne_pidPath.
  - apply lookup_insert_eq.
Qed.

End UserMode.

(** X28: whenever the user mode returns, its result is the mode 'user',
    the port asked for, the log path [~/.ssh/ci-sshd/sshd.log] and the
    pid of the [sshd] it spawned with [-f <config> -D]; and, provided no
    command touches the two files, the configuration file holds the
    rendered template and the pid file that pid. *)
Theorem linuxUserMode_leaves_config (env : Env) (sys : Sys.t) (cfg : Config.t)
        (sshdConfig : option str) (sshd_path : str)
        (sshPort sshDefaultCwd : str) (disableForceCwd : bool)
        (w w' : World) (r : SetupSSH.SshResult) :
  (forall cmd w0 p,
      p = SetupModes.cfgPath env \/ p = SetupModes.pidPath env ->
      Sys.files (Sys.exec sys cmd w0) !! p = fs w0 !! p) ->
  SetupModes.linuxUserMode env sys cfg sshdConfig sshd_path sshPort
    sshDefaultCwd disableForceCwd w = (Ret r, w') ->
  r = SetupSSH.mkSshResult (js "user") sshPort (Some (SetupModes.logPath env))
        (Some (spawnPid env sshd_path
                 [js "-f"; show_path (SetupModes.cfgPath env); js "-D"]))
  /\ exists m m',
       fs w' !! SetupModes.cfgPath env
       = Some (File (SetupModes.sshd_config_text env cfg sshdConfig sshPort
                       sshDefaultCwd disableForceCwd) m)
       /\ fs w' !! SetupModes.pidPath env
          = Some (File (JS.showZ
                          (spawnPid env sshd_path
                             [js "-f"; show_path (SetupModes.cfgPath env);
                              js "-D"])) m').
Proof.
  intros Hsys H. unfold SetupModes.linuxUserMode in H.
  apply bind_ret_inv in H as ([] & w1 & _ & H).
  apply bind_ret_inv in H as ([] & w2 & _ & H).
  apply bind_ret_inv in H as ([] & w3 & _ & H).
  apply bind_ret_inv in H as (pid & w4 & Hs & H).
  destruct (start_sshd_post env cfg sshdConfig sshd_path sshPort sshDefaultCwd
              disableForceCwd w3) as (w4' & m & m' & Hs' & F1 & F2).
  rewrite Hs' in Hs. injection Hs as <- <-.
  apply bind_ret_inv in H as ([] & w5 & Hl & H).
  rewrite log_ret in Hl. injection Hl as <-.
  apply bind_ret_inv in H as (ready & w6 & Hw & H).
  apply (waitPortLocalhost_keeps env sys
           (fun w0 =>
              fs w0 !! SetupModes.cfgPath env
              = Some (File (SetupModes.sshd_config_text env cfg sshdConfig
                              sshPort sshDefaultCwd disableForceCwd) m)
              /\ fs w0 !! SetupModes.pidPath env
                 = Some (File (JS.showZ
                                 (spawnPid env sshd_path
                                    [js "-f"; show_path (SetupModes.cfgPath env);
                                     js "-D"])) m')))
    in Hw.
  - destruct ready; cbn [negb] in H; [|discriminate].
    apply bind_ret_inv in H as ([] & w7 & Hl & H).
    rewrite log_ret in Hl. injection Hl as <-.
    injection H as <- <-. split; [reflexivity|].
    exists m, m'. exact Hw.
  - intros cmd w0 [G1 G2]. cbn [fs Sys.ran].
    rewrite !Hsys by auto. now split.
  - intros w0 G. exact G.
  - cbn [fs add_log]. now split.
Qed.

Lemma linuxUserMode_leaves_config_witness :
  SetupSSH.mkSshResult (js "user") (js "2222") (Some (SetupModes.logPath env0))
    (Some (spawnPid env0 (js "/usr/sbin/sshd")
             [js "-f"; show_path (SetupModes.cfgPath env0); js "-D"]))
  = SetupSSH.mkSshResult (js "user") (js "2222") (Some (SetupModes.logPath env0))
      (Some (spawnPid env0 (js "/usr/sbin/sshd")
               [js "-f"; show_path (SetupModes.cfgPath env0); js "-D"]))
  /\ exists m m',
       fs (snd (SetupModes.linuxUserMode env0 sys_ready cfg0 None
                  (js "/usr/sbin/sshd") (js "2222") (js "/work") false world0))
         !! SetupModes.cfgPath env0
       = Some (File (SetupModes.sshd_config_text env0 cfg0 None (js "2222")
                       (js "/work") false) m)
       /\ fs (snd (SetupModes.linuxUserMode env0 sys_ready cfg0 None
                     (js "/usr/sbin/sshd") (js "2222") (js "/work") false
                     world0))
            !! SetupModes.pidPath env0
          = Some (File (JS.showZ
                          (spawnPid env0 (js "/usr/sbin/sshd")
                             [js "-f"; show_path (SetupModes.cfgPath env0);
                              js "-D"])) m').
Proof.
  apply (linuxUserMode_leaves_config env0 sys_ready cfg0 None
           (js "/usr/sbin/sshd") (js "2222") (js "/work") false world0
           (snd (SetupModes.linuxUserMode env0 sys_ready cfg0 None
                   (js "/usr/sbin/sshd") (js "2222") (js "/work") false
                   world0))).
  - intros cmd w0 p _. reflexivity.
  - now vm_compute.
Defined.

Section UserModeOutcomes.

Variable env : Env.
Variable sys : Sys.t.
Variable cfg : Config.t.
Variable sshdConfig : option str.
Variable sshd_path : str.

Local Abbreviation NO_SSHD :=
  (SSHDError (js "sshd not found and cannot auto-install")).

(** Looking for [sshd] fails exactly when it is missing and there is no
    package manager to install it with, and then at once; what becomes
    of an installation does not matter. *)
Lemma find_sshd_cases (w : World) :
  exists w', sleeps w' = sleeps w
    /\ (CommandSpec.no_sshd_no_installer env sys w = false
        /\ SetupModes.find_sshd env sys w = (Ret tt, w')
        \/ CommandSpec.no_sshd_no_installer env sys w = true
           /\ SetupModes.find_sshd env sys w
              = (Throw (ThrownError NO_SSHD), w')).
Proof.
  pattern (SetupModes.find_sshd env sys w).
  match goal with |- ?P _ => set (Q := P) end.
  unfold SetupModes.find_sshd.
  unfold bind at 1. rewrite commandExists_eq.
  destruct (CommandSpec.installed env sys (js "sshd") w) eqn:Hsshd.
  { subst Q. cbv beta. eexists. split; [|left; split; [|reflexivity]].
    - reflexivity.
    - unfold CommandSpec.no_sshd_no_installer. now rewrite Hsshd. }
  unfold bind at 1. rewrite log_ret.
  unfold bind at 1. rewrite commandExists_eq.
  destruct (CommandSpec.installed env sys (js "apt-get") _) eqn:Hapt.
  { match goal with
    | |- context [bind (Utils.run sys ?c true) _ ?w0] =>
        destruct (run_ignored sys c w0) as (w1 & E1 & S1 & _)
    end.
    unfold bind at 1. rewrite E1.
    match goal with
    | |- context [Utils.run sys ?c true ?w0] =>
        destruct (run_ignored sys c w0) as (w2 & E2 & S2 & _)
    end.
    rewrite E2. subst Q. cbv beta.
    exists w2. split; [now rewrite S2, S1|]. left. split; [|reflexivity].
    unfold CommandSpec.no_sshd_no_installer. cbv zeta.
    now rewrite Hsshd, Hapt. }
  unfold bind at 1. rewrite commandExists_eq.
  destruct (CommandSpec.installed env sys (js "yum") _) eqn:Hyum.
  { match goal with
    | |- context [Utils.run sys ?c true ?w0] =>
        destruct (run_ignored sys c w0) as (w1 & E1 & S1 & _)
    end.
    rewrite E1. subst Q. cbv beta.
    exists w1. split; [now rewrite S1|]. left. split; [|reflexivity].
    unfold CommandSpec.no_sshd_no_installer. cbv zeta.
    now rewrite Hsshd, Hapt, Hyum. }
  subst Q. cbv beta.
  eexists. split; [|right; split; [|reflexivity]].
  - reflexivity.
  - unfold CommandSpec.no_sshd_no_installer. cbv zeta.
    now rewrite Hsshd, Hapt, Hyum.
Qed.

(** The host keys: only [ssh-keygen] can fail. *)
Lemma host_keys_cases (w : World) :
  exists w', sleeps w' = sleeps w
    /\ (SetupModes.host_keys env sys w = (Ret tt, w')
        \/ exists msg,
             SetupModes.host_keys env sys w
             = (Throw (ThrownError (PlainErr msg)), w')).
Proof.
  unfold SetupModes.host_keys.
  set (P := fun (r : Outcome unit * World) =>
              exists w', sleeps w' = sleeps w
                /\ (r = (Ret tt, w')
                    \/ exists msg, r = (Throw (ThrownError (PlainErr msg)), w'))).
  assert (forall msg w', sleeps w' = sleeps w ->
            P (Throw (ThrownError (PlainErr msg)), w')) as Hthrow.
  { intros msg w' Hs. exists w'. split; [exact Hs|]. right. now exists msg. }
  assert (forall (w0 : World) (Q : unit -> World -> Prop) p m,
            sleeps w0 = sleeps w ->
            (forall w', sleeps w' = sleeps w -> Q tt w') ->
            returns (Utils.ensureDir p m) w0 Q) as Hdir.
  { intros w0 Q p m H0 HQ. apply returns_ensureDir.
    intros w' (_ & Hs & _). apply HQ. congruence. }
  change (P ((Utils.ensureDir (SetupModes.baseDir env) 448 ;;;
              w0 <-- get ;;
              (match fs w0 !! SetupModes.hostKeyEd env with
               | Some _ => ret tt
               | None =>
                   log LInfo (js "Generating ED25519 host key...") ;;;
                   Utils.run sys
                     (SetupModes.keygen (js "ed25519") (SetupModes.hostKeyEd env))
                     false
               end) ;;;
              w1 <-- get ;;
              (match fs w1 !! SetupModes.hostKeyRsa env with
               | Some _ => ret tt
               | None =>
                   log LInfo (js "Generating RSA host key...") ;;;
                   Utils.run sys
                     (SetupModes.keygen (js "rsa -b 2048")
                        (SetupModes.hostKeyRsa env)) false
               end) ;;;
              Utils.run sys
                (js "chmod 600 "
                 ++ Utils.quoted (show_path (SetupModes.hostKeyEd env)) ++ js " "
                 ++ Utils.quoted (show_path (SetupModes.hostKeyRsa env))) true ;;;
              Utils.run sys
                (js "chmod 644 "
                 ++ Utils.quoted (show_path (SetupModes.hostKeyEd env) ++ js ".pub")
                 ++ js " "
                 ++ Utils.quoted (show_path (SetupModes.hostKeyRsa env)
                                  ++ js ".pub")) true) w)).
  apply outcome_bind, Hdir; [reflexivity|]. intros w1 S1.
  apply outcome_bind, returns_get.
  assert (forall w2, sleeps w2 = sleeps w ->
            P ((Utils.run sys
                  (js "chmod 600 "
                   ++ Utils.quoted (show_path (SetupModes.hostKeyEd env))
                   ++ js " "
                   ++ Utils.quoted (show_path (SetupModes.hostKeyRsa env)))
                  true ;;;
                Utils.run sys
                  (js "chmod 644 "
                   ++ Utils.quoted (show_path (SetupModes.hostKeyEd env)
                                    ++ js ".pub")
                   ++ js " "
                   ++ Utils.quoted (show_path (SetupModes.hostKeyRsa env)
                                    ++ js ".pub")) true) w2)) as Hchmod.
  { intros w2 S2.
    apply outcome_bind, returns_run_ignored. intros w3 S3.
    destruct (run_ignored sys
                (js "chmod 644 "
                 ++ Utils.quoted (show_path (SetupModes.hostKeyEd env)
                                  ++ js ".pub")
                 ++ js " "
                 ++ Utils.quoted (show_path (SetupModes.hostKeyRsa env)
                                  ++ js ".pub")) w3)
      as (w4 & E4 & S4 & _).
    rewrite E4. exists w4. split; [congruence|now left]. }
  assert (forall w2, sleeps w2 = sleeps w ->
            P ((w1 <-- get ;;
                (match fs w1 !! SetupModes.hostKeyRsa env with
                 | Some _ => ret tt
                 | None =>
                     log LInfo (js "Generating RSA host key...") ;;;
                     Utils.run sys
                       (SetupModes.keygen (js "rsa -b 2048")
                          (SetupModes.hostKeyRsa env)) false
                 end) ;;;
                Utils.run sys
                  (js "chmod 600 "
                   ++ Utils.quoted (show_path (SetupModes.hostKeyEd env))
                   ++ js " "
                   ++ Utils.quoted (show_path (SetupModes.hostKeyRsa env)))
                  true ;;;
                Utils.run sys
                  (js "chmod 644 "
                   ++ Utils.quoted (show_path (SetupModes.hostKeyEd env)
                                    ++ js ".pub")
                   ++ js " "
                   ++ Utils.quoted (show_path (SetupModes.hostKeyRsa env)
                                    ++ js ".pub")) true) w2)) as Hrsa.
  { intros w2 S2. apply outcome_bind, returns_get.
    destruct (fs w2 !! SetupModes.hostKeyRsa env).
    - apply outcome_bind, returns_ret. now apply Hchmod.
    - rewrite bind_bind. apply outcome_bind, returns_log.
      apply outcome_run_strict.
      + intros w3 S3. apply Hchmod. cbn [sleeps add_log] in S3. congruence.
      + intros msg w3 S3. apply Hthrow. cbn [sleeps add_log] in S3.
        congruence. }
  destruct (fs w1 !! SetupModes.hostKeyEd env).
  - apply outcome_bind, returns_ret. now apply Hrsa.
  - rewrite bind_bind. apply outcome_bind, returns_log.
    apply outcome_run_strict.
    + intros w3 S3. apply Hrsa. cbn [sleeps add_log] in S3. congruence.
    + intros msg w3 S3. apply Hthrow. cbn [sleeps add_log] in S3. congruence.
Qed.

End UserModeOutcomes.

